(** * Touch slider: gesture-to-motion pipeline

  A shallow embedding of the three variants of the [TouchSlider] class of
  this repository:

  - [SliderJs]      embeds [src/slider.js]        (spring boundary policy),
  - [Part000]       embeds [src/unnamed/part_000] (pillow boundary policy),
  - [TouchSliderJs] embeds [src/TouchSlider.js]   (per-frame velocity,
                                                  forced adjacent slide).

  JavaScript numbers are read as real numbers: rounding of IEEE doubles is
  not modelled.  [Date.now()] is an argument [now] of every handler, one
  reading per invocation.  The frame callback handed to
  [requestAnimationFrame] is kept in the field [pending]; the host runs it
  through [frame].  DOM writes ([style.transform], class lists) and the
  last-slide visibility notifications, which read DOM rectangles and change
  neither the offset nor the animation, are left out of the handlers.  The
  notifications are embedded on their own in [SliderVisibility] and
  [TouchSliderVisibility], the subscription interface of [TouchSlider.js]
  in [TouchSliderApi]. *)

From Stdlib Require Import Reals Lra Lia List Bool Arith.
From Stdlib Require String.
Import ListNotations.
Import String.StringSyntax.
Delimit Scope string_scope with string.
Open Scope R_scope.

(** ** JavaScript numbers and [Math] *)

Module JS.

(** Relational operators on numbers, as booleans. *)
Definition ltb (a b : R) : bool := if Rlt_dec a b then true else false.
Definition leb (a b : R) : bool := if Rle_dec a b then true else false.
Definition gtb (a b : R) : bool := ltb b a.
Definition geb (a b : R) : bool := leb b a.
(** [a === b] on numbers. *)
Definition eqb (a b : R) : bool := if Req_dec_T a b then true else false.

Definition Math_abs (a : R) : R := Rabs a.
Definition Math_min (a b : R) : R := Rmin a b.
Definition Math_max (a b : R) : R := Rmax a b.

Definition Math_sign (a : R) : R :=
  if Rlt_dec 0 a then 1 else if Rlt_dec a 0 then -1 else 0.

(** [Math.pow(a, b)] for a base [a >= 0] and an exponent [b > 0]; the
    sources only raise a strictly positive overshoot to 0.7 or 0.75. *)
Definition Math_pow (a b : R) : R :=
  if Rlt_dec 0 a then Rpower a b else 0.

(** [Math.atan2(y, x)], in radians. *)
Definition Math_atan2 (y x : R) : R :=
  if Rlt_dec 0 x then atan (y / x)
  else if Rlt_dec x 0 then
         (if Rle_dec 0 y then atan (y / x) + PI else atan (y / x) - PI)
  else if Rlt_dec 0 y then PI / 2
  else if Rlt_dec y 0 then - (PI / 2)
  else 0.

Definition Math_PI : R := PI.

(** A number that may be [NaN]: the result of arithmetic on [undefined]. *)
Inductive num : Type :=
| Num (r : R)
| NaN.

(** [a - b] where [a] may be [undefined] ([None]). *)
Definition sub_undef (a : option R) (b : R) : num :=
  match a with
  | Some r => Num (r - b)
  | None => NaN
  end.

(** [a + d * e] where [d] may be [NaN]. *)
Definition add_scaled (a : R) (d : num) (e : R) : num :=
  match d with
  | Num r => Num (a + r * e)
  | NaN => NaN
  end.

End JS.

(** ** What the platform hands to the handlers *)

Module DOM.

Inductive EventType : Type := touchstart | touchmove | touchend | touchcancel.

(** A touch event: [e.type], [e.touches[0].clientX], [e.touches[0].clientY]
    and [e.cancelable]. *)
Record TouchEvent : Type := {
  type : EventType;
  clientX : R;
  clientY : R;
  cancelable : bool
}.

Definition is_touchcancel (e : TouchEvent) : bool :=
  match type e with
  | touchcancel => true
  | _ => false
  end.

(** How a call can fail: a [TypeError] thrown by the platform, or a [NaN]
    written as track offset (the number model has no [NaN] offset). *)
Inductive Failure : Type := TypeError | NaNOffset.

Inductive Result (A : Type) : Type :=
| Ok (a : A)
| Fails (f : Failure).
Arguments Ok {A} a.
Arguments Fails {A} f.

Definition bind {A B : Type} (r : Result A) (k : A -> Result B) : Result B :=
  match r with
  | Ok a => k a
  | Fails f => Fails f
  end.

End DOM.

Import DOM.

(** ** [src/slider.js] *)

Module SliderJs.
Import JS.

(** [this.options]; the caller's object is spread last, so every field can
    be overridden. *)
Record Options : Type := {
  freeMode : bool;
  friction : R;
  angleThreshold : R;
  speed : R;
  resistanceRatio : R;
  springK : R;
  springDamping : R
}.

Definition defaultOptions : Options := {|
  freeMode := false;
  friction := 0.95;
  angleThreshold := 65;
  speed := 300;
  resistanceRatio := 0.5;
  springK := 0.05;
  springDamping := 0.8
|}.

(** An entry [{x, time}] of [state.positions]. *)
Record Sample : Type := { sample_x : R; sample_time : R }.

(** What the code reads of a slide element. *)
Record Slide : Type := { offsetWidth : R; marginRight : R }.

(** The closure handed to [requestAnimationFrame]: [step] of
    [startInertia] with its captured [velocity], [current], [lastTime], or
    [loop] of [animateTo] with [start], [distance], [startTime],
    [duration] and the slide index its callback reports. *)
Inductive Animation : Type :=
| InertiaStep (velocity current lastTime : R)
| AnimateLoop (start : R) (distance : num) (startTime duration : R)
              (index : nat).

Inductive Event : Type :=
| sliderTouchStop
| sliderDragStart
| sliderMove
| sliderDragEnd
| sliderStop
| slideChange (index : nat).

(** [this.state]; [rafId] is kept as its truth value. *)
Record State : Type := {
  isDragging : bool;
  startTouchX : R;
  startTouchY : R;
  currentTranslate : R;
  startTranslate : R;
  startTime : R;
  isHorizontal : option bool;
  rafId : bool;
  velocity : R;
  positions : list Sample
}.

Record Slider : Type := {
  options : Options;
  state : State;
  slides : list Slide;
  slidesGrid : list R;
  wrapperWidth : R;
  containerWidth : R;
  maxTranslate : R;
  minTranslate : R;
  (** the frame callback requested and not yet run or cancelled: one
      slot, for the callback list of the browser, which holds at most one
      callback of the slider as long as [startInertia], the one caller
      that does not cancel first, is not called while a callback is
      queued *)
  pending : option Animation;
  (** events dispatched on the container, oldest first *)
  emitted : list Event
}.

Definition initialState : State := {|
  isDragging := false; startTouchX := 0; startTouchY := 0;
  currentTranslate := 0; startTranslate := 0; startTime := 0;
  isHorizontal := None; rafId := false; velocity := 0; positions := []
|}.

(** The fields set by the constructor before [init]. *)
Definition construct (o : Options) : Slider := {|
  options := o; state := initialState; slides := []; slidesGrid := [];
  wrapperWidth := 0; containerWidth := 0; maxTranslate := 0;
  minTranslate := 0; pending := None; emitted := []
|}.

(** *** Field updates *)

Definition set_isDragging (b : bool) (st : State) : State := {|
  isDragging := b; startTouchX := startTouchX st;
  startTouchY := startTouchY st; currentTranslate := currentTranslate st;
  startTranslate := startTranslate st; startTime := startTime st;
  isHorizontal := isHorizontal st; rafId := rafId st;
  velocity := velocity st; positions := positions st |}.

Definition set_isHorizontal (h : option bool) (st : State) : State := {|
  isDragging := isDragging st; startTouchX := startTouchX st;
  startTouchY := startTouchY st; currentTranslate := currentTranslate st;
  startTranslate := startTranslate st; startTime := startTime st;
  isHorizontal := h; rafId := rafId st;
  velocity := velocity st; positions := positions st |}.

Definition set_currentTranslate (t : R) (st : State) : State := {|
  isDragging := isDragging st; startTouchX := startTouchX st;
  startTouchY := startTouchY st; currentTranslate := t;
  startTranslate := startTranslate st; startTime := startTime st;
  isHorizontal := isHorizontal st; rafId := rafId st;
  velocity := velocity st; positions := positions st |}.

Definition set_rafId (b : bool) (st : State) : State := {|
  isDragging := isDragging st; startTouchX := startTouchX st;
  startTouchY := startTouchY st; currentTranslate := currentTranslate st;
  startTranslate := startTranslate st; startTime := startTime st;
  isHorizontal := isHorizontal st; rafId := b;
  velocity := velocity st; positions := positions st |}.

Definition set_velocity (v : R) (st : State) : State := {|
  isDragging := isDragging st; startTouchX := startTouchX st;
  startTouchY := startTouchY st; currentTranslate := currentTranslate st;
  startTranslate := startTranslate st; startTime := startTime st;
  isHorizontal := isHorizontal st; rafId := rafId st;
  velocity := v; positions := positions st |}.

Definition set_positions (ps : list Sample) (st : State) : State := {|
  isDragging := isDragging st; startTouchX := startTouchX st;
  startTouchY := startTouchY st; currentTranslate := currentTranslate st;
  startTranslate := startTranslate st; startTime := startTime st;
  isHorizontal := isHorizontal st; rafId := rafId st;
  velocity := velocity st; positions := ps |}.

Definition upd_state (f : State -> State) (s : Slider) : Slider := {|
  options := options s; state := f (state s); slides := slides s;
  slidesGrid := slidesGrid s; wrapperWidth := wrapperWidth s;
  containerWidth := containerWidth s; maxTranslate := maxTranslate s;
  minTranslate := minTranslate s; pending := pending s;
  emitted := emitted s |}.

Definition set_pending (a : option Animation) (s : Slider) : Slider := {|
  options := options s; state := state s; slides := slides s;
  slidesGrid := slidesGrid s; wrapperWidth := wrapperWidth s;
  containerWidth := containerWidth s; maxTranslate := maxTranslate s;
  minTranslate := minTranslate s; pending := a;
  emitted := emitted s |}.

Definition emit (ev : Event) (s : Slider) : Slider := {|
  options := options s; state := state s; slides := slides s;
  slidesGrid := slidesGrid s; wrapperWidth := wrapperWidth s;
  containerWidth := containerWidth s; maxTranslate := maxTranslate s;
  minTranslate := minTranslate s; pending := pending s;
  emitted := emitted s ++ [ev] |}.

(** *** Geometry *)

(** [window.getComputedStyle] throws a [TypeError] when its argument is
    not an element; [this.slides[-1]] is [undefined]. *)
Definition getMarginRight (element : option Slide) : Result R :=
  match element with
  | Some el => Ok (marginRight el)
  | None => Fails TypeError
  end.

(** The [forEach] of [updateDimensions], with its running [offset] and the
    grid pushed so far. *)
Fixpoint forEachSlide (cw : R) (sl : list Slide) (offset : R)
         (grid : list R) : R * list R :=
  match sl with
  | [] => (offset, grid)
  | slide :: rest =>
      let centerOffset := (cw - offsetWidth slide) / 2 in
      forEachSlide cw rest
        (offset + (offsetWidth slide + marginRight slide))
        (grid ++ [- offset + centerOffset])
  end.

(** [updateDimensions], given [container.offsetWidth] and
    [wrapper.children]. *)
Definition updateDimensions (cw : R) (children : list Slide) (s : Slider)
  : Result Slider :=
  let (offset, grid) := forEachSlide cw children 0 [] in
  bind (getMarginRight (nth_error children (length children - 1)))
    (fun m =>
       let bounds :=
         match grid with
         | [] => (0, 0)
         | g0 :: _ => (g0, nth (length grid - 1) grid 0)
         end in
       Ok {| options := options s; state := state s; slides := children;
             slidesGrid := grid; wrapperWidth := offset - m;
             containerWidth := cw; maxTranslate := snd bounds;
             minTranslate := fst bounds; pending := pending s;
             emitted := emitted s |}).

Definition setTranslate (translate : R) (s : Slider) : Slider :=
  upd_state (set_currentTranslate translate) s.

(** *** Velocity estimation *)

Definition trackVelocity (x now : R) (s : Slider) : Slider :=
  upd_state
    (fun st =>
       set_positions
         (filter (fun p => ltb (now - sample_time p) 100)
                 (positions st ++ [{| sample_x := x; sample_time := now |}]))
         st) s.

Definition noSample : Sample := {| sample_x := 0; sample_time := 0 |}.

Definition calculateVelocity (s : Slider) : R :=
  let ps := positions (state s) in
  if (length ps <? 2)%nat then 0
  else
    let first := nth 0 ps noSample in
    let last := nth (length ps - 1) ps noSample in
    let dt := sample_time last - sample_time first in
    if eqb dt 0 then 0
    else (sample_x last - sample_x first) / dt.

(** *** Animation *)

Definition stopTransition (s : Slider) : Slider :=
  if rafId (state s)
  then upd_state (set_rafId false) (set_pending None s)
  else s.

Definition requestAnimationFrame (a : Animation) (s : Slider) : Slider :=
  upd_state (set_rafId true) (set_pending (Some a) s).

(** [target] is [None] when it is [undefined]. *)
Definition animateTo (target : option R) (index : nat) (now : R)
           (s : Slider) : Slider :=
  let start := currentTranslate (state s) in
  let distance := sub_undef target start in
  let duration := speed (options s) in
  requestAnimationFrame (AnimateLoop start distance now duration index)
                        (stopTransition s).

(** One run of [loop]; easing is [easeOutQuad].  Over the reals the last
    frame writes [start + distance = target]; in binary64 [distance] and
    the sum are rounded.  The statements about the course of an animation
    assume a positive [duration]: at 0 JavaScript has [elapsed / duration]
    at [Infinity] or [NaN], which the number model does not have. *)
Definition loop (start : R) (distance : num) (startTime0 duration : R)
           (index : nat) (now : R) (s : Slider) : Result Slider :=
  if isDragging (state s) then Ok s
  else
    let elapsed := now - startTime0 in
    let progress := Math_min (elapsed / duration) 1 in
    let ease := progress * (2 - progress) in
    match add_scaled start distance ease with
    | NaN => Fails NaNOffset
    | Num newPos =>
        let s1 := setTranslate newPos s in
        if ltb progress 1
        then Ok (requestAnimationFrame
                   (AnimateLoop start distance startTime0 duration index) s1)
        else Ok (emit (slideChange index) (emit sliderStop s1))
    end.

(** The linear scan of [snapToNearest], from index [i] on. *)
Fixpoint scan (searchPos : R) (rest : list R) (i : nat)
         (minDiff closest : R) (closestIndex : nat) : R * nat :=
  match rest with
  | [] => (closest, closestIndex)
  | pos :: tl =>
      let diff := Math_abs (searchPos - pos) in
      if ltb diff minDiff
      then scan searchPos tl (S i) diff pos i
      else scan searchPos tl (S i) minDiff closest closestIndex
  end.

(** With an empty grid [closest] is [undefined], the loop body never runs
    and both clamping tests are false. *)
Definition snapToNearest (now : R) (s : Slider) : Slider :=
  match slidesGrid s with
  | [] => animateTo None 0 now s
  | g0 :: rest =>
      let cur := currentTranslate (state s) in
      let (closest, closestIndex) :=
        scan cur rest 1 (Math_abs (cur - g0)) g0 0 in
      let closest1 :=
        if gtb closest (minTranslate s) then minTranslate s else closest in
      let closest2 :=
        if ltb closest1 (maxTranslate s) then maxTranslate s else closest1 in
      animateTo (Some closest2) closestIndex now s
  end.

(** One run of [step], the physics loop of [startInertia]. *)
Definition step (velocity0 current lastTime now : R) (s : Slider)
  : Slider :=
  if isDragging (state s) then s
  else
    let dt := Math_min (now - lastTime) 60 in
    let o := options s in
    let above := gtb current (minTranslate s) in
    let below := ltb current (maxTranslate s) in
    let isOutOfBounds := above || below in
    let force :=
      if above then (minTranslate s - current) * springK o
      else if below then (maxTranslate s - current) * springK o
      else 0 in
    let continue (v : R) : Slider :=
      let current1 := current + v * dt in
      requestAnimationFrame (InertiaStep v current1 now)
                            (setTranslate current1 s) in
    if isOutOfBounds then
      let v := (velocity0 + force * (dt / 16)) * springDamping o in
      if ltb (Math_abs v) 0.01 && ltb (Math_abs force) 0.01 then
        let current1 :=
          if gtb current (minTranslate s) then minTranslate s
          else maxTranslate s in
        emit sliderStop (setTranslate current1 s)
      else continue v
    else
      let v := velocity0 * friction o in
      if ltb (Math_abs v) 0.01 then
        if freeMode o then emit sliderStop s
        else snapToNearest now s
      else continue v.

Definition startInertia (now : R) (s : Slider) : Slider :=
  requestAnimationFrame
    (InertiaStep (velocity (state s)) (currentTranslate (state s)) now) s.

(** The host runs the pending frame callback at time [now]. *)
Definition frame (now : R) (s : Slider) : Result Slider :=
  match pending s with
  | None => Ok s
  | Some a =>
      let s0 := set_pending None s in
      match a with
      | InertiaStep v c l => Ok (step v c l now s0)
      | AnimateLoop st d t0 dur i => loop st d t0 dur i now s0
      end
  end.

(** *** Touch handlers *)

Definition onTouchStart (e : TouchEvent) (now : R) (s : Slider) : Slider :=
  let s1 :=
    if rafId (state s) then emit sliderTouchStop (stopTransition s)
    else s in
  let st := state s1 in
  let s2 :=
    upd_state
      (fun _ => {|
         isDragging := true;
         startTouchX := clientX e;
         startTouchY := clientY e;
         currentTranslate := currentTranslate st;
         startTranslate := currentTranslate st;
         startTime := now;
         isHorizontal := None;
         rafId := rafId st;
         velocity := velocity st;
         positions := [] |}) s1 in
  emit sliderDragStart (trackVelocity (clientX e) now s2).

(** Resistance at the edges: the overscroll raised to 0.75. *)
Definition resist (translate : R) (s : Slider) : R :=
  if gtb translate (minTranslate s) then
    let overscroll := translate - minTranslate s in
    minTranslate s + Math_pow overscroll 0.75
  else if ltb translate (maxTranslate s) then
    let overscroll := maxTranslate s - translate in
    maxTranslate s - Math_pow overscroll 0.75
  else translate.

(** The block that locks the direction; [inl] is a [return] from the
    handler, [inr] falls through. *)
Definition lockDirection (deltaX deltaY : R) (s : Slider)
  : Slider + Slider :=
  match isHorizontal (state s) with
  | None =>
      let absX := Math_abs deltaX in
      let absY := Math_abs deltaY in
      if ltb absX 10 && ltb absY 10 then inl s
      else
        let angleRad := Math_atan2 absY absX in
        let angleDeg := angleRad * 180 / Math_PI in
        if ltb angleDeg (angleThreshold (options s))
        then inr (upd_state (set_isHorizontal (Some true)) s)
        else inl (upd_state
                    (fun st =>
                       set_isDragging false
                         (set_isHorizontal (Some false) st)) s)
  | Some _ => inr s
  end.

(** [e.preventDefault()], called when [e.cancelable], acts on the event
    only; the handler goes on in either case. *)
Definition onTouchMove (e : TouchEvent) (now : R) (s : Slider) : Slider :=
  if negb (isDragging (state s)) then s
  else
    let currentX := clientX e in
    let currentY := clientY e in
    let deltaX := currentX - startTouchX (state s) in
    let deltaY := currentY - startTouchY (state s) in
    match lockDirection deltaX deltaY s with
    | inl r => r
    | inr s1 =>
        match isHorizontal (state s1) with
        | Some true =>
            let translate := startTranslate (state s1) + deltaX in
            let translate1 := resist translate s1 in
            emit sliderMove
                 (trackVelocity currentX now (setTranslate translate1 s1))
        | _ => upd_state (set_isDragging false) s1
        end
    end.

Definition onTouchEnd (e : TouchEvent) (now : R) (s : Slider) : Slider :=
  if negb (isDragging (state s)) then s
  else
    match isHorizontal (state s) with
    | None => upd_state (set_isDragging false) s
    | Some false => upd_state (set_isDragging false) s
    | Some true =>
        let s1 := emit sliderDragEnd (upd_state (set_isDragging false) s) in
        if is_touchcancel e then snapToNearest now s1
        else
          let v := calculateVelocity s1 in
          let v1 := if ltb (Math_abs v) 0.05 then 0 else v in
          startInertia now (upd_state (set_velocity v1) s1)
    end.

(** *** Construction and resize *)

Definition init (cw : R) (children : list Slide) (s : Slider)
  : Result Slider :=
  bind (updateDimensions cw children s)
    (fun s1 =>
       Ok (match slidesGrid s1 with
           | g0 :: _ => setTranslate g0 s1
           | [] => setTranslate 0 s1
           end)).

Definition create (o : Options) (cw : R) (children : list Slide)
  : Result Slider :=
  init cw children (construct o).

Definition onResize (cw : R) (children : list Slide) (now : R)
           (s : Slider) : Result Slider :=
  bind (updateDimensions cw children s)
       (fun s1 => Ok (snapToNearest now s1)).

End SliderJs.

(** ** [src/unnamed/part_000] *)

Module Part000.
Import JS.

Record Options : Type := {
  freeMode : bool;
  centered : bool;
  friction : R;
  angleThreshold : R;
  speed : R;
  resistanceRatio : R;
  springK : R;
  springDamping : R
}.

Definition defaultOptions : Options := {|
  freeMode := false;
  centered := true;
  friction := 0.95;
  angleThreshold := 65;
  speed := 300;
  resistanceRatio := 0.5;
  springK := 0.03;
  springDamping := 0.95
|}.

Record Sample : Type := { sample_x : R; sample_time : R }.

(** What the code reads of a slide element: the [left] and [width] of its
    bounding rectangle and its computed right margin. *)
Record Slide : Type := { rect_left : R; rect_width : R; marginRight : R }.

(** What [updateDimensions] reads of the container and of the wrapper. *)
Record Layout : Type := {
  containerRect_left : R;
  containerRect_width : R;
  wrapperRect_left : R;
  children : list Slide
}.

Inductive Easing : Type := easeOutQuad | easeOutQuart.

Definition ease_of (f : Easing) (t : R) : R :=
  match f with
  | easeOutQuad => t * (2 - t)
  | easeOutQuart => 1 - JS.Math_pow (1 - t) 4
  end.

(** [step] of [startInertia], or [loop] of [animateTo]; [callback] is the
    slide index reported by the [slideChange] callback, if there is one. *)
Inductive Animation : Type :=
| InertiaStep (velocity current lastTime : R)
| AnimateLoop (start : R) (distance : num) (startTime duration : R)
              (easing : Easing) (callback : option nat).

Inductive Event : Type :=
| sliderTouchStop
| sliderDragStart
| sliderMove
| sliderDragEnd
| sliderStop
| slideChange (index : nat).

Record State : Type := {
  isDragging : bool;
  startTouchX : R;
  startTouchY : R;
  currentTranslate : R;
  startTranslate : R;
  startTime : R;
  isHorizontal : option bool;
  rafId : bool;
  velocity : R;
  positions : list Sample
}.

Record Slider : Type := {
  options : Options;
  state : State;
  slides : list Slide;
  slidesGrid : list R;
  wrapperWidth : R;
  containerWidth : R;
  maxTranslate : R;
  minTranslate : R;
  (** the frame callback requested and not yet run or cancelled, one slot
      as in [SliderJs] *)
  pending : option Animation;
  emitted : list Event
}.

Definition initialState : State := {|
  isDragging := false; startTouchX := 0; startTouchY := 0;
  currentTranslate := 0; startTranslate := 0; startTime := 0;
  isHorizontal := None; rafId := false; velocity := 0; positions := []
|}.

Definition construct (o : Options) : Slider := {|
  options := o; state := initialState; slides := []; slidesGrid := [];
  wrapperWidth := 0; containerWidth := 0; maxTranslate := 0;
  minTranslate := 0; pending := None; emitted := []
|}.

(** *** Field updates *)

Definition set_isDragging (b : bool) (st : State) : State := {|
  isDragging := b; startTouchX := startTouchX st;
  startTouchY := startTouchY st; currentTranslate := currentTranslate st;
  startTranslate := startTranslate st; startTime := startTime st;
  isHorizontal := isHorizontal st; rafId := rafId st;
  velocity := velocity st; positions := positions st |}.

Definition set_isHorizontal (h : option bool) (st : State) : State := {|
  isDragging := isDragging st; startTouchX := startTouchX st;
  startTouchY := startTouchY st; currentTranslate := currentTranslate st;
  startTranslate := startTranslate st; startTime := startTime st;
  isHorizontal := h; rafId := rafId st;
  velocity := velocity st; positions := positions st |}.

Definition set_currentTranslate (t : R) (st : State) : State := {|
  isDragging := isDragging st; startTouchX := startTouchX st;
  startTouchY := startTouchY st; currentTranslate := t;
  startTranslate := startTranslate st; startTime := startTime st;
  isHorizontal := isHorizontal st; rafId := rafId st;
  velocity := velocity st; positions := positions st |}.

Definition set_rafId (b : bool) (st : State) : State := {|
  isDragging := isDragging st; startTouchX := startTouchX st;
  startTouchY := startTouchY st; currentTranslate := currentTranslate st;
  startTranslate := startTranslate st; startTime := startTime st;
  isHorizontal := isHorizontal st; rafId := b;
  velocity := velocity st; positions := positions st |}.

Definition set_velocity (v : R) (st : State) : State := {|
  isDragging := isDragging st; startTouchX := startTouchX st;
  startTouchY := startTouchY st; currentTranslate := currentTranslate st;
  startTranslate := startTranslate st; startTime := startTime st;
  isHorizontal := isHorizontal st; rafId := rafId st;
  velocity := v; positions := positions st |}.

Definition set_positions (ps : list Sample) (st : State) : State := {|
  isDragging := isDragging st; startTouchX := startTouchX st;
  startTouchY := startTouchY st; currentTranslate := currentTranslate st;
  startTranslate := startTranslate st; startTime := startTime st;
  isHorizontal := isHorizontal st; rafId := rafId st;
  velocity := velocity st; positions := ps |}.

Definition upd_state (f : State -> State) (s : Slider) : Slider := {|
  options := options s; state := f (state s); slides := slides s;
  slidesGrid := slidesGrid s; wrapperWidth := wrapperWidth s;
  containerWidth := containerWidth s; maxTranslate := maxTranslate s;
  minTranslate := minTranslate s; pending := pending s;
  emitted := emitted s |}.

Definition set_pending (a : option Animation) (s : Slider) : Slider := {|
  options := options s; state := state s; slides := slides s;
  slidesGrid := slidesGrid s; wrapperWidth := wrapperWidth s;
  containerWidth := containerWidth s; maxTranslate := maxTranslate s;
  minTranslate := minTranslate s; pending := a;
  emitted := emitted s |}.

Definition emit (ev : Event) (s : Slider) : Slider := {|
  options := options s; state := state s; slides := slides s;
  slidesGrid := slidesGrid s; wrapperWidth := wrapperWidth s;
  containerWidth := containerWidth s; maxTranslate := maxTranslate s;
  minTranslate := minTranslate s; pending := pending s;
  emitted := emitted s ++ [ev] |}.

(** *** Geometry *)

(** The grid entry pushed for one slide. *)
Definition gridEntry (isCentered : bool) (cw wrapperLeft wrapperOffset : R)
           (slide : Slide) : R :=
  let slideWidth := rect_width slide in
  let slideLeft := rect_left slide - wrapperLeft in
  if isCentered then
    let targetPos := (cw - slideWidth) / 2 in
    targetPos - slideLeft - wrapperOffset
  else - slideLeft.

Definition noSlide : Slide :=
  {| rect_left := 0; rect_width := 0; marginRight := 0 |}.

(** [updateDimensions]: with no slide it returns after emptying the grid,
    leaving [wrapperWidth] and the bounds as they were. *)
Definition updateDimensions (l : Layout) (s : Slider) : Slider :=
  let cw := containerRect_width l in
  let wrapperOffset :=
    (wrapperRect_left l - containerRect_left l)
    - currentTranslate (state s) in
  let sl := children l in
  match sl with
  | [] =>
      {| options := options s; state := state s; slides := [];
         slidesGrid := []; wrapperWidth := wrapperWidth s;
         containerWidth := cw; maxTranslate := maxTranslate s;
         minTranslate := minTranslate s; pending := pending s;
         emitted := emitted s |}
  | _ :: _ =>
      let grid :=
        map (gridEntry (centered (options s)) cw (wrapperRect_left l)
                       wrapperOffset) sl in
      let lastSlide := nth (length sl - 1) sl noSlide in
      let lastSlideLeft := rect_left lastSlide - wrapperRect_left l in
      let lastSlideMargin := marginRight lastSlide in
      let ww := lastSlideLeft + rect_width lastSlide + lastSlideMargin in
      let minT := nth 0 grid 0 in
      let maxT :=
        if centered (options s) then nth (length grid - 1) grid 0
        else
          let maxScroll := cw - ww - wrapperOffset in
          Math_min minT maxScroll in
      {| options := options s; state := state s; slides := sl;
         slidesGrid := grid; wrapperWidth := ww;
         containerWidth := cw; maxTranslate := maxT;
         minTranslate := minT; pending := pending s;
         emitted := emitted s |}
  end.

Definition setTranslate (translate : R) (s : Slider) : Slider :=
  upd_state (set_currentTranslate translate) s.

(** *** Velocity estimation *)

Definition trackVelocity (x now : R) (s : Slider) : Slider :=
  upd_state
    (fun st =>
       set_positions
         (filter (fun p => ltb (now - sample_time p) 100)
                 (positions st ++ [{| sample_x := x; sample_time := now |}]))
         st) s.

Definition noSample : Sample := {| sample_x := 0; sample_time := 0 |}.

Definition calculateVelocity (s : Slider) : R :=
  let ps := positions (state s) in
  if (length ps <? 2)%nat then 0
  else
    let first := nth 0 ps noSample in
    let last := nth (length ps - 1) ps noSample in
    let dt := sample_time last - sample_time first in
    if eqb dt 0 then 0
    else (sample_x last - sample_x first) / dt.

(** *** Animation *)

Definition stopTransition (s : Slider) : Slider :=
  if rafId (state s)
  then upd_state (set_rafId false) (set_pending None s)
  else s.

Definition requestAnimationFrame (a : Animation) (s : Slider) : Slider :=
  upd_state (set_rafId true) (set_pending (Some a) s).

(** [animateTo(target, {duration, easing, callback})]; [target] is [None]
    when it is [undefined].  Both callers pass a non-zero [duration]. *)
Definition animateTo (target : option R) (duration : R) (easing : Easing)
           (callback : option nat) (now : R) (s : Slider) : Slider :=
  let start := currentTranslate (state s) in
  let distance := sub_undef target start in
  requestAnimationFrame
    (AnimateLoop start distance now duration easing callback)
    (stopTransition s).

Definition runCallback (callback : option nat) (s : Slider) : Slider :=
  match callback with
  | Some index => emit (slideChange index) s
  | None => s
  end.

(** One run of [loop]; the last frame writes [start + distance], as in
    [SliderJs]. *)
Definition loop (start : R) (distance : num) (startTime0 duration : R)
           (easing : Easing) (callback : option nat) (now : R) (s : Slider)
  : Result Slider :=
  if isDragging (state s) then Ok s
  else
    let elapsed := now - startTime0 in
    let progress := Math_min (elapsed / duration) 1 in
    let ease := ease_of easing progress in
    match add_scaled start distance ease with
    | NaN => Fails NaNOffset
    | Num newPos =>
        let s1 := setTranslate newPos s in
        if ltb progress 1
        then Ok (requestAnimationFrame
                   (AnimateLoop start distance startTime0 duration easing
                                callback) s1)
        else Ok (runCallback callback (emit sliderStop s1))
    end.

Fixpoint scan (searchPos : R) (rest : list R) (i : nat)
         (minDiff closest : R) (closestIndex : nat) : R * nat :=
  match rest with
  | [] => (closest, closestIndex)
  | pos :: tl =>
      let diff := Math_abs (searchPos - pos) in
      if ltb diff minDiff
      then scan searchPos tl (S i) diff pos i
      else scan searchPos tl (S i) minDiff closest closestIndex
  end.

(** The slide index and the clamped offset that [snapToNearest] passes on,
    for a non-empty grid [g0 :: rest]. *)
Definition nearest (searchPos g0 : R) (rest : list R) (s : Slider)
  : nat * R :=
  let (closest, closestIndex) :=
    scan searchPos rest 1 (Math_abs (searchPos - g0)) g0 0 in
  let closest1 :=
    if gtb closest (minTranslate s) then minTranslate s else closest in
  let closest2 :=
    if ltb closest1 (maxTranslate s) then maxTranslate s else closest1 in
  (closestIndex, closest2).

(** [snapToNearest(targetPosition = null)].  With an empty grid [closest]
    is [undefined], the loop body never runs and both clamping tests are
    false. *)
Definition snapToNearest (targetPosition : option R) (now : R) (s : Slider)
  : Slider :=
  let searchPos :=
    match targetPosition with
    | Some p => p
    | None => currentTranslate (state s)
    end in
  match slidesGrid s with
  | [] => animateTo None 500 easeOutQuart (Some 0%nat) now s
  | g0 :: rest =>
      let (closestIndex, closest) := nearest searchPos g0 rest s in
      animateTo (Some closest) 500 easeOutQuart (Some closestIndex) now s
  end.

Definition snapToBounds (now : R) (s : Slider) : Slider :=
  let target := currentTranslate (state s) in
  if gtb target (minTranslate s)
  then animateTo (Some (minTranslate s)) 700 easeOutQuart None now s
  else if ltb target (maxTranslate s)
  then animateTo (Some (maxTranslate s)) 700 easeOutQuart None now s
  else s.

(** One run of [step], the physics loop of [startInertia]. *)
Definition step (velocity0 current lastTime now : R) (s : Slider)
  : Slider :=
  if isDragging (state s) then s
  else
    let dt := Math_min (now - lastTime) 60 in
    let o := options s in
    let isOutOfBounds :=
      gtb current (minTranslate s) || ltb current (maxTranslate s) in
    let continue (v : R) : Slider :=
      let current1 := current + v * dt in
      requestAnimationFrame (InertiaStep v current1 now)
                            (setTranslate current1 s) in
    if isOutOfBounds then
      let v := velocity0 * 0.6 in
      if ltb (Math_abs v) 0.1 then snapToBounds now s
      else continue v
    else
      let v := velocity0 * friction o in
      if ltb (Math_abs v) 0.01 then
        if freeMode o then emit sliderStop s
        else snapToNearest None now s
      else continue v.

Definition startInertia (now : R) (s : Slider) : Slider :=
  requestAnimationFrame
    (InertiaStep (velocity (state s)) (currentTranslate (state s)) now) s.

Definition frame (now : R) (s : Slider) : Result Slider :=
  match pending s with
  | None => Ok s
  | Some a =>
      let s0 := set_pending None s in
      match a with
      | InertiaStep v c l => Ok (step v c l now s0)
      | AnimateLoop st d t0 dur f cb => loop st d t0 dur f cb now s0
      end
  end.

(** *** Touch handlers *)

Definition onTouchStart (e : TouchEvent) (now : R) (s : Slider) : Slider :=
  let s1 :=
    if rafId (state s) then emit sliderTouchStop (stopTransition s)
    else s in
  let st := state s1 in
  let s2 :=
    upd_state
      (fun _ => {|
         isDragging := true;
         startTouchX := clientX e;
         startTouchY := clientY e;
         currentTranslate := currentTranslate st;
         startTranslate := currentTranslate st;
         startTime := now;
         isHorizontal := None;
         rafId := rafId st;
         velocity := velocity st;
         positions := [] |}) s1 in
  emit sliderDragStart (trackVelocity (clientX e) now s2).

(** Resistance at the edges: a quarter of the overscroll. *)
Definition resist (translate : R) (s : Slider) : R :=
  if gtb translate (minTranslate s) then
    let overscroll := translate - minTranslate s in
    minTranslate s + overscroll * 0.25
  else if ltb translate (maxTranslate s) then
    let overscroll := maxTranslate s - translate in
    maxTranslate s - overscroll * 0.25
  else translate.

Definition lockDirection (deltaX deltaY : R) (s : Slider)
  : Slider + Slider :=
  match isHorizontal (state s) with
  | None =>
      let absX := Math_abs deltaX in
      let absY := Math_abs deltaY in
      if ltb absX 5 && ltb absY 5 then inl s
      else
        let angleRad := Math_atan2 absY absX in
        let angleDeg := angleRad * 180 / Math_PI in
        if ltb angleDeg (angleThreshold (options s))
        then inr (upd_state (set_isHorizontal (Some true)) s)
        else inl (upd_state
                    (fun st =>
                       set_isDragging false
                         (set_isHorizontal (Some false) st)) s)
  | Some _ => inr s
  end.

(** In a horizontal session an event that is not cancelable makes the
    handler return before any offset is computed. *)
Definition onTouchMove (e : TouchEvent) (now : R) (s : Slider) : Slider :=
  if negb (isDragging (state s)) then s
  else
    let currentX := clientX e in
    let currentY := clientY e in
    let deltaX := currentX - startTouchX (state s) in
    let deltaY := currentY - startTouchY (state s) in
    match lockDirection deltaX deltaY s with
    | inl r => r
    | inr s1 =>
        match isHorizontal (state s1) with
        | Some true =>
            if cancelable e then
              let translate := startTranslate (state s1) + deltaX in
              let translate1 := resist translate s1 in
              emit sliderMove
                   (trackVelocity currentX now (setTranslate translate1 s1))
            else s1
        | _ => upd_state (set_isDragging false) s1
        end
    end.

Definition onTouchEnd (e : TouchEvent) (now : R) (s : Slider) : Slider :=
  if negb (isDragging (state s)) then s
  else
    match isHorizontal (state s) with
    | None => upd_state (set_isDragging false) s
    | Some false => upd_state (set_isDragging false) s
    | Some true =>
        let s1 := emit sliderDragEnd (upd_state (set_isDragging false) s) in
        if is_touchcancel e then snapToNearest None now s1
        else
          let v := calculateVelocity s1 in
          let v1 := if ltb (Math_abs v) 0.05 then 0 else v in
          let s2 := upd_state (set_velocity v1) s1 in
          let cur := currentTranslate (state s2) in
          if (gtb cur (minTranslate s2) || ltb cur (maxTranslate s2))
             && ltb (Math_abs (velocity (state s2))) 0.1
          then snapToBounds now s2
          else if negb (freeMode (options s2))
                  && (leb cur (minTranslate s2) && geb cur (maxTranslate s2))
          then
            let projection := cur + velocity (state s2) * 200 in
            snapToNearest (Some projection) now s2
          else startInertia now s2
    end.

(** *** Construction and resize *)

Definition init (l : Layout) (s : Slider) : Slider :=
  let s1 := updateDimensions l s in
  match slidesGrid s1 with
  | g0 :: _ => setTranslate g0 s1
  | [] => setTranslate 0 s1
  end.

Definition create (o : Options) (l : Layout) : Slider :=
  init l (construct o).

Definition onResize (l : Layout) (now : R) (s : Slider) : Slider :=
  snapToNearest None now (updateDimensions l s).

End Part000.

(** ** [src/TouchSlider.js] *)

Module TouchSliderJs.
Import JS.

Inductive SnapAlign : Type := center | start.

Record Options : Type := {
  friction : R;
  bounce : R;
  rubberBandEffect : R;
  velocityThreshold : R;
  freeMode : bool;
  snapAlign : SnapAlign;
  snapSpeed : R;
  velocityMultiplier : R
}.

Definition defaultOptions : Options := {|
  friction := 0.94;
  bounce := 0.12;
  rubberBandEffect := 0.2;
  velocityThreshold := 0.1;
  freeMode := false;
  snapAlign := center;
  snapSpeed := 0.15;
  velocityMultiplier := 1.2
|}.

(** An entry [{x, time}] of [touch.history]. *)
Record Point : Type := { point_x : R; point_time : R }.

Record Slide : Type := { offsetWidth : R }.

Inductive Event : Type :=
| manualStop
| sliderDragStart
| sliderDragEnd
| sliderMove
| sliderStop
| sliderSnapStart (slideIndex : nat)
| sliderSnapComplete (slideIndex : nat)
| slideChange (slideIndex previousIndex : nat).

(** [this.state], without the two last-slide visibility flags. *)
Record State : Type := {
  currentX : R;
  targetX : R;
  isDragging : bool;
  sliderWidth : R;
  trackWidth : R;
  isSnapping : bool;
  snapTargetX : R;
  currentSlideIndex : nat;
  previousSlideIndex : nat;
  previousX : R
}.

(** [this.touch]. *)
Record Touch : Type := {
  startX : R;
  startY : R;
  touch_currentX : R;
  touch_currentY : R;
  startTime : R;
  startPositionX : R;
  isTouching : bool;
  isDirectionDetermined : bool;
  isHorizontalSwipe : bool;
  velocityX : R;
  history : list Point
}.

(** [this.animation]; [rafId] is kept as its truth value. *)
Record Anim : Type := { rafId : bool; isAnimating : bool }.

Record Slider : Type := {
  options : Options;
  state : State;
  touch : Touch;
  animation : Anim;
  slides : list Slide;
  (** [animate] has been requested for the next frame *)
  pending : bool;
  emitted : list Event
}.

Definition initialState : State := {|
  currentX := 0; targetX := 0; isDragging := false; sliderWidth := 0;
  trackWidth := 0; isSnapping := false; snapTargetX := 0;
  currentSlideIndex := 0; previousSlideIndex := 0; previousX := 0 |}.

Definition initialTouch : Touch := {|
  startX := 0; startY := 0; touch_currentX := 0; touch_currentY := 0;
  startTime := 0; startPositionX := 0; isTouching := false;
  isDirectionDetermined := false; isHorizontalSwipe := false;
  velocityX := 0; history := [] |}.

Definition construct (o : Options) (sl : list Slide) : Slider := {|
  options := o; state := initialState; touch := initialTouch;
  animation := {| rafId := false; isAnimating := false |};
  slides := sl; pending := false; emitted := [] |}.

(** *** Field updates *)

Definition upd_state (f : State -> State) (s : Slider) : Slider := {|
  options := options s; state := f (state s); touch := touch s;
  animation := animation s; slides := slides s; pending := pending s;
  emitted := emitted s |}.

Definition upd_touch (f : Touch -> Touch) (s : Slider) : Slider := {|
  options := options s; state := state s; touch := f (touch s);
  animation := animation s; slides := slides s; pending := pending s;
  emitted := emitted s |}.

Definition set_animation (a : Anim) (p : bool) (s : Slider) : Slider := {|
  options := options s; state := state s; touch := touch s;
  animation := a; slides := slides s; pending := p;
  emitted := emitted s |}.

Definition dispatchEvent (ev : Event) (s : Slider) : Slider := {|
  options := options s; state := state s; touch := touch s;
  animation := animation s; slides := slides s; pending := pending s;
  emitted := emitted s ++ [ev] |}.

Definition set_currentX (x : R) (st : State) : State := {|
  currentX := x; targetX := targetX st; isDragging := isDragging st;
  sliderWidth := sliderWidth st; trackWidth := trackWidth st;
  isSnapping := isSnapping st; snapTargetX := snapTargetX st;
  currentSlideIndex := currentSlideIndex st;
  previousSlideIndex := previousSlideIndex st; previousX := previousX st |}.

Definition set_targetX (x : R) (st : State) : State := {|
  currentX := currentX st; targetX := x; isDragging := isDragging st;
  sliderWidth := sliderWidth st; trackWidth := trackWidth st;
  isSnapping := isSnapping st; snapTargetX := snapTargetX st;
  currentSlideIndex := currentSlideIndex st;
  previousSlideIndex := previousSlideIndex st; previousX := previousX st |}.

Definition set_isDragging (b : bool) (st : State) : State := {|
  currentX := currentX st; targetX := targetX st; isDragging := b;
  sliderWidth := sliderWidth st; trackWidth := trackWidth st;
  isSnapping := isSnapping st; snapTargetX := snapTargetX st;
  currentSlideIndex := currentSlideIndex st;
  previousSlideIndex := previousSlideIndex st; previousX := previousX st |}.

Definition set_dimensions (sw tw : R) (st : State) : State := {|
  currentX := currentX st; targetX := targetX st;
  isDragging := isDragging st; sliderWidth := sw; trackWidth := tw;
  isSnapping := isSnapping st; snapTargetX := snapTargetX st;
  currentSlideIndex := currentSlideIndex st;
  previousSlideIndex := previousSlideIndex st; previousX := previousX st |}.

Definition set_isSnapping (b : bool) (st : State) : State := {|
  currentX := currentX st; targetX := targetX st;
  isDragging := isDragging st; sliderWidth := sliderWidth st;
  trackWidth := trackWidth st; isSnapping := b;
  snapTargetX := snapTargetX st;
  currentSlideIndex := currentSlideIndex st;
  previousSlideIndex := previousSlideIndex st; previousX := previousX st |}.

Definition set_snapTargetX (x : R) (st : State) : State := {|
  currentX := currentX st; targetX := targetX st;
  isDragging := isDragging st; sliderWidth := sliderWidth st;
  trackWidth := trackWidth st; isSnapping := isSnapping st;
  snapTargetX := x;
  currentSlideIndex := currentSlideIndex st;
  previousSlideIndex := previousSlideIndex st; previousX := previousX st |}.

Definition set_slideIndex (cur prev : nat) (st : State) : State := {|
  currentX := currentX st; targetX := targetX st;
  isDragging := isDragging st; sliderWidth := sliderWidth st;
  trackWidth := trackWidth st; isSnapping := isSnapping st;
  snapTargetX := snapTargetX st;
  currentSlideIndex := cur;
  previousSlideIndex := prev; previousX := previousX st |}.

Definition set_previousX (x : R) (st : State) : State := {|
  currentX := currentX st; targetX := targetX st;
  isDragging := isDragging st; sliderWidth := sliderWidth st;
  trackWidth := trackWidth st; isSnapping := isSnapping st;
  snapTargetX := snapTargetX st;
  currentSlideIndex := currentSlideIndex st;
  previousSlideIndex := previousSlideIndex st; previousX := x |}.

Definition set_touch_current (x y : R) (t : Touch) : Touch := {|
  startX := startX t; startY := startY t; touch_currentX := x;
  touch_currentY := y; startTime := startTime t;
  startPositionX := startPositionX t; isTouching := isTouching t;
  isDirectionDetermined := isDirectionDetermined t;
  isHorizontalSwipe := isHorizontalSwipe t; velocityX := velocityX t;
  history := history t |}.

Definition set_direction (determined horizontal : bool) (t : Touch)
  : Touch := {|
  startX := startX t; startY := startY t;
  touch_currentX := touch_currentX t; touch_currentY := touch_currentY t;
  startTime := startTime t; startPositionX := startPositionX t;
  isTouching := isTouching t; isDirectionDetermined := determined;
  isHorizontalSwipe := horizontal; velocityX := velocityX t;
  history := history t |}.

Definition set_startPositionX (x : R) (t : Touch) : Touch := {|
  startX := startX t; startY := startY t;
  touch_currentX := touch_currentX t; touch_currentY := touch_currentY t;
  startTime := startTime t; startPositionX := x;
  isTouching := isTouching t;
  isDirectionDetermined := isDirectionDetermined t;
  isHorizontalSwipe := isHorizontalSwipe t; velocityX := velocityX t;
  history := history t |}.

Definition set_isTouching (b : bool) (t : Touch) : Touch := {|
  startX := startX t; startY := startY t;
  touch_currentX := touch_currentX t; touch_currentY := touch_currentY t;
  startTime := startTime t; startPositionX := startPositionX t;
  isTouching := b;
  isDirectionDetermined := isDirectionDetermined t;
  isHorizontalSwipe := isHorizontalSwipe t; velocityX := velocityX t;
  history := history t |}.

Definition set_velocityX (v : R) (t : Touch) : Touch := {|
  startX := startX t; startY := startY t;
  touch_currentX := touch_currentX t; touch_currentY := touch_currentY t;
  startTime := startTime t; startPositionX := startPositionX t;
  isTouching := isTouching t;
  isDirectionDetermined := isDirectionDetermined t;
  isHorizontalSwipe := isHorizontalSwipe t; velocityX := v;
  history := history t |}.

Definition set_history (h : list Point) (t : Touch) : Touch := {|
  startX := startX t; startY := startY t;
  touch_currentX := touch_currentX t; touch_currentY := touch_currentY t;
  startTime := startTime t; startPositionX := startPositionX t;
  isTouching := isTouching t;
  isDirectionDetermined := isDirectionDetermined t;
  isHorizontalSwipe := isHorizontalSwipe t; velocityX := velocityX t;
  history := h |}.

(** *** Geometry and bounds *)

(** [calculateDimensions], given [slider.offsetWidth]. *)
Definition calculateDimensions (sliderOffsetWidth : R) (s : Slider)
  : Slider :=
  upd_state
    (set_dimensions sliderOffsetWidth
       (fold_left (fun tw slide => tw + offsetWidth slide) (slides s) 0)) s.

Definition setTrackPosition (x : R) (s : Slider) : Slider :=
  upd_state (fun st => set_targetX x (set_currentX x st)) s.

(** [{min, max}] of [getBounds]. *)
Record Bounds : Type := { bounds_min : R; bounds_max : R }.

Definition getBounds (s : Slider) : Bounds :=
  let max := 0 in
  let min := - (trackWidth (state s) - sliderWidth (state s)) in
  {| bounds_min := min; bounds_max := max |}.

Definition isOutOfBounds (position : R) (s : Slider) : bool :=
  let bounds := getBounds s in
  gtb position (bounds_max bounds) || ltb position (bounds_min bounds).

Definition applyRubberBand (position delta : R) (s : Slider) : R :=
  let bounds := getBounds s in
  if geb position (bounds_min bounds) && leb position (bounds_max bounds)
  then position
  else
    let resistance := 0.5 in
    if gtb position (bounds_max bounds) then
      let overshoot := position - bounds_max bounds in
      let dampedOvershoot :=
        Math_sign overshoot * Math_pow (Math_abs overshoot) 0.7
        * resistance in
      bounds_max bounds + dampedOvershoot
    else if ltb position (bounds_min bounds) then
      let overshoot := bounds_min bounds - position in
      let dampedOvershoot :=
        Math_sign overshoot * Math_pow (Math_abs overshoot) 0.7
        * resistance in
      bounds_min bounds - dampedOvershoot
    else position.

Definition clamp (value min max : R) : R :=
  Math_min (Math_max value min) max.

(** An entry of [getSlidePositions]. *)
Record SlidePosition : Type := {
  sp_index : nat;
  sp_position : R;
  sp_width : R;
  sp_offset : R
}.

(** The [forEach] of [getSlidePositions], from slide [index] on, with its
    running [accumulatedOffset]. *)
Fixpoint slidePositionsFrom (align : SnapAlign) (sw : R) (sl : list Slide)
         (index : nat) (accumulatedOffset : R) : list SlidePosition :=
  match sl with
  | [] => []
  | slide :: rest =>
      let slideWidth := offsetWidth slide in
      let position :=
        match align with
        | center =>
            let slideCenter := accumulatedOffset + slideWidth / 2 in
            let containerCenter := sw / 2 in
            - (slideCenter - containerCenter)
        | start => - accumulatedOffset
        end in
      {| sp_index := index; sp_position := position;
         sp_width := slideWidth; sp_offset := accumulatedOffset |}
        :: slidePositionsFrom align sw rest (S index)
             (accumulatedOffset + slideWidth)
  end.

Definition getSlidePositions (s : Slider) : list SlidePosition :=
  slidePositionsFrom (snapAlign (options s)) (sliderWidth (state s))
                     (slides s) 0 0.

(** The [forEach] of [findNearestSlide]. *)
Fixpoint scanNearest (projectedPosition : R) (l : list SlidePosition)
         (minDistance : R) (nearestSlide : SlidePosition) : SlidePosition :=
  match l with
  | [] => nearestSlide
  | slide :: rest =>
      let distance := Math_abs (projectedPosition - sp_position slide) in
      if ltb distance minDistance
      then scanNearest projectedPosition rest distance slide
      else scanNearest projectedPosition rest minDistance nearestSlide
  end.

(** [{index, position}] returned by [findNearestSlide]. *)
Definition findNearestSlide (currentPosition velocity : R) (s : Slider)
  : nat * R :=
  let slidePositions := getSlidePositions s in
  match slidePositions with
  | [] => (0%nat, 0)
  | first :: _ =>
      let velocityOffset :=
        velocity * velocityMultiplier (options s) * 100 in
      let projectedPosition := currentPosition + velocityOffset in
      let nearestSlide :=
        scanNearest projectedPosition slidePositions
          (Math_abs (projectedPosition - sp_position first)) first in
      let currentSlideIndex0 := currentSlideIndex (state s) in
      let velocityThreshold0 := 0.5 in
      let nearestSlide1 :=
        if gtb (Math_abs velocity) velocityThreshold0 then
          if ltb velocity 0 then
            let nextIndex :=
              Nat.min (currentSlideIndex0 + 1) (length slidePositions - 1) in
            if (currentSlideIndex0 <? nextIndex)%nat
            then nth nextIndex slidePositions nearestSlide
            else nearestSlide
          else if gtb velocity 0 then
            let prevIndex := Nat.max (currentSlideIndex0 - 1) 0 in
            if (prevIndex <? currentSlideIndex0)%nat
            then nth prevIndex slidePositions nearestSlide
            else nearestSlide
          else nearestSlide
        else nearestSlide in
      let bounds := getBounds s in
      let clampedPosition :=
        clamp (sp_position nearestSlide1) (bounds_min bounds)
              (bounds_max bounds) in
      (sp_index nearestSlide1, clampedPosition)
  end.

(** *** Velocity estimation *)

Definition noPoint : Point := {| point_x := 0; point_time := 0 |}.

Definition calculateVelocity (now : R) (s : Slider) : R :=
  let timeWindow := 100 in
  let recentHistory :=
    filter (fun point => leb (now - point_time point) timeWindow)
           (history (touch s)) in
  if (length recentHistory <? 2)%nat then 0
  else
    let firstPoint := nth 0 recentHistory noPoint in
    let lastPoint := nth (length recentHistory - 1) recentHistory noPoint in
    let deltaX := point_x lastPoint - point_x firstPoint in
    let deltaTime := point_time lastPoint - point_time firstPoint in
    if eqb deltaTime 0 then 0
    else deltaX / deltaTime.

(** *** The frame loop *)

Definition requestAnimationFrame (s : Slider) : Slider :=
  set_animation {| rafId := true; isAnimating := isAnimating (animation s) |}
                true s.

(** [sliderMove] is dispatched when the position has changed. *)
Definition notifyMove (s : Slider) : Slider :=
  if eqb (currentX (state s)) (previousX (state s)) then s
  else upd_state (set_previousX (currentX (state s)))
                 (dispatchEvent sliderMove s).

(** The spring applied after the position update of a free frame. *)
Definition springBack (bounds : Bounds) (s : Slider) : Slider :=
  let x := currentX (state s) in
  if gtb x (bounds_max bounds) then
    let overshoot := x - bounds_max bounds in
    let springForce := - overshoot * bounce (options s) in
    let v := (velocityX (touch s) + springForce) * 0.95 in
    if ltb (Math_abs overshoot) 1 && ltb (Math_abs v) 0.1
    then upd_touch (set_velocityX 0)
                   (upd_state (set_currentX (bounds_max bounds)) s)
    else upd_touch (set_velocityX v) s
  else if ltb x (bounds_min bounds) then
    let overshoot := bounds_min bounds - x in
    let springForce := overshoot * bounce (options s) in
    let v := (velocityX (touch s) + springForce) * 0.95 in
    if ltb (Math_abs overshoot) 1 && ltb (Math_abs v) 0.1
    then upd_touch (set_velocityX 0)
                   (upd_state (set_currentX (bounds_min bounds)) s)
    else upd_touch (set_velocityX v) s
  else s.

(** The snap branch of [animate]. *)
Definition animateSnap (s : Slider) : Slider :=
  let diff := snapTargetX (state s) - currentX (state s) in
  let snapEasing := 0.15 in
  let s1 := upd_state (set_currentX (currentX (state s) + diff * snapEasing))
                      s in
  if ltb (Math_abs diff) 0.5 then
    let s2 :=
      upd_state (fun st => set_isSnapping false
                             (set_currentX (snapTargetX st) st)) s1 in
    let s3 := set_animation {| rafId := false; isAnimating := false |}
                            (pending s2) s2 in
    dispatchEvent sliderStop
      (dispatchEvent (sliderSnapComplete (currentSlideIndex (state s3))) s3)
  else requestAnimationFrame (notifyMove s1).

(** The start of a snap from a free frame. *)
Definition startSnap (s : Slider) : Slider :=
  let (index, position) :=
    findNearestSlide (currentX (state s)) (velocityX (touch s)) s in
  let s1 :=
    upd_state (fun st => set_snapTargetX position (set_isSnapping true st))
              s in
  let s2 :=
    if (index =? currentSlideIndex (state s1))%nat
    then s1
    else
      dispatchEvent (slideChange index (currentSlideIndex (state s1)))
        (upd_state (set_slideIndex index (currentSlideIndex (state s1)))
                   s1) in
  requestAnimationFrame (dispatchEvent (sliderSnapStart index) s2).

(** The rest of a free frame: move, spring, stop test. *)
Definition animateFree (bounds : Bounds) (s : Slider) : Slider :=
  let s1 :=
    upd_state (set_currentX (currentX (state s) + velocityX (touch s))) s in
  let s2 := notifyMove (springBack bounds s1) in
  if ltb (Math_abs (velocityX (touch s2))) (velocityThreshold (options s2))
  then
    dispatchEvent sliderStop
      (set_animation {| rafId := false; isAnimating := false |} (pending s2)
                     (upd_touch (set_velocityX 0) s2))
  else requestAnimationFrame s2.

(** One run of [animate]. *)
Definition animate (s : Slider) : Slider :=
  if negb (isAnimating (animation s)) then s
  else
    let bounds := getBounds s in
    if isSnapping (state s) then animateSnap s
    else if negb (isDragging (state s)) then
      let s1 :=
        upd_touch (set_velocityX (velocityX (touch s) * friction (options s)))
                  s in
      if negb (freeMode (options s1)) && negb (isSnapping (state s1))
         && ltb (Math_abs (velocityX (touch s1)))
                (velocityThreshold (options s1) * 3)
      then startSnap s1
      else animateFree bounds s1
    else animateFree bounds s.

(** The host runs the requested frame. *)
Definition frame (s : Slider) : Slider :=
  if pending s
  then animate (set_animation (animation s) false s)
  else s.

(** *** Touch handlers *)

Definition handleTouchStart (e : TouchEvent) (now : R) (s : Slider)
  : Slider :=
  upd_touch
    (fun t => {|
       startX := clientX e;
       startY := clientY e;
       touch_currentX := clientX e;
       touch_currentY := clientY e;
       startTime := now;
       startPositionX := currentX (state s);
       isTouching := true;
       isDirectionDetermined := false;
       isHorizontalSwipe := false;
       velocityX := 0;
       history := [{| point_x := currentX (state s); point_time := now |}]
     |}) s.

(** The block that takes the drag over once the swipe is horizontal. *)
Definition beginDrag (s : Slider) : Slider :=
  let s1 :=
    if rafId (animation s)
    then dispatchEvent manualStop
           (set_animation {| rafId := false; isAnimating := false |} false s)
    else s in
  let s2 := upd_state (set_isSnapping false) s1 in
  let s3 := upd_touch (set_startPositionX (currentX (state s2))) s2 in
  dispatchEvent sliderDragStart (upd_state (set_isDragging true) s3).

(** The block that determines the direction of the swipe. *)
Definition determineDirection (deltaX deltaY : R) (s : Slider) : Slider :=
  if negb (isDirectionDetermined (touch s)) then
    let threshold := 10 in
    let absDeltaX := Math_abs deltaX in
    let absDeltaY := Math_abs deltaY in
    if gtb absDeltaX threshold || gtb absDeltaY threshold then
      let tan80deg := 5.6713 in
      let horizontal :=
        if eqb absDeltaX 0 then false
        else
          let ratio := absDeltaY / absDeltaX in
          ltb ratio tan80deg in
      let s1 := upd_touch (set_direction true horizontal) s in
      if horizontal then beginDrag s1 else s1
    else s
  else s.

(** [e.preventDefault()] is called whether or not [e.cancelable]. *)
Definition handleTouchMove (e : TouchEvent) (now : R) (s : Slider)
  : Slider :=
  if negb (isTouching (touch s)) then s
  else
    let s1 := upd_touch (set_touch_current (clientX e) (clientY e)) s in
    let deltaX := touch_currentX (touch s1) - startX (touch s1) in
    let deltaY := touch_currentY (touch s1) - startY (touch s1) in
    let s2 := determineDirection deltaX deltaY s1 in
    if isDirectionDetermined (touch s2) && isHorizontalSwipe (touch s2) then
      let newPositionX0 := startPositionX (touch s2) + deltaX in
      let newPositionX := applyRubberBand newPositionX0 deltaX s2 in
      let s3 :=
        upd_state (fun st => set_targetX newPositionX
                               (set_currentX newPositionX st)) s2 in
      upd_touch
        (fun t =>
           set_history
             (filter (fun point => leb (now - point_time point) 150)
                     (history t
                      ++ [{| point_x := newPositionX; point_time := now |}]))
             t) s3
    else s2.

Definition handleTouchEnd (e : TouchEvent) (now : R) (s : Slider)
  : Slider :=
  let s1 := upd_touch (set_isTouching false) s in
  if negb (isDragging (state s1)) then s1
  else
    let s2 := upd_touch (set_velocityX (calculateVelocity now s1 * 16)) s1 in
    let s3 := upd_state (set_isDragging false) s2 in
    let s4 :=
      if negb (isAnimating (animation s3))
      then animate (set_animation
                      {| rafId := rafId (animation s3); isAnimating := true |}
                      (pending s3) s3)
      else s3 in
    dispatchEvent sliderDragEnd s4.

(** *** Construction and resize *)

Definition init (sliderOffsetWidth : R) (s : Slider) : Slider :=
  setTrackPosition 0 (calculateDimensions sliderOffsetWidth s).

Definition create (o : Options) (sl : list Slide) (sliderOffsetWidth : R)
  : Slider :=
  init sliderOffsetWidth (construct o sl).

Definition handleResize (sliderOffsetWidth : R) (s : Slider) : Slider :=
  let s1 := calculateDimensions sliderOffsetWidth s in
  setTrackPosition (currentX (state s1)) s1.

End TouchSliderJs.

(** ** [checkVisibilityEvents] of [src/slider.js] and [src/unnamed/part_000] *)

Module SliderVisibility.
Import JS.





End SliderVisibility.

(** ** [checkLastSlideVisibility] of [src/TouchSlider.js] *)

Module TouchSliderVisibility.
Import JS.

(** What is read of a slide element. *)
Record Element : Type := { offsetLeft : R; offsetWidth : R }.

(** The two flags of [this.state] that the handlers leave alone. *)
Record Flags : Type := {
  lastSlideVisibleStart : bool;
  lastSlideVisibleFull : bool
}.

Inductive Event : Type :=
| LastSlideVisibleStart (slideIndex : nat) (position : R)
| LastSlideVisibleFull (slideIndex : nat) (position : R).

Definition noElement : Element := {| offsetLeft := 0; offsetWidth := 0 |}.

(** [checkLastSlideVisibility] on the slides [slides], the state [st] and
    the flags [f]: the new flags and the events dispatched, oldest
    first. *)
Definition checkLastSlideVisibility (slides : list Element)
           (st : TouchSliderJs.State) (f : Flags) : Flags * list Event :=
  match slides with
  | [] => (f, [])
  | _ :: _ =>
      let lastSlide := nth (length slides - 1) slides noElement in
      let lastSlideOffset := offsetLeft lastSlide in
      let lastSlideWidth := offsetWidth lastSlide in
      let lastSlideRight := lastSlideOffset + lastSlideWidth in
      let viewportRight :=
        - TouchSliderJs.currentX st + TouchSliderJs.sliderWidth st in
      let viewportLeft := - TouchSliderJs.currentX st in
      let isVisibleStart := ltb lastSlideOffset viewportRight in
      let isVisibleFull :=
        geb lastSlideOffset viewportLeft
        && leb lastSlideRight viewportRight in
      let started :=
        if isVisibleStart && negb (lastSlideVisibleStart f)
        then (true,
              [LastSlideVisibleStart (length slides - 1)
                                     (TouchSliderJs.currentX st)])
        else if negb isVisibleStart && lastSlideVisibleStart f
        then (false, [])
        else (lastSlideVisibleStart f, []) in
      let full :=
        if isVisibleFull && negb (lastSlideVisibleFull f)
        then (true,
              [LastSlideVisibleFull (length slides - 1)
                                    (TouchSliderJs.currentX st)])
        else if negb isVisibleFull && lastSlideVisibleFull f
        then (false, [])
        else (lastSlideVisibleFull f, []) in
      ({| lastSlideVisibleStart := fst started;
          lastSlideVisibleFull := fst full |},
       snd started ++ snd full)
  end.

End TouchSliderVisibility.

(** ** [on], [off] and the handlers reached by [dispatchEvent] in
    [src/TouchSlider.js] *)

Module TouchSliderApi.

(** A value passed as [handler]: a function, known by its identity, or
    anything else, of which only the truth value is read. *)
Inductive Value : Type :=
| Function (id : nat)
| NotFunction (truthy : bool).

(** The own properties of [this.eventHandlers]: the array registered under
    an event name, if there is one. *)
Definition Registry : Type := String.string -> option (list nat).

(** [{}] *)
Definition empty : Registry := fun _ => None.

(** The names that [{}] inherits from [Object.prototype]: read on the
    object they give a value that is truthy and has neither [push] nor
    [filter] nor [forEach]. *)
Definition objectPrototype : list String.string :=
  [ "constructor"%string; "hasOwnProperty"%string; "isPrototypeOf"%string;
    "propertyIsEnumerable"%string; "toLocaleString"%string;
    "toString"%string; "valueOf"%string; "__proto__"%string;
    "__defineGetter__"%string; "__defineSetter__"%string;
    "__lookupGetter__"%string; "__lookupSetter__"%string ].

Definition inherited (eventName : String.string) : bool :=
  existsb (String.eqb eventName) objectPrototype.

(** [this.eventHandlers[eventName] = v], or [delete] for [None]. *)
Definition assign (eventName : String.string) (v : option (list nat))
           (r : Registry) : Registry :=
  fun n => if String.eqb n eventName then v else r n.

(** [h !== handler] *)
Definition differs (handler : Value) (h : nat) : bool :=
  match handler with
  | Function id => negb (h =? id)%nat
  | NotFunction _ => true
  end.

(** [on(eventName, handler)]: the registry it leaves, or the [TypeError] of
    calling [push] on an inherited value. *)
Definition on (eventName : String.string) (handler : Value) (r : Registry)
  : Result Registry :=
  match handler with
  | NotFunction _ => Ok r
  | Function h =>
      match r eventName with
      | Some hs => Ok (assign eventName (Some (hs ++ [h])) r)
      | None =>
          if inherited eventName then Fails TypeError
          else Ok (assign eventName (Some ([] ++ [h])) r)
      end
  end.

(** [off(eventName, handler)]; an omitted [handler] is [undefined], which
    is [NotFunction false]. *)
Definition off (eventName : String.string) (handler : Value) (r : Registry)
  : Result Registry :=
  match r eventName with
  | Some hs =>
      match handler with
      | NotFunction false => Ok (assign eventName None r)
      | _ =>
          let kept := filter (differs handler) hs in
          if (length kept =? 0)%nat
          then Ok (assign eventName None r)
          else Ok (assign eventName (Some kept) r)
      end
  | None =>
      if inherited eventName then
        match handler with
        | NotFunction false => Ok r
        | _ => Fails TypeError
        end
      else Ok r
  end.

(** The handlers that [dispatchEvent(eventName)] calls, in the order of the
    calls. *)
Definition dispatchEvent (eventName : String.string) (r : Registry)
  : Result (list nat) :=
  match r eventName with
  | Some hs => Ok hs
  | None => if inherited eventName then Fails TypeError else Ok []
  end.

End TouchSliderApi.

(** * Scenarios and auxiliary notions *)

(** The samples that [calculateVelocity] of [TouchSlider.js] retains at
    time [now]. *)
Definition retained (now : R) (s : TouchSliderJs.Slider)
  : list TouchSliderJs.Point :=
  filter (fun p => JS.leb (now - TouchSliderJs.point_time p) 100)
         (TouchSliderJs.history (TouchSliderJs.touch s)).

(** The three samples of the scenario, recorded by [trackVelocity] of
    [slider.js] at 0, 50 and 100 ms. *)
Definition recorded_slider (s : SliderJs.Slider) : SliderJs.Slider :=
  SliderJs.trackVelocity 20 100
    (SliderJs.trackVelocity 10 50
       (SliderJs.trackVelocity 0 0
          (SliderJs.upd_state (SliderJs.set_positions []) s))).

(** The same samples as history of [TouchSlider.js]. *)
Definition recorded_touch (s : TouchSliderJs.Slider) : TouchSliderJs.Slider :=
  TouchSliderJs.upd_touch
    (TouchSliderJs.set_history
       [ {| TouchSliderJs.point_x := 0; TouchSliderJs.point_time := 0 |};
         {| TouchSliderJs.point_x := 10; TouchSliderJs.point_time := 50 |};
         {| TouchSliderJs.point_x := 20; TouchSliderJs.point_time := 100 |} ])
    s.

(** [k] is the first index of [l] whose entry is nearest to [sp] under the
    reading [pos] of an entry. *)
Definition first_nearest {A : Type} (pos : A -> R) (sp : R) (l : list A)
           (k : nat) (c : A) : Prop :=
  nth_error l k = Some c
  /\ (forall j x, nth_error l j = Some x ->
                  Rabs (sp - pos c) <= Rabs (sp - pos x))
  /\ (forall j x, (j < k)%nat -> nth_error l j = Some x ->
                  Rabs (sp - pos c) < Rabs (sp - pos x)).

(** Three slides of width 300 in a container of width 300, aligned on their
    leading edge, as [part_000] lays them out. *)
Definition leading_options : Part000.Options := {|
  Part000.freeMode := false;
  Part000.centered := false;
  Part000.friction := 0.95;
  Part000.angleThreshold := 65;
  Part000.speed := 300;
  Part000.resistanceRatio := 0.5;
  Part000.springK := 0.03;
  Part000.springDamping := 0.95
|}.

Definition three_slides_layout : Part000.Layout := {|
  Part000.containerRect_left := 0;
  Part000.containerRect_width := 300;
  Part000.wrapperRect_left := 0;
  Part000.children :=
    [ {| Part000.rect_left := 0; Part000.rect_width := 300;
         Part000.marginRight := 0 |};
      {| Part000.rect_left := 300; Part000.rect_width := 300;
         Part000.marginRight := 0 |};
      {| Part000.rect_left := 600; Part000.rect_width := 300;
         Part000.marginRight := 0 |} ]
|}.

Definition three_slides_part : Part000.Slider :=
  Part000.create leading_options three_slides_layout.

(** The same carousel in [TouchSlider.js], with [snapAlign: 'start']. *)
Definition start_options : TouchSliderJs.Options := {|
  TouchSliderJs.friction := 0.94;
  TouchSliderJs.bounce := 0.12;
  TouchSliderJs.rubberBandEffect := 0.2;
  TouchSliderJs.velocityThreshold := 0.1;
  TouchSliderJs.freeMode := false;
  TouchSliderJs.snapAlign := TouchSliderJs.start;
  TouchSliderJs.snapSpeed := 0.15;
  TouchSliderJs.velocityMultiplier := 1.2
|}.

Definition three_slides_touch : TouchSliderJs.Slider :=
  TouchSliderJs.create start_options
    [ {| TouchSliderJs.offsetWidth := 300 |};
      {| TouchSliderJs.offsetWidth := 300 |};
      {| TouchSliderJs.offsetWidth := 300 |} ] 300.

(** *** Touch sessions *)

(** A touch session of [slider.js]: the touch start, then the moves, each
    with the clock reading of its handler. *)
Definition slider_moves (moves : list (TouchEvent * R)) (s : SliderJs.Slider)
  : SliderJs.Slider :=
  fold_left (fun acc m => SliderJs.onTouchMove (fst m) (snd m) acc) moves s.

Definition slider_session (s : SliderJs.Slider) (e0 : TouchEvent) (now0 : R)
           (moves : list (TouchEvent * R)) : SliderJs.Slider :=
  slider_moves moves (SliderJs.onTouchStart e0 now0 s).

(** A touch session of [TouchSlider.js]. *)
Definition touch_moves (moves : list (TouchEvent * R))
           (s : TouchSliderJs.Slider) : TouchSliderJs.Slider :=
  fold_left (fun acc m => TouchSliderJs.handleTouchMove (fst m) (snd m) acc)
            moves s.

Definition touch_session (s : TouchSliderJs.Slider) (e0 : TouchEvent)
           (now0 : R) (moves : list (TouchEvent * R))
  : TouchSliderJs.Slider :=
  touch_moves moves (TouchSliderJs.handleTouchStart e0 now0 s).

(** The displacement of the sample [e] from the start point [e0] stays
    inside the dead zone of half-width [d], borders excluded
    ([slider.js], [d = 10]) or included ([TouchSlider.js], [d = 10]). *)
Definition inside_open (d : R) (e0 e : TouchEvent) : Prop :=
  Rabs (clientX e - clientX e0) < d /\ Rabs (clientY e - clientY e0) < d.

Definition inside_closed (d : R) (e0 e : TouchEvent) : Prop :=
  Rabs (clientX e - clientX e0) <= d /\ Rabs (clientY e - clientY e0) <= d.

(** The angle, in radians, between the displacement from [e0] to [e] and
    the horizontal axis. *)
Definition displacement_angle (e0 e : TouchEvent) : R :=
  JS.Math_atan2 (Rabs (clientY e - clientY e0))
                (Rabs (clientX e - clientX e0)).

(** What a touch session of [TouchSlider.js] keeps while the direction is
    not determined. *)
Definition touch_undetermined (e0 : TouchEvent) (s : TouchSliderJs.Slider)
  : Prop :=
  TouchSliderJs.isTouching (TouchSliderJs.touch s) = true
  /\ TouchSliderJs.isDirectionDetermined (TouchSliderJs.touch s) = false
  /\ TouchSliderJs.startX (TouchSliderJs.touch s) = clientX e0
  /\ TouchSliderJs.startY (TouchSliderJs.touch s) = clientY e0.

(** A touch at the origin, a move 20 px to the right, and a later move
    far down. *)
Definition touch_at (t : EventType) (x y : R) : TouchEvent :=
  {| type := t; clientX := x; clientY := y; cancelable := true |}.

Definition swipe_right_then_down : list (TouchEvent * R) :=
  [] ++ (touch_at touchmove 20 0, 16) :: [(touch_at touchmove 20 300, 32)].

(** *** Release scenarios *)

(** The three-slide carousel of [slider.js]: widths 300, no margin,
    container 300. *)
Definition three_slides_slider : SliderJs.Slider :=
  match SliderJs.create SliderJs.defaultOptions 300
          [ {| SliderJs.offsetWidth := 300; SliderJs.marginRight := 0 |};
            {| SliderJs.offsetWidth := 300; SliderJs.marginRight := 0 |};
            {| SliderJs.offsetWidth := 300; SliderJs.marginRight := 0 |} ]
  with
  | Ok s => s
  | Fails _ => SliderJs.construct SliderJs.defaultOptions
  end.

(** A horizontal drag in progress that has brought the track to [cur],
    with the velocity samples [ps]. *)
Definition dragged_part (cur : R) (ps : list Part000.Sample)
           (s : Part000.Slider) : Part000.Slider :=
  Part000.upd_state
    (fun st =>
       Part000.set_positions ps
         (Part000.set_currentTranslate cur
            (Part000.set_isHorizontal (Some true)
               (Part000.set_isDragging true st)))) s.

Definition dragged_slider (cur : R) (ps : list SliderJs.Sample)
           (s : SliderJs.Slider) : SliderJs.Slider :=
  SliderJs.upd_state
    (fun st =>
       SliderJs.set_positions ps
         (SliderJs.set_currentTranslate cur
            (SliderJs.set_isHorizontal (Some true)
               (SliderJs.set_isDragging true st)))) s.

(** Two samples 50 ms apart and 1 px apart: 0.02 px/ms. *)
Definition slow_part : list Part000.Sample :=
  [ {| Part000.sample_x := 100; Part000.sample_time := 0 |};
    {| Part000.sample_x := 101; Part000.sample_time := 50 |} ].

Definition slow_slider : list SliderJs.Sample :=
  [ {| SliderJs.sample_x := 100; SliderJs.sample_time := 0 |};
    {| SliderJs.sample_x := 101; SliderJs.sample_time := 50 |} ].

(** The velocity that [onTouchEnd] stores: values below 0.05 in magnitude
    count as 0. *)
Definition part_release_velocity (s : Part000.Slider) : R :=
  if JS.ltb (Rabs (Part000.calculateVelocity s)) 0.05 then 0
  else Part000.calculateVelocity s.

Definition slider_release_velocity (s : SliderJs.Slider) : R :=
  if JS.ltb (Rabs (SliderJs.calculateVelocity s)) 0.05 then 0
  else SliderJs.calculateVelocity s.

(** *** A horizontal drag followed by a move that cannot be cancelled *)

Definition move_event (x y : R) (c : bool) : TouchEvent :=
  {| type := touchmove; clientX := x; clientY := y; cancelable := c |}.

(** [slider.js]: touch at (0,0), cancelable move to (-20,0). *)
Definition slider_dragging : SliderJs.Slider :=
  SliderJs.onTouchMove (move_event (-20) 0 true) 16
    (SliderJs.onTouchStart (touch_at touchstart 0 0) 0 three_slides_slider).

Definition touch_dragging : TouchSliderJs.Slider :=
  TouchSliderJs.handleTouchMove (move_event (-20) 0 true) 16
    (TouchSliderJs.handleTouchStart (touch_at touchstart 0 0) 0
       three_slides_touch).

(** *** Frames of the inertia loop *)

(** The host runs one frame at each of the given times. *)
Fixpoint part_frames (times : list R) (s : Part000.Slider)
  : Result Part000.Slider :=
  match times with
  | [] => Ok s
  | t :: rest => bind (Part000.frame t s) (part_frames rest)
  end.

Fixpoint slider_frames (times : list R) (s : SliderJs.Slider)
  : Result SliderJs.Slider :=
  match times with
  | [] => Ok s
  | t :: rest => bind (SliderJs.frame t s) (slider_frames rest)
  end.

(** [k] frames of [TouchSlider.js]. *)
Fixpoint touch_frames (k : nat) (s : TouchSliderJs.Slider)
  : TouchSliderJs.Slider :=
  match k with
  | O => s
  | S k' => touch_frames k' (TouchSliderJs.frame s)
  end.

(** *** No slide *)

(** A container of width 300 whose wrapper has no child, for [part_000]. *)
Definition empty_layout : Part000.Layout := {|
  Part000.containerRect_left := 0;
  Part000.containerRect_width := 300;
  Part000.wrapperRect_left := 0;
  Part000.children := []
|}.

(** A single slide of width 100 in a slider of width 300, for
    [TouchSlider.js]. *)
Definition narrow_touch : TouchSliderJs.Slider :=
  TouchSliderJs.create TouchSliderJs.defaultOptions
    [ {| TouchSliderJs.offsetWidth := 100 |} ] 300.

(** *** Geometry *)

(** The grid that the [forEach] of [updateDimensions] in [slider.js]
    pushes, from the running offset [offset] on. *)
Fixpoint slider_grid (cw : R) (sl : list SliderJs.Slide) (offset : R)
  : list R :=
  match sl with
  | [] => []
  | slide :: rest =>
      (- offset + (cw - SliderJs.offsetWidth slide) / 2)
        :: slider_grid cw rest
             (offset + (SliderJs.offsetWidth slide
                        + SliderJs.marginRight slide))
  end.

(** Widths and margins are not negative. *)
Definition slider_nonneg (sl : list SliderJs.Slide) : Prop :=
  Forall (fun slide => 0 <= SliderJs.offsetWidth slide
                       /\ 0 <= SliderJs.marginRight slide) sl.

(** The slides of [part_000] follow one another from left to right and
    have no negative width. *)
Fixpoint part_laid_out (sl : list Part000.Slide) : Prop :=
  match sl with
  | [] => True
  | a :: rest =>
      0 <= Part000.rect_width a
      /\ Forall (fun b => Part000.rect_left a + Part000.rect_width a
                          <= Part000.rect_left b
                          /\ 0 <= Part000.rect_width b) rest
      /\ part_laid_out rest
  end.

(** *** Sessions that are never horizontal *)




(** *** Frames at the display rate *)

(** The times of [n] frames, 16 ms apart, that follow the time [t]. *)
Fixpoint frame_times (t : R) (n : nat) : list R :=
  match n with
  | O => []
  | S n' => (t + 16) :: frame_times (t + 16) n'
  end.

(** Two sliders of [slider.js] have the same options, grid and bounds. *)
Definition slider_same_layout (a b : SliderJs.Slider) : Prop :=
  SliderJs.options a = SliderJs.options b
  /\ SliderJs.slidesGrid a = SliderJs.slidesGrid b
  /\ SliderJs.minTranslate a = SliderJs.minTranslate b
  /\ SliderJs.maxTranslate a = SliderJs.maxTranslate b.

(** *** Terminal transitions of the inertia loop *)

(** What the physics loop of [slider.js], started on [s], has come to in
    [s']: it has dispatched [sliderStop] and requests nothing more; it
    has started the snap animation from the offset it has reached; or its
    offset has crossed a bound with the loop still requested, so that the
    next frame applies the boundary spring. *)
Inductive SliderTerminal (s s' : SliderJs.Slider) : Prop :=
| slider_stop_emitted :
    SliderJs.freeMode (SliderJs.options s) = true ->
    SliderJs.pending s' = None ->
    SliderJs.emitted s' = SliderJs.emitted s ++ [SliderJs.sliderStop] ->
    SliderJs.maxTranslate s
    <= SliderJs.currentTranslate (SliderJs.state s')
    <= SliderJs.minTranslate s ->
    SliderTerminal s s'
| slider_snap_started (d : JS.num) (t : R) (index : nat) :
    SliderJs.freeMode (SliderJs.options s) = false ->
    SliderJs.pending s'
    = Some (SliderJs.AnimateLoop
              (SliderJs.currentTranslate (SliderJs.state s')) d t
              (SliderJs.speed (SliderJs.options s)) index) ->
    SliderJs.emitted s' = SliderJs.emitted s ->
    SliderJs.maxTranslate s
    <= SliderJs.currentTranslate (SliderJs.state s')
    <= SliderJs.minTranslate s ->
    SliderTerminal s s'
| slider_spring_entered (v t : R) :
    SliderJs.pending s'
    = Some (SliderJs.InertiaStep v
              (SliderJs.currentTranslate (SliderJs.state s')) t) ->
    SliderJs.emitted s' = SliderJs.emitted s ->
    SliderJs.minTranslate s < SliderJs.currentTranslate (SliderJs.state s')
    \/ SliderJs.currentTranslate (SliderJs.state s')
       < SliderJs.maxTranslate s ->
    SliderTerminal s s'.

(** The same for [part_000], whose loop leaves the bounds to the
    return animation of [snapToBounds]: 700 ms to the bound that has been
    crossed. *)
Inductive PartTerminal (s s' : Part000.Slider) : Prop :=
| part_stop_emitted :
    Part000.freeMode (Part000.options s) = true ->
    Part000.pending s' = None ->
    Part000.emitted s' = Part000.emitted s ++ [Part000.sliderStop] ->
    Part000.maxTranslate s
    <= Part000.currentTranslate (Part000.state s')
    <= Part000.minTranslate s ->
    PartTerminal s s'
| part_snap_started (d : JS.num) (t : R) (index : nat) :
    Part000.freeMode (Part000.options s) = false ->
    Part000.pending s'
    = Some (Part000.AnimateLoop
              (Part000.currentTranslate (Part000.state s')) d t 500
              Part000.easeOutQuart (Some index)) ->
    Part000.emitted s' = Part000.emitted s ->
    Part000.maxTranslate s
    <= Part000.currentTranslate (Part000.state s')
    <= Part000.minTranslate s ->
    PartTerminal s s'
| part_return_entered (t bound : R) :
    Part000.pending s'
    = Some (Part000.AnimateLoop
              (Part000.currentTranslate (Part000.state s'))
              (JS.Num (bound
                       - Part000.currentTranslate (Part000.state s')))
              t 700 Part000.easeOutQuart None) ->
    Part000.emitted s' = Part000.emitted s ->
    (Part000.minTranslate s < Part000.currentTranslate (Part000.state s')
     /\ bound = Part000.minTranslate s)
    \/ (Part000.currentTranslate (Part000.state s')
        < Part000.maxTranslate s
        /\ bound = Part000.maxTranslate s) ->
    PartTerminal s s'.

(** The same for [animate] of [TouchSlider.js]: it has dispatched
    [sliderStop] and cleared [isAnimating]; it has switched to the snap
    phase and dispatched [sliderSnapStart]; or it has moved the offset
    across a bound, where it applies the spring.  Until then it
    dispatches [sliderMove] only. *)
Inductive TouchTerminal (s s' : TouchSliderJs.Slider) : Prop :=
| touch_stop_emitted (moves : list TouchSliderJs.Event) :
    TouchSliderJs.isAnimating (TouchSliderJs.animation s') = false ->
    TouchSliderJs.pending s' = false ->
    Forall (fun ev => ev = TouchSliderJs.sliderMove) moves ->
    TouchSliderJs.emitted s'
    = TouchSliderJs.emitted s ++ moves ++ [TouchSliderJs.sliderStop] ->
    TouchTerminal s s'
| touch_snap_started (moves change : list TouchSliderJs.Event) :
    TouchSliderJs.isSnapping (TouchSliderJs.state s') = true ->
    TouchSliderJs.isAnimating (TouchSliderJs.animation s') = true ->
    TouchSliderJs.pending s' = true ->
    Forall (fun ev => ev = TouchSliderJs.sliderMove) moves ->
    change = []
    \/ (exists previous : nat,
           change
           = [TouchSliderJs.slideChange
                (TouchSliderJs.currentSlideIndex (TouchSliderJs.state s'))
                previous]) ->
    TouchSliderJs.emitted s'
    = TouchSliderJs.emitted s ++ moves ++ change
      ++ [TouchSliderJs.sliderSnapStart
            (TouchSliderJs.currentSlideIndex (TouchSliderJs.state s'))] ->
    TouchTerminal s s'
| touch_spring_entered (moves : list TouchSliderJs.Event) :
    TouchSliderJs.isAnimating (TouchSliderJs.animation s') = true ->
    TouchSliderJs.pending s' = true ->
    TouchSliderJs.isSnapping (TouchSliderJs.state s') = false ->
    TouchSliderJs.isOutOfBounds
      (TouchSliderJs.currentX (TouchSliderJs.state s')) s' = true ->
    Forall (fun ev => ev = TouchSliderJs.sliderMove) moves ->
    TouchSliderJs.emitted s' = TouchSliderJs.emitted s ++ moves ->
    TouchTerminal s s'.

(** *** Sessions with frames *)







(** A requested frame has its handle stored: the callback that is queued,
    if any, is the one that [rafId] names. *)
Definition slider_handle_kept (s : SliderJs.Slider) : Prop :=
  SliderJs.pending s <> None -> SliderJs.rafId (SliderJs.state s) = true.

Definition part_handle_kept (s : Part000.Slider) : Prop :=
  Part000.pending s <> None -> Part000.rafId (Part000.state s) = true.


(** *** The subscription interface *)

(** No event name is registered with an empty array, and none of the names
    inherited from [Object.prototype] is registered. *)
Definition api_wf (r : TouchSliderApi.Registry) : Prop :=
  forall n : String.string,
    r n <> Some []
    /\ (TouchSliderApi.inherited n = true -> r n = None).

(** The array [hs] without the handler [h]. *)
Definition without (h : nat) (hs : list nat) : list nat :=
  filter (fun x => negb (x =? h)%nat) hs.

(** *** Visibility of the last slide *)

(** The last slide of [TouchSlider.js] has entered the viewport, and lies
    fully inside it, at the state [st]. *)
Definition last_slide_entered (slides : list TouchSliderVisibility.Element)
           (st : TouchSliderJs.State) : bool :=
  JS.ltb
    (TouchSliderVisibility.offsetLeft
       (nth (length slides - 1) slides TouchSliderVisibility.noElement))
    (- TouchSliderJs.currentX st + TouchSliderJs.sliderWidth st).

Definition last_slide_inside (slides : list TouchSliderVisibility.Element)
           (st : TouchSliderJs.State) : bool :=
  let lastSlide :=
    nth (length slides - 1) slides TouchSliderVisibility.noElement in
  JS.geb (TouchSliderVisibility.offsetLeft lastSlide)
         (- TouchSliderJs.currentX st)
  && JS.leb (TouchSliderVisibility.offsetLeft lastSlide
             + TouchSliderVisibility.offsetWidth lastSlide)
            (- TouchSliderJs.currentX st + TouchSliderJs.sliderWidth st).

(** One check per state of a run, the flags handed from check to check. *)
Fixpoint visibility_checks (slides : list TouchSliderVisibility.Element)
         (sts : list TouchSliderJs.State) (f : TouchSliderVisibility.Flags)
  : TouchSliderVisibility.Flags * list TouchSliderVisibility.Event :=
  match sts with
  | [] => (f, [])
  | st :: rest =>
      let r1 := TouchSliderVisibility.checkLastSlideVisibility slides st f in
      let r2 := visibility_checks slides rest (fst r1) in
      (fst r2, snd r1 ++ snd r2)
  end.

Definition is_start_event (ev : TouchSliderVisibility.Event) : bool :=
  match ev with
  | TouchSliderVisibility.LastSlideVisibleStart _ _ => true
  | TouchSliderVisibility.LastSlideVisibleFull _ _ => false
  end.

Definition is_full_event (ev : TouchSliderVisibility.Event) : bool :=
  negb (is_start_event ev).

(** The number of times a condition turns from false to true along a run,
    [prev] being its value before the run. *)
Fixpoint rising_edges (prev : bool) (run : list bool) : nat :=
  match run with
  | [] => 0%nat
  | v :: rest =>
      ((if v && negb prev then 1 else 0) + rising_edges v rest)%nat
  end.

(** *** The snap of [TouchSlider.js] *)

(** [animate] of [TouchSlider.js] is requested and in its snap branch. *)
Definition touch_snapping (s : TouchSliderJs.Slider) : Prop :=
  TouchSliderJs.isAnimating (TouchSliderJs.animation s) = true
  /\ TouchSliderJs.isSnapping (TouchSliderJs.state s) = true
  /\ TouchSliderJs.pending s = true.

(** *** The grid of [slider.js] *)

(** The distance from the start of the wrapper to slide [i]: the widths
    and right margins of the slides before it. *)
Fixpoint slider_leading (sl : list SliderJs.Slide) (i : nat) : R :=
  match i, sl with
  | S j, slide :: rest =>
      SliderJs.offsetWidth slide + SliderJs.marginRight slide
      + slider_leading rest j
  | _, _ => 0
  end.

(** *** Histories *)

(** What the host can do to a slider of [slider.js] after it has been
    constructed. *)
Inductive SliderInput : Type :=
| SliderTouchStart (e : TouchEvent) (now : R)
| SliderTouchMove (e : TouchEvent) (now : R)
| SliderTouchEnd (e : TouchEvent) (now : R)
| SliderFrame (now : R)
| SliderResize (cw : R) (children : list SliderJs.Slide) (now : R).

Definition slider_input (i : SliderInput) (s : SliderJs.Slider)
  : Result SliderJs.Slider :=
  match i with
  | SliderTouchStart e now => Ok (SliderJs.onTouchStart e now s)
  | SliderTouchMove e now => Ok (SliderJs.onTouchMove e now s)
  | SliderTouchEnd e now => Ok (SliderJs.onTouchEnd e now s)
  | SliderFrame now => SliderJs.frame now s
  | SliderResize cw children now => SliderJs.onResize cw children now s
  end.

Fixpoint slider_run (inputs : list SliderInput) (s : SliderJs.Slider)
  : Result SliderJs.Slider :=
  match inputs with
  | [] => Ok s
  | i :: rest => bind (slider_input i s) (slider_run rest)
  end.

(** The same for [part_000]. *)
Inductive PartInput : Type :=
| PartTouchStart (e : TouchEvent) (now : R)
| PartTouchMove (e : TouchEvent) (now : R)
| PartTouchEnd (e : TouchEvent) (now : R)
| PartFrame (now : R)
| PartResize (l : Part000.Layout) (now : R).

Definition part_input (i : PartInput) (s : Part000.Slider)
  : Result Part000.Slider :=
  match i with
  | PartTouchStart e now => Ok (Part000.onTouchStart e now s)
  | PartTouchMove e now => Ok (Part000.onTouchMove e now s)
  | PartTouchEnd e now => Ok (Part000.onTouchEnd e now s)
  | PartFrame now => Part000.frame now s
  | PartResize l now => Ok (Part000.onResize l now s)
  end.

Fixpoint part_run (inputs : list PartInput) (s : Part000.Slider)
  : Result Part000.Slider :=
  match inputs with
  | [] => Ok s
  | i :: rest => bind (part_input i s) (part_run rest)
  end.

(** Every resize of the history arrives while no drag is in progress. *)
Fixpoint slider_resizes_at_rest (inputs : list SliderInput)
         (s : SliderJs.Slider) : Prop :=
  match inputs with
  | [] => True
  | i :: rest =>
      match i with
      | SliderResize _ _ _ => SliderJs.isDragging (SliderJs.state s) = false
      | _ => True
      end
      /\ match slider_input i s with
         | Ok s1 => slider_resizes_at_rest rest s1
         | Fails _ => True
         end
  end.

Fixpoint part_resizes_at_rest (inputs : list PartInput)
         (s : Part000.Slider) : Prop :=
  match inputs with
  | [] => True
  | i :: rest =>
      match i with
      | PartResize _ _ => Part000.isDragging (Part000.state s) = false
      | _ => True
      end
      /\ match part_input i s with
         | Ok s1 => part_resizes_at_rest rest s1
         | Fails _ => True
         end
  end.

(** The callback that is queued, if any, is the one that [rafId] names,
    and none is queued while a drag is in progress: a release that starts
    the physics loop finds the queue empty. *)
Definition slider_single_callback (s : SliderJs.Slider) : Prop :=
  slider_handle_kept s
  /\ (SliderJs.isDragging (SliderJs.state s) = true ->
      SliderJs.pending s = None).

Definition part_single_callback (s : Part000.Slider) : Prop :=
  part_handle_kept s
  /\ (Part000.isDragging (Part000.state s) = true ->
      Part000.pending s = None).

(** The same for [TouchSlider.js]. *)
Inductive TouchInput : Type :=
| TouchStart (e : TouchEvent) (now : R)
| TouchMove (e : TouchEvent) (now : R)
| TouchEnd (e : TouchEvent) (now : R)
| TouchFrame
| TouchResize (sliderOffsetWidth : R).

Definition touch_input (i : TouchInput) (s : TouchSliderJs.Slider)
  : TouchSliderJs.Slider :=
  match i with
  | TouchStart e now => TouchSliderJs.handleTouchStart e now s
  | TouchMove e now => TouchSliderJs.handleTouchMove e now s
  | TouchEnd e now => TouchSliderJs.handleTouchEnd e now s
  | TouchFrame => TouchSliderJs.frame s
  | TouchResize w => TouchSliderJs.handleResize w s
  end.

Definition touch_run (inputs : list TouchInput) (s : TouchSliderJs.Slider)
  : TouchSliderJs.Slider :=
  fold_left (fun acc i => touch_input i acc) inputs s.

(** [isAnimating] and [rafId] agree, and a frame is requested only while
    they are set. *)
Definition touch_handle_kept (s : TouchSliderJs.Slider) : Prop :=
  TouchSliderJs.rafId (TouchSliderJs.animation s)
  = TouchSliderJs.isAnimating (TouchSliderJs.animation s)
  /\ (TouchSliderJs.pending s = true ->
      TouchSliderJs.isAnimating (TouchSliderJs.animation s) = true).

(** *** Layouts of [part_000] read under a transform *)


(** *** Resistance at the edges *)

(** An offset that is left alone between [lo] and [hi] and meets the
    resistance [f] of its overshoot beyond them. *)
Definition resisted (lo hi : R) (f : R -> R) (x : R) : R :=
  if JS.gtb x hi then hi + f (x - hi)
  else if JS.ltb x lo then lo - f (lo - x)
  else x.

(** *** The slide positions of [TouchSlider.js] *)

(** The widths of the slides before slide [i]. *)
Fixpoint touch_leading (sl : list TouchSliderJs.Slide) (i : nat) : R :=
  match i, sl with
  | S j, slide :: rest =>
      TouchSliderJs.offsetWidth slide + touch_leading rest j
  | _, _ => 0
  end.

(** *** Landing of an animation *)

(** The last frame of an animation writes [start + distance], with
    [distance = target - start] computed when the animation was started.
    Read over the reals this is the target itself; in binary64 each of the
    two operations is rounded, with a relative error of at most [2^-53].
    [rounding_slack start target] bounds the resulting distance from the
    target, with room to spare. *)
Definition rounding_slack (start target : R) : R :=
  (Rabs start + Rabs target) / 2 ^ 50.

(** * Properties *)

(** ** Comparisons *)

Lemma ltb_true (a b : R) : a < b -> JS.ltb a b = true.
Proof. intros H; unfold JS.ltb; destruct (Rlt_dec a b); [reflexivity | contradiction]. Qed.

Lemma ltb_false (a b : R) : ~ a < b -> JS.ltb a b = false.
Proof. intros H; unfold JS.ltb; destruct (Rlt_dec a b); [contradiction | reflexivity]. Qed.

Lemma leb_true (a b : R) : a <= b -> JS.leb a b = true.
Proof. intros H; unfold JS.leb; destruct (Rle_dec a b); [reflexivity | contradiction]. Qed.

Lemma leb_false (a b : R) : ~ a <= b -> JS.leb a b = false.
Proof. intros H; unfold JS.leb; destruct (Rle_dec a b); [contradiction | reflexivity]. Qed.

Lemma eqb_true (a b : R) : a = b -> JS.eqb a b = true.
Proof. intros H; unfold JS.eqb; destruct (Req_dec_T a b); [reflexivity | contradiction]. Qed.

Lemma eqb_false (a b : R) : a <> b -> JS.eqb a b = false.
Proof. intros H; unfold JS.eqb; destruct (Req_dec_T a b); [contradiction | reflexivity]. Qed.

Lemma ltb_iff (a b : R) : JS.ltb a b = true <-> a < b.
Proof.
  unfold JS.ltb; destruct (Rlt_dec a b); split; intros; auto; discriminate.
Qed.

(** Settles every comparison of the goal that linear arithmetic decides. *)
Ltac js_cmp :=
  unfold JS.gtb, JS.geb;
  repeat match goal with
    | |- context [JS.ltb ?a ?b] =>
        first [ rewrite (ltb_true a b) by lra
              | rewrite (ltb_false a b) by lra ]
    | |- context [JS.leb ?a ?b] =>
        first [ rewrite (leb_true a b) by lra
              | rewrite (leb_false a b) by lra ]
    | |- context [JS.eqb ?a ?b] =>
        first [ rewrite (eqb_true a b) by lra
              | rewrite (eqb_false a b) by lra ]
    end.

(** ** Lists with a first and a last element *)

Lemma length_first_last {A : Type} (a b : A) (mid : list A) :
  length (a :: mid ++ [b]) = S (S (length mid)).
Proof. simpl. rewrite length_app. simpl. lia. Qed.

Lemma nth_last_first_last {A : Type} (a b d : A) (mid : list A) :
  nth (length (a :: mid ++ [b]) - 1) (a :: mid ++ [b]) d = b.
Proof.
  rewrite length_first_last.
  replace (S (S (length mid)) - 1)%nat with (S (length mid)) by lia.
  simpl. rewrite app_nth2 by lia.
  replace (length mid - length mid)%nat with 0%nat by lia.
  reflexivity.
Qed.

(** ** Velocity estimation *)

(** [calculateVelocity] of [slider.js] on a retained window. *)
Lemma slider_velocity_window (s : SliderJs.Slider)
      (first last : SliderJs.Sample) (mid : list SliderJs.Sample) :
  SliderJs.positions (SliderJs.state s) = first :: mid ++ [last] ->
  SliderJs.calculateVelocity s =
    if JS.eqb (SliderJs.sample_time last - SliderJs.sample_time first) 0
    then 0
    else (SliderJs.sample_x last - SliderJs.sample_x first)
         / (SliderJs.sample_time last - SliderJs.sample_time first).
Proof.
  intros Hps. unfold SliderJs.calculateVelocity. rewrite Hps.
  rewrite nth_last_first_last, length_first_last. reflexivity.
Qed.

Lemma slider_velocity_short (s : SliderJs.Slider) :
  (length (SliderJs.positions (SliderJs.state s)) < 2)%nat ->
  SliderJs.calculateVelocity s = 0.
Proof.
  intros H. unfold SliderJs.calculateVelocity.
  apply Nat.ltb_lt in H. rewrite H. reflexivity.
Qed.

Lemma touch_velocity_window (now : R) (s : TouchSliderJs.Slider)
      (first last : TouchSliderJs.Point) (mid : list TouchSliderJs.Point) :
  retained now s = first :: mid ++ [last] ->
  TouchSliderJs.calculateVelocity now s =
    if JS.eqb (TouchSliderJs.point_time last
               - TouchSliderJs.point_time first) 0
    then 0
    else (TouchSliderJs.point_x last - TouchSliderJs.point_x first)
         / (TouchSliderJs.point_time last - TouchSliderJs.point_time first).
Proof.
  unfold retained. intros Hps. unfold TouchSliderJs.calculateVelocity.
  cbv zeta. rewrite Hps.
  rewrite nth_last_first_last, length_first_last. reflexivity.
Qed.

Lemma touch_velocity_short (now : R) (s : TouchSliderJs.Slider) :
  (length (retained now s) < 2)%nat ->
  TouchSliderJs.calculateVelocity now s = 0.
Proof.
  unfold retained. intros H. unfold TouchSliderJs.calculateVelocity.
  cbv zeta. apply Nat.ltb_lt in H. rewrite H. reflexivity.
Qed.

Lemma recorded_slider_positions (s : SliderJs.Slider) :
  SliderJs.positions (SliderJs.state (recorded_slider s)) =
  [ {| SliderJs.sample_x := 10; SliderJs.sample_time := 50 |};
    {| SliderJs.sample_x := 20; SliderJs.sample_time := 100 |} ].
Proof.
  unfold recorded_slider, SliderJs.trackVelocity. simpl.
  js_cmp. simpl. js_cmp. simpl. js_cmp. reflexivity.
Qed.

(** C1: the velocity estimator returns 0 when fewer than two samples remain
    in the trailing window or when the first and the last retained sample
    have the same timestamp, and otherwise the position difference of the
    last and first retained sample divided by their time difference; for
    the samples (0,0), (10,50), (20,100) under the 100 ms window it returns
    0.2 px/ms.  Stated for [calculateVelocity] of [slider.js] (the window
    is [state.positions]) and of [TouchSlider.js] (the window is the
    history filtered at [now]). *)
Theorem C1_velocity_estimate :
  (forall s : SliderJs.Slider,
      (length (SliderJs.positions (SliderJs.state s)) < 2)%nat ->
      SliderJs.calculateVelocity s = 0)
  /\ (forall (s : SliderJs.Slider) first mid last,
         SliderJs.positions (SliderJs.state s) = first :: mid ++ [last] ->
         (SliderJs.sample_time last - SliderJs.sample_time first = 0 ->
          SliderJs.calculateVelocity s = 0)
         /\ (SliderJs.sample_time last - SliderJs.sample_time first <> 0 ->
             SliderJs.calculateVelocity s =
               (SliderJs.sample_x last - SliderJs.sample_x first)
               / (SliderJs.sample_time last - SliderJs.sample_time first)))
  /\ (forall (now : R) (s : TouchSliderJs.Slider),
         (length (retained now s) < 2)%nat ->
         TouchSliderJs.calculateVelocity now s = 0)
  /\ (forall (now : R) (s : TouchSliderJs.Slider) first mid last,
         retained now s = first :: mid ++ [last] ->
         (TouchSliderJs.point_time last - TouchSliderJs.point_time first = 0
          -> TouchSliderJs.calculateVelocity now s = 0)
         /\ (TouchSliderJs.point_time last - TouchSliderJs.point_time first
             <> 0 ->
             TouchSliderJs.calculateVelocity now s =
               (TouchSliderJs.point_x last - TouchSliderJs.point_x first)
               / (TouchSliderJs.point_time last
                  - TouchSliderJs.point_time first)))
  /\ (forall s : SliderJs.Slider,
         SliderJs.calculateVelocity (recorded_slider s) = 0.2)
  /\ (forall s : TouchSliderJs.Slider,
         TouchSliderJs.calculateVelocity 100 (recorded_touch s) = 0.2).
Proof.
  split; [exact slider_velocity_short|].
  split.
  { intros s first mid last Hps.
    rewrite (slider_velocity_window s first last mid Hps).
    split; intros H; js_cmp; reflexivity. }
  split; [exact touch_velocity_short|].
  split.
  { intros now s first mid last Hps.
    rewrite (touch_velocity_window now s first last mid Hps).
    split; intros H; js_cmp; reflexivity. }
  split.
  { intros s.
    rewrite (slider_velocity_window (recorded_slider s)
               {| SliderJs.sample_x := 10; SliderJs.sample_time := 50 |}
               {| SliderJs.sample_x := 20; SliderJs.sample_time := 100 |} [])
      by apply recorded_slider_positions.
    simpl. js_cmp. lra. }
  { intros s.
    rewrite (touch_velocity_window 100 (recorded_touch s)
               {| TouchSliderJs.point_x := 0; TouchSliderJs.point_time := 0 |}
               {| TouchSliderJs.point_x := 20;
                  TouchSliderJs.point_time := 100 |}
               [ {| TouchSliderJs.point_x := 10;
                    TouchSliderJs.point_time := 50 |} ]).
    - simpl. js_cmp. lra.
    - unfold retained, recorded_touch. simpl. js_cmp. reflexivity. }
Qed.

(** The window of two samples (10,50), (20,100). *)
Lemma C1_velocity_estimate_witness :
  SliderJs.calculateVelocity
    (SliderJs.upd_state
       (SliderJs.set_positions
          ([ {| SliderJs.sample_x := 10; SliderJs.sample_time := 50 |} ]
             ++ [ {| SliderJs.sample_x := 20; SliderJs.sample_time := 100 |} ]))
       (SliderJs.construct SliderJs.defaultOptions))
  = (20 - 10) / (100 - 50).
Proof.
  destruct C1_velocity_estimate as (_ & H & _).
  destruct (H (SliderJs.upd_state
       (SliderJs.set_positions
          ([ {| SliderJs.sample_x := 10; SliderJs.sample_time := 50 |} ]
             ++ [ {| SliderJs.sample_x := 20; SliderJs.sample_time := 100 |} ]))
       (SliderJs.construct SliderJs.defaultOptions))
       {| SliderJs.sample_x := 10; SliderJs.sample_time := 50 |} []
       {| SliderJs.sample_x := 20; SliderJs.sample_time := 100 |}
       eq_refl) as (_ & H2).
  apply H2. simpl. lra.
Defined.

(** ** Nearest-slide selection *)

(** Settles [Rabs] of an argument whose sign linear arithmetic decides. *)
Ltac js_abs :=
  unfold JS.Math_abs;
  repeat match goal with
    | |- context [Rabs ?x] =>
        first [ rewrite (Rabs_pos_eq x) by lra
              | rewrite (Rabs_left x) by lra ]
    end.

(** Settles [Rmin] and [Rmax] of arguments that linear arithmetic orders. *)
Ltac js_minmax :=
  unfold JS.Math_min, JS.Math_max;
  repeat match goal with
    | |- context [Rmax ?a ?b] =>
        first [ rewrite (Rmax_left a b) by lra
              | rewrite (Rmax_right a b) by lra ]
    | |- context [Rmin ?a ?b] =>
        first [ rewrite (Rmin_left a b) by lra
              | rewrite (Rmin_right a b) by lra ]
    end.

Lemma first_nearest_snoc_keep {A : Type} (pos : A -> R) (sp : R)
      (pre : list A) (k : nat) (c y : A) :
  first_nearest pos sp pre k c ->
  ~ Rabs (sp - pos y) < Rabs (sp - pos c) ->
  first_nearest pos sp (pre ++ [y]) k c.
Proof.
  intros (Hk & Hmin & Hfirst) Hy.
  assert (Hlt : (k < length pre)%nat)
    by (apply nth_error_Some; rewrite Hk; discriminate).
  split; [| split].
  - rewrite nth_error_app1 by exact Hlt. exact Hk.
  - intros j x Hj.
    destruct (Nat.lt_ge_cases j (length pre)) as [Hin | Hout].
    + rewrite nth_error_app1 in Hj by exact Hin. eauto.
    + rewrite nth_error_app2 in Hj by exact Hout.
      destruct (j - length pre)%nat as [| n]; simpl in Hj.
      * injection Hj as <-. lra.
      * destruct n; discriminate.
  - intros j x Hjk Hj.
    rewrite nth_error_app1 in Hj by lia. eauto.
Qed.

Lemma first_nearest_snoc_take {A : Type} (pos : A -> R) (sp : R)
      (pre : list A) (k : nat) (c y : A) :
  first_nearest pos sp pre k c ->
  Rabs (sp - pos y) < Rabs (sp - pos c) ->
  first_nearest pos sp (pre ++ [y]) (length pre) y.
Proof.
  intros (Hk & Hmin & Hfirst) Hy.
  split; [| split].
  - rewrite nth_error_app2 by lia. rewrite Nat.sub_diag. reflexivity.
  - intros j x Hj.
    destruct (Nat.lt_ge_cases j (length pre)) as [Hin | Hout].
    + rewrite nth_error_app1 in Hj by exact Hin.
      specialize (Hmin j x Hj). lra.
    + rewrite nth_error_app2 in Hj by exact Hout.
      destruct (j - length pre)%nat as [| n]; simpl in Hj.
      * injection Hj as <-. lra.
      * destruct n; discriminate.
  - intros j x Hjk Hj.
    rewrite nth_error_app1 in Hj by exact Hjk.
    specialize (Hmin j x Hj). lra.
Qed.

Lemma first_nearest_single {A : Type} (pos : A -> R) (sp : R) (a : A) :
  first_nearest pos sp [a] 0 a.
Proof.
  split; [reflexivity | split].
  - intros j x Hj. destruct j as [| j]; simpl in Hj.
    + injection Hj as <-. lra.
    + destruct j; discriminate.
  - intros j x Hj. lia.
Qed.

(** The scan of [part_000], started after a prefix [pre] whose first nearest
    entry it holds, ends on the first nearest entry of the whole grid. *)
Lemma part_scan_first_nearest (sp : R) (rest : list R) :
  forall (pre : list R) (closest : R) (k : nat),
    first_nearest (fun x => x) sp pre k closest ->
    first_nearest (fun x => x) sp (pre ++ rest)
      (snd (Part000.scan sp rest (length pre) (Rabs (sp - closest))
                         closest k))
      (fst (Part000.scan sp rest (length pre) (Rabs (sp - closest))
                         closest k)).
Proof.
  induction rest as [| pos tl IH]; intros pre closest k Hpre.
  - simpl. rewrite app_nil_r. exact Hpre.
  - simpl. unfold JS.Math_abs, JS.ltb.
    replace (pre ++ pos :: tl) with ((pre ++ [pos]) ++ tl)
      by (rewrite <- app_assoc; reflexivity).
    replace (S (length pre)) with (length (pre ++ [pos]))
      by (rewrite length_app; simpl; lia).
    destruct (Rlt_dec (Rabs (sp - pos)) (Rabs (sp - closest))) as [Hlt | Hge].
    + apply IH.
      apply first_nearest_snoc_take with (k := k) (c := closest); assumption.
    + apply IH. apply first_nearest_snoc_keep; assumption.
Qed.

Lemma part_nearest_spec (s : Part000.Slider) (sp g0 : R) (rest : list R) :
  Part000.maxTranslate s <= Part000.minTranslate s ->
  exists c : R,
    first_nearest (fun x => x) sp (g0 :: rest)
                  (fst (Part000.nearest sp g0 rest s)) c
    /\ snd (Part000.nearest sp g0 rest s)
       = Rmax (Part000.maxTranslate s) (Rmin c (Part000.minTranslate s))
    /\ Part000.maxTranslate s <= snd (Part000.nearest sp g0 rest s)
       <= Part000.minTranslate s.
Proof.
  intros Hb.
  pose proof (part_scan_first_nearest sp rest [g0] g0 0
                (first_nearest_single (fun x => x) sp g0)) as Hscan.
  simpl in Hscan. unfold Part000.nearest. unfold JS.Math_abs.
  destruct (Part000.scan sp rest 1 (Rabs (sp - g0)) g0 0) as [c k].
  simpl in Hscan. exists c. simpl.
  split; [exact Hscan|].
  unfold JS.gtb, JS.ltb, Rmax, Rmin.
  destruct (Rlt_dec (Part000.minTranslate s) c);
    destruct (Rle_dec c (Part000.minTranslate s)); try lra;
    match goal with
    | |- context [Rlt_dec ?a ?b] => destruct (Rlt_dec a b)
    end;
    match goal with
    | |- context [Rle_dec ?a ?b] => destruct (Rle_dec a b)
    end; split; lra.
Qed.

Lemma part_snapToNearest_pending (s : Part000.Slider) (sp now g0 : R)
      (rest : list R) :
  Part000.slidesGrid s = g0 :: rest ->
  Part000.pending (Part000.snapToNearest (Some sp) now s)
  = Some (Part000.AnimateLoop
            (Part000.currentTranslate (Part000.state s))
            (JS.Num (snd (Part000.nearest sp g0 rest s)
                     - Part000.currentTranslate (Part000.state s)))
            now 500 Part000.easeOutQuart
            (Some (fst (Part000.nearest sp g0 rest s)))).
Proof.
  intros Hg. unfold Part000.snapToNearest. rewrite Hg.
  destruct (Part000.nearest sp g0 rest s) as [k c]. simpl.
  unfold Part000.stopTransition.
  destruct (Part000.rafId (Part000.state s)); reflexivity.
Qed.

Lemma three_slides_part_grid :
  Part000.slidesGrid three_slides_part = [0; -300; -600]
  /\ Part000.minTranslate three_slides_part = 0
  /\ Part000.maxTranslate three_slides_part = -600.
Proof.
  unfold three_slides_part, Part000.create, Part000.init. simpl.
  unfold Part000.gridEntry. simpl.
  split; [| split].
  - repeat (f_equal; try lra).
  - lra.
  - js_minmax. lra.
Qed.

Lemma three_slides_part_nearest :
  Part000.nearest (-620) 0 [-300; -600] three_slides_part = (2%nat, -600).
Proof.
  destruct three_slides_part_grid as (_ & Hmin & Hmax).
  unfold Part000.nearest. rewrite Hmin, Hmax. simpl.
  js_abs. js_cmp. js_abs. js_cmp. reflexivity.
Qed.

(** The scan of [TouchSlider.js], with the same invariant. *)
Lemma touch_scan_first_nearest (pp : R)
      (rest : list TouchSliderJs.SlidePosition) :
  forall (pre : list TouchSliderJs.SlidePosition)
         (c : TouchSliderJs.SlidePosition) (k : nat),
    first_nearest TouchSliderJs.sp_position pp pre k c ->
    exists k',
      first_nearest TouchSliderJs.sp_position pp (pre ++ rest) k'
        (TouchSliderJs.scanNearest pp rest
           (Rabs (pp - TouchSliderJs.sp_position c)) c).
Proof.
  induction rest as [| y tl IH]; intros pre c k Hpre.
  - simpl. rewrite app_nil_r. exists k. exact Hpre.
  - simpl. unfold JS.Math_abs, JS.ltb.
    replace (pre ++ y :: tl) with ((pre ++ [y]) ++ tl)
      by (rewrite <- app_assoc; reflexivity).
    destruct (Rlt_dec (Rabs (pp - TouchSliderJs.sp_position y))
                      (Rabs (pp - TouchSliderJs.sp_position c)))
      as [Hlt | Hge].
    + apply IH with (k := length pre).
      apply first_nearest_snoc_take with (k := k) (c := c); assumption.
    + apply IH with (k := k).
      apply first_nearest_snoc_keep; assumption.
Qed.

Lemma slidePositionsFrom_index (align : TouchSliderJs.SnapAlign) (sw : R)
      (sl : list TouchSliderJs.Slide) :
  forall (i : nat) (off : R) (j : nat) (x : TouchSliderJs.SlidePosition),
    nth_error (TouchSliderJs.slidePositionsFrom align sw sl i off) j = Some x
    -> TouchSliderJs.sp_index x = (i + j)%nat.
Proof.
  induction sl as [| a sl IH]; intros i off j x Hx.
  - destruct j; discriminate.
  - destruct j as [| j]; simpl in Hx.
    + injection Hx as <-. simpl. lia.
    + apply IH in Hx. lia.
Qed.

Lemma clamp_within (v lo hi : R) :
  lo <= hi -> lo <= TouchSliderJs.clamp v lo hi <= hi.
Proof.
  intros H. unfold TouchSliderJs.clamp, JS.Math_min, JS.Math_max, Rmin, Rmax.
  repeat match goal with
         | |- context [Rle_dec ?a ?b] => destruct (Rle_dec a b)
         end; lra.
Qed.

Lemma touch_findNearestSlide_spec (s : TouchSliderJs.Slider) (cp v : R)
      (first : TouchSliderJs.SlidePosition)
      (rest : list TouchSliderJs.SlidePosition) :
  TouchSliderJs.getSlidePositions s = first :: rest ->
  let pp := cp + v * TouchSliderJs.velocityMultiplier
                       (TouchSliderJs.options s) * 100 in
  let c := TouchSliderJs.scanNearest pp (first :: rest)
             (JS.Math_abs (pp - TouchSliderJs.sp_position first)) first in
  let b := TouchSliderJs.getBounds s in
  first_nearest TouchSliderJs.sp_position pp (first :: rest)
                (TouchSliderJs.sp_index c) c
  /\ (TouchSliderJs.bounds_min b <= TouchSliderJs.bounds_max b ->
      TouchSliderJs.bounds_min b
      <= snd (TouchSliderJs.findNearestSlide cp v s)
      <= TouchSliderJs.bounds_max b)
  /\ (Rabs v <= 0.5 ->
      TouchSliderJs.findNearestSlide cp v s
      = (TouchSliderJs.sp_index c,
         TouchSliderJs.clamp (TouchSliderJs.sp_position c)
           (TouchSliderJs.bounds_min b) (TouchSliderJs.bounds_max b))).
Proof.
  intros Hl pp c b. unfold TouchSliderJs.findNearestSlide.
  rewrite Hl. cbv zeta. fold pp. fold c. fold b.
  destruct (touch_scan_first_nearest pp rest [first] first 0
              (first_nearest_single TouchSliderJs.sp_position pp first))
    as [k Hk].
  simpl in Hk.
  assert (Hscan : c = TouchSliderJs.scanNearest pp rest
                        (Rabs (pp - TouchSliderJs.sp_position first)) first).
  { subst c. simpl. unfold JS.Math_abs. rewrite ltb_false by lra.
    reflexivity. }
  rewrite <- Hscan in Hk.
  assert (Hidx : TouchSliderJs.sp_index c = k).
  { destruct Hk as (Hnth & _). rewrite <- Hl in Hnth.
    unfold TouchSliderJs.getSlidePositions in Hnth.
    apply slidePositionsFrom_index in Hnth. lia. }
  rewrite Hidx.
  split; [exact Hk|].
  split.
  - intros Hb. simpl. apply clamp_within. exact Hb.
  - intros Hv. unfold JS.gtb, JS.Math_abs.
    rewrite (ltb_false 0.5 (Rabs v)) by lra.
    rewrite Hidx. reflexivity.
Qed.

Lemma three_slides_touch_nearest :
  TouchSliderJs.findNearestSlide (-620) 0 three_slides_touch = (2%nat, -600).
Proof.
  unfold TouchSliderJs.findNearestSlide, three_slides_touch. simpl.
  unfold TouchSliderJs.clamp, JS.Math_min, JS.Math_max.
  js_abs. js_cmp. js_abs. js_cmp. js_abs. js_cmp. simpl.
  js_minmax. f_equal. lra.
Qed.

(** The slide forced by a fast swipe to the left: the one after the
    current slide, when there is one. *)
Lemma touch_forced_next (s : TouchSliderJs.Slider) (cp v : R)
      (first : TouchSliderJs.SlidePosition)
      (rest : list TouchSliderJs.SlidePosition) :
  TouchSliderJs.getSlidePositions s = first :: rest ->
  v < -0.5 ->
  (S (TouchSliderJs.currentSlideIndex (TouchSliderJs.state s))
   < length (first :: rest))%nat ->
  exists next : TouchSliderJs.SlidePosition,
    nth_error (first :: rest)
              (S (TouchSliderJs.currentSlideIndex (TouchSliderJs.state s)))
    = Some next
    /\ TouchSliderJs.findNearestSlide cp v s
       = (S (TouchSliderJs.currentSlideIndex (TouchSliderJs.state s)),
          TouchSliderJs.clamp (TouchSliderJs.sp_position next)
            (TouchSliderJs.bounds_min (TouchSliderJs.getBounds s))
            (TouchSliderJs.bounds_max (TouchSliderJs.getBounds s))).
Proof.
  intros Hl Hv Hlen. unfold TouchSliderJs.findNearestSlide.
  rewrite Hl. cbv zeta.
  set (cur := TouchSliderJs.currentSlideIndex (TouchSliderJs.state s)) in *.
  unfold JS.gtb, JS.Math_abs.
  rewrite (ltb_true 0.5 (Rabs v)) by (rewrite Rabs_left; lra).
  rewrite (ltb_true v 0) by lra.
  replace (Nat.min (cur + 1) (length (first :: rest) - 1)) with (S cur)
    by lia.
  replace (cur <? S cur)%nat with true by (symmetry; apply Nat.ltb_lt; lia).
  destruct (nth_error (first :: rest) (S cur)) as [next |] eqn:Hn.
  - exists next. split; [reflexivity|].
    rewrite (nth_error_nth _ _ _ Hn).
    rewrite <- Hl in Hn. unfold TouchSliderJs.getSlidePositions in Hn.
    apply slidePositionsFrom_index in Hn. rewrite Hn. reflexivity.
  - apply nth_error_None in Hn. lia.
Qed.

(** The slide forced by a fast swipe to the right: the one before the
    current slide, when there is one. *)
Lemma touch_forced_previous (s : TouchSliderJs.Slider) (cp v : R)
      (first : TouchSliderJs.SlidePosition)
      (rest : list TouchSliderJs.SlidePosition) :
  TouchSliderJs.getSlidePositions s = first :: rest ->
  0.5 < v ->
  (1 <= TouchSliderJs.currentSlideIndex (TouchSliderJs.state s)
   <= length (first :: rest))%nat ->
  exists previous : TouchSliderJs.SlidePosition,
    nth_error (first :: rest)
              (TouchSliderJs.currentSlideIndex (TouchSliderJs.state s) - 1)
    = Some previous
    /\ TouchSliderJs.findNearestSlide cp v s
       = ((TouchSliderJs.currentSlideIndex (TouchSliderJs.state s) - 1)%nat,
          TouchSliderJs.clamp (TouchSliderJs.sp_position previous)
            (TouchSliderJs.bounds_min (TouchSliderJs.getBounds s))
            (TouchSliderJs.bounds_max (TouchSliderJs.getBounds s))).
Proof.
  intros Hl Hv Hcur. unfold TouchSliderJs.findNearestSlide.
  rewrite Hl. cbv zeta.
  set (cur := TouchSliderJs.currentSlideIndex (TouchSliderJs.state s)) in *.
  unfold JS.gtb, JS.Math_abs.
  rewrite (ltb_true 0.5 (Rabs v)) by (rewrite Rabs_pos_eq; lra).
  rewrite (ltb_false v 0) by lra.
  rewrite (ltb_true 0 v) by lra.
  replace (Nat.max (cur - 1) 0) with (cur - 1)%nat by lia.
  replace (cur - 1 <? cur)%nat with true
    by (symmetry; apply Nat.ltb_lt; lia).
  destruct (nth_error (first :: rest) (cur - 1)) as [previous |] eqn:Hn.
  - exists previous. split; [reflexivity|].
    rewrite (nth_error_nth _ _ _ Hn).
    rewrite <- Hl in Hn. unfold TouchSliderJs.getSlidePositions in Hn.
    apply slidePositionsFrom_index in Hn. rewrite Hn. reflexivity.
  - apply nth_error_None in Hn. lia.
Qed.

(** C2, as stated, fails on [findNearestSlide] of [TouchSlider.js]: on the
    first of three slides, at the offset 0 with the velocity -0.6, the
    projected position is -72, whose nearest grid entry is the entry 0 at
    distance 72; the function returns the slide 1 at -300, at distance
    228. *)
Lemma C2_counterexample :
  TouchSliderJs.currentSlideIndex (TouchSliderJs.state three_slides_touch)
  = 0%nat
  /\ 0 + -0.6 * TouchSliderJs.velocityMultiplier
                  (TouchSliderJs.options three_slides_touch) * 100 = -72
  /\ TouchSliderJs.findNearestSlide 0 (-0.6) three_slides_touch
     = (1%nat, -300)
  /\ Rabs (-72 - 0) < Rabs (-72 - -300).
Proof.
  split; [reflexivity|]. split; [simpl; lra|]. split.
  - destruct (touch_forced_next three_slides_touch 0 (-0.6)
                {| TouchSliderJs.sp_index := 0;
                   TouchSliderJs.sp_position := - 0;
                   TouchSliderJs.sp_width := 300;
                   TouchSliderJs.sp_offset := 0 |}
                (TouchSliderJs.slidePositionsFrom TouchSliderJs.start
                   (0 + 300 + 300 + 300 - 300 + 300 - 300 + 300)
                   [ {| TouchSliderJs.offsetWidth := 300 |};
                     {| TouchSliderJs.offsetWidth := 300 |} ] 1 (0 + 300)))
      as (next & Hn & Hf).
    + unfold TouchSliderJs.getSlidePositions. simpl.
      repeat f_equal; lra.
    + lra.
    + simpl. lia.
    + rewrite Hf. simpl in Hn. injection Hn as <-. simpl.
      unfold TouchSliderJs.clamp. js_minmax. f_equal. lra.
  - rewrite (Rabs_left (-72 - 0)) by lra.
    rewrite (Rabs_pos_eq (-72 - -300)) by lra. lra.
Qed.

(** C2, amended: for a non-empty slide grid and any search position,
    [snapToNearest] of [part_000] picks the first entry of the grid that
    minimizes the distance to the search position, and the target offset it
    passes on lies within [maxTranslate, minTranslate] when these are
    ordered; with grid [0, -300, -600] and bounds 0 and -600 a search at
    -620 gives the target -600 and the slide index 2.  The scan of
    [findNearestSlide] of [TouchSlider.js] picks the first nearest entry
    for the projected position and returns it while the velocity does not
    exceed 0.5 in magnitude; above that, the slide after the current one
    (velocity below -0.5) or before it (velocity above 0.5) is returned
    when there is one; in every case the returned offset is clamped into
    the bounds of [getBounds] when these are ordered. *)
Theorem C2_nearest_slide :
  (forall (s : Part000.Slider) (sp now g0 : R) (rest : list R),
      Part000.slidesGrid s = g0 :: rest ->
      Part000.maxTranslate s <= Part000.minTranslate s ->
      exists (k : nat) (c target : R),
        first_nearest (fun x => x) sp (g0 :: rest) k c
        /\ target
           = Rmax (Part000.maxTranslate s) (Rmin c (Part000.minTranslate s))
        /\ Part000.maxTranslate s <= target <= Part000.minTranslate s
        /\ Part000.pending (Part000.snapToNearest (Some sp) now s)
           = Some (Part000.AnimateLoop
                     (Part000.currentTranslate (Part000.state s))
                     (JS.Num (target
                              - Part000.currentTranslate (Part000.state s)))
                     now 500 Part000.easeOutQuart (Some k)))
  /\ (forall (s : TouchSliderJs.Slider) (cp v : R)
             (first : TouchSliderJs.SlidePosition)
             (rest : list TouchSliderJs.SlidePosition),
         TouchSliderJs.getSlidePositions s = first :: rest ->
         let pp := cp + v * TouchSliderJs.velocityMultiplier
                              (TouchSliderJs.options s) * 100 in
         let c := TouchSliderJs.scanNearest pp (first :: rest)
                    (JS.Math_abs (pp - TouchSliderJs.sp_position first))
                    first in
         let b := TouchSliderJs.getBounds s in
         first_nearest TouchSliderJs.sp_position pp (first :: rest)
                       (TouchSliderJs.sp_index c) c
         /\ (TouchSliderJs.bounds_min b <= TouchSliderJs.bounds_max b ->
             TouchSliderJs.bounds_min b
             <= snd (TouchSliderJs.findNearestSlide cp v s)
             <= TouchSliderJs.bounds_max b)
         /\ (Rabs v <= 0.5 ->
             TouchSliderJs.findNearestSlide cp v s
             = (TouchSliderJs.sp_index c,
                TouchSliderJs.clamp (TouchSliderJs.sp_position c)
                  (TouchSliderJs.bounds_min b)
                  (TouchSliderJs.bounds_max b))))
  /\ (forall (s : TouchSliderJs.Slider) (cp v : R)
             (first : TouchSliderJs.SlidePosition)
             (rest : list TouchSliderJs.SlidePosition),
         TouchSliderJs.getSlidePositions s = first :: rest ->
         v < -0.5 ->
         (S (TouchSliderJs.currentSlideIndex (TouchSliderJs.state s))
          < length (first :: rest))%nat ->
         exists next : TouchSliderJs.SlidePosition,
           nth_error (first :: rest)
             (S (TouchSliderJs.currentSlideIndex (TouchSliderJs.state s)))
           = Some next
           /\ TouchSliderJs.findNearestSlide cp v s
              = (S (TouchSliderJs.currentSlideIndex (TouchSliderJs.state s)),
                 TouchSliderJs.clamp (TouchSliderJs.sp_position next)
                   (TouchSliderJs.bounds_min (TouchSliderJs.getBounds s))
                   (TouchSliderJs.bounds_max (TouchSliderJs.getBounds s))))
  /\ (forall (s : TouchSliderJs.Slider) (cp v : R)
             (first : TouchSliderJs.SlidePosition)
             (rest : list TouchSliderJs.SlidePosition),
         TouchSliderJs.getSlidePositions s = first :: rest ->
         0.5 < v ->
         (1 <= TouchSliderJs.currentSlideIndex (TouchSliderJs.state s)
          <= length (first :: rest))%nat ->
         exists previous : TouchSliderJs.SlidePosition,
           nth_error (first :: rest)
             (TouchSliderJs.currentSlideIndex (TouchSliderJs.state s) - 1)
           = Some previous
           /\ TouchSliderJs.findNearestSlide cp v s
              = ((TouchSliderJs.currentSlideIndex (TouchSliderJs.state s)
                  - 1)%nat,
                 TouchSliderJs.clamp (TouchSliderJs.sp_position previous)
                   (TouchSliderJs.bounds_min (TouchSliderJs.getBounds s))
                   (TouchSliderJs.bounds_max (TouchSliderJs.getBounds s))))
  /\ (Part000.slidesGrid three_slides_part = [0; -300; -600]
      /\ Part000.minTranslate three_slides_part = 0
      /\ Part000.maxTranslate three_slides_part = -600
      /\ forall now : R,
          Part000.pending
            (Part000.snapToNearest (Some (-620)) now three_slides_part)
          = Some (Part000.AnimateLoop 0 (JS.Num (-600)) now 500
                    Part000.easeOutQuart (Some 2%nat)))
  /\ TouchSliderJs.findNearestSlide (-620) 0 three_slides_touch
     = (2%nat, -600).
Proof.
  split.
  { intros s sp now g0 rest Hg Hb.
    destruct (part_nearest_spec s sp g0 rest Hb) as (c & Hc & Ht & Hin).
    exists (fst (Part000.nearest sp g0 rest s)), c,
           (snd (Part000.nearest sp g0 rest s)).
    repeat split; try assumption; try apply Hc; try apply Hin.
    apply part_snapToNearest_pending. exact Hg. }
  split; [exact touch_findNearestSlide_spec|].
  split; [exact touch_forced_next|].
  split; [exact touch_forced_previous|].
  split; [| exact three_slides_touch_nearest].
  destruct three_slides_part_grid as (Hg & Hmin & Hmax).
  repeat split; try assumption.
  intros now.
  rewrite (part_snapToNearest_pending three_slides_part (-620) now 0
             [-300; -600] Hg).
  rewrite three_slides_part_nearest. simpl.
  do 2 f_equal; [lra | f_equal; lra].
Qed.

(** The scenario grid, searched at -620. *)
Lemma C2_nearest_slide_witness :
  exists (k : nat) (c target : R),
    first_nearest (fun x => x) (-620) (0 :: [-300; -600]) k c
    /\ target = Rmax (Part000.maxTranslate three_slides_part)
                     (Rmin c (Part000.minTranslate three_slides_part))
    /\ Part000.maxTranslate three_slides_part <= target
       <= Part000.minTranslate three_slides_part
    /\ Part000.pending
         (Part000.snapToNearest (Some (-620)) 0 three_slides_part)
       = Some (Part000.AnimateLoop
                 (Part000.currentTranslate
                    (Part000.state three_slides_part))
                 (JS.Num (target
                          - Part000.currentTranslate
                              (Part000.state three_slides_part)))
                 0 500 Part000.easeOutQuart (Some k)).
Proof.
  destruct C2_nearest_slide as (H & _).
  apply (H three_slides_part (-620) 0 0 [-300; -600]).
  - simpl. unfold Part000.gridEntry. simpl. repeat (f_equal; try lra).
  - simpl. unfold Part000.gridEntry. simpl. js_minmax. lra.
Defined.

(** ** Resistance at the edges during a drag *)

Lemma Math_sign_pos (a : R) : 0 < a -> JS.Math_sign a = 1.
Proof.
  intros H. unfold JS.Math_sign. destruct (Rlt_dec 0 a); [reflexivity | lra].
Qed.

Lemma Math_pow_pos (a b : R) : 0 < a -> JS.Math_pow a b = Rpower a b.
Proof.
  intros H. unfold JS.Math_pow. destruct (Rlt_dec 0 a); [reflexivity | lra].
Qed.

Lemma Rpower_pos (a b : R) : 0 < Rpower a b.
Proof. unfold Rpower. apply exp_pos. Qed.

Lemma Rpower_base_1 (c : R) : Rpower 1 c = 1.
Proof. unfold Rpower. rewrite ln_1, Rmult_0_r. apply exp_0. Qed.

Lemma Rpower_split (o a b : R) :
  0 < o -> a + b = 1 -> Rpower o a * Rpower o b = o.
Proof.
  intros Ho Hab. rewrite <- Rpower_plus, Hab. apply Rpower_1. exact Ho.
Qed.

(** The exponent 0.3 decides on which side of the raw overshoot the damped
    overshoot of [TouchSlider.js] falls. *)
Lemma damped07_lt_iff (o : R) :
  0 < o -> (Rpower o 0.7 * 0.5 < o <-> 0.5 < Rpower o 0.3).
Proof.
  intros Ho.
  pose proof (Rpower_split o 0.7 0.3 Ho ltac:(lra)) as Hs.
  pose proof (Rpower_pos o 0.7) as Ha.
  pose proof (Rpower_pos o 0.3) as Hb.
  split; intros H; nra.
Qed.

Lemma Rpower_ge_1 (o c : R) : 1 <= o -> 0 <= c -> 1 <= Rpower o c.
Proof.
  intros Ho Hc. rewrite <- (Rpower_base_1 c).
  apply Rle_Rpower_l; lra.
Qed.

Lemma Rpower_le_1 (o c : R) : 0 < o <= 1 -> 0 <= c -> Rpower o c <= 1.
Proof.
  intros Ho Hc. rewrite <- (Rpower_base_1 c).
  apply Rle_Rpower_l; lra.
Qed.

Lemma damped07_lt_of_ge_1 (o : R) : 1 <= o -> Rpower o 0.7 * 0.5 < o.
Proof.
  intros Ho. apply damped07_lt_iff; [lra|].
  pose proof (Rpower_ge_1 o 0.3 Ho ltac:(lra)). lra.
Qed.

(** In [slider.js] the overscroll raised to 0.75 is below the overscroll
    exactly above one pixel. *)
Lemma damped075_lt_iff (o : R) : 0 < o -> (Rpower o 0.75 < o <-> 1 < o).
Proof.
  intros Ho.
  pose proof (Rpower_split o 0.75 0.25 Ho ltac:(lra)) as Hs.
  pose proof (Rpower_pos o 0.75) as Ha.
  split; intros H.
  - apply Rnot_le_lt. intros Hle.
    pose proof (Rpower_le_1 o 0.25 (conj Ho Hle) ltac:(lra)). nra.
  - assert (1 < Rpower o 0.25).
    { rewrite <- (Rpower_O o Ho). apply Rpower_lt; lra. }
    nra.
Qed.

Lemma Rpower_2_nat (n : nat) : Rpower 2 (INR n) = 2 ^ n.
Proof. apply Rpower_pow. lra. Qed.

Lemma Rpower_1024_07 : Rpower (1 / 1024) 0.7 = 1 / 128.
Proof.
  replace (1 / 1024) with (Rpower 2 (- INR 10)).
  - rewrite Rpower_mult.
    replace (- INR 10 * 0.7) with (- INR 7) by (simpl; lra).
    rewrite Rpower_Ropp, Rpower_2_nat. simpl. lra.
  - rewrite Rpower_Ropp, Rpower_2_nat. simpl. lra.
Qed.

Lemma Rpower_100_07_bounds : 25.1 < Rpower 100 0.7 < 25.2.
Proof.
  pose proof (Rpower_pos 100 0.7) as Hy.
  assert (H10 : Rpower 100 0.7 ^ 10 = 100 ^ 7).
  { rewrite <- (Rpower_pow 10) by exact Hy. rewrite Rpower_mult.
    replace (0.7 * INR 10) with (INR 7) by (simpl; lra).
    apply Rpower_pow. lra. }
  split; apply Rnot_le_lt; intros Hle.
  - assert (H : Rpower 100 0.7 ^ 10 <= 25.1 ^ 10) by (apply pow_incr; lra).
    rewrite H10 in H. simpl in H. lra.
  - assert (H : 25.2 ^ 10 <= Rpower 100 0.7 ^ 10) by (apply pow_incr; lra).
    rewrite H10 in H. simpl in H. lra.
Qed.

Lemma touch_rubber_right (s : TouchSliderJs.Slider) (position delta : R) :
  TouchSliderJs.bounds_max (TouchSliderJs.getBounds s) < position ->
  TouchSliderJs.applyRubberBand position delta s
  = TouchSliderJs.bounds_max (TouchSliderJs.getBounds s)
    + Rpower (position - TouchSliderJs.bounds_max (TouchSliderJs.getBounds s))
             0.7 * 0.5.
Proof.
  intros H. unfold TouchSliderJs.applyRubberBand. cbv zeta.
  set (b := TouchSliderJs.getBounds s) in *.
  unfold JS.gtb, JS.geb.
  rewrite (leb_false position (TouchSliderJs.bounds_max b)) by lra.
  rewrite andb_false_r.
  rewrite (ltb_true (TouchSliderJs.bounds_max b) position) by lra.
  rewrite Math_sign_pos by lra.
  unfold JS.Math_abs. rewrite Rabs_pos_eq by lra.
  rewrite Math_pow_pos by lra. lra.
Qed.

Lemma touch_rubber_left (s : TouchSliderJs.Slider) (position delta : R) :
  position < TouchSliderJs.bounds_min (TouchSliderJs.getBounds s) ->
  position <= TouchSliderJs.bounds_max (TouchSliderJs.getBounds s) ->
  TouchSliderJs.applyRubberBand position delta s
  = TouchSliderJs.bounds_min (TouchSliderJs.getBounds s)
    - Rpower (TouchSliderJs.bounds_min (TouchSliderJs.getBounds s) - position)
             0.7 * 0.5.
Proof.
  intros H1 H2. unfold TouchSliderJs.applyRubberBand. cbv zeta.
  set (b := TouchSliderJs.getBounds s) in *.
  unfold JS.gtb, JS.geb.
  rewrite (leb_false (TouchSliderJs.bounds_min b) position) by lra.
  rewrite andb_false_l.
  rewrite (ltb_false (TouchSliderJs.bounds_max b) position) by lra.
  rewrite (ltb_true position (TouchSliderJs.bounds_min b)) by lra.
  rewrite Math_sign_pos by lra.
  unfold JS.Math_abs. rewrite Rabs_pos_eq by lra.
  rewrite Math_pow_pos by lra. lra.
Qed.

Lemma slider_resist_right (s : SliderJs.Slider) (translate : R) :
  SliderJs.minTranslate s < translate ->
  SliderJs.resist translate s
  = SliderJs.minTranslate s
    + Rpower (translate - SliderJs.minTranslate s) 0.75.
Proof.
  intros H. unfold SliderJs.resist, JS.gtb.
  rewrite ltb_true by lra. rewrite Math_pow_pos by lra. reflexivity.
Qed.

Lemma slider_resist_left (s : SliderJs.Slider) (translate : R) :
  translate < SliderJs.maxTranslate s ->
  translate <= SliderJs.minTranslate s ->
  SliderJs.resist translate s
  = SliderJs.maxTranslate s
    - Rpower (SliderJs.maxTranslate s - translate) 0.75.
Proof.
  intros H1 H2. unfold SliderJs.resist, JS.gtb.
  rewrite (ltb_false (SliderJs.minTranslate s) translate) by lra.
  rewrite ltb_true by lra. rewrite Math_pow_pos by lra. reflexivity.
Qed.

(** A horizontal move of [TouchSlider.js] applies [applyRubberBand] to the
    desired offset. *)
Lemma touch_move_applies_rubber (e : TouchEvent) (now : R)
      (s : TouchSliderJs.Slider) :
  TouchSliderJs.isTouching (TouchSliderJs.touch s) = true ->
  TouchSliderJs.isDirectionDetermined (TouchSliderJs.touch s) = true ->
  TouchSliderJs.isHorizontalSwipe (TouchSliderJs.touch s) = true ->
  TouchSliderJs.currentX
    (TouchSliderJs.state (TouchSliderJs.handleTouchMove e now s))
  = TouchSliderJs.applyRubberBand
      (TouchSliderJs.startPositionX (TouchSliderJs.touch s)
       + (clientX e - TouchSliderJs.startX (TouchSliderJs.touch s)))
      (clientX e - TouchSliderJs.startX (TouchSliderJs.touch s)) s.
Proof.
  intros Ht Hd Hh. unfold TouchSliderJs.handleTouchMove.
  rewrite Ht. simpl. unfold TouchSliderJs.determineDirection. simpl.
  rewrite Hd. simpl. rewrite Hd, Hh. simpl. reflexivity.
Qed.

(** A horizontal move of [slider.js] applies [resist] to the desired
    offset. *)
Lemma slider_move_applies_resist (e : TouchEvent) (now : R)
      (s : SliderJs.Slider) :
  SliderJs.isDragging (SliderJs.state s) = true ->
  SliderJs.isHorizontal (SliderJs.state s) = Some true ->
  SliderJs.currentTranslate
    (SliderJs.state (SliderJs.onTouchMove e now s))
  = SliderJs.resist
      (SliderJs.startTranslate (SliderJs.state s)
       + (clientX e - SliderJs.startTouchX (SliderJs.state s))) s.
Proof.
  intros Hd Hh. unfold SliderJs.onTouchMove. rewrite Hd. simpl.
  unfold SliderJs.lockDirection. rewrite Hh. rewrite Hh. simpl. reflexivity.
Qed.

Lemma three_slides_slider_bounds :
  SliderJs.slidesGrid three_slides_slider = [0; -300; -600]
  /\ SliderJs.minTranslate three_slides_slider = 0
  /\ SliderJs.maxTranslate three_slides_slider = -600.
Proof.
  unfold three_slides_slider. simpl.
  split; [| split]; try lra.
  repeat (f_equal; try lra).
Qed.

(** C3, as stated, fails on both files.  In [applyRubberBand] of
    [TouchSlider.js] a desired offset 1/1024 px past the right bound is
    applied as 1/256 px past it, more than the raw overshoot.  In
    [slider.js] a desired offset one pixel past the upper bound is applied
    as one pixel past it, not less than the raw overshoot. *)
Lemma C3_counterexample :
  (TouchSliderJs.bounds_max (TouchSliderJs.getBounds three_slides_touch)
   < 1 / 1024
   /\ TouchSliderJs.applyRubberBand (1 / 1024) (1 / 1024) three_slides_touch
      = TouchSliderJs.bounds_max (TouchSliderJs.getBounds three_slides_touch)
        + 1 / 256
   /\ ~ (TouchSliderJs.applyRubberBand (1 / 1024) (1 / 1024)
           three_slides_touch
         - TouchSliderJs.bounds_max
             (TouchSliderJs.getBounds three_slides_touch)
         < 1 / 1024
           - TouchSliderJs.bounds_max
               (TouchSliderJs.getBounds three_slides_touch)))
  /\ (SliderJs.minTranslate three_slides_slider < 1
      /\ SliderJs.resist 1 three_slides_slider
         = SliderJs.minTranslate three_slides_slider + 1
      /\ ~ (SliderJs.resist 1 three_slides_slider
            - SliderJs.minTranslate three_slides_slider
            < 1 - SliderJs.minTranslate three_slides_slider)).
Proof.
  split.
  - assert (Hmax : TouchSliderJs.bounds_max
                     (TouchSliderJs.getBounds three_slides_touch) = 0)
      by reflexivity.
    assert (Happ : TouchSliderJs.applyRubberBand (1 / 1024) (1 / 1024)
                     three_slides_touch = 0 + 1 / 256).
    { rewrite touch_rubber_right by (rewrite Hmax; lra).
      rewrite Hmax. replace (1 / 1024 - 0) with (1 / 1024) by lra.
      rewrite Rpower_1024_07. lra. }
    rewrite Hmax, Happ. repeat split; lra.
  - destruct three_slides_slider_bounds as (_ & Hmin & _).
    assert (Happ : SliderJs.resist 1 three_slides_slider = 0 + 1).
    { rewrite slider_resist_right by (rewrite Hmin; lra).
      rewrite Hmin. replace (1 - 0) with 1 by lra.
      rewrite Rpower_base_1. reflexivity. }
    rewrite Hmin, Happ. repeat split; lra.
Qed.

(** C3, amended: past a bound the applied offset is the bound plus (or
    minus) the damped overshoot, [0.5 * o^0.7] in [TouchSlider.js] and
    [o^0.75] in [slider.js].  The applied offset moves strictly less than
    the raw overshoot [o] exactly when [o^0.3 > 0.5] in [TouchSlider.js],
    in particular for every overshoot of at least one pixel, and exactly
    when [o > 1] in [slider.js].  With [f(o) = o^0.7 * 0.5] a desired
    offset of 100 past the bound 0 is applied as an offset between 12.55
    and 12.6, strictly less than 100. *)
Theorem C3_drag_resistance :
  (forall (s : TouchSliderJs.Slider) (position delta : R),
      let b := TouchSliderJs.getBounds s in
      let applied := TouchSliderJs.applyRubberBand position delta s in
      TouchSliderJs.bounds_max b < position ->
      applied = TouchSliderJs.bounds_max b
                + Rpower (position - TouchSliderJs.bounds_max b) 0.7 * 0.5
      /\ (applied - TouchSliderJs.bounds_max b
          < position - TouchSliderJs.bounds_max b
          <-> 0.5 < Rpower (position - TouchSliderJs.bounds_max b) 0.3)
      /\ (1 <= position - TouchSliderJs.bounds_max b ->
          applied - TouchSliderJs.bounds_max b
          < position - TouchSliderJs.bounds_max b))
  /\ (forall (s : TouchSliderJs.Slider) (position delta : R),
         let b := TouchSliderJs.getBounds s in
         let applied := TouchSliderJs.applyRubberBand position delta s in
         position < TouchSliderJs.bounds_min b ->
         position <= TouchSliderJs.bounds_max b ->
         applied = TouchSliderJs.bounds_min b
                   - Rpower (TouchSliderJs.bounds_min b - position) 0.7 * 0.5
         /\ (TouchSliderJs.bounds_min b - applied
             < TouchSliderJs.bounds_min b - position
             <-> 0.5 < Rpower (TouchSliderJs.bounds_min b - position) 0.3)
         /\ (1 <= TouchSliderJs.bounds_min b - position ->
             TouchSliderJs.bounds_min b - applied
             < TouchSliderJs.bounds_min b - position))
  /\ (forall (e : TouchEvent) (now : R) (s : TouchSliderJs.Slider),
         TouchSliderJs.isTouching (TouchSliderJs.touch s) = true ->
         TouchSliderJs.isDirectionDetermined (TouchSliderJs.touch s) = true ->
         TouchSliderJs.isHorizontalSwipe (TouchSliderJs.touch s) = true ->
         TouchSliderJs.currentX
           (TouchSliderJs.state (TouchSliderJs.handleTouchMove e now s))
         = TouchSliderJs.applyRubberBand
             (TouchSliderJs.startPositionX (TouchSliderJs.touch s)
              + (clientX e - TouchSliderJs.startX (TouchSliderJs.touch s)))
             (clientX e - TouchSliderJs.startX (TouchSliderJs.touch s)) s)
  /\ (forall (s : SliderJs.Slider) (translate : R),
         let applied := SliderJs.resist translate s in
         SliderJs.minTranslate s < translate ->
         applied = SliderJs.minTranslate s
                   + Rpower (translate - SliderJs.minTranslate s) 0.75
         /\ (applied - SliderJs.minTranslate s
             < translate - SliderJs.minTranslate s
             <-> 1 < translate - SliderJs.minTranslate s))
  /\ (forall (s : SliderJs.Slider) (translate : R),
         let applied := SliderJs.resist translate s in
         translate < SliderJs.maxTranslate s ->
         translate <= SliderJs.minTranslate s ->
         applied = SliderJs.maxTranslate s
                   - Rpower (SliderJs.maxTranslate s - translate) 0.75
         /\ (SliderJs.maxTranslate s - applied
             < SliderJs.maxTranslate s - translate
             <-> 1 < SliderJs.maxTranslate s - translate))
  /\ (forall (e : TouchEvent) (now : R) (s : SliderJs.Slider),
         SliderJs.isDragging (SliderJs.state s) = true ->
         SliderJs.isHorizontal (SliderJs.state s) = Some true ->
         SliderJs.currentTranslate
           (SliderJs.state (SliderJs.onTouchMove e now s))
         = SliderJs.resist
             (SliderJs.startTranslate (SliderJs.state s)
              + (clientX e - SliderJs.startTouchX (SliderJs.state s))) s)
  /\ (forall (s : TouchSliderJs.Slider) (delta : R),
         TouchSliderJs.applyRubberBand 100 delta s
         = 0 + Rpower 100 0.7 * 0.5
         /\ 12.55 < TouchSliderJs.applyRubberBand 100 delta s < 12.6
         /\ TouchSliderJs.applyRubberBand 100 delta s < 100).
Proof.
  split.
  { intros s position delta b applied H. subst applied b.
    rewrite (touch_rubber_right s position delta H).
    set (m := TouchSliderJs.bounds_max (TouchSliderJs.getBounds s)) in *.
    split; [reflexivity|].
    assert (Ho : 0 < position - m) by lra.
    pose proof (damped07_lt_iff (position - m) Ho) as Hiff.
    split.
    - split; intros Hx.
      + apply Hiff. lra.
      + apply Hiff in Hx. lra.
    - intros H1. pose proof (damped07_lt_of_ge_1 (position - m) H1). lra. }
  split.
  { intros s position delta b applied H1 H2. subst applied b.
    rewrite (touch_rubber_left s position delta H1 H2).
    set (m := TouchSliderJs.bounds_min (TouchSliderJs.getBounds s)) in *.
    split; [reflexivity|].
    assert (Ho : 0 < m - position) by lra.
    pose proof (damped07_lt_iff (m - position) Ho) as Hiff.
    split.
    - split; intros Hx.
      + apply Hiff. lra.
      + apply Hiff in Hx. lra.
    - intros H3. pose proof (damped07_lt_of_ge_1 (m - position) H3). lra. }
  split; [exact touch_move_applies_rubber|].
  split.
  { intros s translate applied H. subst applied.
    rewrite (slider_resist_right s translate H).
    split; [reflexivity|].
    assert (Ho : 0 < translate - SliderJs.minTranslate s) by lra.
    pose proof (damped075_lt_iff _ Ho) as Hiff.
    split; intros Hx.
    - apply Hiff. lra.
    - apply Hiff in Hx. lra. }
  split.
  { intros s translate applied H1 H2. subst applied.
    rewrite (slider_resist_left s translate H1 H2).
    split; [reflexivity|].
    assert (Ho : 0 < SliderJs.maxTranslate s - translate) by lra.
    pose proof (damped075_lt_iff _ Ho) as Hiff.
    split; intros Hx.
    - apply Hiff. lra.
    - apply Hiff in Hx. lra. }
  split; [exact slider_move_applies_resist|].
  intros s delta.
  assert (Hmax : TouchSliderJs.bounds_max (TouchSliderJs.getBounds s) = 0)
    by reflexivity.
  rewrite (touch_rubber_right s 100 delta) by (rewrite Hmax; lra).
  rewrite Hmax. replace (100 - 0) with 100 by lra.
  pose proof Rpower_100_07_bounds. repeat split; lra.
Qed.

(** A desired offset 100 past the right bound of the scenario carousel. *)
Lemma C3_drag_resistance_witness :
  TouchSliderJs.applyRubberBand 100 100 three_slides_touch
  - TouchSliderJs.bounds_max (TouchSliderJs.getBounds three_slides_touch)
  < 100
    - TouchSliderJs.bounds_max (TouchSliderJs.getBounds three_slides_touch).
Proof.
  destruct C3_drag_resistance as (H & _).
  apply (H three_slides_touch 100 100); simpl; lra.
Defined.

(** ** Direction lock *)

Lemma slider_move_locked (e : TouchEvent) (now : R) (s : SliderJs.Slider)
      (b : bool) :
  SliderJs.isHorizontal (SliderJs.state s) = Some b ->
  SliderJs.isHorizontal (SliderJs.state (SliderJs.onTouchMove e now s))
  = Some b.
Proof.
  intros Hh. unfold SliderJs.onTouchMove, SliderJs.lockDirection.
  destruct (SliderJs.isDragging (SliderJs.state s)); simpl; [| exact Hh].
  rewrite Hh. rewrite Hh. destruct b; simpl; exact Hh.
Qed.

Lemma slider_moves_locked (moves : list (TouchEvent * R)) :
  forall (s : SliderJs.Slider) (b : bool),
    SliderJs.isHorizontal (SliderJs.state s) = Some b ->
    SliderJs.isHorizontal (SliderJs.state (slider_moves moves s)) = Some b.
Proof.
  induction moves as [| m moves IH]; intros s b Hh; [exact Hh|].
  simpl. apply IH. apply slider_move_locked. exact Hh.
Qed.

(** Inside the dead zone the handler returns at once. *)
Lemma slider_move_inside (e : TouchEvent) (now : R) (s : SliderJs.Slider) :
  SliderJs.isHorizontal (SliderJs.state s) = None ->
  Rabs (clientX e - SliderJs.startTouchX (SliderJs.state s)) < 10 ->
  Rabs (clientY e - SliderJs.startTouchY (SliderJs.state s)) < 10 ->
  SliderJs.onTouchMove e now s = s.
Proof.
  intros Hh Hx Hy. unfold SliderJs.onTouchMove, SliderJs.lockDirection.
  destruct (SliderJs.isDragging (SliderJs.state s)); simpl; [| reflexivity].
  rewrite Hh. unfold JS.Math_abs.
  rewrite (ltb_true _ _ Hx), (ltb_true _ _ Hy). reflexivity.
Qed.

(** Outside of it the direction is set from the angle. *)
Lemma slider_move_outside (e : TouchEvent) (now : R) (s : SliderJs.Slider) :
  SliderJs.isDragging (SliderJs.state s) = true ->
  SliderJs.isHorizontal (SliderJs.state s) = None ->
  ~ (Rabs (clientX e - SliderJs.startTouchX (SliderJs.state s)) < 10
     /\ Rabs (clientY e - SliderJs.startTouchY (SliderJs.state s)) < 10) ->
  SliderJs.isHorizontal (SliderJs.state (SliderJs.onTouchMove e now s))
  = Some (JS.ltb
            (JS.Math_atan2
               (Rabs (clientY e - SliderJs.startTouchY (SliderJs.state s)))
               (Rabs (clientX e - SliderJs.startTouchX (SliderJs.state s)))
             * 180 / JS.Math_PI)
            (SliderJs.angleThreshold (SliderJs.options s))).
Proof.
  intros Hd Hh Hout. unfold SliderJs.onTouchMove, SliderJs.lockDirection.
  rewrite Hd. simpl. rewrite Hh. unfold JS.Math_abs.
  assert (Hz : JS.ltb (Rabs (clientX e
                             - SliderJs.startTouchX (SliderJs.state s))) 10
               && JS.ltb (Rabs (clientY e
                                - SliderJs.startTouchY (SliderJs.state s))) 10
               = false).
  { apply andb_false_iff.
    destruct (Rlt_dec (Rabs (clientX e
                             - SliderJs.startTouchX (SliderJs.state s))) 10)
      as [Hx | Hx].
    - right. apply ltb_false. intros Hy. apply Hout. split; assumption.
    - left. apply ltb_false. exact Hx. }
  rewrite Hz.
  destruct (JS.ltb _ (SliderJs.angleThreshold _)); simpl; reflexivity.
Qed.

Lemma slider_start_state (e0 : TouchEvent) (now0 : R) (s : SliderJs.Slider) :
  let s0 := SliderJs.onTouchStart e0 now0 s in
  SliderJs.isDragging (SliderJs.state s0) = true
  /\ SliderJs.isHorizontal (SliderJs.state s0) = None
  /\ SliderJs.startTouchX (SliderJs.state s0) = clientX e0
  /\ SliderJs.startTouchY (SliderJs.state s0) = clientY e0
  /\ SliderJs.options s0 = SliderJs.options s.
Proof.
  unfold SliderJs.onTouchStart, SliderJs.stopTransition.
  destruct (SliderJs.rafId (SliderJs.state s)); simpl; repeat split.
Qed.

Lemma slider_moves_inside (e0 : TouchEvent)
      (moves : list (TouchEvent * R)) :
  forall s : SliderJs.Slider,
    SliderJs.isHorizontal (SliderJs.state s) = None ->
    SliderJs.startTouchX (SliderJs.state s) = clientX e0 ->
    SliderJs.startTouchY (SliderJs.state s) = clientY e0 ->
    Forall (fun m => inside_open 10 e0 (fst m)) moves ->
    slider_moves moves s = s.
Proof.
  induction moves as [| m moves IH]; intros s Hh Hx Hy Hall; [reflexivity|].
  inversion Hall as [| m' l' [Hmx Hmy] Hrest]; subst.
  simpl. rewrite slider_move_inside; try assumption.
  - apply IH; assumption.
  - rewrite Hx. exact Hmx.
  - rewrite Hy. exact Hmy.
Qed.

Lemma slider_session_lock (s : SliderJs.Slider) (e0 : TouchEvent) (now0 : R)
      (pre : list (TouchEvent * R)) (e : TouchEvent) (now : R)
      (post : list (TouchEvent * R)) :
  Forall (fun m => inside_open 10 e0 (fst m)) pre ->
  ~ inside_open 10 e0 e ->
  SliderJs.isHorizontal
    (SliderJs.state (slider_session s e0 now0 (pre ++ (e, now) :: post)))
  = Some (JS.ltb (displacement_angle e0 e * 180 / JS.Math_PI)
                 (SliderJs.angleThreshold (SliderJs.options s))).
Proof.
  intros Hpre Hout. unfold slider_session, slider_moves.
  destruct (slider_start_state e0 now0 s) as (Hd & Hh & Hx & Hy & Ho).
  rewrite fold_left_app.
  fold (slider_moves pre (SliderJs.onTouchStart e0 now0 s)).
  rewrite (slider_moves_inside e0 pre _ Hh Hx Hy Hpre).
  simpl. fold (slider_moves post).
  apply slider_moves_locked.
  rewrite (slider_move_outside e now _ Hd Hh).
  - rewrite Hx, Hy, Ho. reflexivity.
  - rewrite Hx, Hy. exact Hout.
Qed.

Lemma touch_start_state (e0 : TouchEvent) (now0 : R)
      (s : TouchSliderJs.Slider) :
  touch_undetermined e0 (TouchSliderJs.handleTouchStart e0 now0 s).
Proof. repeat split. Qed.

Lemma touch_move_inside (e0 e : TouchEvent) (now : R)
      (s : TouchSliderJs.Slider) :
  touch_undetermined e0 s ->
  inside_closed 10 e0 e ->
  touch_undetermined e0 (TouchSliderJs.handleTouchMove e now s).
Proof.
  intros (Ht & Hd & Hx & Hy) (Hix & Hiy).
  unfold TouchSliderJs.handleTouchMove. rewrite Ht. simpl.
  unfold TouchSliderJs.determineDirection. simpl. rewrite Hd. simpl.
  unfold JS.gtb, JS.Math_abs. rewrite Hx, Hy.
  rewrite (ltb_false 10 (Rabs (clientX e - clientX e0))) by lra.
  rewrite (ltb_false 10 (Rabs (clientY e - clientY e0))) by lra.
  simpl. rewrite Hd. simpl. repeat split; assumption.
Qed.

Lemma touch_moves_inside (e0 : TouchEvent) (moves : list (TouchEvent * R)) :
  forall s : TouchSliderJs.Slider,
    touch_undetermined e0 s ->
    Forall (fun m => inside_closed 10 e0 (fst m)) moves ->
    touch_undetermined e0 (touch_moves moves s).
Proof.
  induction moves as [| m moves IH]; intros s Hs Hall; [exact Hs|].
  inversion Hall as [| m' l' Hm Hrest]; subst.
  simpl. apply IH; [| exact Hrest].
  apply touch_move_inside; assumption.
Qed.

Lemma touch_beginDrag_direction (s : TouchSliderJs.Slider) :
  TouchSliderJs.isDirectionDetermined
    (TouchSliderJs.touch (TouchSliderJs.beginDrag s))
  = TouchSliderJs.isDirectionDetermined (TouchSliderJs.touch s)
  /\ TouchSliderJs.isHorizontalSwipe
       (TouchSliderJs.touch (TouchSliderJs.beginDrag s))
     = TouchSliderJs.isHorizontalSwipe (TouchSliderJs.touch s).
Proof.
  unfold TouchSliderJs.beginDrag.
  destruct (TouchSliderJs.rafId (TouchSliderJs.animation s)); simpl;
    split; reflexivity.
Qed.

Lemma touch_determine_outside (e0 : TouchEvent) (dx dy : R)
      (s : TouchSliderJs.Slider) :
  TouchSliderJs.isDirectionDetermined (TouchSliderJs.touch s) = false ->
  ~ (Rabs dx <= 10 /\ Rabs dy <= 10) ->
  let s' := TouchSliderJs.determineDirection dx dy s in
  TouchSliderJs.isDirectionDetermined (TouchSliderJs.touch s') = true
  /\ TouchSliderJs.isHorizontalSwipe (TouchSliderJs.touch s')
     = (if JS.eqb (Rabs dx) 0 then false
        else JS.ltb (Rabs dy / Rabs dx) 5.6713).
Proof.
  intros Hd Hout. unfold TouchSliderJs.determineDirection.
  rewrite Hd. cbv zeta. unfold JS.gtb, JS.Math_abs. simpl negb. cbv iota.
  assert (Hz : JS.ltb 10 (Rabs dx) || JS.ltb 10 (Rabs dy) = true).
  { apply orb_true_iff.
    destruct (Rlt_dec 10 (Rabs dx)) as [H1 | H1].
    - left. apply ltb_true. exact H1.
    - right. apply ltb_true. apply Rnot_le_lt. intros H2.
      apply Hout. split; lra. }
  rewrite Hz.
  destruct (if JS.eqb (Rabs dx) 0 then false
            else JS.ltb (Rabs dy / Rabs dx) 5.6713).
  - match goal with
    | |- context [TouchSliderJs.beginDrag ?x] =>
        destruct (touch_beginDrag_direction x) as (Hb1 & Hb2)
    end.
    rewrite Hb1, Hb2. split; reflexivity.
  - split; reflexivity.
Qed.

Lemma touch_move_outside (e0 e : TouchEvent) (now : R)
      (s : TouchSliderJs.Slider) :
  touch_undetermined e0 s ->
  ~ inside_closed 10 e0 e ->
  let s' := TouchSliderJs.handleTouchMove e now s in
  TouchSliderJs.isDirectionDetermined (TouchSliderJs.touch s') = true
  /\ TouchSliderJs.isHorizontalSwipe (TouchSliderJs.touch s')
     = (if JS.eqb (Rabs (clientX e - clientX e0)) 0 then false
        else JS.ltb (Rabs (clientY e - clientY e0)
                     / Rabs (clientX e - clientX e0)) 5.6713).
Proof.
  intros (Ht & Hd & Hx & Hy) Hout.
  unfold TouchSliderJs.handleTouchMove. rewrite Ht. cbv zeta.
  simpl negb. cbv iota.
  match goal with
  | |- context [TouchSliderJs.determineDirection ?dx ?dy ?x] =>
      destruct (touch_determine_outside e0 dx dy x) as (H1 & H2);
      [ exact Hd
      | simpl; rewrite Hx, Hy; exact Hout
      | set (s2 := TouchSliderJs.determineDirection dx dy x) in * ]
  end.
  simpl in H2. rewrite Hx, Hy in H2.
  destruct (TouchSliderJs.isDirectionDetermined (TouchSliderJs.touch s2)
            && TouchSliderJs.isHorizontalSwipe (TouchSliderJs.touch s2));
    simpl; split; assumption.
Qed.

Lemma touch_move_locked (e : TouchEvent) (now : R)
      (s : TouchSliderJs.Slider) :
  TouchSliderJs.isDirectionDetermined (TouchSliderJs.touch s) = true ->
  let s' := TouchSliderJs.handleTouchMove e now s in
  TouchSliderJs.isDirectionDetermined (TouchSliderJs.touch s') = true
  /\ TouchSliderJs.isHorizontalSwipe (TouchSliderJs.touch s')
     = TouchSliderJs.isHorizontalSwipe (TouchSliderJs.touch s).
Proof.
  intros Hd. unfold TouchSliderJs.handleTouchMove.
  destruct (TouchSliderJs.isTouching (TouchSliderJs.touch s)); simpl;
    [| split; [exact Hd | reflexivity]].
  unfold TouchSliderJs.determineDirection. simpl. rewrite Hd. simpl.
  rewrite Hd. simpl.
  destruct (TouchSliderJs.isHorizontalSwipe (TouchSliderJs.touch s)) eqn:Hh;
    simpl; rewrite ?Hd, ?Hh; split; reflexivity.
Qed.

Lemma touch_moves_locked (moves : list (TouchEvent * R)) :
  forall s : TouchSliderJs.Slider,
    TouchSliderJs.isDirectionDetermined (TouchSliderJs.touch s) = true ->
    TouchSliderJs.isDirectionDetermined
      (TouchSliderJs.touch (touch_moves moves s)) = true
    /\ TouchSliderJs.isHorizontalSwipe
         (TouchSliderJs.touch (touch_moves moves s))
       = TouchSliderJs.isHorizontalSwipe (TouchSliderJs.touch s).
Proof.
  induction moves as [| m moves IH]; intros s Hd; [split; auto|].
  simpl. destruct (touch_move_locked (fst m) (snd m) s Hd) as (H1 & H2).
  destruct (IH _ H1) as (H3 & H4). split; [exact H3|].
  rewrite H4. exact H2.
Qed.

(** The ratio test of [TouchSlider.js] is a test of the angle against
    [atan 5.6713]. *)
Lemma ratio_test_angle (ax ay t : R) :
  0 <= ax -> 0 <= ay -> 0 < ax \/ 0 < ay ->
  ((if JS.eqb ax 0 then false else JS.ltb (ay / ax) t) = true
   <-> JS.Math_atan2 ay ax < atan t).
Proof.
  intros Hx Hy Hnz. unfold JS.Math_atan2.
  destruct (Rlt_dec 0 ax) as [Hpos | Hnpos].
  - rewrite eqb_false by lra. rewrite ltb_iff.
    split; intros H.
    + apply atan_increasing. exact H.
    + apply Rnot_le_lt. intros Hle.
      destruct Hle as [Hlt | Heq].
      * apply atan_increasing in Hlt. lra.
      * rewrite Heq in H. lra.
  - assert (Hax : ax = 0) by lra. subst ax.
    rewrite eqb_true by reflexivity.
    destruct (Rlt_dec 0 0) as [Habs | _]; [lra|].
    destruct (Rlt_dec 0 ay) as [_ | Hay]; [| lra].
    pose proof (atan_bound t) as Hb. split; intros Hc; [discriminate | lra].
Qed.

Lemma touch_session_lock (s : TouchSliderJs.Slider) (e0 : TouchEvent)
      (now0 : R) (pre : list (TouchEvent * R)) (e : TouchEvent) (now : R)
      (post : list (TouchEvent * R)) :
  Forall (fun m => inside_closed 10 e0 (fst m)) pre ->
  ~ inside_closed 10 e0 e ->
  let s' := touch_session s e0 now0 (pre ++ (e, now) :: post) in
  TouchSliderJs.isDirectionDetermined (TouchSliderJs.touch s') = true
  /\ (TouchSliderJs.isHorizontalSwipe (TouchSliderJs.touch s') = true
      <-> displacement_angle e0 e < atan 5.6713).
Proof.
  intros Hpre Hout s'. subst s'. unfold touch_session, touch_moves.
  rewrite fold_left_app.
  fold (touch_moves pre (TouchSliderJs.handleTouchStart e0 now0 s)).
  pose proof (touch_moves_inside e0 pre _ (touch_start_state e0 now0 s) Hpre)
    as Hund.
  simpl. fold (touch_moves post).
  destruct (touch_move_outside e0 e now _ Hund Hout) as (H1 & H2).
  destruct (touch_moves_locked post _ H1) as (H3 & H4).
  unfold touch_moves in *.
  split; [exact H3|].
  rewrite H4, H2. unfold displacement_angle.
  apply ratio_test_angle; try apply Rabs_pos.
  destruct (Rlt_dec 0 (Rabs (clientX e - clientX e0))) as [Hp | Hp];
    [left; exact Hp | right].
  apply Rnot_le_lt. intros Hle. apply Hout.
  pose proof (Rabs_pos (clientX e - clientX e0)).
  pose proof (Rabs_pos (clientY e - clientY e0)).
  split; lra.
Qed.

(** C4: in a touch session the direction stays unknown while the samples
    stay inside the dead zone, is resolved on the first move sample that
    leaves it, horizontal when the angle between the displacement and the
    horizontal axis is below the threshold and vertical otherwise, and
    keeps that value through every later move of the session.  Stated for
    [slider.js] (dead zone below 10 px on both axes, threshold
    [angleThreshold] in degrees) and for [TouchSlider.js] (dead zone up to
    10 px on both axes, threshold [atan 5.6713], about 80 degrees). *)
Theorem C4_direction_lock :
  (forall (s : SliderJs.Slider) (e0 : TouchEvent) (now0 : R)
          (moves : list (TouchEvent * R)),
      Forall (fun m => inside_open 10 e0 (fst m)) moves ->
      SliderJs.isHorizontal
        (SliderJs.state (slider_session s e0 now0 moves)) = None)
  /\ (forall (s : SliderJs.Slider) (e0 : TouchEvent) (now0 : R)
             (pre : list (TouchEvent * R)) (e : TouchEvent) (now : R)
             (post : list (TouchEvent * R)),
         Forall (fun m => inside_open 10 e0 (fst m)) pre ->
         ~ inside_open 10 e0 e ->
         SliderJs.isHorizontal
           (SliderJs.state
              (slider_session s e0 now0 (pre ++ (e, now) :: post)))
         = Some (JS.ltb (displacement_angle e0 e * 180 / JS.Math_PI)
                        (SliderJs.angleThreshold (SliderJs.options s))))
  /\ (forall (s : TouchSliderJs.Slider) (e0 : TouchEvent) (now0 : R)
             (moves : list (TouchEvent * R)),
         Forall (fun m => inside_closed 10 e0 (fst m)) moves ->
         TouchSliderJs.isDirectionDetermined
           (TouchSliderJs.touch (touch_session s e0 now0 moves)) = false)
  /\ (forall (s : TouchSliderJs.Slider) (e0 : TouchEvent) (now0 : R)
             (pre : list (TouchEvent * R)) (e : TouchEvent) (now : R)
             (post : list (TouchEvent * R)),
         Forall (fun m => inside_closed 10 e0 (fst m)) pre ->
         ~ inside_closed 10 e0 e ->
         let s' := touch_session s e0 now0 (pre ++ (e, now) :: post) in
         TouchSliderJs.isDirectionDetermined (TouchSliderJs.touch s') = true
         /\ (TouchSliderJs.isHorizontalSwipe (TouchSliderJs.touch s') = true
             <-> displacement_angle e0 e < atan 5.6713)).
Proof.
  split.
  { intros s e0 now0 moves Hall. unfold slider_session.
    destruct (slider_start_state e0 now0 s) as (Hd & Hh & Hx & Hy & Ho).
    rewrite (slider_moves_inside e0 moves _ Hh Hx Hy Hall). exact Hh. }
  split; [exact slider_session_lock|].
  split; [| exact touch_session_lock].
  intros s e0 now0 moves Hall. unfold touch_session.
  apply (touch_moves_inside e0 moves _ (touch_start_state e0 now0 s) Hall).
Qed.

Lemma atan2_on_axis (x : R) : 0 < x -> JS.Math_atan2 0 x = 0.
Proof.
  intros H. unfold JS.Math_atan2. destruct (Rlt_dec 0 x); [| lra].
  replace (0 / x) with 0 by (field; lra). apply atan_0.
Qed.

(** A swipe of 20 px to the right locks the session as horizontal, and a
    later sample 300 px down does not change that. *)
Lemma C4_direction_lock_witness :
  SliderJs.isHorizontal
    (SliderJs.state
       (slider_session (SliderJs.construct SliderJs.defaultOptions)
                       (touch_at touchstart 0 0) 0 swipe_right_then_down))
  = Some true.
Proof.
  destruct C4_direction_lock as (_ & H & _).
  unfold swipe_right_then_down. rewrite H.
  - unfold displacement_angle. simpl.
    replace (Rabs (0 - 0)) with 0 by (rewrite Rabs_pos_eq; lra).
    rewrite (Rabs_pos_eq (20 - 0)) by lra.
    rewrite atan2_on_axis by lra.
    rewrite ltb_true by lra. reflexivity.
  - constructor.
  - unfold inside_open. simpl. rewrite (Rabs_pos_eq (20 - 0)) by lra. lra.
Defined.

(** ** Release *)

(** A velocity damped by a factor of magnitude below one falls below any
    positive threshold after finitely many frames. *)
Lemma geometric_decay (v m eps : R) :
  0 <= m < 1 -> 0 < eps ->
  exists N : nat, (1 <= N)%nat /\ Rabs v * m ^ N < eps.
Proof.
  intros Hm Heps.
  assert (Hpos : 0 < eps / (Rabs v + 1)).
  { apply Rdiv_lt_0_compat; [exact Heps|].
    pose proof (Rabs_pos v). lra. }
  destruct (pow_lt_1_zero m ltac:(rewrite Rabs_pos_eq; lra) _ Hpos)
    as [N HN].
  exists (S N). split; [lia|].
  specialize (HN (S N) ltac:(lia)).
  rewrite Rabs_pos_eq in HN by (apply pow_le; lra).
  pose proof (Rabs_pos v) as Hv.
  assert (Hle : Rabs v * m ^ S N <= (Rabs v + 1) * m ^ S N).
  { apply Rmult_le_compat_r; [apply pow_le; lra | lra]. }
  assert (Hlt : (Rabs v + 1) * m ^ S N < (Rabs v + 1) * (eps / (Rabs v + 1))).
  { apply Rmult_lt_compat_l; [lra | exact HN]. }
  replace ((Rabs v + 1) * (eps / (Rabs v + 1))) with eps in Hlt
    by (field; lra).
  lra.
Qed.

Lemma part_animateTo_pending (target : option R) (duration : R)
      (easing : Part000.Easing) (callback : option nat) (now : R)
      (s : Part000.Slider) :
  Part000.pending (Part000.animateTo target duration easing callback now s)
  = Some (Part000.AnimateLoop
            (Part000.currentTranslate (Part000.state s))
            (JS.sub_undef target (Part000.currentTranslate (Part000.state s)))
            now duration easing callback)
  /\ Part000.currentTranslate
       (Part000.state
          (Part000.animateTo target duration easing callback now s))
     = Part000.currentTranslate (Part000.state s)
  /\ Part000.isDragging
       (Part000.state
          (Part000.animateTo target duration easing callback now s))
     = Part000.isDragging (Part000.state s)
  /\ Part000.emitted
       (Part000.animateTo target duration easing callback now s)
     = Part000.emitted s.
Proof.
  unfold Part000.animateTo, Part000.stopTransition.
  destruct (Part000.rafId (Part000.state s)); simpl; repeat split.
Qed.

(** Release of a horizontal drag of [part_000] out of bounds and slow. *)
Lemma part_release_returns (e : TouchEvent) (now : R) (s : Part000.Slider) :
  Part000.isDragging (Part000.state s) = true ->
  Part000.isHorizontal (Part000.state s) = Some true ->
  is_touchcancel e = false ->
  Part000.minTranslate s < Part000.currentTranslate (Part000.state s)
  \/ Part000.currentTranslate (Part000.state s) < Part000.maxTranslate s ->
  Rabs (Part000.calculateVelocity s) < 0.1 ->
  let s' := Part000.onTouchEnd e now s in
  let cur := Part000.currentTranslate (Part000.state s) in
  Part000.pending s'
  = Some (Part000.AnimateLoop cur
            (JS.Num ((if JS.gtb cur (Part000.minTranslate s)
                      then Part000.minTranslate s
                      else Part000.maxTranslate s) - cur))
            now 700 Part000.easeOutQuart None)
  /\ Part000.currentTranslate (Part000.state s') = cur
  /\ Part000.isDragging (Part000.state s') = false
  /\ Part000.emitted s' = Part000.emitted s ++ [Part000.sliderDragEnd].
Proof.
  intros Hd Hh Hc Hout Hv s' cur. subst s'.
  unfold Part000.onTouchEnd. rewrite Hd, Hh, Hc. simpl negb. cbv iota zeta.
  set (s1 := Part000.emit Part000.sliderDragEnd
               (Part000.upd_state (Part000.set_isDragging false) s)).
  assert (Hcv : Part000.calculateVelocity s1 = Part000.calculateVelocity s)
    by reflexivity.
  rewrite Hcv.
  set (v1 := if JS.ltb (JS.Math_abs (Part000.calculateVelocity s)) 0.05
             then 0 else Part000.calculateVelocity s).
  assert (Hv1 : Rabs v1 < 0.1).
  { subst v1. destruct (JS.ltb _ 0.05); [rewrite Rabs_R0; lra | exact Hv]. }
  set (s2 := Part000.upd_state (Part000.set_velocity v1) s1).
  assert (Hcur : Part000.currentTranslate (Part000.state s2) = cur)
    by reflexivity.
  assert (Hmin : Part000.minTranslate s2 = Part000.minTranslate s)
    by reflexivity.
  assert (Hmax : Part000.maxTranslate s2 = Part000.maxTranslate s)
    by reflexivity.
  assert (Hvel : Part000.velocity (Part000.state s2) = v1) by reflexivity.
  rewrite Hcur, Hmin, Hmax, Hvel.
  unfold JS.Math_abs. rewrite (ltb_true _ _ Hv1).
  assert (Hob : JS.gtb cur (Part000.minTranslate s)
                || JS.ltb cur (Part000.maxTranslate s) = true).
  { apply orb_true_iff. unfold JS.gtb.
    destruct Hout as [H | H]; [left | right]; apply ltb_true; exact H. }
  rewrite Hob. simpl andb. cbv iota.
  unfold Part000.snapToBounds. rewrite Hcur, Hmin, Hmax.
  destruct (JS.gtb cur (Part000.minTranslate s)) eqn:Hg.
  - destruct (part_animateTo_pending (Some (Part000.minTranslate s)) 700
                Part000.easeOutQuart None now s2) as (H1 & H2 & H3 & H4).
    rewrite H1, H2, H3, H4. repeat split.
  - simpl in Hob. rewrite Hob.
    destruct (part_animateTo_pending (Some (Part000.maxTranslate s)) 700
                Part000.easeOutQuart None now s2) as (H1 & H2 & H3 & H4).
    rewrite H1, H2, H3, H4. repeat split.
Qed.

(** Release of a horizontal drag of [slider.js]: always [startInertia]. *)
Lemma slider_release_inertia (e : TouchEvent) (now : R)
      (s : SliderJs.Slider) :
  SliderJs.isDragging (SliderJs.state s) = true ->
  SliderJs.isHorizontal (SliderJs.state s) = Some true ->
  is_touchcancel e = false ->
  SliderJs.pending (SliderJs.onTouchEnd e now s)
  = Some (SliderJs.InertiaStep (slider_release_velocity s)
            (SliderJs.currentTranslate (SliderJs.state s)) now).
Proof.
  intros Hd Hh Hc. unfold SliderJs.onTouchEnd. rewrite Hd, Hh, Hc.
  reflexivity.
Qed.

(** A frame of the physics loop of [slider.js] above the upper bound
    applies the spring, not the friction. *)
Lemma slider_step_above (v current lastTime now : R) (s : SliderJs.Slider) :
  SliderJs.isDragging (SliderJs.state s) = false ->
  SliderJs.minTranslate s < current ->
  let dt := Rmin (now - lastTime) 60 in
  let force :=
    (SliderJs.minTranslate s - current)
    * SliderJs.springK (SliderJs.options s) in
  let v' :=
    (v + force * (dt / 16)) * SliderJs.springDamping (SliderJs.options s) in
  ~ (Rabs v' < 0.01 /\ Rabs force < 0.01) ->
  SliderJs.step v current lastTime now s
  = SliderJs.requestAnimationFrame
      (SliderJs.InertiaStep v' (current + v' * dt) now)
      (SliderJs.setTranslate (current + v' * dt) s).
Proof.
  intros Hd Hab dt force v' Hns. unfold SliderJs.step. rewrite Hd.
  unfold JS.gtb. rewrite (ltb_true _ _ Hab). simpl orb. cbv iota zeta.
  fold dt. unfold JS.Math_min, JS.Math_abs. fold dt force v'.
  assert (Hz : JS.ltb (Rabs v') 0.01 && JS.ltb (Rabs force) 0.01 = false).
  { apply andb_false_iff.
    destruct (Rlt_dec (Rabs v') 0.01) as [H1 | H1].
    - right. apply ltb_false. intros H2. apply Hns. split; assumption.
    - left. apply ltb_false. exact H1. }
  rewrite Hz. reflexivity.
Qed.

Lemma slow_slider_velocity (cur : R) (s : SliderJs.Slider) :
  SliderJs.calculateVelocity (dragged_slider cur slow_slider s) = 0.02.
Proof.
  unfold SliderJs.calculateVelocity. simpl. js_cmp. lra.
Qed.

Lemma slow_part_velocity (cur : R) (s : Part000.Slider) :
  Part000.calculateVelocity (dragged_part cur slow_part s) = 0.02.
Proof.
  unfold Part000.calculateVelocity. simpl. js_cmp. lra.
Qed.

Lemma slider_animateTo_pending (target : option R) (index : nat) (now : R)
      (s : SliderJs.Slider) :
  SliderJs.pending (SliderJs.animateTo target index now s)
  = Some (SliderJs.AnimateLoop
            (SliderJs.currentTranslate (SliderJs.state s))
            (JS.sub_undef target (SliderJs.currentTranslate (SliderJs.state s)))
            now (SliderJs.speed (SliderJs.options s)) index).
Proof.
  unfold SliderJs.animateTo, SliderJs.stopTransition.
  destruct (SliderJs.rafId (SliderJs.state s)); reflexivity.
Qed.

Lemma slider_animateTo_keeps (target : option R) (index : nat) (now : R)
      (s : SliderJs.Slider) :
  let s' := SliderJs.animateTo target index now s in
  SliderJs.currentTranslate (SliderJs.state s')
  = SliderJs.currentTranslate (SliderJs.state s)
  /\ SliderJs.isDragging (SliderJs.state s')
     = SliderJs.isDragging (SliderJs.state s)
  /\ SliderJs.emitted s' = SliderJs.emitted s
  /\ slider_same_layout s' s.
Proof.
  unfold SliderJs.animateTo, SliderJs.stopTransition, slider_same_layout.
  destruct (SliderJs.rafId (SliderJs.state s)); repeat split.
Qed.

(** What [snapToNearest] of [slider.js] requests and what it keeps. *)
Lemma slider_snapToNearest_keeps (now : R) (s : SliderJs.Slider) :
  let s' := SliderJs.snapToNearest now s in
  (exists (d : JS.num) (index : nat),
      SliderJs.pending s'
      = Some (SliderJs.AnimateLoop
                (SliderJs.currentTranslate (SliderJs.state s)) d now
                (SliderJs.speed (SliderJs.options s)) index))
  /\ SliderJs.currentTranslate (SliderJs.state s')
     = SliderJs.currentTranslate (SliderJs.state s)
  /\ SliderJs.isDragging (SliderJs.state s')
     = SliderJs.isDragging (SliderJs.state s)
  /\ SliderJs.emitted s' = SliderJs.emitted s
  /\ slider_same_layout s' s.
Proof.
  unfold SliderJs.snapToNearest.
  destruct (SliderJs.slidesGrid s) as [| g0 rest].
  - split; [| apply slider_animateTo_keeps].
    eexists. eexists. apply slider_animateTo_pending.
  - destruct (SliderJs.scan _ rest 1 _ g0 0) as [closest closestIndex].
    split; [| apply slider_animateTo_keeps].
    eexists. eexists. apply slider_animateTo_pending.
Qed.

(** A frame of the physics loop of [slider.js] with its offset within the
    bounds applies the friction: it ends the loop once the damped velocity
    is below 0.01 px/ms, and moves the track otherwise. *)
Lemma slider_step_inside_stop (v c l now : R) (s : SliderJs.Slider) :
  SliderJs.isDragging (SliderJs.state s) = false ->
  SliderJs.maxTranslate s <= c <= SliderJs.minTranslate s ->
  Rabs (v * SliderJs.friction (SliderJs.options s)) < 0.01 ->
  SliderJs.step v c l now s
  = if SliderJs.freeMode (SliderJs.options s)
    then SliderJs.emit SliderJs.sliderStop s
    else SliderJs.snapToNearest now s.
Proof.
  intros Hd Hin Hv. unfold SliderJs.step. rewrite Hd. cbv zeta.
  unfold JS.gtb. rewrite (ltb_false (SliderJs.minTranslate s) c) by lra.
  rewrite (ltb_false c (SliderJs.maxTranslate s)) by lra.
  simpl orb. cbv iota. unfold JS.Math_abs.
  rewrite (ltb_true _ _ Hv). reflexivity.
Qed.

Lemma slider_step_inside_go (v c l now : R) (s : SliderJs.Slider) :
  SliderJs.isDragging (SliderJs.state s) = false ->
  SliderJs.maxTranslate s <= c <= SliderJs.minTranslate s ->
  ~ Rabs (v * SliderJs.friction (SliderJs.options s)) < 0.01 ->
  let v' := v * SliderJs.friction (SliderJs.options s) in
  let c' := c + v' * Rmin (now - l) 60 in
  SliderJs.step v c l now s
  = SliderJs.requestAnimationFrame (SliderJs.InertiaStep v' c' now)
                                   (SliderJs.setTranslate c' s).
Proof.
  intros Hd Hin Hv v' c'. unfold SliderJs.step. rewrite Hd. cbv zeta.
  unfold JS.gtb. rewrite (ltb_false (SliderJs.minTranslate s) c) by lra.
  rewrite (ltb_false c (SliderJs.maxTranslate s)) by lra.
  simpl orb. cbv iota. unfold JS.Math_abs, JS.Math_min.
  rewrite (ltb_false _ _ Hv). reflexivity.
Qed.

(** The friction phase of [slider.js] at 60 frames per second with the
    default friction: [c + 304 * v] is the same after every frame, so a
    track that moves to the left and has room for [304 * |v|] pixels
    stays within the bounds, and the loop hands over to [snapToNearest]
    less than 3.2 px before that point. *)
Lemma slider_glide_left (n : nat) :
  forall (v c l : R) (s : SliderJs.Slider),
    SliderJs.friction (SliderJs.options s) = 0.95 ->
    SliderJs.freeMode (SliderJs.options s) = false ->
    SliderJs.isDragging (SliderJs.state s) = false ->
    SliderJs.currentTranslate (SliderJs.state s) = c ->
    v < 0 ->
    - v * 0.95 ^ n < 0.01 ->
    SliderJs.maxTranslate s <= c + 304 * v ->
    c <= SliderJs.minTranslate s ->
    exists (k : nat) (t : R) (s1 : SliderJs.Slider),
      (1 <= k <= S n)%nat
      /\ slider_frames (frame_times l k)
           (SliderJs.requestAnimationFrame (SliderJs.InertiaStep v c l) s)
         = Ok (SliderJs.snapToNearest t s1)
      /\ slider_same_layout s1 s
      /\ SliderJs.emitted s1 = SliderJs.emitted s
      /\ c + 304 * v < SliderJs.currentTranslate (SliderJs.state s1)
         < c + 304 * v + 3.2.
Proof.
  induction n as [| n IH]; intros v c l s Hf Hfm Hd Hcur Hv Hn Hlo Hhi.
  all: set (s0 := SliderJs.set_pending None
                    (SliderJs.requestAnimationFrame
                       (SliderJs.InertiaStep v c l) s)).
  all: assert (Hd0 : SliderJs.isDragging (SliderJs.state s0) = false)
         by exact Hd.
  all: assert (Hin : SliderJs.maxTranslate s0 <= c
                     <= SliderJs.minTranslate s0)
         by (change (SliderJs.maxTranslate s0)
               with (SliderJs.maxTranslate s);
             change (SliderJs.minTranslate s0)
               with (SliderJs.minTranslate s); lra).
  all: assert (Hf0 : SliderJs.friction (SliderJs.options s0) = 0.95)
         by exact Hf.
  all: destruct (Rlt_dec
                   (Rabs (v * SliderJs.friction (SliderJs.options s0)))
                   0.01) as [Hstop | Hgo].
  1, 3: exists 1%nat, (l + 16), s0.
  1, 2: split; [lia|]; split; [| split; [| split]].
  1, 5: simpl; fold s0;
        rewrite (slider_step_inside_stop v c l (l + 16) s0 Hd0 Hin Hstop);
        change (SliderJs.freeMode (SliderJs.options s0))
          with (SliderJs.freeMode (SliderJs.options s));
        rewrite Hfm; reflexivity.
  1, 4: repeat split.
  1, 3: reflexivity.
  1, 2: change (SliderJs.currentTranslate (SliderJs.state s0))
          with (SliderJs.currentTranslate (SliderJs.state s));
        rewrite Hcur; rewrite Hf0 in Hstop;
        rewrite Rabs_left in Hstop by lra; lra.
  - exfalso. apply Hgo. rewrite Hf0. rewrite Rabs_left by lra.
    simpl in Hn. lra.
  - pose proof (slider_step_inside_go v c l (l + 16) s0 Hd0 Hin Hgo)
      as Hstep.
    cbv zeta in Hstep. rewrite Hf0 in Hstep.
    replace (Rmin (l + 16 - l) 60) with 16 in Hstep
      by (unfold Rmin; destruct (Rle_dec _ _); lra).
    destruct (IH (v * 0.95) (c + v * 0.95 * 16) (l + 16)
                 (SliderJs.setTranslate (c + v * 0.95 * 16) s0))
      as (k & t & s1 & Hk & Hrun & Hlay & Hem & Hc);
      try assumption; try reflexivity; try lra.
    + change (0.95 ^ S n) with (0.95 * 0.95 ^ n) in Hn. lra.
    + change (SliderJs.maxTranslate
                (SliderJs.setTranslate (c + v * 0.95 * 16) s0))
        with (SliderJs.maxTranslate s). lra.
    + change (SliderJs.minTranslate
                (SliderJs.setTranslate (c + v * 0.95 * 16) s0))
        with (SliderJs.minTranslate s). lra.
    + exists (S k), t, s1. split; [lia|]. split; [| split; [| split]].
      * change (frame_times l (S k))
          with ((l + 16) :: frame_times (l + 16) k).
        simpl slider_frames. fold s0. rewrite Hstep. exact Hrun.
      * exact Hlay.
      * exact Hem.
      * lra.
Qed.


Lemma slider_frames_cons (t : R) (rest : list R) (s : SliderJs.Slider) :
  slider_frames (t :: rest) s
  = bind (SliderJs.frame t s) (slider_frames rest).
Proof. reflexivity. Qed.

(** [snapToNearest] of [slider.js] on the three-slide carousel, from an
    offset nearer to the last slide than to the second. *)
Lemma slider_snap_last (t : R) (s : SliderJs.Slider) :
  SliderJs.slidesGrid s = [0; -300; -600] ->
  SliderJs.minTranslate s = 0 ->
  SliderJs.maxTranslate s = -600 ->
  -600 < SliderJs.currentTranslate (SliderJs.state s) < -450 ->
  SliderJs.snapToNearest t s = SliderJs.animateTo (Some (-600)) 2 t s.
Proof.
  intros Hg Hmin Hmax Hc. unfold SliderJs.snapToNearest. rewrite Hg.
  set (cur := SliderJs.currentTranslate (SliderJs.state s)) in *.
  simpl SliderJs.scan. unfold JS.Math_abs.
  rewrite (Rabs_left (cur - 0)) by lra.
  rewrite (Rabs_left (cur - -300)) by lra.
  rewrite (ltb_true (- (cur - -300)) (- (cur - 0))) by lra.
  rewrite (Rabs_pos_eq (cur - -600)) by lra.
  rewrite (ltb_true (cur - -600) (- (cur - -300))) by lra.
  rewrite Hmin, Hmax. unfold JS.gtb.
  rewrite (ltb_false 0 (-600)) by lra.
  rewrite (ltb_false (-600) (-600)) by lra.
  reflexivity.
Qed.

(** The three-slide carousel of [slider.js] released at rest 40 px past
    its first slide, with a frame every 16 ms: the boundary spring takes
    the track to 14.4 and then, across the bound, to -15.296 with a
    velocity of -1.856 px/ms; from there the friction phase carries it
    on, and the loop ends with the snap to the last slide. *)
Lemma slider_spring_release (s : SliderJs.Slider) :
  SliderJs.options s = SliderJs.defaultOptions ->
  SliderJs.slidesGrid s = [0; -300; -600] ->
  SliderJs.minTranslate s = 0 ->
  SliderJs.maxTranslate s = -600 ->
  SliderJs.isDragging (SliderJs.state s) = false ->
  let s0 :=
    SliderJs.requestAnimationFrame (SliderJs.InertiaStep 0 40 60) s in
  (exists s1 : SliderJs.Slider,
      slider_frames [76] s0 = Ok s1
      /\ SliderJs.pending s1 = Some (SliderJs.InertiaStep (-1.6) 14.4 76)
      /\ SliderJs.currentTranslate (SliderJs.state s1) = 14.4
      /\ SliderJs.emitted s1 = SliderJs.emitted s)
  /\ (exists s2 : SliderJs.Slider,
         slider_frames [76; 92] s0 = Ok s2
         /\ SliderJs.pending s2
            = Some (SliderJs.InertiaStep (-1.856) (-15.296) 92)
         /\ SliderJs.currentTranslate (SliderJs.state s2) = -15.296
         /\ SliderJs.emitted s2 = SliderJs.emitted s
         /\ slider_same_layout s2 s)
  /\ (exists (n : nat) (t c : R) (s' : SliderJs.Slider),
         slider_frames (frame_times 60 n) s0 = Ok s'
         /\ SliderJs.pending s'
            = Some (SliderJs.AnimateLoop c (JS.Num (-600 - c)) t 300 2)
         /\ SliderJs.currentTranslate (SliderJs.state s') = c
         /\ -580 < c < -576
         /\ SliderJs.emitted s' = SliderJs.emitted s).
Proof.
  intros Ho Hg Hmin Hmax Hd s0.
  set (a0 := SliderJs.set_pending None s0).
  assert (Hstep1 : SliderJs.step 0 40 60 76 a0
                   = SliderJs.requestAnimationFrame
                       (SliderJs.InertiaStep (-1.6) 14.4 76)
                       (SliderJs.setTranslate 14.4 a0)).
  { pose proof (slider_step_above 0 40 60 76 a0 Hd) as H.
    cbv zeta in H.
    change (SliderJs.minTranslate a0) with (SliderJs.minTranslate s) in H.
    change (SliderJs.options a0) with (SliderJs.options s) in H.
    rewrite Hmin, Ho in H. simpl SliderJs.springK in H.
    simpl SliderJs.springDamping in H.
    replace (Rmin (76 - 60) 60) with 16 in H
      by (unfold Rmin; destruct (Rle_dec _ _); lra).
    replace ((0 + (0 - 40) * 0.05 * (16 / 16)) * 0.8) with (-1.6) in H
      by lra.
    replace (40 + -1.6 * 16) with 14.4 in H by lra.
    apply H; [lra|].
    intros (A & _). rewrite Rabs_left in A by lra. lra. }
  set (b0 := SliderJs.requestAnimationFrame
               (SliderJs.InertiaStep (-1.6) 14.4 76)
               (SliderJs.setTranslate 14.4 a0)) in *.
  set (a1 := SliderJs.set_pending None b0).
  assert (Hstep2 : SliderJs.step (-1.6) 14.4 76 92 a1
                   = SliderJs.requestAnimationFrame
                       (SliderJs.InertiaStep (-1.856) (-15.296) 92)
                       (SliderJs.setTranslate (-15.296) a1)).
  { pose proof (slider_step_above (-1.6) 14.4 76 92 a1 Hd) as H.
    cbv zeta in H.
    change (SliderJs.minTranslate a1) with (SliderJs.minTranslate s) in H.
    change (SliderJs.options a1) with (SliderJs.options s) in H.
    rewrite Hmin, Ho in H. simpl SliderJs.springK in H.
    simpl SliderJs.springDamping in H.
    replace (Rmin (92 - 76) 60) with 16 in H
      by (unfold Rmin; destruct (Rle_dec _ _); lra).
    replace ((-1.6 + (0 - 14.4) * 0.05 * (16 / 16)) * 0.8) with (-1.856)
      in H by lra.
    replace (14.4 + -1.856 * 16) with (-15.296) in H by lra.
    apply H; [lra|].
    intros (A & _). rewrite Rabs_left in A by lra. lra. }
  set (b1 := SliderJs.requestAnimationFrame
               (SliderJs.InertiaStep (-1.856) (-15.296) 92)
               (SliderJs.setTranslate (-15.296) a1)) in *.
  assert (Hf1 : SliderJs.frame 76 s0 = Ok b0).
  { unfold SliderJs.frame. simpl SliderJs.pending. cbv iota zeta.
    fold a0. rewrite Hstep1. reflexivity. }
  assert (Hf2 : SliderJs.frame 92 b0 = Ok b1).
  { unfold SliderJs.frame. simpl SliderJs.pending. cbv iota zeta.
    fold a1. rewrite Hstep2. reflexivity. }
  assert (Hrun1 : slider_frames [76] s0 = Ok b0).
  { rewrite slider_frames_cons, Hf1. reflexivity. }
  assert (Hrun2 : slider_frames [76; 92] s0 = Ok b1).
  { rewrite slider_frames_cons, Hf1. unfold bind.
    rewrite slider_frames_cons, Hf2. reflexivity. }
  split; [exists b0; repeat split; exact Hrun1|].
  split; [exists b1; repeat split; exact Hrun2|].
  destruct (geometric_decay (-1.856) 0.95 0.01) as (n & _ & Hn);
    [lra | lra |].
  rewrite Rabs_left in Hn by lra.
  destruct (slider_glide_left n (-1.856) (-15.296) 92
              (SliderJs.setTranslate (-15.296) a1))
    as (k & t & s1 & Hk & Hrun & (Hlo & Hlg & Hlmin & Hlmax) & Hem & Hc).
  - change (SliderJs.options (SliderJs.setTranslate (-15.296) a1))
      with (SliderJs.options s). rewrite Ho. reflexivity.
  - change (SliderJs.options (SliderJs.setTranslate (-15.296) a1))
      with (SliderJs.options s). rewrite Ho. reflexivity.
  - exact Hd.
  - reflexivity.
  - lra.
  - exact Hn.
  - change (SliderJs.maxTranslate (SliderJs.setTranslate (-15.296) a1))
      with (SliderJs.maxTranslate s). rewrite Hmax. lra.
  - change (SliderJs.minTranslate (SliderJs.setTranslate (-15.296) a1))
      with (SliderJs.minTranslate s). rewrite Hmin. lra.
  - fold b1 in Hrun.
    change (SliderJs.slidesGrid (SliderJs.setTranslate (-15.296) a1))
      with (SliderJs.slidesGrid s) in Hlg.
    change (SliderJs.minTranslate (SliderJs.setTranslate (-15.296) a1))
      with (SliderJs.minTranslate s) in Hlmin.
    change (SliderJs.maxTranslate (SliderJs.setTranslate (-15.296) a1))
      with (SliderJs.maxTranslate s) in Hlmax.
    change (SliderJs.options (SliderJs.setTranslate (-15.296) a1))
      with (SliderJs.options s) in Hlo.
    change (SliderJs.emitted (SliderJs.setTranslate (-15.296) a1))
      with (SliderJs.emitted s) in Hem.
    rewrite Hg in Hlg. rewrite Hmin in Hlmin. rewrite Hmax in Hlmax.
    rewrite (slider_snap_last t s1 Hlg Hlmin Hlmax) in Hrun by lra.
    exists (S (S k)), t, (SliderJs.currentTranslate (SliderJs.state s1)),
      (SliderJs.animateTo (Some (-600)) 2 t s1).
    destruct (slider_animateTo_keeps (Some (-600)) 2 t s1)
      as (Kc & _ & Ke & _).
    split; [| split; [| split; [| split]]].
    + change (frame_times 60 (S (S k)))
        with ((60 + 16) :: (60 + 16 + 16) :: frame_times (60 + 16 + 16) k).
      replace (60 + 16 + 16) with 92 by lra.
      replace (60 + 16) with 76 by lra.
      rewrite slider_frames_cons, Hf1. unfold bind.
      rewrite slider_frames_cons, Hf2. unfold bind. exact Hrun.
    + rewrite slider_animateTo_pending. rewrite Hlo, Ho. reflexivity.
    + exact Kc.
    + lra.
    + rewrite Ke. exact Hem.
Qed.

(** The release of the scenario in [slider.js]: [startInertia] with the
    velocity 0 at the offset 40. *)
Lemma slider_scenario_release :
  SliderJs.onTouchEnd (touch_at touchend 0 0) 60
    (dragged_slider 40 slow_slider three_slides_slider)
  = SliderJs.requestAnimationFrame (SliderJs.InertiaStep 0 40 60)
      (SliderJs.upd_state (SliderJs.set_velocity 0)
         (SliderJs.emit SliderJs.sliderDragEnd
            (SliderJs.upd_state (SliderJs.set_isDragging false)
               (dragged_slider 40 slow_slider three_slides_slider)))).
Proof.
  unfold SliderJs.onTouchEnd.
  change (SliderJs.isDragging
            (SliderJs.state
               (dragged_slider 40 slow_slider three_slides_slider)))
    with true.
  change (SliderJs.isHorizontal
            (SliderJs.state
               (dragged_slider 40 slow_slider three_slides_slider)))
    with (Some true).
  change (is_touchcancel (touch_at touchend 0 0)) with false.
  cbv iota zeta. simpl negb. cbv iota.
  change (SliderJs.calculateVelocity
            (SliderJs.emit SliderJs.sliderDragEnd
               (SliderJs.upd_state (SliderJs.set_isDragging false)
                  (dragged_slider 40 slow_slider three_slides_slider))))
    with (SliderJs.calculateVelocity
            (dragged_slider 40 slow_slider three_slides_slider)).
  rewrite slow_slider_velocity. unfold JS.Math_abs.
  rewrite (Rabs_pos_eq 0.02) by lra. rewrite (ltb_true 0.02 0.05) by lra.
  reflexivity.
Qed.

(** C5 fails on [slider.js].  The three-slide carousel is released 40 px
    past its first slide with a velocity of 0.02 px/ms, which the handler
    counts as 0.  [part_000] starts the return to the bound.  [slider.js]
    starts the physics loop: with a frame every 16 ms its spring takes the
    track across the bound within two frames, to about -15.3 at about
    -1.86 px/ms; there the friction phase takes over and carries the track
    on, and the loop ends, without a [sliderStop], by starting the snap to
    the last slide from an offset between -580 and -576. *)
Theorem C5_release_overshoots_bound :
  SliderJs.currentTranslate
    (SliderJs.state (dragged_slider 40 slow_slider three_slides_slider))
  = SliderJs.minTranslate
      (dragged_slider 40 slow_slider three_slides_slider) + 40
  /\ Rabs (SliderJs.calculateVelocity
             (dragged_slider 40 slow_slider three_slides_slider)) = 0.02
  /\ (forall now : R,
         Part000.pending
           (Part000.onTouchEnd (touch_at touchend 0 0) now
              (dragged_part 40 slow_part three_slides_part))
         = Some (Part000.AnimateLoop 40 (JS.Num (0 - 40)) now 700
                   Part000.easeOutQuart None))
  /\ SliderJs.pending
       (SliderJs.onTouchEnd (touch_at touchend 0 0) 60
          (dragged_slider 40 slow_slider three_slides_slider))
     = Some (SliderJs.InertiaStep 0 40 60)
  /\ (exists (s2 : SliderJs.Slider) (v c : R),
         slider_frames [76; 92]
           (SliderJs.onTouchEnd (touch_at touchend 0 0) 60
              (dragged_slider 40 slow_slider three_slides_slider))
         = Ok s2
         /\ SliderJs.pending s2 = Some (SliderJs.InertiaStep v c 92)
         /\ SliderJs.currentTranslate (SliderJs.state s2) = c
         /\ -1.857 < v < -1.855
         /\ -15.3 < c < -15.29
         /\ SliderJs.maxTranslate s2 < c < SliderJs.minTranslate s2)
  /\ (exists (n : nat) (t c : R) (s' : SliderJs.Slider),
         slider_frames (frame_times 60 n)
           (SliderJs.onTouchEnd (touch_at touchend 0 0) 60
              (dragged_slider 40 slow_slider three_slides_slider))
         = Ok s'
         /\ SliderJs.pending s'
            = Some (SliderJs.AnimateLoop c (JS.Num (-600 - c)) t 300 2)
         /\ SliderJs.currentTranslate (SliderJs.state s') = c
         /\ -580 < c < -576
         /\ SliderJs.emitted s'
            = SliderJs.emitted
                (dragged_slider 40 slow_slider three_slides_slider)
              ++ [SliderJs.sliderDragEnd]).
Proof.
  destruct three_slides_slider_bounds as (Hg & Hmin & Hmax).
  split.
  { change (SliderJs.minTranslate
              (dragged_slider 40 slow_slider three_slides_slider))
      with (SliderJs.minTranslate three_slides_slider).
    rewrite Hmin. simpl. lra. }
  split; [rewrite slow_slider_velocity; rewrite Rabs_pos_eq; lra|].
  split.
  { intros now.
    destruct three_slides_part_grid as (_ & Pmin & Pmax).
    destruct (part_release_returns (touch_at touchend 0 0) now
                (dragged_part 40 slow_part three_slides_part))
      as (Hp & _); try reflexivity.
    - left.
      change (Part000.minTranslate
                (dragged_part 40 slow_part three_slides_part))
        with (Part000.minTranslate three_slides_part).
      rewrite Pmin. simpl. lra.
    - rewrite slow_part_velocity. rewrite Rabs_pos_eq; lra.
    - rewrite Hp.
      change (Part000.minTranslate
                (dragged_part 40 slow_part three_slides_part))
        with (Part000.minTranslate three_slides_part).
      rewrite Pmin. simpl. unfold JS.gtb. rewrite ltb_true by lra.
      reflexivity. }
  rewrite slider_scenario_release.
  split; [reflexivity|].
  set (sA := SliderJs.upd_state (SliderJs.set_velocity 0)
               (SliderJs.emit SliderJs.sliderDragEnd
                  (SliderJs.upd_state (SliderJs.set_isDragging false)
                     (dragged_slider 40 slow_slider three_slides_slider)))).
  destruct (slider_spring_release sA eq_refl Hg Hmin Hmax eq_refl)
    as (_ & (s2 & Hr2 & Hp2 & Hc2 & He2 & _ & _ & Hmin2 & Hmax2)
        & (n & t & c & s' & Hr & Hp & Hc & Hb & He)).
  split.
  - exists s2, (-1.856), (-15.296).
    split; [exact Hr2|]. split; [exact Hp2|]. split; [exact Hc2|].
    split; [lra|]. split; [lra|].
    rewrite Hmin2, Hmax2.
    change (SliderJs.minTranslate sA)
      with (SliderJs.minTranslate three_slides_slider).
    change (SliderJs.maxTranslate sA)
      with (SliderJs.maxTranslate three_slides_slider).
    rewrite Hmin, Hmax. lra.
  - exists n, t, c, s'. repeat split; try assumption; lra.
Qed.

(** ** Moves that cannot be cancelled *)

(** [part_000]: a move that is not cancelable never changes the offset. *)
Lemma part_move_not_cancelable (e : TouchEvent) (now : R)
      (s : Part000.Slider) :
  cancelable e = false ->
  Part000.currentTranslate (Part000.state (Part000.onTouchMove e now s))
  = Part000.currentTranslate (Part000.state s).
Proof.
  intros Hc. unfold Part000.onTouchMove, Part000.lockDirection.
  destruct (Part000.isDragging (Part000.state s)); simpl; [| reflexivity].
  rewrite Hc.
  destruct (Part000.isHorizontal (Part000.state s)) as [[|]|] eqn:Hh;
    simpl; try rewrite Hh; simpl; try reflexivity.
  destruct (JS.ltb _ 5 && JS.ltb _ 5); [reflexivity|].
  destruct (JS.ltb _ (Part000.angleThreshold _)); simpl; reflexivity.
Qed.

(** In a horizontal session of [part_000] such a move changes nothing. *)
Lemma part_move_not_cancelable_horizontal (e : TouchEvent) (now : R)
      (s : Part000.Slider) :
  Part000.isHorizontal (Part000.state s) = Some true ->
  cancelable e = false ->
  Part000.onTouchMove e now s = s.
Proof.
  intros Hh Hc. unfold Part000.onTouchMove, Part000.lockDirection.
  destruct (Part000.isDragging (Part000.state s)); simpl; [| reflexivity].
  rewrite Hh, Hh, Hc. reflexivity.
Qed.

Lemma slider_dragging_state :
  SliderJs.isDragging (SliderJs.state slider_dragging) = true
  /\ SliderJs.isHorizontal (SliderJs.state slider_dragging) = Some true
  /\ SliderJs.startTranslate (SliderJs.state slider_dragging) = 0
  /\ SliderJs.startTouchX (SliderJs.state slider_dragging) = 0
  /\ SliderJs.currentTranslate (SliderJs.state slider_dragging) = -20
  /\ SliderJs.minTranslate slider_dragging = 0
  /\ SliderJs.maxTranslate slider_dragging = -600.
Proof.
  destruct three_slides_slider_bounds as (_ & Hmin & Hmax).
  unfold slider_dragging.
  set (s0 := SliderJs.onTouchStart (touch_at touchstart 0 0) 0
               three_slides_slider).
  assert (H0 : SliderJs.isDragging (SliderJs.state s0) = true
               /\ SliderJs.isHorizontal (SliderJs.state s0) = None
               /\ SliderJs.startTouchX (SliderJs.state s0) = 0
               /\ SliderJs.startTouchY (SliderJs.state s0) = 0
               /\ SliderJs.startTranslate (SliderJs.state s0) = 0
               /\ SliderJs.minTranslate s0 = 0
               /\ SliderJs.maxTranslate s0 = -600
               /\ SliderJs.angleThreshold (SliderJs.options s0) = 65).
  { subst s0. unfold SliderJs.onTouchStart. simpl. repeat split; lra. }
  destruct H0 as (Hd & Hh & Hx & Hy & Hst & Hmin0 & Hmax0 & Hth).
  clearbody s0.
  unfold SliderJs.onTouchMove, SliderJs.lockDirection.
  rewrite Hd, Hh, Hx, Hy, Hth. simpl negb. cbv iota zeta. simpl clientX.
  simpl clientY. unfold JS.Math_abs.
  replace (Rabs (0 - 0)) with 0 by (rewrite Rabs_pos_eq; lra).
  rewrite (Rabs_left (-20 - 0)) by lra.
  rewrite (ltb_false (- (-20 - 0)) 10) by lra. simpl andb. cbv iota.
  rewrite atan2_on_axis by lra.
  rewrite (ltb_true (0 * 180 / JS.Math_PI) 65) by lra.
  simpl. rewrite Hst, Hmin0, Hmax0. unfold SliderJs.resist. simpl.
  rewrite Hmin0, Hmax0. js_cmp. simpl. rewrite Hd, Hx.
  repeat split; lra.
Qed.

Lemma touch_dragging_state :
  TouchSliderJs.isTouching (TouchSliderJs.touch touch_dragging) = true
  /\ TouchSliderJs.isDirectionDetermined (TouchSliderJs.touch touch_dragging)
     = true
  /\ TouchSliderJs.isHorizontalSwipe (TouchSliderJs.touch touch_dragging)
     = true
  /\ TouchSliderJs.startPositionX (TouchSliderJs.touch touch_dragging) = 0
  /\ TouchSliderJs.startX (TouchSliderJs.touch touch_dragging) = 0
  /\ TouchSliderJs.currentX (TouchSliderJs.state touch_dragging) = -20
  /\ TouchSliderJs.bounds_min (TouchSliderJs.getBounds touch_dragging) = -600.
Proof.
  unfold touch_dragging.
  set (s0 := TouchSliderJs.handleTouchStart (touch_at touchstart 0 0) 0
               three_slides_touch).
  assert (H0 : TouchSliderJs.isTouching (TouchSliderJs.touch s0) = true
               /\ TouchSliderJs.isDirectionDetermined (TouchSliderJs.touch s0)
                  = false
               /\ TouchSliderJs.startX (TouchSliderJs.touch s0) = 0
               /\ TouchSliderJs.startY (TouchSliderJs.touch s0) = 0
               /\ TouchSliderJs.rafId (TouchSliderJs.animation s0) = false
               /\ TouchSliderJs.currentX (TouchSliderJs.state s0) = 0
               /\ TouchSliderJs.trackWidth (TouchSliderJs.state s0) = 900
               /\ TouchSliderJs.sliderWidth (TouchSliderJs.state s0) = 300).
  { subst s0. simpl. repeat split; lra. }
  destruct H0 as (Ht & Hd & Hx & Hy & Hr & Hc & Htw & Hsw).
  clearbody s0.
  unfold TouchSliderJs.handleTouchMove. rewrite Ht. simpl negb.
  cbv iota zeta.
  unfold TouchSliderJs.determineDirection. simpl. rewrite Hd. simpl.
  rewrite Hx, Hy. unfold JS.gtb, JS.Math_abs.
  replace (Rabs (0 - 0)) with 0 by (rewrite Rabs_pos_eq; lra).
  rewrite (Rabs_left (-20 - 0)) by lra.
  rewrite (ltb_true 10 (- (-20 - 0))) by lra. simpl orb. cbv iota.
  rewrite (eqb_false (- (-20 - 0)) 0) by lra.
  rewrite (ltb_true (0 / - (-20 - 0)) 5.6713) by lra.
  unfold TouchSliderJs.beginDrag. simpl. rewrite Hr. simpl.
  rewrite Hc, Htw, Hsw.
  unfold TouchSliderJs.applyRubberBand, TouchSliderJs.getBounds. simpl.
  rewrite Htw, Hsw. js_cmp. simpl.
  repeat split; try assumption; try reflexivity; lra.
Qed.

(** C6 fails on [slider.js] and on [TouchSlider.js]: in a horizontal drag
    that has brought the track to the offset -20, a move to -40 that the
    platform reports as not cancelable moves the track to -40. *)
Theorem C6_not_cancelable_move_applied :
  SliderJs.isHorizontal (SliderJs.state slider_dragging) = Some true
  /\ SliderJs.currentTranslate (SliderJs.state slider_dragging) = -20
  /\ cancelable (move_event (-40) 0 false) = false
  /\ SliderJs.currentTranslate
       (SliderJs.state
          (SliderJs.onTouchMove (move_event (-40) 0 false) 32
                                slider_dragging)) = -40
  /\ TouchSliderJs.isHorizontalSwipe (TouchSliderJs.touch touch_dragging)
     = true
  /\ TouchSliderJs.currentX (TouchSliderJs.state touch_dragging) = -20
  /\ TouchSliderJs.currentX
       (TouchSliderJs.state
          (TouchSliderJs.handleTouchMove (move_event (-40) 0 false) 32
                                         touch_dragging)) = -40.
Proof.
  destruct slider_dragging_state as (Hd & Hh & Hst & Hx & Hc & Hmin & Hmax).
  destruct touch_dragging_state as (Tt & Td & Th & Tp & Tx & Tc & Tb).
  repeat split; try assumption.
  - rewrite (slider_move_applies_resist _ _ _ Hd Hh).
    rewrite Hst, Hx. simpl. unfold SliderJs.resist.
    rewrite Hmin, Hmax. js_cmp. lra.
  - rewrite (touch_move_applies_rubber _ _ _ Tt Td Th).
    rewrite Tp, Tx. simpl. unfold TouchSliderJs.applyRubberBand.
    cbv zeta. rewrite Tb.
    change (TouchSliderJs.bounds_max (TouchSliderJs.getBounds touch_dragging))
      with 0.
    js_cmp. simpl. lra.
Qed.

(** ** Settling of the inertia loop *)

Lemma part_terminal_same (a b s' : Part000.Slider) :
  Part000.options a = Part000.options b ->
  Part000.emitted a = Part000.emitted b ->
  Part000.minTranslate a = Part000.minTranslate b ->
  Part000.maxTranslate a = Part000.maxTranslate b ->
  PartTerminal a s' -> PartTerminal b s'.
Proof.
  intros Ho He Hmin Hmax [H1 H2 H3 H4 | d t i H1 H2 H3 H4 | t bd H1 H2 H3];
    rewrite ?Ho, ?He, ?Hmin, ?Hmax in *.
  - apply part_stop_emitted; assumption.
  - apply (part_snap_started b s' d t i); assumption.
  - apply (part_return_entered b s' t bd); assumption.
Qed.

(** What [snapToNearest] of [part_000] requests and what it keeps. *)
Lemma part_snapToNearest_keeps (target : option R) (now : R)
      (s : Part000.Slider) :
  let s' := Part000.snapToNearest target now s in
  (exists (d : JS.num) (index : nat),
      Part000.pending s'
      = Some (Part000.AnimateLoop
                (Part000.currentTranslate (Part000.state s)) d now 500
                Part000.easeOutQuart (Some index)))
  /\ Part000.currentTranslate (Part000.state s')
     = Part000.currentTranslate (Part000.state s)
  /\ Part000.emitted s' = Part000.emitted s.
Proof.
  unfold Part000.snapToNearest.
  destruct (Part000.slidesGrid s) as [| g0 rest].
  - destruct (part_animateTo_pending None 500 Part000.easeOutQuart
                (Some 0%nat) now s) as (H1 & H2 & _ & H4).
    split; [eexists; eexists; exact H1 | split; assumption].
  - destruct (Part000.nearest _ g0 rest s) as [idx closest].
    destruct (part_animateTo_pending (Some closest) 500
                Part000.easeOutQuart (Some idx) now s)
      as (H1 & H2 & _ & H4).
    split; [eexists; eexists; exact H1 | split; assumption].
Qed.

(** One frame of the physics loop of [part_000], run on a slider whose
    offset is the one the loop carries: it ends in a terminal transition
    when the damped velocity is below the threshold of its branch, and
    moves the track and requests itself again otherwise. *)
Lemma part_step_outcome (v c l now : R) (s : Part000.Slider) :
  Part000.isDragging (Part000.state s) = false ->
  Part000.pending s = None ->
  Part000.currentTranslate (Part000.state s) = c ->
  let oob := JS.gtb c (Part000.minTranslate s)
             || JS.ltb c (Part000.maxTranslate s) in
  let f := if oob then 0.6 else Part000.friction (Part000.options s) in
  let thr := if oob then 0.1 else 0.01 in
  let dt := Rmin (now - l) 60 in
  (Rabs (v * f) < thr -> PartTerminal s (Part000.step v c l now s))
  /\ (~ Rabs (v * f) < thr ->
      Part000.step v c l now s
      = Part000.requestAnimationFrame
          (Part000.InertiaStep (v * f) (c + v * f * dt) now)
          (Part000.setTranslate (c + v * f * dt) s)).
Proof.
  intros Hd Hp Hc oob f thr dt. unfold Part000.step. rewrite Hd.
  cbv zeta. fold oob. unfold JS.Math_abs, JS.Math_min. fold dt.
  destruct oob eqn:Hoob; subst f thr; cbv iota.
  - split; intros H; [| rewrite (ltb_false _ _ H); reflexivity].
    rewrite (ltb_true _ _ H). unfold Part000.snapToBounds. rewrite Hc.
    subst oob. unfold JS.gtb in *.
    destruct (Rlt_dec (Part000.minTranslate s) c) as [Hab | Hnab].
    + rewrite (ltb_true _ _ Hab).
      destruct (part_animateTo_pending (Some (Part000.minTranslate s)) 700
                  Part000.easeOutQuart None now s) as (H1 & H2 & _ & H4).
      apply (part_return_entered _ _ now (Part000.minTranslate s)).
      * rewrite H1, H2, Hc. reflexivity.
      * exact H4.
      * left. rewrite H2, Hc. split; [exact Hab | reflexivity].
    + rewrite (ltb_false _ _ Hnab) in Hoob |- *. simpl in Hoob.
      rewrite Hoob.
      destruct (part_animateTo_pending (Some (Part000.maxTranslate s)) 700
                  Part000.easeOutQuart None now s) as (H1 & H2 & _ & H4).
      apply (part_return_entered _ _ now (Part000.maxTranslate s)).
      * rewrite H1, H2, Hc. reflexivity.
      * exact H4.
      * right. rewrite H2, Hc. split; [| reflexivity].
        unfold JS.ltb in Hoob. destruct (Rlt_dec c _); [lra | discriminate].
  - assert (Hin : Part000.maxTranslate s <= c <= Part000.minTranslate s).
    { subst oob. apply orb_false_iff in Hoob. destruct Hoob as (A & B).
      unfold JS.gtb, JS.ltb in A, B.
      destruct (Rlt_dec (Part000.minTranslate s) c); [discriminate|].
      destruct (Rlt_dec c (Part000.maxTranslate s)); [discriminate|].
      lra. }
    split; intros H; [| rewrite (ltb_false _ _ H); reflexivity].
    rewrite (ltb_true _ _ H).
    destruct (Part000.freeMode (Part000.options s)) eqn:Hfm.
    + apply part_stop_emitted.
      * exact Hfm.
      * exact Hp.
      * reflexivity.
      * change (Part000.currentTranslate
                  (Part000.state (Part000.emit Part000.sliderStop s)))
          with (Part000.currentTranslate (Part000.state s)).
        rewrite Hc. exact Hin.
    + destruct (part_snapToNearest_keeps None now s)
        as ((d & idx & H1) & H2 & H3).
      apply (part_snap_started _ _ d now idx).
      * exact Hfm.
      * rewrite H1, H2. reflexivity.
      * exact H3.
      * rewrite H2, Hc. exact Hin.
Qed.

(** The loop of [part_000] reaches a terminal transition within [n]
    frames once the velocity times the [n]-th power of the larger damping
    factor is below 0.01. *)
Lemma part_inertia_terminal (o : Part000.Options) (m : R) :
  Rabs (Part000.friction o) <= m -> 0.6 <= m -> m < 1 ->
  forall (n : nat) (v c l : R) (s : Part000.Slider) (times : list R),
    Part000.options s = o ->
    Part000.isDragging (Part000.state s) = false ->
    Part000.currentTranslate (Part000.state s) = c ->
    Rabs v * m ^ n < 0.01 ->
    (1 <= n <= length times)%nat ->
    exists (k : nat) (s' : Part000.Slider),
      (1 <= k <= n)%nat
      /\ part_frames (firstn k times)
           (Part000.requestAnimationFrame (Part000.InertiaStep v c l) s)
         = Ok s'
      /\ PartTerminal s s'.
Proof.
  intros Hf H06 Hm1.
  induction n as [| n IH]; intros v c l s times Ho Hd Hc Hv Hn; [lia|].
  destruct times as [| t rest]; [simpl in Hn; lia|].
  set (s0 := Part000.set_pending None
               (Part000.requestAnimationFrame
                  (Part000.InertiaStep v c l) s)).
  pose proof (part_step_outcome v c l t s0 Hd eq_refl Hc) as Hcases.
  cbv zeta in Hcases.
  set (oob := JS.gtb c (Part000.minTranslate s0)
              || JS.ltb c (Part000.maxTranslate s0)) in *.
  set (f := if oob then 0.6 else Part000.friction (Part000.options s0)) in *.
  set (thr := if oob then 0.1 else 0.01) in *.
  assert (Hfm : Rabs f <= m).
  { subst f. destruct oob.
    - rewrite Rabs_pos_eq; lra.
    - change (Part000.options s0) with (Part000.options s). rewrite Ho.
      exact Hf. }
  assert (Hthr : 0.01 <= thr) by (subst thr; destruct oob; lra).
  assert (Hvf : Rabs (v * f) <= Rabs v * m).
  { rewrite Rabs_mult. apply Rmult_le_compat_l; [apply Rabs_pos | exact Hfm]. }
  destruct Hcases as (Hstop & Hgo).
  destruct (Rlt_dec (Rabs (v * f)) thr) as [Hlt | Hge].
  - exists 1%nat, (Part000.step v c l t s0).
    split; [lia|]. split; [reflexivity|].
    apply (part_terminal_same s0 s); try reflexivity.
    apply Hstop. exact Hlt.
  - destruct n as [| n'].
    { exfalso. apply Hge. simpl in Hv. lra. }
    destruct (IH (v * f) (c + v * f * Rmin (t - l) 60) t
                 (Part000.setTranslate (c + v * f * Rmin (t - l) 60) s0)
                 rest) as (k & s' & Hk & Hrun & Hend).
    + exact Ho.
    + exact Hd.
    + reflexivity.
    + assert (Hp : 0 <= m ^ S n') by (apply pow_le; lra).
      change (m ^ S (S n')) with (m * m ^ S n') in Hv.
      apply Rle_lt_trans with (Rabs v * m * m ^ S n'); [| lra].
      apply Rmult_le_compat_r; assumption.
    + simpl in Hn. lia.
    + exists (S k), s'. split; [lia|]. split.
      * simpl firstn. simpl part_frames. fold s0.
        rewrite (Hgo Hge). exact Hrun.
      * apply (part_terminal_same
                 (Part000.setTranslate (c + v * f * Rmin (t - l) 60) s0) s);
          try reflexivity.
        exact Hend.
Qed.

Lemma part_inertia_settles (f v : R) :
  Rabs f < 1 ->
  exists N : nat,
    forall (s : Part000.Slider) (now0 : R) (times : list R),
      Part000.friction (Part000.options s) = f ->
      Part000.velocity (Part000.state s) = v ->
      Part000.isDragging (Part000.state s) = false ->
      Part000.pending s = None ->
      (N <= length times)%nat ->
      exists (k : nat) (s' : Part000.Slider),
        (1 <= k <= N)%nat
        /\ part_frames (firstn k times) (Part000.startInertia now0 s) = Ok s'
        /\ PartTerminal s s'.
Proof.
  intros Hf.
  assert (Hm : exists m : R, Rabs f <= m /\ 0.6 <= m /\ m < 1).
  { exists (Rmax (Rabs f) 0.6).
    unfold Rmax. destruct (Rle_dec _ _); repeat split; lra. }
  destruct Hm as (m & Hm1 & Hm2 & Hm3).
  destruct (geometric_decay v m 0.01) as (N & HN1 & HN); [lra | lra |].
  exists N. intros s now0 times Hfr Hv Hd _ Hlen.
  unfold Part000.startInertia. rewrite Hv.
  rewrite <- Hfr in Hm1.
  apply (part_inertia_terminal (Part000.options s) m Hm1 Hm2 Hm3 N); auto.
Qed.

Lemma slider_terminal_same (a b s' : SliderJs.Slider) :
  SliderJs.options a = SliderJs.options b ->
  SliderJs.emitted a = SliderJs.emitted b ->
  SliderJs.minTranslate a = SliderJs.minTranslate b ->
  SliderJs.maxTranslate a = SliderJs.maxTranslate b ->
  SliderTerminal a s' -> SliderTerminal b s'.
Proof.
  intros Ho He Hmin Hmax [H1 H2 H3 H4 | d t i H1 H2 H3 H4 | v t H1 H2 H3];
    rewrite ?Ho, ?He, ?Hmin, ?Hmax in *.
  - apply slider_stop_emitted; assumption.
  - apply (slider_snap_started b s' d t i); assumption.
  - apply (slider_spring_entered b s' v t); assumption.
Qed.

(** The physics loop of [slider.js], started within the bounds, reaches a
    terminal transition within [n] frames once the velocity times the
    [n]-th power of the friction is below 0.01. *)
Lemma slider_inertia_terminal (o : SliderJs.Options) (m : R) :
  Rabs (SliderJs.friction o) <= m -> 0 <= m ->
  forall (n : nat) (v c l : R) (s : SliderJs.Slider) (times : list R),
    SliderJs.options s = o ->
    SliderJs.isDragging (SliderJs.state s) = false ->
    SliderJs.currentTranslate (SliderJs.state s) = c ->
    SliderJs.maxTranslate s <= c <= SliderJs.minTranslate s ->
    Rabs v * m ^ n < 0.01 ->
    (1 <= n <= length times)%nat ->
    exists (k : nat) (s' : SliderJs.Slider),
      (1 <= k <= n)%nat
      /\ slider_frames (firstn k times)
           (SliderJs.requestAnimationFrame (SliderJs.InertiaStep v c l) s)
         = Ok s'
      /\ SliderTerminal s s'.
Proof.
  intros Hf Hm0.
  induction n as [| n IH]; intros v c l s times Ho Hd Hc Hin Hv Hn; [lia|].
  destruct times as [| t rest]; [simpl in Hn; lia|].
  set (s0 := SliderJs.set_pending None
               (SliderJs.requestAnimationFrame
                  (SliderJs.InertiaStep v c l) s)).
  assert (Hd0 : SliderJs.isDragging (SliderJs.state s0) = false)
    by exact Hd.
  assert (Hin0 : SliderJs.maxTranslate s0 <= c <= SliderJs.minTranslate s0)
    by exact Hin.
  set (f := SliderJs.friction (SliderJs.options s0)).
  assert (Hfm : Rabs f <= m).
  { subst f. change (SliderJs.options s0) with (SliderJs.options s).
    rewrite Ho. exact Hf. }
  assert (Hvf : Rabs (v * f) <= Rabs v * m).
  { rewrite Rabs_mult. apply Rmult_le_compat_l; [apply Rabs_pos | exact Hfm]. }
  destruct (Rlt_dec (Rabs (v * f)) 0.01) as [Hlt | Hge].
  - exists 1%nat, (SliderJs.step v c l t s0).
    split; [lia|]. split; [reflexivity|].
    rewrite (slider_step_inside_stop v c l t s0 Hd0 Hin0 Hlt).
    apply (slider_terminal_same s0 s); try reflexivity.
    destruct (SliderJs.freeMode (SliderJs.options s0)) eqn:Hfree.
    + apply slider_stop_emitted.
      * exact Hfree.
      * reflexivity.
      * reflexivity.
      * change (SliderJs.currentTranslate
                  (SliderJs.state (SliderJs.emit SliderJs.sliderStop s0)))
          with (SliderJs.currentTranslate (SliderJs.state s)).
        rewrite Hc. exact Hin.
    + destruct (slider_snapToNearest_keeps t s0)
        as ((d & idx & H1) & H2 & _ & H3 & _).
      apply (slider_snap_started _ _ d t idx).
      * exact Hfree.
      * rewrite H1, H2. reflexivity.
      * exact H3.
      * rewrite H2.
        change (SliderJs.currentTranslate (SliderJs.state s0))
          with (SliderJs.currentTranslate (SliderJs.state s)).
        rewrite Hc. exact Hin.
  - pose proof (slider_step_inside_go v c l t s0 Hd0 Hin0 Hge) as Hstep.
    cbv zeta in Hstep. fold f in Hstep.
    set (c' := c + v * f * Rmin (t - l) 60) in *.
    destruct (Rlt_dec (SliderJs.minTranslate s) c') as [Habove | Hna].
    { exists 1%nat, (SliderJs.step v c l t s0).
      split; [lia|]. split; [reflexivity|]. rewrite Hstep.
      apply (slider_spring_entered _ _ (v * f) t);
        [reflexivity | reflexivity | left; exact Habove]. }
    destruct (Rlt_dec c' (SliderJs.maxTranslate s)) as [Hbelow | Hnb].
    { exists 1%nat, (SliderJs.step v c l t s0).
      split; [lia|]. split; [reflexivity|]. rewrite Hstep.
      apply (slider_spring_entered _ _ (v * f) t);
        [reflexivity | reflexivity | right; exact Hbelow]. }
    destruct n as [| n'].
    { exfalso. apply Hge. simpl in Hv. lra. }
    destruct (IH (v * f) c' t (SliderJs.setTranslate c' s0) rest)
      as (k & s' & Hk & Hrun & Hend).
    + exact Ho.
    + exact Hd.
    + reflexivity.
    + change (SliderJs.maxTranslate (SliderJs.setTranslate c' s0))
        with (SliderJs.maxTranslate s).
      change (SliderJs.minTranslate (SliderJs.setTranslate c' s0))
        with (SliderJs.minTranslate s). lra.
    + assert (Hp : 0 <= m ^ S n') by (apply pow_le; lra).
      change (m ^ S (S n')) with (m * m ^ S n') in Hv.
      apply Rle_lt_trans with (Rabs v * m * m ^ S n'); [| lra].
      apply Rmult_le_compat_r; assumption.
    + simpl in Hn. lia.
    + exists (S k), s'. split; [lia|]. split.
      * simpl firstn. simpl slider_frames. fold s0.
        rewrite Hstep. exact Hrun.
      * apply (slider_terminal_same (SliderJs.setTranslate c' s0) s);
          try reflexivity.
        exact Hend.
Qed.

Lemma slider_inertia_settles (f v : R) :
  Rabs f < 1 ->
  exists N : nat,
    forall (s : SliderJs.Slider) (now0 : R) (times : list R),
      SliderJs.friction (SliderJs.options s) = f ->
      SliderJs.velocity (SliderJs.state s) = v ->
      SliderJs.isDragging (SliderJs.state s) = false ->
      SliderJs.pending s = None ->
      SliderJs.maxTranslate s <= SliderJs.currentTranslate (SliderJs.state s)
      <= SliderJs.minTranslate s ->
      (N <= length times)%nat ->
      exists (k : nat) (s' : SliderJs.Slider),
        (1 <= k <= N)%nat
        /\ slider_frames (firstn k times) (SliderJs.startInertia now0 s)
           = Ok s'
        /\ SliderTerminal s s'.
Proof.
  intros Hf.
  destruct (geometric_decay v (Rabs f) 0.01)
    as (N & HN1 & HN); [split; [apply Rabs_pos | exact Hf] | lra |].
  exists N. intros s now0 times Hfr Hv Hd _ Hin Hlen.
  unfold SliderJs.startInertia. rewrite Hv.
  apply (slider_inertia_terminal (SliderJs.options s) (Rabs f)
           ltac:(rewrite Hfr; apply Rle_refl) (Rabs_pos _) N); auto.
Qed.

Lemma touch_terminal_after (a b s' : TouchSliderJs.Slider)
      (m : list TouchSliderJs.Event) :
  TouchSliderJs.emitted a = TouchSliderJs.emitted b ++ m ->
  Forall (fun ev => ev = TouchSliderJs.sliderMove) m ->
  TouchTerminal a s' -> TouchTerminal b s'.
Proof.
  intros He Hm [mv H1 H2 H3 H4 | mv ch H1 H2 H3 H4 H5 H6
                | mv H1 H2 H3 H4 H5 H6].
  - apply (touch_stop_emitted b s' (m ++ mv)); try assumption.
    + apply Forall_app. split; assumption.
    + rewrite H4, He. rewrite <- !app_assoc. reflexivity.
  - apply (touch_snap_started b s' (m ++ mv) ch); try assumption.
    + apply Forall_app. split; assumption.
    + rewrite H6, He. rewrite <- !app_assoc. reflexivity.
  - apply (touch_spring_entered b s' (m ++ mv)); try assumption.
    + apply Forall_app. split; assumption.
    + rewrite H6, He. rewrite <- !app_assoc. reflexivity.
Qed.

(** The start of the snap: what [startSnap] sets and dispatches. *)
Lemma touch_startSnap_outcome (s : TouchSliderJs.Slider) :
  let s' := TouchSliderJs.startSnap s in
  TouchSliderJs.isSnapping (TouchSliderJs.state s') = true
  /\ TouchSliderJs.isAnimating (TouchSliderJs.animation s')
     = TouchSliderJs.isAnimating (TouchSliderJs.animation s)
  /\ TouchSliderJs.pending s' = true
  /\ exists change : list TouchSliderJs.Event,
       (change = []
        \/ exists previous : nat,
             change
             = [TouchSliderJs.slideChange
                  (TouchSliderJs.currentSlideIndex (TouchSliderJs.state s'))
                  previous])
       /\ TouchSliderJs.emitted s'
          = TouchSliderJs.emitted s ++ change
            ++ [TouchSliderJs.sliderSnapStart
                  (TouchSliderJs.currentSlideIndex
                     (TouchSliderJs.state s'))].
Proof.
  unfold TouchSliderJs.startSnap.
  destruct (TouchSliderJs.findNearestSlide _ _ s) as [index position].
  destruct (index =? _)%nat eqn:Hi; simpl.
  - apply Nat.eqb_eq in Hi. repeat split.
    exists []. split; [left; reflexivity|]. simpl. rewrite Hi. reflexivity.
  - repeat split.
    eexists. split; [right; eexists; reflexivity|].
    rewrite <- app_assoc. reflexivity.
Qed.

(** The spring and the move notification of a free frame keep the
    animation flags; within the bounds they also keep the velocity, and
    beyond a bound they leave the offset there unless they stop the
    track on the bound. *)
Lemma touch_spring_notify (s : TouchSliderJs.Slider) :
  let s2 := TouchSliderJs.notifyMove
              (TouchSliderJs.springBack (TouchSliderJs.getBounds s) s) in
  TouchSliderJs.options s2 = TouchSliderJs.options s
  /\ TouchSliderJs.animation s2 = TouchSliderJs.animation s
  /\ TouchSliderJs.pending s2 = TouchSliderJs.pending s
  /\ TouchSliderJs.isSnapping (TouchSliderJs.state s2)
     = TouchSliderJs.isSnapping (TouchSliderJs.state s)
  /\ TouchSliderJs.isDragging (TouchSliderJs.state s2)
     = TouchSliderJs.isDragging (TouchSliderJs.state s)
  /\ TouchSliderJs.getBounds s2 = TouchSliderJs.getBounds s
  /\ (exists m : list TouchSliderJs.Event,
         Forall (fun ev => ev = TouchSliderJs.sliderMove) m
         /\ TouchSliderJs.emitted s2 = TouchSliderJs.emitted s ++ m)
  /\ ((TouchSliderJs.isOutOfBounds
         (TouchSliderJs.currentX (TouchSliderJs.state s)) s = false
       /\ TouchSliderJs.velocityX (TouchSliderJs.touch s2)
          = TouchSliderJs.velocityX (TouchSliderJs.touch s)
       /\ TouchSliderJs.currentX (TouchSliderJs.state s2)
          = TouchSliderJs.currentX (TouchSliderJs.state s))
      \/ (TouchSliderJs.isOutOfBounds
            (TouchSliderJs.currentX (TouchSliderJs.state s)) s = true
          /\ (TouchSliderJs.currentX (TouchSliderJs.state s2)
              = TouchSliderJs.currentX (TouchSliderJs.state s)
              \/ TouchSliderJs.velocityX (TouchSliderJs.touch s2) = 0))).
Proof.
  cbv zeta.
  assert (Hn : forall a : TouchSliderJs.Slider,
             let b := TouchSliderJs.notifyMove a in
             TouchSliderJs.options b = TouchSliderJs.options a
             /\ TouchSliderJs.animation b = TouchSliderJs.animation a
             /\ TouchSliderJs.pending b = TouchSliderJs.pending a
             /\ TouchSliderJs.isSnapping (TouchSliderJs.state b)
                = TouchSliderJs.isSnapping (TouchSliderJs.state a)
             /\ TouchSliderJs.isDragging (TouchSliderJs.state b)
                = TouchSliderJs.isDragging (TouchSliderJs.state a)
             /\ TouchSliderJs.getBounds b = TouchSliderJs.getBounds a
             /\ (exists m : list TouchSliderJs.Event,
                    Forall (fun ev => ev = TouchSliderJs.sliderMove) m
                    /\ TouchSliderJs.emitted b
                       = TouchSliderJs.emitted a ++ m)
             /\ TouchSliderJs.velocityX (TouchSliderJs.touch b)
                = TouchSliderJs.velocityX (TouchSliderJs.touch a)
             /\ TouchSliderJs.currentX (TouchSliderJs.state b)
                = TouchSliderJs.currentX (TouchSliderJs.state a)).
  { intros a. unfold TouchSliderJs.notifyMove.
    destruct (JS.eqb _ _); simpl; repeat split.
    - exists []. split; [constructor | rewrite app_nil_r; reflexivity].
    - exists [TouchSliderJs.sliderMove].
      split; [repeat constructor | reflexivity]. }
  set (a := TouchSliderJs.springBack (TouchSliderJs.getBounds s) s).
  destruct (Hn a) as (N1 & N2 & N3 & N4 & N5 & N6 & N7 & N8 & N9).
  rewrite N1, N2, N3, N4, N5, N6, N8, N9.
  destruct N7 as (m & Hm & Hem).
  assert (Ha : TouchSliderJs.options a = TouchSliderJs.options s
               /\ TouchSliderJs.animation a = TouchSliderJs.animation s
               /\ TouchSliderJs.pending a = TouchSliderJs.pending s
               /\ TouchSliderJs.isSnapping (TouchSliderJs.state a)
                  = TouchSliderJs.isSnapping (TouchSliderJs.state s)
               /\ TouchSliderJs.isDragging (TouchSliderJs.state a)
                  = TouchSliderJs.isDragging (TouchSliderJs.state s)
               /\ TouchSliderJs.getBounds a = TouchSliderJs.getBounds s
               /\ TouchSliderJs.emitted a = TouchSliderJs.emitted s).
  { subst a. unfold TouchSliderJs.springBack.
    repeat (match goal with
            | |- context [if ?b then _ else _] =>
                lazymatch b with
                | context [if _ then _ else _] => fail
                | _ => destruct b
                end
            end); repeat split. }
  destruct Ha as (A1 & A2 & A3 & A4 & A5 & A6 & A7).
  split; [congruence|]. split; [congruence|]. split; [congruence|].
  split; [congruence|]. split; [congruence|]. split; [congruence|].
  split; [exists m; split; [exact Hm | rewrite Hem, A7; reflexivity]|].
  subst a. unfold TouchSliderJs.springBack, TouchSliderJs.isOutOfBounds.
  cbv zeta.
  destruct (JS.gtb (TouchSliderJs.currentX (TouchSliderJs.state s))
                   (TouchSliderJs.bounds_max (TouchSliderJs.getBounds s)))
    eqn:Hg.
  - right. split; [reflexivity|].
    destruct (JS.ltb _ 1 && JS.ltb _ 0.1); [right | left]; reflexivity.
  - destruct (JS.ltb (TouchSliderJs.currentX (TouchSliderJs.state s))
                     (TouchSliderJs.bounds_min (TouchSliderJs.getBounds s)))
      eqn:Hl.
    + right. split; [reflexivity|].
      destruct (JS.ltb _ 1 && JS.ltb _ 0.1); [right | left]; reflexivity.
    + left. repeat split.
Qed.

(** One run of [animate] of [TouchSlider.js] outside of a snap: a
    terminal transition, or a move within the bounds at the damped
    velocity with the next frame requested. *)
Lemma touch_animate_outcome (s : TouchSliderJs.Slider) :
  TouchSliderJs.isAnimating (TouchSliderJs.animation s) = true ->
  TouchSliderJs.isSnapping (TouchSliderJs.state s) = false ->
  TouchSliderJs.isDragging (TouchSliderJs.state s) = false ->
  TouchSliderJs.pending s = false ->
  0 < TouchSliderJs.velocityThreshold (TouchSliderJs.options s) ->
  let v' := TouchSliderJs.velocityX (TouchSliderJs.touch s)
            * TouchSliderJs.friction (TouchSliderJs.options s) in
  let s' := TouchSliderJs.animate s in
  TouchTerminal s s'
  \/ (~ Rabs v' < TouchSliderJs.velocityThreshold (TouchSliderJs.options s)
      /\ TouchSliderJs.velocityX (TouchSliderJs.touch s') = v'
      /\ TouchSliderJs.options s' = TouchSliderJs.options s
      /\ TouchSliderJs.isAnimating (TouchSliderJs.animation s') = true
      /\ TouchSliderJs.isSnapping (TouchSliderJs.state s') = false
      /\ TouchSliderJs.isDragging (TouchSliderJs.state s') = false
      /\ TouchSliderJs.pending s' = true
      /\ exists m : list TouchSliderJs.Event,
           Forall (fun ev => ev = TouchSliderJs.sliderMove) m
           /\ TouchSliderJs.emitted s' = TouchSliderJs.emitted s ++ m).
Proof.
  intros Ha Hs Hd Hp Hthr v' s'. subst s'.
  unfold TouchSliderJs.animate. rewrite Ha, Hs, Hd. simpl negb.
  cbv iota zeta. fold v'.
  set (s1 := TouchSliderJs.upd_touch (TouchSliderJs.set_velocityX v') s).
  change (TouchSliderJs.isSnapping (TouchSliderJs.state s1))
    with (TouchSliderJs.isSnapping (TouchSliderJs.state s)).
  rewrite Hs.
  change (TouchSliderJs.options s1) with (TouchSliderJs.options s).
  change (TouchSliderJs.velocityX (TouchSliderJs.touch s1)) with v'.
  destruct (negb (TouchSliderJs.freeMode (TouchSliderJs.options s))
            && negb false
            && JS.ltb (JS.Math_abs v')
                      (TouchSliderJs.velocityThreshold
                         (TouchSliderJs.options s) * 3)) eqn:Hsnap.
  { left.
    destruct (touch_startSnap_outcome s1) as (H1 & H2 & H3 & ch & H4 & H5).
    apply (touch_snap_started s _ [] ch); try assumption.
    - rewrite H2. exact Ha.
    - constructor. }
  clear Hsnap. unfold TouchSliderJs.animateFree. cbv zeta.
  change (TouchSliderJs.getBounds s) with (TouchSliderJs.getBounds s1).
  set (s1' := TouchSliderJs.upd_state
                (TouchSliderJs.set_currentX
                   (TouchSliderJs.currentX (TouchSliderJs.state s1)
                    + TouchSliderJs.velocityX (TouchSliderJs.touch s1)))
                s1).
  change (TouchSliderJs.getBounds s1) with (TouchSliderJs.getBounds s1').
  destruct (touch_spring_notify s1')
    as (K1 & K2 & K3 & K4 & K5 & K6 & (m & Hm & Hem) & Hcase).
  set (s2 := TouchSliderJs.notifyMove
               (TouchSliderJs.springBack (TouchSliderJs.getBounds s1') s1'))
    in *.
  rewrite K1.
  change (TouchSliderJs.options s1') with (TouchSliderJs.options s).
  change (TouchSliderJs.emitted s1') with (TouchSliderJs.emitted s) in Hem.
  destruct (JS.ltb (JS.Math_abs (TouchSliderJs.velocityX
                                   (TouchSliderJs.touch s2)))
                   (TouchSliderJs.velocityThreshold
                      (TouchSliderJs.options s))) eqn:Hstop.
  { left. apply (touch_stop_emitted s _ m).
    - reflexivity.
    - simpl. rewrite K3. exact Hp.
    - exact Hm.
    - simpl. rewrite Hem. rewrite <- app_assoc. reflexivity. }
  assert (Hanim : TouchSliderJs.isAnimating
                    (TouchSliderJs.animation
                       (TouchSliderJs.requestAnimationFrame s2)) = true).
  { simpl. rewrite K2. exact Ha. }
  assert (Hsn : TouchSliderJs.isSnapping
                  (TouchSliderJs.state
                     (TouchSliderJs.requestAnimationFrame s2)) = false).
  { simpl. rewrite K4. exact Hs. }
  destruct Hcase as [(Hin & Hv & Hx) | (Hout & Hx)].
  - right. unfold JS.Math_abs in Hstop. rewrite Hv in Hstop.
    change (TouchSliderJs.velocityX (TouchSliderJs.touch s1')) with v'
      in Hstop, Hv.
    split.
    { intros Hlt. rewrite (ltb_true _ _ Hlt) in Hstop. discriminate. }
    split; [exact Hv|]. split; [simpl; rewrite K1; reflexivity|].
    split; [exact Hanim|]. split; [exact Hsn|].
    split; [simpl; rewrite K5; exact Hd|]. split; [reflexivity|].
    exists m. split; [exact Hm | exact Hem].
  - left. destruct Hx as [Hx | Hv0].
    + apply (touch_spring_entered s _ m); try assumption.
      * reflexivity.
      * simpl TouchSliderJs.currentX.
        unfold TouchSliderJs.isOutOfBounds in *.
        change (TouchSliderJs.getBounds
                  (TouchSliderJs.requestAnimationFrame s2))
          with (TouchSliderJs.getBounds s2).
        rewrite K6, Hx. exact Hout.
    + exfalso. unfold JS.Math_abs in Hstop. rewrite Hv0 in Hstop.
      rewrite ltb_true in Hstop by (rewrite Rabs_R0; exact Hthr).
      discriminate.
Qed.

(** [animate] of [TouchSlider.js], requested outside of a snap, reaches a
    terminal transition within [n] frames once the velocity times the
    [n]-th power of the friction is below the stop threshold. *)
Lemma touch_inertia_terminal (o : TouchSliderJs.Options) :
  0 < TouchSliderJs.velocityThreshold o ->
  forall (n : nat) (s : TouchSliderJs.Slider),
    TouchSliderJs.options s = o ->
    TouchSliderJs.isAnimating (TouchSliderJs.animation s) = true ->
    TouchSliderJs.pending s = true ->
    TouchSliderJs.isSnapping (TouchSliderJs.state s) = false ->
    TouchSliderJs.isDragging (TouchSliderJs.state s) = false ->
    Rabs (TouchSliderJs.velocityX (TouchSliderJs.touch s))
    * Rabs (TouchSliderJs.friction o) ^ n
    < TouchSliderJs.velocityThreshold o ->
    (1 <= n)%nat ->
    exists k : nat,
      (1 <= k <= n)%nat /\ TouchTerminal s (touch_frames k s).
Proof.
  intros Hthr. induction n as [| n IH]; intros s Ho Ha Hp Hs Hd Hv Hn; [lia|].
  set (s0 := TouchSliderJs.set_animation (TouchSliderJs.animation s) false s).
  assert (Hfr : TouchSliderJs.frame s = TouchSliderJs.animate s0).
  { unfold TouchSliderJs.frame. rewrite Hp. reflexivity. }
  assert (Hthr0 : 0 < TouchSliderJs.velocityThreshold
                        (TouchSliderJs.options s0)).
  { change (TouchSliderJs.options s0) with (TouchSliderJs.options s).
    rewrite Ho. exact Hthr. }
  destruct (touch_animate_outcome s0 Ha Hs Hd eq_refl Hthr0)
    as [Hterm | (Hnlt & Hv' & Ho' & Ha' & Hs' & Hd' & Hp' & m & Hm & Hem)].
  - exists 1%nat. split; [lia|]. simpl touch_frames. rewrite Hfr.
    apply (touch_terminal_after s0 s _ []);
      [simpl; rewrite app_nil_r; reflexivity | constructor | exact Hterm].
  - change (TouchSliderJs.options s0) with (TouchSliderJs.options s)
      in Hnlt, Hv', Ho'.
    change (TouchSliderJs.touch s0) with (TouchSliderJs.touch s)
      in Hnlt, Hv'.
    rewrite Ho in Hnlt, Hv'.
    set (v := TouchSliderJs.velocityX (TouchSliderJs.touch s)) in *.
    set (fr := TouchSliderJs.friction o) in *.
    assert (Hvm : Rabs (v * fr) = Rabs v * Rabs fr) by apply Rabs_mult.
    destruct n as [| n'].
    { exfalso. apply Hnlt. rewrite Hvm. simpl in Hv. lra. }
    destruct (IH (TouchSliderJs.animate s0)) as (k & Hk & Hend).
    + rewrite Ho'. exact Ho.
    + exact Ha'.
    + exact Hp'.
    + exact Hs'.
    + exact Hd'.
    + rewrite Hv', Hvm.
      change (Rabs fr ^ S (S n')) with (Rabs fr * Rabs fr ^ S n') in Hv.
      lra.
    + lia.
    + exists (S k). split; [lia|]. simpl touch_frames. rewrite Hfr.
      apply (touch_terminal_after (TouchSliderJs.animate s0) s _ m);
        [exact Hem | exact Hm | exact Hend].
Qed.

Lemma touch_inertia_settles (f threshold v : R) :
  0 < threshold ->
  Rabs f < 1 ->
  exists N : nat,
    forall s : TouchSliderJs.Slider,
      TouchSliderJs.friction (TouchSliderJs.options s) = f ->
      TouchSliderJs.velocityThreshold (TouchSliderJs.options s) = threshold ->
      TouchSliderJs.velocityX (TouchSliderJs.touch s) = v ->
      TouchSliderJs.isAnimating (TouchSliderJs.animation s) = true ->
      TouchSliderJs.pending s = true ->
      TouchSliderJs.isSnapping (TouchSliderJs.state s) = false ->
      TouchSliderJs.isDragging (TouchSliderJs.state s) = false ->
      exists k : nat,
        (1 <= k <= N)%nat /\ TouchTerminal s (touch_frames k s).
Proof.
  intros Hthr Hf.
  destruct (geometric_decay v (Rabs f) threshold)
    as (N & HN1 & HN); [split; [apply Rabs_pos | exact Hf] | exact Hthr |].
  exists N. intros s Hfr Ht Hv Ha Hp Hs Hd.
  rewrite <- Ht in Hthr. rewrite <- Ht, <- Hfr, <- Hv in HN.
  apply (touch_inertia_terminal (TouchSliderJs.options s) Hthr N s);
    try reflexivity; assumption.
Qed.

(** C7: the inertia loop, started with any velocity [v] under a friction
    [f] of magnitude below one while no drag is in progress, reaches a
    terminal transition within a number [N] of frames that is determined
    by [v] and [f] alone (and, in [TouchSlider.js], by the configured stop
    threshold): the same [N] serves every slider state with that friction
    and that velocity and every sequence of frame times, because each
    frame damps the velocity by a factor below one.  The terminal
    transition is one of three.  Stop emitted: [sliderStop] has been
    dispatched and no frame is requested.  Snap started: the snap
    animation is requested from the offset reached (in [TouchSlider.js]:
    [isSnapping] is set and [sliderSnapStart] dispatched).  Return to
    bounds entered: in [part_000] the 700 ms animation to the bound that
    was crossed is requested; in [slider.js], started within the bounds,
    and in [TouchSlider.js] the offset has crossed a bound with the loop
    still requested, where its frames apply the boundary spring. *)
Theorem C7_inertia_settles :
  (forall f v : R,
      Rabs f < 1 ->
      exists N : nat,
        forall (s : Part000.Slider) (now0 : R) (times : list R),
          Part000.friction (Part000.options s) = f ->
          Part000.velocity (Part000.state s) = v ->
          Part000.isDragging (Part000.state s) = false ->
          Part000.pending s = None ->
          (N <= length times)%nat ->
          exists (k : nat) (s' : Part000.Slider),
            (1 <= k <= N)%nat
            /\ part_frames (firstn k times) (Part000.startInertia now0 s)
               = Ok s'
            /\ PartTerminal s s')
  /\ (forall f v : R,
         Rabs f < 1 ->
         exists N : nat,
           forall (s : SliderJs.Slider) (now0 : R) (times : list R),
             SliderJs.friction (SliderJs.options s) = f ->
             SliderJs.velocity (SliderJs.state s) = v ->
             SliderJs.isDragging (SliderJs.state s) = false ->
             SliderJs.pending s = None ->
             SliderJs.maxTranslate s
             <= SliderJs.currentTranslate (SliderJs.state s)
             <= SliderJs.minTranslate s ->
             (N <= length times)%nat ->
             exists (k : nat) (s' : SliderJs.Slider),
               (1 <= k <= N)%nat
               /\ slider_frames (firstn k times)
                                (SliderJs.startInertia now0 s) = Ok s'
               /\ SliderTerminal s s')
  /\ (forall f threshold v : R,
         0 < threshold ->
         Rabs f < 1 ->
         exists N : nat,
           forall s : TouchSliderJs.Slider,
             TouchSliderJs.friction (TouchSliderJs.options s) = f ->
             TouchSliderJs.velocityThreshold (TouchSliderJs.options s)
             = threshold ->
             TouchSliderJs.velocityX (TouchSliderJs.touch s) = v ->
             TouchSliderJs.isAnimating (TouchSliderJs.animation s) = true ->
             TouchSliderJs.pending s = true ->
             TouchSliderJs.isSnapping (TouchSliderJs.state s) = false ->
             TouchSliderJs.isDragging (TouchSliderJs.state s) = false ->
             exists k : nat,
               (1 <= k <= N)%nat /\ TouchTerminal s (touch_frames k s)).
Proof.
  split; [exact part_inertia_settles|].
  split; [exact slider_inertia_settles|].
  exact touch_inertia_settles.
Qed.

(** The three-slide carousel of [part_000], friction 0.95, with a
    velocity of 2 px/ms on its first slide. *)
Lemma C7_inertia_settles_witness :
  exists N : nat,
    forall times : list R,
      (N <= length times)%nat ->
      exists (k : nat) (s' : Part000.Slider),
        (1 <= k <= N)%nat
        /\ part_frames (firstn k times)
             (Part000.startInertia 0
                (Part000.upd_state (Part000.set_velocity 2)
                                   three_slides_part)) = Ok s'
        /\ PartTerminal
             (Part000.upd_state (Part000.set_velocity 2) three_slides_part)
             s'.
Proof.
  destruct C7_inertia_settles as (H & _).
  destruct (H 0.95 2) as (N & HN).
  - rewrite Rabs_pos_eq; lra.
  - exists N. intros times Hlen.
    apply (HN (Part000.upd_state (Part000.set_velocity 2) three_slides_part)
              0 times);
      [reflexivity | reflexivity | reflexivity | reflexivity | exact Hlen].
Defined.

(** ** No slide *)

(** C8 fails on [slider.js]: with no slide [updateDimensions] reads the
    margin of [slides[-1]], which throws, so that construction and every
    resize fail; and [snapToNearest] on an empty grid animates towards
    [undefined], so that its first frame writes [NaN] as offset.  The guard
    of [findNearestSlide] in [TouchSlider.js] returns the index 0 and the
    offset 0.  [part_000] guards [updateDimensions] but not
    [snapToNearest]: constructed with no slide, its resize handler starts
    an animation whose first frame writes [NaN]. *)
Theorem C8_zero_slides :
  (forall (o : SliderJs.Options) (cw : R),
      SliderJs.create o cw [] = Fails TypeError)
  /\ (forall (cw now : R) (s : SliderJs.Slider),
         SliderJs.onResize cw [] now s = Fails TypeError)
  /\ (forall (o : SliderJs.Options) (now t : R),
         SliderJs.slidesGrid (SliderJs.construct o) = []
         /\ SliderJs.frame t (SliderJs.snapToNearest now (SliderJs.construct o))
            = Fails NaNOffset)
  /\ (forall (o : TouchSliderJs.Options) (w cp v : R),
         TouchSliderJs.findNearestSlide cp v (TouchSliderJs.create o [] w)
         = (0%nat, 0))
  /\ (forall (o : Part000.Options) (now t : R),
         Part000.slidesGrid (Part000.create o empty_layout) = []
         /\ Part000.currentTranslate
              (Part000.state (Part000.create o empty_layout)) = 0
         /\ Part000.frame t
              (Part000.onResize empty_layout now
                 (Part000.create o empty_layout))
            = Fails NaNOffset).
Proof.
  repeat split.
Qed.

(** ** Ordering of the bounds *)

Lemma forEachSlide_spec (cw : R) (sl : list SliderJs.Slide) :
  forall (offset : R) (grid : list R),
    snd (SliderJs.forEachSlide cw sl offset grid)
    = grid ++ slider_grid cw sl offset.
Proof.
  induction sl as [| slide rest IH]; intros offset grid; simpl.
  - rewrite app_nil_r. reflexivity.
  - rewrite IH. rewrite <- app_assoc. reflexivity.
Qed.

Lemma slider_grid_length (cw : R) (sl : list SliderJs.Slide) :
  forall offset : R, length (slider_grid cw sl offset) = length sl.
Proof.
  induction sl as [| slide rest IH]; intros offset; simpl;
    [reflexivity | rewrite IH; reflexivity].
Qed.

Lemma slider_grid_upper (cw : R) (sl : list SliderJs.Slide) :
  forall (offset x : R),
    slider_nonneg sl ->
    In x (slider_grid cw sl offset) ->
    x <= - offset + cw / 2.
Proof.
  induction sl as [| slide rest IH]; intros offset x Hnn Hin; [contradiction|].
  inversion Hnn as [| a l [Hw Hm] Hrest]; subst.
  destruct Hin as [<- | Hin].
  - lra.
  - specialize (IH _ _ Hrest Hin). lra.
Qed.

Lemma nth_last_In {A : Type} (l : list A) (d : A) :
  l <> [] -> In (nth (length l - 1) l d) l.
Proof.
  intros Hne. apply nth_In. destruct l; [congruence | simpl; lia].
Qed.

Lemma last_le_first (g0 : R) (tl : list R) :
  (forall x, In x tl -> x <= g0) ->
  nth (length (g0 :: tl) - 1) (g0 :: tl) 0 <= g0.
Proof.
  intros Hall.
  destruct (nth_last_In (g0 :: tl) 0 ltac:(discriminate)) as [<- | Hin].
  - lra.
  - apply Hall. exact Hin.
Qed.

(** [slider.js]: whenever [updateDimensions] returns, the bounds are
    ordered. *)
Lemma slider_bounds_ordered (cw : R) (children : list SliderJs.Slide)
      (s s' : SliderJs.Slider) :
  slider_nonneg children ->
  SliderJs.updateDimensions cw children s = Ok s' ->
  SliderJs.maxTranslate s' <= SliderJs.minTranslate s'.
Proof.
  intros Hnn Hup. unfold SliderJs.updateDimensions in Hup.
  pose proof (forEachSlide_spec cw children 0 []) as Hg.
  destruct (SliderJs.forEachSlide cw children 0 []) as [offset grid].
  simpl in Hg. subst grid.
  destruct (SliderJs.getMarginRight _) as [m | f]; [| discriminate].
  simpl in Hup. injection Hup as <-.
  destruct children as [| slide rest]; [simpl; lra|].
  inversion Hnn as [| a l [Hw Hm] Hrest]; subst.
  cbn [slider_grid SliderJs.maxTranslate SliderJs.minTranslate fst snd].
  apply last_le_first. intros x Hin.
  apply slider_grid_upper in Hin; [| exact Hrest]. lra.
Qed.

Lemma part_entry_below_first (cw wl wo : R) (a : Part000.Slide)
      (rest : list Part000.Slide) (x : R) :
  0 <= Part000.rect_width a ->
  Forall (fun b => Part000.rect_left a + Part000.rect_width a
                   <= Part000.rect_left b
                   /\ 0 <= Part000.rect_width b) rest ->
  In x (map (Part000.gridEntry true cw wl wo) rest) ->
  x <= Part000.gridEntry true cw wl wo a.
Proof.
  intros Hw Hall Hin. apply in_map_iff in Hin.
  destruct Hin as (b & <- & Hb).
  rewrite Forall_forall in Hall. destruct (Hall b Hb) as (H1 & H2).
  unfold Part000.gridEntry. lra.
Qed.

(** [part_000]: [updateDimensions] keeps the bounds ordered, in the
    leading-edge mode by the [Math.min] of its last line, in the centered
    mode for slides laid out from left to right. *)
Lemma part_bounds_ordered (l : Part000.Layout) (s : Part000.Slider) :
  Part000.maxTranslate s <= Part000.minTranslate s ->
  Part000.centered (Part000.options s) = false
  \/ part_laid_out (Part000.children l) ->
  Part000.maxTranslate (Part000.updateDimensions l s)
  <= Part000.minTranslate (Part000.updateDimensions l s).
Proof.
  intros Hs Hmode. unfold Part000.updateDimensions.
  destruct (Part000.children l) as [| a rest] eqn:Hc; [exact Hs|].
  cbn [Part000.maxTranslate Part000.minTranslate].
  destruct (Part000.centered (Part000.options s)) eqn:Hcen.
  - destruct Hmode as [Hf | Hlaid]; [discriminate|].
    simpl in Hlaid. destruct Hlaid as (Hw & Hall & _).
    cbn [map nth].
    apply last_le_first. intros x Hin.
    apply (part_entry_below_first _ _ _ a rest); assumption.
  - unfold JS.Math_min. apply Rmin_l.
Qed.

(** C9 fails on [getBounds] of [TouchSlider.js]: with a single slide of
    width 100 in a slider of width 300 the bound called [min] is 200 and
    the bound called [max] is 0, so that the rightmost bound lies below the
    leftmost one. *)
Theorem C9_bounds_inverted :
  TouchSliderJs.trackWidth (TouchSliderJs.state narrow_touch) = 100
  /\ TouchSliderJs.sliderWidth (TouchSliderJs.state narrow_touch) = 300
  /\ TouchSliderJs.bounds_min (TouchSliderJs.getBounds narrow_touch) = 200
  /\ TouchSliderJs.bounds_max (TouchSliderJs.getBounds narrow_touch) = 0
  /\ TouchSliderJs.bounds_max (TouchSliderJs.getBounds narrow_touch)
     < TouchSliderJs.bounds_min (TouchSliderJs.getBounds narrow_touch).
Proof.
  unfold narrow_touch. simpl. repeat split; lra.
Qed.

(** ** Sessions that are never horizontal *)

Lemma slider_move_not_dragging (e : TouchEvent) (now : R)
      (s : SliderJs.Slider) :
  SliderJs.isDragging (SliderJs.state s) = false ->
  SliderJs.onTouchMove e now s = s.
Proof.
  intros Hd. unfold SliderJs.onTouchMove. rewrite Hd. reflexivity.
Qed.


Lemma slider_onTouchStart_cancels (e : TouchEvent) (now : R)
      (s : SliderJs.Slider) :
  slider_handle_kept s ->
  SliderJs.pending (SliderJs.onTouchStart e now s) = None.
Proof.
  intros Hk. unfold SliderJs.onTouchStart, SliderJs.stopTransition.
  destruct (SliderJs.rafId (SliderJs.state s)) eqn:Hr; simpl.
  - reflexivity.
  - destruct (SliderJs.pending s) eqn:Hp; [| reflexivity].
    rewrite Hk in Hr by (rewrite Hp; discriminate). discriminate.
Qed.

Lemma slider_move_keeps_frame (e : TouchEvent) (now : R)
      (s : SliderJs.Slider) :
  SliderJs.pending (SliderJs.onTouchMove e now s) = SliderJs.pending s
  /\ SliderJs.rafId (SliderJs.state (SliderJs.onTouchMove e now s))
     = SliderJs.rafId (SliderJs.state s).
Proof.
  unfold SliderJs.onTouchMove, SliderJs.lockDirection.
  destruct (SliderJs.isDragging (SliderJs.state s)); simpl;
    [| split; reflexivity].
  destruct (SliderJs.isHorizontal (SliderJs.state s)) as [[|] |] eqn:Hh;
    simpl; try rewrite Hh; try (split; reflexivity).
  destruct (JS.ltb _ 10 && JS.ltb _ 10); [split; reflexivity|].
  destruct (JS.ltb _ _); simpl; split; reflexivity.
Qed.










(** * Further properties *)

(** ** The subscription interface of [TouchSlider.js] *)

Lemma assign_same (n : String.string) (v : option (list nat))
      (r : TouchSliderApi.Registry) :
  TouchSliderApi.assign n v r n = v.
Proof. unfold TouchSliderApi.assign. rewrite String.eqb_refl. reflexivity. Qed.

Lemma assign_other (n m : String.string) (v : option (list nat))
      (r : TouchSliderApi.Registry) :
  m <> n -> TouchSliderApi.assign n v r m = r m.
Proof.
  intros H. unfold TouchSliderApi.assign.
  apply String.eqb_neq in H. rewrite H. reflexivity.
Qed.

Lemma dispatch_own (n : String.string) (r : TouchSliderApi.Registry)
      (hs : list nat) :
  TouchSliderApi.inherited n = false ->
  TouchSliderApi.dispatchEvent n r = Ok hs ->
  r n = Some hs \/ (r n = None /\ hs = []).
Proof.
  intros Hi Hd. unfold TouchSliderApi.dispatchEvent in Hd.
  destruct (r n) as [l |].
  - injection Hd as <-. left. reflexivity.
  - rewrite Hi in Hd. injection Hd as <-. right. split; reflexivity.
Qed.

Lemma length_zero_nil {A : Type} (l : list A) :
  (length l =? 0)%nat = true <-> l = [].
Proof.
  destruct l; simpl; split; intros H; try reflexivity; discriminate.
Qed.

(** X1: [on] with a function appends it to the handlers of its event name:
    a later [dispatchEvent] of that name calls the handlers registered
    before, in their order, and then the new one, once more if it was
    registered already; the handlers of every other name are untouched.
    With a [handler] that is not a function [on] leaves the registry as it
    is. *)
Theorem X1_on_appends :
  (forall (name : String.string) (h : nat) (r : TouchSliderApi.Registry)
          (hs : list nat),
      TouchSliderApi.inherited name = false ->
      TouchSliderApi.dispatchEvent name r = Ok hs ->
      exists r' : TouchSliderApi.Registry,
        TouchSliderApi.on name (TouchSliderApi.Function h) r = Ok r'
        /\ TouchSliderApi.dispatchEvent name r' = Ok (hs ++ [h])
        /\ (forall n : String.string, n <> name -> r' n = r n))
  /\ (forall (name : String.string) (b : bool)
             (r : TouchSliderApi.Registry),
         TouchSliderApi.on name (TouchSliderApi.NotFunction b) r = Ok r).
Proof.
  split; [| reflexivity].
  intros name h r hs Hi Hd.
  destruct (dispatch_own name r hs Hi Hd) as [Hr | [Hr ->]];
    unfold TouchSliderApi.on; rewrite Hr; [| rewrite Hi];
    eexists; (split; [reflexivity|]); split.
  - unfold TouchSliderApi.dispatchEvent. rewrite assign_same. reflexivity.
  - intros n Hn. apply assign_other. exact Hn.
  - unfold TouchSliderApi.dispatchEvent. rewrite assign_same. reflexivity.
  - intros n Hn. apply assign_other. exact Hn.
Qed.

(** Two registrations of the handler 7 under [sliderStop]. *)
Lemma X1_on_appends_witness :
  exists r' : TouchSliderApi.Registry,
    TouchSliderApi.on "sliderStop"%string (TouchSliderApi.Function 7)
      (TouchSliderApi.assign "sliderStop"%string (Some [3; 7]%nat)
                             TouchSliderApi.empty) = Ok r'
    /\ TouchSliderApi.dispatchEvent "sliderStop"%string r'
       = Ok ([3; 7] ++ [7])%nat
    /\ (forall n : String.string,
           n <> "sliderStop"%string ->
           r' n = TouchSliderApi.assign "sliderStop"%string
                    (Some [3; 7]%nat) TouchSliderApi.empty n).
Proof.
  destruct X1_on_appends as (H & _).
  apply (H "sliderStop"%string 7%nat
           (TouchSliderApi.assign "sliderStop"%string (Some [3; 7]%nat)
                                  TouchSliderApi.empty) [3; 7]%nat);
    reflexivity.
Defined.

Lemma filter_differs (h : nat) (hs : list nat) :
  filter (TouchSliderApi.differs (TouchSliderApi.Function h)) hs
  = without h hs.
Proof. reflexivity. Qed.

(** X2: [off] with a function removes every registration of that function
    under the event name, duplicates included, and keeps the other
    handlers of the name in their order; [off] without a handler removes
    all handlers of the name.  The handlers of every other name are
    untouched. *)
Theorem X2_off_removes :
  (forall (name : String.string) (h : nat) (r : TouchSliderApi.Registry)
          (hs : list nat),
      TouchSliderApi.inherited name = false ->
      TouchSliderApi.dispatchEvent name r = Ok hs ->
      exists r' : TouchSliderApi.Registry,
        TouchSliderApi.off name (TouchSliderApi.Function h) r = Ok r'
        /\ TouchSliderApi.dispatchEvent name r' = Ok (without h hs)
        /\ ~ In h (without h hs)
        /\ (forall n : String.string, n <> name -> r' n = r n))
  /\ (forall (name : String.string) (r : TouchSliderApi.Registry),
         TouchSliderApi.inherited name = false ->
         exists r' : TouchSliderApi.Registry,
           TouchSliderApi.off name (TouchSliderApi.NotFunction false) r
           = Ok r'
           /\ TouchSliderApi.dispatchEvent name r' = Ok []
           /\ (forall n : String.string, n <> name -> r' n = r n)).
Proof.
  split.
  - intros name h r hs Hi Hd.
    assert (Hnot : ~ In h (without h hs)).
    { unfold without. intros Hin. apply filter_In in Hin.
      destruct Hin as (_ & Hne). rewrite Nat.eqb_refl in Hne.
      discriminate. }
    destruct (dispatch_own name r hs Hi Hd) as [Hr | [Hr ->]];
      unfold TouchSliderApi.off; rewrite Hr.
    + rewrite filter_differs.
      destruct (length (without h hs) =? 0)%nat eqn:Hlen.
      * apply length_zero_nil in Hlen.
        eexists. split; [reflexivity|]. split; [| split].
        -- unfold TouchSliderApi.dispatchEvent. rewrite assign_same, Hi.
           rewrite Hlen. reflexivity.
        -- exact Hnot.
        -- intros n Hn. apply assign_other. exact Hn.
      * eexists. split; [reflexivity|]. split; [| split].
        -- unfold TouchSliderApi.dispatchEvent. rewrite assign_same.
           reflexivity.
        -- exact Hnot.
        -- intros n Hn. apply assign_other. exact Hn.
    + rewrite Hi. exists r. split; [reflexivity|]. split; [| split].
      * unfold TouchSliderApi.dispatchEvent. rewrite Hr, Hi. reflexivity.
      * exact Hnot.
      * reflexivity.
  - intros name r Hi. unfold TouchSliderApi.off.
    destruct (r name) as [hs |] eqn:Hr.
    + eexists. split; [reflexivity|]. split.
      * unfold TouchSliderApi.dispatchEvent. rewrite assign_same, Hi.
        reflexivity.
      * intros n Hn. apply assign_other. exact Hn.
    + rewrite Hi. exists r. split; [reflexivity|]. split.
      * unfold TouchSliderApi.dispatchEvent. rewrite Hr, Hi. reflexivity.
      * reflexivity.
Qed.

(** The handler 7, registered twice among others, is removed by one
    [off]. *)
Lemma X2_off_removes_witness :
  exists r' : TouchSliderApi.Registry,
    TouchSliderApi.off "sliderStop"%string (TouchSliderApi.Function 7)
      (TouchSliderApi.assign "sliderStop"%string (Some [7; 3; 7]%nat)
                             TouchSliderApi.empty) = Ok r'
    /\ TouchSliderApi.dispatchEvent "sliderStop"%string r' = Ok [3%nat].
Proof.
  destruct X2_off_removes as (H & _).
  destruct (H "sliderStop"%string 7%nat
              (TouchSliderApi.assign "sliderStop"%string
                 (Some [7; 3; 7]%nat) TouchSliderApi.empty)
              [7; 3; 7]%nat eq_refl eq_refl) as (r' & H1 & H2 & _).
  exists r'. split; [exact H1 | exact H2].
Defined.

Lemma on_wf (name : String.string) (handler : TouchSliderApi.Value)
      (r r' : TouchSliderApi.Registry) :
  api_wf r -> TouchSliderApi.on name handler r = Ok r' -> api_wf r'.
Proof.
  intros Hwf Hon. unfold TouchSliderApi.on in Hon.
  destruct handler as [h | b]; [| injection Hon as <-; exact Hwf].
  destruct (r name) as [hs |] eqn:Hr.
  - injection Hon as <-. intros n.
    destruct (String.eqb_spec n name) as [-> | Hne].
    + rewrite assign_same. split.
      * intros H. injection H as H. destruct hs; discriminate.
      * intros Hi. destruct (Hwf name) as (_ & Hn).
        rewrite (Hn Hi) in Hr. discriminate.
    + rewrite assign_other by exact Hne. apply Hwf.
  - destruct (TouchSliderApi.inherited name) eqn:Hi; [discriminate|].
    injection Hon as <-. intros n.
    destruct (String.eqb_spec n name) as [-> | Hne].
    + rewrite assign_same. split; [discriminate|].
      intros Hi'. rewrite Hi in Hi'. discriminate.
    + rewrite assign_other by exact Hne. apply Hwf.
Qed.

Lemma off_wf (name : String.string) (handler : TouchSliderApi.Value)
      (r r' : TouchSliderApi.Registry) :
  api_wf r -> TouchSliderApi.off name handler r = Ok r' -> api_wf r'.
Proof.
  intros Hwf Hoff. unfold TouchSliderApi.off in Hoff.
  assert (Hdel : api_wf (TouchSliderApi.assign name None r)).
  { intros n. destruct (String.eqb_spec n name) as [-> | Hne].
    - rewrite assign_same. split; [discriminate | reflexivity].
    - rewrite assign_other by exact Hne. apply Hwf. }
  assert (Hkeep : forall kept,
             (length kept =? 0)%nat = false -> r name <> None ->
             api_wf (TouchSliderApi.assign name (Some kept) r)).
  { intros kept Hlen Hown n.
    destruct (String.eqb_spec n name) as [-> | Hne].
    - rewrite assign_same. split.
      + intros H. injection H as ->. discriminate.
      + intros Hi. destruct (Hwf name) as (_ & Hn).
        exfalso. apply Hown. apply Hn. exact Hi.
    - rewrite assign_other by exact Hne. apply Hwf. }
  destruct (r name) as [hs |] eqn:Hr.
  - destruct handler as [h | [|]].
    + destruct (length _ =? 0)%nat eqn:Hlen; injection Hoff as <-;
        [exact Hdel | apply Hkeep; [exact Hlen | discriminate]].
    + destruct (length _ =? 0)%nat eqn:Hlen; injection Hoff as <-;
        [exact Hdel | apply Hkeep; [exact Hlen | discriminate]].
    + injection Hoff as <-. exact Hdel.
  - destruct (TouchSliderApi.inherited name).
    + destruct handler as [h | [|]]; try discriminate.
      injection Hoff as <-. exact Hwf.
    + injection Hoff as <-. exact Hwf.
Qed.

Lemma without_absent (h : nat) (hs : list nat) :
  ~ In h hs -> without h hs = hs.
Proof.
  induction hs as [| a tl IH]; intros Hn; [reflexivity|].
  unfold without in *. simpl.
  destruct (Nat.eqb_spec a h) as [-> | Hne].
  - exfalso. apply Hn. left. reflexivity.
  - simpl. rewrite IH; [reflexivity|].
    intros Hin. apply Hn. right. exact Hin.
Qed.

Lemma without_app (h : nat) (a b : list nat) :
  without h (a ++ b) = without h a ++ without h b.
Proof. unfold without. apply filter_app. Qed.

(** X3: the registry never holds an empty array and never a name inherited
    from [Object.prototype]: this holds of [{}] and is kept by every [on]
    and [off] that returns.  On such a registry, subscribing a function
    that is not yet registered under a name and unsubscribing it again
    gives back the registry one started from. *)
Theorem X3_subscribe_unsubscribe :
  api_wf TouchSliderApi.empty
  /\ (forall (name : String.string) (handler : TouchSliderApi.Value)
             (r r' : TouchSliderApi.Registry),
         api_wf r ->
         TouchSliderApi.on name handler r = Ok r'
         \/ TouchSliderApi.off name handler r = Ok r' ->
         api_wf r')
  /\ (forall (name : String.string) (h : nat)
             (r : TouchSliderApi.Registry) (hs : list nat),
         api_wf r ->
         TouchSliderApi.inherited name = false ->
         TouchSliderApi.dispatchEvent name r = Ok hs ->
         ~ In h hs ->
         exists r1 r2 : TouchSliderApi.Registry,
           TouchSliderApi.on name (TouchSliderApi.Function h) r = Ok r1
           /\ TouchSliderApi.off name (TouchSliderApi.Function h) r1 = Ok r2
           /\ (forall n : String.string, r2 n = r n)).
Proof.
  split; [| split].
  - intros n. split; [discriminate | reflexivity].
  - intros name handler r r' Hwf [Hon | Hoff].
    + exact (on_wf name handler r r' Hwf Hon).
    + exact (off_wf name handler r r' Hwf Hoff).
  - intros name h r hs Hwf Hi Hd Hnot.
    assert (Hw : without h (hs ++ [h]) = hs).
    { rewrite without_app, (without_absent h hs Hnot).
      unfold without. simpl. rewrite Nat.eqb_refl. simpl.
      apply app_nil_r. }
    destruct (dispatch_own name r hs Hi Hd) as [Hr | [Hr ->]].
    + exists (TouchSliderApi.assign name (Some (hs ++ [h])) r).
      exists (TouchSliderApi.assign name (Some hs)
                (TouchSliderApi.assign name (Some (hs ++ [h])) r)).
      split; [unfold TouchSliderApi.on; rewrite Hr; reflexivity|].
      split.
      * unfold TouchSliderApi.off. rewrite assign_same.
        rewrite filter_differs, Hw.
        destruct (length hs =? 0)%nat eqn:Hlen; [| reflexivity].
        apply length_zero_nil in Hlen. subst hs.
        destruct (Hwf name) as (Hne & _). contradiction.
      * intros n. destruct (String.eqb_spec n name) as [-> | Hne].
        -- rewrite assign_same. symmetry. exact Hr.
        -- rewrite !assign_other by exact Hne. reflexivity.
    + exists (TouchSliderApi.assign name (Some ([] ++ [h])) r).
      exists (TouchSliderApi.assign name None
                (TouchSliderApi.assign name (Some ([] ++ [h])) r)).
      split; [unfold TouchSliderApi.on; rewrite Hr, Hi; reflexivity|].
      split.
      * unfold TouchSliderApi.off. rewrite assign_same.
        rewrite filter_differs, Hw. reflexivity.
      * intros n. destruct (String.eqb_spec n name) as [-> | Hne].
        -- rewrite assign_same. symmetry. exact Hr.
        -- rewrite !assign_other by exact Hne. reflexivity.
Qed.

(** Subscribing the handler 5 to [slideChange] on an empty registry and
    unsubscribing it. *)
Lemma X3_subscribe_unsubscribe_witness :
  exists r1 r2 : TouchSliderApi.Registry,
    TouchSliderApi.on "slideChange"%string (TouchSliderApi.Function 5)
                      TouchSliderApi.empty = Ok r1
    /\ TouchSliderApi.off "slideChange"%string (TouchSliderApi.Function 5) r1
       = Ok r2
    /\ (forall n : String.string, r2 n = TouchSliderApi.empty n).
Proof.
  destruct X3_subscribe_unsubscribe as (Hwf & _ & H).
  apply (H "slideChange"%string 5%nat TouchSliderApi.empty []).
  - exact Hwf.
  - reflexivity.
  - reflexivity.
  - simpl. tauto.
Defined.

(** X4: under a name that every object inherits from [Object.prototype],
    such as [toString], [on] with a function throws a [TypeError] and
    registers nothing, [off] with a handler throws as well, and [off]
    without a handler returns with the registry unchanged. *)
Theorem X4_inherited_names :
  forall (name : String.string) (h : nat) (r : TouchSliderApi.Registry),
    api_wf r ->
    TouchSliderApi.inherited name = true ->
    TouchSliderApi.on name (TouchSliderApi.Function h) r = Fails TypeError
    /\ TouchSliderApi.off name (TouchSliderApi.Function h) r
       = Fails TypeError
    /\ TouchSliderApi.off name (TouchSliderApi.NotFunction false) r = Ok r.
Proof.
  intros name h r Hwf Hi. destruct (Hwf name) as (_ & Hn).
  specialize (Hn Hi).
  unfold TouchSliderApi.on, TouchSliderApi.off. rewrite Hn, Hi.
  repeat split.
Qed.

(** [on('toString', f)] on a fresh slider. *)
Lemma X4_inherited_names_witness :
  TouchSliderApi.on "toString"%string (TouchSliderApi.Function 1)
                    TouchSliderApi.empty = Fails TypeError.
Proof.
  apply (X4_inherited_names "toString"%string 1%nat TouchSliderApi.empty).
  - intros n. split; [discriminate | reflexivity].
  - reflexivity.
Defined.

(** ** Visibility of the last slide *)



(** One check on at least one slide: the flags become the two visibility
    conditions, and an event is dispatched for each condition that was not
    flagged before. *)
Lemma touch_check_once (a : TouchSliderVisibility.Element)
      (tl : list TouchSliderVisibility.Element) (st : TouchSliderJs.State)
      (f : TouchSliderVisibility.Flags) :
  let slides := a :: tl in
  let vs := last_slide_entered slides st in
  let vf := last_slide_inside slides st in
  TouchSliderVisibility.checkLastSlideVisibility slides st f
  = ({| TouchSliderVisibility.lastSlideVisibleStart := vs;
        TouchSliderVisibility.lastSlideVisibleFull := vf |},
     (if vs && negb (TouchSliderVisibility.lastSlideVisibleStart f)
      then [TouchSliderVisibility.LastSlideVisibleStart
              (length slides - 1) (TouchSliderJs.currentX st)]
      else [])
     ++ (if vf && negb (TouchSliderVisibility.lastSlideVisibleFull f)
         then [TouchSliderVisibility.LastSlideVisibleFull
                 (length slides - 1) (TouchSliderJs.currentX st)]
         else [])).
Proof.
  intros slides vs vf.
  unfold TouchSliderVisibility.checkLastSlideVisibility.
  fold slides. unfold slides at 1. cbv zeta.
  change (JS.ltb _ _) with vs.
  change (JS.geb _ _ && JS.leb _ _) with vf.
  destruct f as [fs ff]. cbn [TouchSliderVisibility.lastSlideVisibleStart
                                TouchSliderVisibility.lastSlideVisibleFull].
  destruct vs, vf, fs, ff; reflexivity.
Qed.

Lemma filter_start_once (c : bool) (i : nat) (x : R) :
  length (filter is_start_event
            (if c then [TouchSliderVisibility.LastSlideVisibleStart i x]
             else []))
  = if c then 1%nat else 0%nat.
Proof. destruct c; reflexivity. Qed.

Lemma filter_start_full (c : bool) (i : nat) (x : R) :
  filter is_start_event
    (if c then [TouchSliderVisibility.LastSlideVisibleFull i x] else [])
  = [].
Proof. destruct c; reflexivity. Qed.

Lemma filter_full_once (c : bool) (i : nat) (x : R) :
  length (filter is_full_event
            (if c then [TouchSliderVisibility.LastSlideVisibleFull i x]
             else []))
  = if c then 1%nat else 0%nat.
Proof. destruct c; reflexivity. Qed.

Lemma filter_full_start (c : bool) (i : nat) (x : R) :
  filter is_full_event
    (if c then [TouchSliderVisibility.LastSlideVisibleStart i x] else [])
  = [].
Proof. destruct c; reflexivity. Qed.

(** X6: the two visibility events of [TouchSlider.js] are dispatched on
    rising edges only.  Along any run of checks on at least one slide,
    [lastSlideVisibleStart] is dispatched once for each time the last slide
    enters the viewport, the flag telling whether it was in view before the
    run, and [lastSlideVisibleFull] once for each time it comes to lie
    fully inside; staying in view dispatches nothing more. *)
Theorem X6_visibility_edges :
  forall (a : TouchSliderVisibility.Element)
         (tl : list TouchSliderVisibility.Element)
         (sts : list TouchSliderJs.State)
         (f : TouchSliderVisibility.Flags),
    let events := snd (visibility_checks (a :: tl) sts f) in
    length (filter is_start_event events)
    = rising_edges (TouchSliderVisibility.lastSlideVisibleStart f)
                   (map (last_slide_entered (a :: tl)) sts)
    /\ length (filter is_full_event events)
       = rising_edges (TouchSliderVisibility.lastSlideVisibleFull f)
                      (map (last_slide_inside (a :: tl)) sts).
Proof.
  intros a tl sts. induction sts as [| st rest IH]; intros f events.
  - split; reflexivity.
  - subst events. cbn [visibility_checks snd map rising_edges].
    rewrite (touch_check_once a tl st f). cbv zeta. cbn [fst snd].
    destruct (IH {| TouchSliderVisibility.lastSlideVisibleStart :=
                      last_slide_entered (a :: tl) st;
                    TouchSliderVisibility.lastSlideVisibleFull :=
                      last_slide_inside (a :: tl) st |}) as (IH1 & IH2).
    cbv zeta in IH1, IH2.
    cbn [TouchSliderVisibility.lastSlideVisibleStart
           TouchSliderVisibility.lastSlideVisibleFull] in IH1, IH2.
    rewrite !filter_app, !length_app.
    rewrite filter_start_once, filter_start_full.
    rewrite filter_full_once, filter_full_start.
    rewrite IH1, IH2. simpl length. split; lia.
Qed.

(** X7: after a check on at least one slide the two flags say whether the
    last slide has entered the viewport and whether it lies fully inside
    it, whatever they said before; for a last slide of positive width the
    second flag is set only if the first one is.  With no slide the check
    changes no flag and dispatches nothing. *)
Theorem X7_visibility_flags :
  (forall (a : TouchSliderVisibility.Element)
          (tl : list TouchSliderVisibility.Element)
          (st : TouchSliderJs.State) (f : TouchSliderVisibility.Flags),
      let f' :=
        fst (TouchSliderVisibility.checkLastSlideVisibility (a :: tl) st f)
      in
      TouchSliderVisibility.lastSlideVisibleStart f'
      = last_slide_entered (a :: tl) st
      /\ TouchSliderVisibility.lastSlideVisibleFull f'
         = last_slide_inside (a :: tl) st
      /\ (0 < TouchSliderVisibility.offsetWidth
                (nth (length (a :: tl) - 1) (a :: tl)
                     TouchSliderVisibility.noElement) ->
          TouchSliderVisibility.lastSlideVisibleFull f' = true ->
          TouchSliderVisibility.lastSlideVisibleStart f' = true))
  /\ (forall (st : TouchSliderJs.State) (f : TouchSliderVisibility.Flags),
         TouchSliderVisibility.checkLastSlideVisibility [] st f = (f, [])).
Proof.
  split; [| reflexivity].
  intros a tl st f f'. subst f'.
  rewrite (touch_check_once a tl st f). cbv zeta. cbn [fst].
  cbn [TouchSliderVisibility.lastSlideVisibleStart
         TouchSliderVisibility.lastSlideVisibleFull].
  split; [reflexivity|]. split; [reflexivity|].
  intros Hw Hfull. unfold last_slide_inside in Hfull.
  unfold last_slide_entered. cbv zeta in Hfull.
  apply andb_true_iff in Hfull. destruct Hfull as (_ & Hr).
  unfold JS.leb in Hr.
  destruct (Rle_dec _ _) as [Hle |]; [| discriminate].
  apply ltb_true. lra.
Qed.

(** The last of two slides sits at 300 with the width 300; the track has
    been moved to -300 in a slider of width 300. *)
Lemma X7_visibility_flags_witness :
  TouchSliderVisibility.lastSlideVisibleStart
    (fst (TouchSliderVisibility.checkLastSlideVisibility
            [ {| TouchSliderVisibility.offsetLeft := 0;
                 TouchSliderVisibility.offsetWidth := 300 |};
              {| TouchSliderVisibility.offsetLeft := 300;
                 TouchSliderVisibility.offsetWidth := 300 |} ]
            (TouchSliderJs.set_dimensions 300 600
               (TouchSliderJs.set_currentX (-300)
                                           TouchSliderJs.initialState))
            {| TouchSliderVisibility.lastSlideVisibleStart := false;
               TouchSliderVisibility.lastSlideVisibleFull := false |}))
  = true.
Proof.
  destruct X7_visibility_flags as (H & _).
  apply H.
  - simpl. lra.
  - destruct (H {| TouchSliderVisibility.offsetLeft := 0;
                   TouchSliderVisibility.offsetWidth := 300 |}
                [ {| TouchSliderVisibility.offsetLeft := 300;
                     TouchSliderVisibility.offsetWidth := 300 |} ]
                (TouchSliderJs.set_dimensions 300 600
                   (TouchSliderJs.set_currentX (-300)
                                               TouchSliderJs.initialState))
                {| TouchSliderVisibility.lastSlideVisibleStart := false;
                   TouchSliderVisibility.lastSlideVisibleFull := false |})
      as (_ & Hf & _).
    cbv zeta in Hf. rewrite Hf. unfold last_slide_inside. simpl.
    unfold JS.geb. rewrite !leb_true by lra. reflexivity.
Defined.

(** ** The window of velocity samples *)

Lemma filter_snoc {A : Type} (f : A -> bool) (l : list A) (a : A) :
  f a = true -> filter f (l ++ [a]) = filter f l ++ [a].
Proof. intros H. rewrite filter_app. simpl. rewrite H. reflexivity. Qed.

Lemma Forall_filter_snoc {A : Type} (f : A -> bool) (P : A -> Prop)
      (l : list A) (a : A) :
  (forall x, f x = true -> P x) -> P a ->
  Forall P (filter f l ++ [a]).
Proof.
  intros Hf Ha. apply Forall_app. split.
  - apply Forall_forall. intros x Hin. apply filter_In in Hin.
    apply Hf. apply Hin.
  - constructor; [exact Ha | constructor].
Qed.

(** A horizontal move of [TouchSlider.js] records the new offset. *)
Lemma touch_move_history (e : TouchEvent) (now : R)
      (s : TouchSliderJs.Slider) :
  TouchSliderJs.isTouching (TouchSliderJs.touch s) = true ->
  TouchSliderJs.isDirectionDetermined (TouchSliderJs.touch s) = true ->
  TouchSliderJs.isHorizontalSwipe (TouchSliderJs.touch s) = true ->
  let s' := TouchSliderJs.handleTouchMove e now s in
  TouchSliderJs.history (TouchSliderJs.touch s')
  = filter (fun p => JS.leb (now - TouchSliderJs.point_time p) 150)
           (TouchSliderJs.history (TouchSliderJs.touch s))
    ++ [ {| TouchSliderJs.point_x :=
              TouchSliderJs.currentX (TouchSliderJs.state s');
            TouchSliderJs.point_time := now |} ].
Proof.
  intros Ht Hd Hh. unfold TouchSliderJs.handleTouchMove.
  rewrite Ht. simpl. unfold TouchSliderJs.determineDirection. simpl.
  rewrite Hd. simpl. rewrite Hd, Hh. simpl.
  apply filter_snoc. simpl. apply leb_true. lra.
Qed.

(** X8: recording a velocity sample keeps the window well formed.  After
    [trackVelocity(x)] at time [now], in [slider.js] and in [part_000], the
    window is what was left of the earlier samples less than 100 ms old,
    in their order, followed by the new sample [(x, now)]: it is never
    empty and holds no sample 100 ms old or older.  After a horizontal
    move of [TouchSlider.js] the history ends with the offset just applied
    and holds no point more than 150 ms old. *)
Theorem X8_sample_window :
  (forall (x now : R) (s : SliderJs.Slider),
      let ps := SliderJs.positions
                  (SliderJs.state (SliderJs.trackVelocity x now s)) in
      ps = filter (fun p => JS.ltb (now - SliderJs.sample_time p) 100)
                  (SliderJs.positions (SliderJs.state s))
           ++ [ {| SliderJs.sample_x := x; SliderJs.sample_time := now |} ]
      /\ Forall (fun p => now - SliderJs.sample_time p < 100) ps)
  /\ (forall (x now : R) (s : Part000.Slider),
         let ps := Part000.positions
                     (Part000.state (Part000.trackVelocity x now s)) in
         ps = filter (fun p => JS.ltb (now - Part000.sample_time p) 100)
                     (Part000.positions (Part000.state s))
              ++ [ {| Part000.sample_x := x; Part000.sample_time := now |} ]
         /\ Forall (fun p => now - Part000.sample_time p < 100) ps)
  /\ (forall (e : TouchEvent) (now : R) (s : TouchSliderJs.Slider),
         TouchSliderJs.isTouching (TouchSliderJs.touch s) = true ->
         TouchSliderJs.isDirectionDetermined (TouchSliderJs.touch s) = true ->
         TouchSliderJs.isHorizontalSwipe (TouchSliderJs.touch s) = true ->
         let s' := TouchSliderJs.handleTouchMove e now s in
         let h := TouchSliderJs.history (TouchSliderJs.touch s') in
         h = filter (fun p => JS.leb (now - TouchSliderJs.point_time p) 150)
                    (TouchSliderJs.history (TouchSliderJs.touch s))
             ++ [ {| TouchSliderJs.point_x :=
                       TouchSliderJs.currentX (TouchSliderJs.state s');
                     TouchSliderJs.point_time := now |} ]
         /\ Forall (fun p => now - TouchSliderJs.point_time p <= 150) h).
Proof.
  split; [| split].
  - intros x now s ps. subst ps. unfold SliderJs.trackVelocity. simpl.
    rewrite filter_snoc by (simpl; apply ltb_true; lra).
    split; [reflexivity|].
    apply Forall_filter_snoc.
    + intros p Hp. apply ltb_iff. exact Hp.
    + simpl. lra.
  - intros x now s ps. subst ps. unfold Part000.trackVelocity. simpl.
    rewrite filter_snoc by (simpl; apply ltb_true; lra).
    split; [reflexivity|].
    apply Forall_filter_snoc.
    + intros p Hp. apply ltb_iff. exact Hp.
    + simpl. lra.
  - intros e now s Ht Hd Hh s' h. subst h s'.
    rewrite (touch_move_history e now s Ht Hd Hh). cbv zeta.
    split; [reflexivity|].
    apply Forall_filter_snoc.
    + intros p Hp. unfold JS.leb in Hp.
      destruct (Rle_dec _ _) as [Hle |]; [exact Hle | discriminate].
    + simpl. lra.
Qed.

(** The drag of the scenario at time 200: the two points recorded at 0 and
    16 ms are dropped, the new one is kept. *)
Lemma X8_sample_window_witness :
  Forall (fun p => 200 - TouchSliderJs.point_time p <= 150)
         (TouchSliderJs.history
            (TouchSliderJs.touch
               (TouchSliderJs.handleTouchMove (move_event (-40) 0 true) 200
                                              touch_dragging))).
Proof.
  destruct X8_sample_window as (_ & _ & H).
  destruct touch_dragging_state as (Tt & Td & Th & _).
  apply (H (move_event (-40) 0 true) 200 touch_dragging Tt Td Th).
Defined.

(** ** Release after the finger has rested *)

Lemma retained_none (now : R) (s : TouchSliderJs.Slider) :
  Forall (fun p => 100 < now - TouchSliderJs.point_time p)
         (TouchSliderJs.history (TouchSliderJs.touch s)) ->
  retained now s = [].
Proof.
  unfold retained. intros H.
  induction (TouchSliderJs.history (TouchSliderJs.touch s)) as [| p tl IH];
    [reflexivity|].
  inversion H as [| a l Hp Htl]; subst. simpl.
  rewrite leb_false by lra. apply IH. exact Htl.
Qed.

(** The snap that [animate] starts on a slider at rest. *)
Lemma touch_release_at_rest (e : TouchEvent) (now : R)
      (s : TouchSliderJs.Slider) :
  TouchSliderJs.isDragging (TouchSliderJs.state s) = true ->
  TouchSliderJs.isAnimating (TouchSliderJs.animation s) = false ->
  TouchSliderJs.isSnapping (TouchSliderJs.state s) = false ->
  TouchSliderJs.freeMode (TouchSliderJs.options s) = false ->
  0 < TouchSliderJs.velocityThreshold (TouchSliderJs.options s) ->
  (length (retained now s) < 2)%nat ->
  let s' := TouchSliderJs.handleTouchEnd e now s in
  TouchSliderJs.isSnapping (TouchSliderJs.state s') = true
  /\ TouchSliderJs.snapTargetX (TouchSliderJs.state s')
     = snd (TouchSliderJs.findNearestSlide
              (TouchSliderJs.currentX (TouchSliderJs.state s)) 0 s)
  /\ TouchSliderJs.currentX (TouchSliderJs.state s')
     = TouchSliderJs.currentX (TouchSliderJs.state s)
  /\ TouchSliderJs.velocityX (TouchSliderJs.touch s') = 0
  /\ TouchSliderJs.isDragging (TouchSliderJs.state s') = false
  /\ TouchSliderJs.pending s' = true.
Proof.
  intros Hd Ha Hs Hf Hthr Hlen s'. subst s'.
  unfold TouchSliderJs.handleTouchEnd. simpl. rewrite Hd, Ha. simpl.
  assert (Hv : TouchSliderJs.calculateVelocity now
                 (TouchSliderJs.upd_touch (TouchSliderJs.set_isTouching false)
                                          s) = 0).
  { unfold TouchSliderJs.calculateVelocity. cbv zeta.
    change (filter _ _) with (retained now s).
    apply Nat.ltb_lt in Hlen. rewrite Hlen. reflexivity. }
  rewrite Hv. unfold TouchSliderJs.animate. simpl. rewrite Hs, Hf. simpl.
  replace (0 * 16 * TouchSliderJs.friction (TouchSliderJs.options s))
    with 0 by ring.
  unfold JS.Math_abs. rewrite Rabs_R0.
  rewrite ltb_true by lra. unfold TouchSliderJs.startSnap. simpl.
  change (TouchSliderJs.findNearestSlide
            (TouchSliderJs.currentX (TouchSliderJs.state s)) 0 _)
    with (TouchSliderJs.findNearestSlide
            (TouchSliderJs.currentX (TouchSliderJs.state s)) 0 s).
  destruct (TouchSliderJs.findNearestSlide _ 0 s) as [index position].
  simpl. destruct (index =? _)%nat; simpl; repeat split; reflexivity.
Qed.

(** X9: in [TouchSlider.js] the release velocity is 0 when fewer than two
    points of the history are at most 100 ms old, in particular when the
    finger has rested for more than 100 ms before lifting.  In snap mode
    the release then starts the snap at once, from the offset of the
    release, towards the slide that [findNearestSlide] returns for the
    velocity 0. *)
Theorem X9_release_after_hold :
  (forall (now : R) (s : TouchSliderJs.Slider),
      Forall (fun p => 100 < now - TouchSliderJs.point_time p)
             (TouchSliderJs.history (TouchSliderJs.touch s)) ->
      TouchSliderJs.calculateVelocity now s = 0)
  /\ (forall (e : TouchEvent) (now : R) (s : TouchSliderJs.Slider),
         TouchSliderJs.isDragging (TouchSliderJs.state s) = true ->
         TouchSliderJs.isAnimating (TouchSliderJs.animation s) = false ->
         TouchSliderJs.isSnapping (TouchSliderJs.state s) = false ->
         TouchSliderJs.freeMode (TouchSliderJs.options s) = false ->
         0 < TouchSliderJs.velocityThreshold (TouchSliderJs.options s) ->
         (length (retained now s) < 2)%nat ->
         let s' := TouchSliderJs.handleTouchEnd e now s in
         TouchSliderJs.isSnapping (TouchSliderJs.state s') = true
         /\ TouchSliderJs.snapTargetX (TouchSliderJs.state s')
            = snd (TouchSliderJs.findNearestSlide
                     (TouchSliderJs.currentX (TouchSliderJs.state s)) 0 s)
         /\ TouchSliderJs.currentX (TouchSliderJs.state s')
            = TouchSliderJs.currentX (TouchSliderJs.state s)
         /\ TouchSliderJs.velocityX (TouchSliderJs.touch s') = 0
         /\ TouchSliderJs.isDragging (TouchSliderJs.state s') = false
         /\ TouchSliderJs.pending s' = true).
Proof.
  split; [| exact touch_release_at_rest].
  intros now s Hold. unfold TouchSliderJs.calculateVelocity. cbv zeta.
  change (filter _ _) with (retained now s).
  rewrite (retained_none now s Hold). reflexivity.
Qed.

(** The three points recorded at 0, 50 and 100 ms, released at 300 ms. *)
Lemma X9_release_after_hold_witness :
  TouchSliderJs.calculateVelocity 300 (recorded_touch three_slides_touch) = 0.
Proof.
  destruct X9_release_after_hold as (H & _).
  apply (H 300 (recorded_touch three_slides_touch)).
  unfold recorded_touch. simpl.
  repeat (constructor; [simpl; lra|]). constructor.
Defined.

(** ** The snap animation of [slider.js] *)

Lemma slider_frames_app (a b : list R) :
  forall s : SliderJs.Slider,
    slider_frames (a ++ b) s = bind (slider_frames a s) (slider_frames b).
Proof.
  induction a as [| t rest IH]; intros s; [reflexivity|].
  simpl. destruct (SliderJs.frame t s) as [s1 | f]; simpl;
    [apply IH | reflexivity].
Qed.

Lemma easeOutQuad_range (p : R) :
  0 <= p <= 1 -> 0 <= p * (2 - p) <= 1.
Proof. intros [H0 H1]. split; nra. Qed.

Lemma between_ends (a d e : R) :
  0 <= e <= 1 -> Rmin a (a + d) <= a + d * e <= Rmax a (a + d).
Proof.
  intros [H0 H1]. unfold Rmin, Rmax.
  destruct (Rle_dec a (a + d)); split; nra.
Qed.

Lemma progress_before (elapsed duration : R) :
  0 < duration -> elapsed < duration ->
  Rmin (elapsed / duration) 1 = elapsed / duration
  /\ elapsed / duration < 1.
Proof.
  intros Hd He.
  assert (H : elapsed / duration < 1).
  { apply (Rmult_lt_reg_r duration); [exact Hd|].
    replace (elapsed / duration * duration) with elapsed by (field; lra).
    lra. }
  split; [apply Rmin_left; lra | exact H].
Qed.

Lemma progress_after (elapsed duration : R) :
  0 < duration -> duration <= elapsed ->
  Rmin (elapsed / duration) 1 = 1.
Proof.
  intros Hd He. apply Rmin_right.
  apply (Rmult_le_reg_r duration); [exact Hd|].
  replace (elapsed / duration * duration) with elapsed by (field; lra).
  lra.
Qed.

Lemma progress_nonneg (elapsed duration : R) :
  0 < duration -> 0 <= elapsed -> 0 <= elapsed / duration.
Proof.
  intros Hd He. apply Rmult_le_pos; [exact He|].
  left. apply Rinv_0_lt_compat. exact Hd.
Qed.

(** A frame of [loop] before the end of the animation. *)
Lemma slider_frame_running (st d t0 dur : R) (idx : nat) (u : R)
      (s : SliderJs.Slider) :
  SliderJs.pending s = Some (SliderJs.AnimateLoop st (JS.Num d) t0 dur idx) ->
  SliderJs.isDragging (SliderJs.state s) = false ->
  0 < dur -> 0 <= u - t0 < dur ->
  exists s' : SliderJs.Slider,
    SliderJs.frame u s = Ok s'
    /\ SliderJs.pending s'
       = Some (SliderJs.AnimateLoop st (JS.Num d) t0 dur idx)
    /\ SliderJs.isDragging (SliderJs.state s') = false
    /\ SliderJs.emitted s' = SliderJs.emitted s
    /\ SliderJs.rafId (SliderJs.state s') = true
    /\ Rmin st (st + d) <= SliderJs.currentTranslate (SliderJs.state s')
       <= Rmax st (st + d).
Proof.
  intros Hp Hd Hdur [H0 H1]. unfold SliderJs.frame. rewrite Hp.
  unfold SliderJs.loop. cbn [SliderJs.state SliderJs.set_pending].
  rewrite Hd. unfold JS.Math_min.
  destruct (progress_before (u - t0) dur Hdur H1) as (Hmin & Hlt).
  rewrite Hmin. cbn [JS.add_scaled]. rewrite (ltb_true _ 1 Hlt).
  eexists. split; [reflexivity|]. simpl.
  repeat split; try assumption; try reflexivity;
    apply between_ends; apply easeOutQuad_range;
    (split; [apply progress_nonneg; assumption | lra]).
Qed.

(** The frame of [loop] that ends the animation. *)
Lemma slider_frame_landing (st d t0 dur : R) (idx : nat) (u : R)
      (s : SliderJs.Slider) :
  SliderJs.pending s = Some (SliderJs.AnimateLoop st (JS.Num d) t0 dur idx) ->
  SliderJs.isDragging (SliderJs.state s) = false ->
  0 < dur -> dur <= u - t0 ->
  exists s' : SliderJs.Slider,
    SliderJs.frame u s = Ok s'
    /\ SliderJs.pending s' = None
    /\ SliderJs.currentTranslate (SliderJs.state s') = st + d
    /\ SliderJs.emitted s'
       = SliderJs.emitted s ++ [SliderJs.sliderStop; SliderJs.slideChange idx]
    /\ SliderJs.rafId (SliderJs.state s') = SliderJs.rafId (SliderJs.state s)
    /\ SliderJs.slidesGrid s' = SliderJs.slidesGrid s.
Proof.
  intros Hp Hd Hdur H1. unfold SliderJs.frame. rewrite Hp.
  unfold SliderJs.loop. cbn [SliderJs.state SliderJs.set_pending].
  rewrite Hd. unfold JS.Math_min.
  rewrite (progress_after (u - t0) dur Hdur H1). cbn [JS.add_scaled].
  rewrite (ltb_false 1 1) by lra.
  eexists. split; [reflexivity|]. simpl.
  rewrite <- app_assoc. simpl. repeat split; try reflexivity. lra.
Qed.

Lemma slider_frames_running (st d t0 dur : R) (idx : nat)
      (before : list R) :
  forall s : SliderJs.Slider,
    SliderJs.pending s
    = Some (SliderJs.AnimateLoop st (JS.Num d) t0 dur idx) ->
    SliderJs.isDragging (SliderJs.state s) = false ->
    0 < dur ->
    Forall (fun u => 0 <= u - t0 < dur) before ->
    Rmin st (st + d) <= SliderJs.currentTranslate (SliderJs.state s)
    <= Rmax st (st + d) ->
    exists s' : SliderJs.Slider,
      slider_frames before s = Ok s'
      /\ SliderJs.pending s'
         = Some (SliderJs.AnimateLoop st (JS.Num d) t0 dur idx)
      /\ SliderJs.isDragging (SliderJs.state s') = false
      /\ SliderJs.emitted s' = SliderJs.emitted s
      /\ Rmin st (st + d) <= SliderJs.currentTranslate (SliderJs.state s')
         <= Rmax st (st + d).
Proof.
  induction before as [| u rest IH]; intros s Hp Hd Hdur Hall Hin.
  - exists s. repeat split; try assumption; try reflexivity; apply Hin.
  - inversion Hall as [| a l Hu Hrest]; subst.
    destruct (slider_frame_running st d t0 dur idx u s Hp Hd Hdur Hu)
      as (s1 & Hf & Hp1 & Hd1 & He1 & _ & Hin1).
    destruct (IH s1 Hp1 Hd1 Hdur Hrest Hin1)
      as (s2 & Hf2 & Hp2 & Hd2 & He2 & Hin2).
    exists s2. simpl. rewrite Hf. simpl.
    repeat split; try assumption; try apply Hin2.
    rewrite He2. exact He1.
Qed.

Lemma slider_animateTo_state (target : R) (idx : nat) (now0 : R)
      (s : SliderJs.Slider) :
  let s0 := SliderJs.animateTo (Some target) idx now0 s in
  SliderJs.isDragging (SliderJs.state s0)
  = SliderJs.isDragging (SliderJs.state s)
  /\ SliderJs.currentTranslate (SliderJs.state s0)
     = SliderJs.currentTranslate (SliderJs.state s)
  /\ SliderJs.emitted s0 = SliderJs.emitted s
  /\ SliderJs.slidesGrid s0 = SliderJs.slidesGrid s
  /\ SliderJs.options s0 = SliderJs.options s.
Proof.
  unfold SliderJs.animateTo, SliderJs.stopTransition.
  destruct (SliderJs.rafId (SliderJs.state s)); repeat split.
Qed.

(** The animation started by [animateTo], run over frames that fall before
    its end and then over one that does not. *)
Lemma slider_animation_lands (s : SliderJs.Slider) (target : R) (idx : nat)
      (now0 : R) (before : list R) (t : R) :
  SliderJs.isDragging (SliderJs.state s) = false ->
  0 < SliderJs.speed (SliderJs.options s) ->
  Forall (fun u => 0 <= u - now0 < SliderJs.speed (SliderJs.options s))
         before ->
  SliderJs.speed (SliderJs.options s) <= t - now0 ->
  let cur := SliderJs.currentTranslate (SliderJs.state s) in
  let s0 := SliderJs.animateTo (Some target) idx now0 s in
  (exists s1 : SliderJs.Slider,
      slider_frames before s0 = Ok s1
      /\ Rmin cur target <= SliderJs.currentTranslate (SliderJs.state s1)
         <= Rmax cur target
      /\ SliderJs.pending s1 <> None
      /\ SliderJs.emitted s1 = SliderJs.emitted s)
  /\ (exists s2 : SliderJs.Slider,
         slider_frames (before ++ [t]) s0 = Ok s2
         /\ SliderJs.currentTranslate (SliderJs.state s2) = target
         /\ SliderJs.pending s2 = None
         /\ SliderJs.emitted s2
            = SliderJs.emitted s
              ++ [SliderJs.sliderStop; SliderJs.slideChange idx]).
Proof.
  intros Hd Hdur Hall Hend cur s0.
  destruct (slider_animateTo_state target idx now0 s)
    as (Hd0 & Hc0 & He0 & _ & _).
  fold s0 in Hd0, Hc0, He0. rewrite Hd in Hd0.
  assert (Hp0 : SliderJs.pending s0
                = Some (SliderJs.AnimateLoop cur (JS.Num (target - cur)) now0
                          (SliderJs.speed (SliderJs.options s)) idx)).
  { subst s0. apply slider_animateTo_pending. }
  assert (Hends : cur + (target - cur) = target) by lra.
  destruct (slider_frames_running cur (target - cur) now0
              (SliderJs.speed (SliderJs.options s)) idx before s0
              Hp0 Hd0 Hdur Hall) as (s1 & Hf1 & Hp1 & Hd1 & He1 & Hin1).
  { rewrite Hc0. fold cur. rewrite Hends. unfold Rmin, Rmax.
    destruct (Rle_dec cur target); lra. }
  rewrite Hends in Hin1.
  split.
  - exists s1. split; [exact Hf1|]. split; [exact Hin1|].
    split; [rewrite Hp1; discriminate | rewrite He1; exact He0].
  - destruct (slider_frame_landing cur (target - cur) now0
                (SliderJs.speed (SliderJs.options s)) idx t s1
                Hp1 Hd1 Hdur Hend) as (s2 & Hf2 & Hp2 & Hc2 & He2 & _).
    exists s2. rewrite slider_frames_app, Hf1. simpl. rewrite Hf2. simpl.
    split; [reflexivity|]. split; [lra|]. split; [exact Hp2|].
    rewrite He2, He1, He0. reflexivity.
Qed.

Lemma rounding_slack_nonneg (a b : R) : 0 <= rounding_slack a b.
Proof.
  unfold rounding_slack. apply Rmult_le_pos.
  - pose proof (Rabs_pos a). pose proof (Rabs_pos b). lra.
  - apply Rlt_le, Rinv_0_lt_compat, pow_lt. lra.
Qed.

(** X10: the animation that [animateTo] of [slider.js] starts, left alone
    by the user, stays between the offset it started from and its target,
    up to rounding, on every frame that falls before [speed] milliseconds
    have passed, and requests the next frame.  The first frame at or after
    that time puts the track on the target, up to the rounding of
    [target - start] and of [start + distance] (within
    [rounding_slack] of it), requests no further frame and dispatches
    [sliderStop] and then [slideChange] with the index handed to it. *)
Theorem X10_animation_lands :
  forall (s : SliderJs.Slider) (target : R) (idx : nat) (now0 : R)
         (before : list R) (t : R),
    SliderJs.isDragging (SliderJs.state s) = false ->
    0 < SliderJs.speed (SliderJs.options s) ->
    Forall (fun u => 0 <= u - now0 < SliderJs.speed (SliderJs.options s))
           before ->
    SliderJs.speed (SliderJs.options s) <= t - now0 ->
    let cur := SliderJs.currentTranslate (SliderJs.state s) in
    let s0 := SliderJs.animateTo (Some target) idx now0 s in
    (exists s1 : SliderJs.Slider,
        slider_frames before s0 = Ok s1
        /\ Rmin cur target - rounding_slack cur target
           <= SliderJs.currentTranslate (SliderJs.state s1)
           <= Rmax cur target + rounding_slack cur target
        /\ SliderJs.pending s1 <> None
        /\ SliderJs.emitted s1 = SliderJs.emitted s)
    /\ (exists s2 : SliderJs.Slider,
           slider_frames (before ++ [t]) s0 = Ok s2
           /\ Rabs (SliderJs.currentTranslate (SliderJs.state s2) - target)
              <= rounding_slack cur target
           /\ SliderJs.pending s2 = None
           /\ SliderJs.emitted s2
              = SliderJs.emitted s
                ++ [SliderJs.sliderStop; SliderJs.slideChange idx]).
Proof.
  intros s target idx now0 before t Hd Hsp Hall Hend cur s0.
  pose proof (rounding_slack_nonneg cur target) as Hsl.
  destruct (slider_animation_lands s target idx now0 before t
              Hd Hsp Hall Hend)
    as ((s1 & Hr1 & Hb1 & Hp1 & He1) & (s2 & Hr2 & Hc2 & Hp2 & He2)).
  fold cur in Hb1. split.
  - exists s1. split; [exact Hr1|]. split; [lra|].
    split; [exact Hp1 | exact He1].
  - exists s2. split; [exact Hr2|]. split; [| split; assumption].
    rewrite Hc2. replace (target - target) with 0 by lra.
    rewrite Rabs_R0. exact Hsl.
Qed.

(** The three-slide carousel, at rest on its first slide, sent to the
    second one: frames at 100, 200 and 300 ms. *)
Lemma X10_animation_lands_witness :
  exists s2 : SliderJs.Slider,
    slider_frames ([100; 200] ++ [300])
      (SliderJs.animateTo (Some (-300)) 1 0 three_slides_slider) = Ok s2
    /\ Rabs (SliderJs.currentTranslate (SliderJs.state s2) - -300)
       <= rounding_slack
            (SliderJs.currentTranslate (SliderJs.state three_slides_slider))
            (-300)
    /\ SliderJs.pending s2 = None
    /\ SliderJs.emitted s2
       = SliderJs.emitted three_slides_slider
         ++ [SliderJs.sliderStop; SliderJs.slideChange 1].
Proof.
  apply (X10_animation_lands three_slides_slider (-300) 1 0 [100; 200] 300).
  - reflexivity.
  - simpl. lra.
  - repeat (constructor; [simpl; lra|]). constructor.
  - simpl. lra.
Defined.

(** ** The frame handle *)

Lemma slider_animateTo_rafId (target : option R) (idx : nat) (now : R)
      (s : SliderJs.Slider) :
  SliderJs.rafId (SliderJs.state (SliderJs.animateTo target idx now s))
  = true.
Proof.
  unfold SliderJs.animateTo, SliderJs.stopTransition.
  destruct (SliderJs.rafId (SliderJs.state s)); reflexivity.
Qed.

Lemma slider_snapToNearest_rafId (now : R) (s : SliderJs.Slider) :
  SliderJs.rafId (SliderJs.state (SliderJs.snapToNearest now s)) = true.
Proof.
  unfold SliderJs.snapToNearest.
  destruct (SliderJs.slidesGrid s) as [| g0 rest].
  - apply slider_animateTo_rafId.
  - destruct (SliderJs.scan _ rest 1 _ g0 0).
    apply slider_animateTo_rafId.
Qed.

Lemma slider_frame_keeps_rafId (t : R) (s s' : SliderJs.Slider) :
  SliderJs.rafId (SliderJs.state s) = true ->
  SliderJs.frame t s = Ok s' ->
  SliderJs.rafId (SliderJs.state s') = true.
Proof.
  intros Hr Hf. unfold SliderJs.frame in Hf.
  destruct (SliderJs.pending s) as [[v c l | st d t0 dur idx] |].
  - injection Hf as <-. unfold SliderJs.step.
    cbn [SliderJs.state SliderJs.set_pending].
    destruct (SliderJs.isDragging (SliderJs.state s)); [exact Hr|].
    cbv zeta.
    repeat match goal with
           | |- context [if ?b then _ else _] =>
               lazymatch b with
               | context [if _ then _ else _] => fail
               | _ => destruct b
               end
           end;
      try reflexivity; try exact Hr; apply slider_snapToNearest_rafId.
  - unfold SliderJs.loop in Hf.
    cbn [SliderJs.state SliderJs.set_pending] in Hf.
    destruct (SliderJs.isDragging (SliderJs.state s));
      [injection Hf as <-; exact Hr|].
    destruct (JS.add_scaled _ _ _); [| discriminate].
    destruct (JS.ltb _ 1); injection Hf as <-; [reflexivity | exact Hr].
  - injection Hf as <-. exact Hr.
Qed.

Lemma slider_frames_keep_rafId (times : list R) :
  forall s s' : SliderJs.Slider,
    SliderJs.rafId (SliderJs.state s) = true ->
    slider_frames times s = Ok s' ->
    SliderJs.rafId (SliderJs.state s') = true.
Proof.
  induction times as [| t rest IH]; intros s s' Hr Hf.
  - injection Hf as <-. exact Hr.
  - simpl in Hf. destruct (SliderJs.frame t s) as [s1 | f] eqn:E;
      [| discriminate].
    simpl in Hf. apply (IH s1 s'); [| exact Hf].
    apply (slider_frame_keeps_rafId t s s1 Hr E).
Qed.

Lemma part_animateTo_rafId (target : option R) (duration : R)
      (easing : Part000.Easing) (callback : option nat) (now : R)
      (s : Part000.Slider) :
  Part000.rafId
    (Part000.state (Part000.animateTo target duration easing callback now s))
  = true.
Proof.
  unfold Part000.animateTo, Part000.stopTransition.
  destruct (Part000.rafId (Part000.state s)); reflexivity.
Qed.

Lemma part_snapToNearest_rafId (target : option R) (now : R)
      (s : Part000.Slider) :
  Part000.rafId (Part000.state (Part000.snapToNearest target now s)) = true.
Proof.
  unfold Part000.snapToNearest.
  destruct (Part000.slidesGrid s) as [| g0 rest].
  - apply part_animateTo_rafId.
  - destruct (Part000.nearest _ g0 rest s). apply part_animateTo_rafId.
Qed.

Lemma part_snapToBounds_rafId (now : R) (s : Part000.Slider) :
  Part000.rafId (Part000.state s) = true ->
  Part000.rafId (Part000.state (Part000.snapToBounds now s)) = true.
Proof.
  intros Hr. unfold Part000.snapToBounds.
  destruct (JS.gtb _ _); [apply part_animateTo_rafId|].
  destruct (JS.ltb _ _); [apply part_animateTo_rafId | exact Hr].
Qed.

Lemma part_frame_keeps_rafId (t : R) (s s' : Part000.Slider) :
  Part000.rafId (Part000.state s) = true ->
  Part000.frame t s = Ok s' ->
  Part000.rafId (Part000.state s') = true.
Proof.
  intros Hr Hf. unfold Part000.frame in Hf.
  destruct (Part000.pending s) as [[v c l | st d t0 dur f cb] |].
  - injection Hf as <-. unfold Part000.step.
    cbn [Part000.state Part000.set_pending].
    destruct (Part000.isDragging (Part000.state s)); [exact Hr|].
    cbv zeta.
    destruct (JS.gtb c _ || JS.ltb c _).
    + destruct (JS.ltb _ 0.1); [| reflexivity].
      apply part_snapToBounds_rafId. exact Hr.
    + destruct (JS.ltb _ 0.01); [| reflexivity].
      destruct (Part000.freeMode _);
        [exact Hr | apply part_snapToNearest_rafId].
  - unfold Part000.loop in Hf.
    cbn [Part000.state Part000.set_pending] in Hf.
    destruct (Part000.isDragging (Part000.state s));
      [injection Hf as <-; exact Hr|].
    destruct (JS.add_scaled _ _ _); [| discriminate].
    destruct (JS.ltb _ 1); injection Hf as <-; [reflexivity|].
    destruct cb; exact Hr.
  - injection Hf as <-. exact Hr.
Qed.

Lemma part_frames_keep_rafId (times : list R) :
  forall s s' : Part000.Slider,
    Part000.rafId (Part000.state s) = true ->
    part_frames times s = Ok s' ->
    Part000.rafId (Part000.state s') = true.
Proof.
  induction times as [| t rest IH]; intros s s' Hr Hf.
  - injection Hf as <-. exact Hr.
  - simpl in Hf. destruct (Part000.frame t s) as [s1 | f] eqn:E;
      [| discriminate].
    simpl in Hf. apply (IH s1 s'); [| exact Hf].
    apply (part_frame_keeps_rafId t s s1 Hr E).
Qed.

(** X11: in [slider.js] and in [part_000] no frame clears [rafId]: once a
    frame has been requested the handle stays set through every later
    frame, also through the one on which the animation or the inertia loop
    ends.  A touch start that follows therefore dispatches
    [sliderTouchStop] before [sliderDragStart], whether or not anything is
    still moving. *)
Theorem X11_frame_handle_stays :
  (forall (s s' : SliderJs.Slider) (times : list R) (e : TouchEvent)
          (now : R),
      SliderJs.rafId (SliderJs.state s) = true ->
      slider_frames times s = Ok s' ->
      SliderJs.rafId (SliderJs.state s') = true
      /\ SliderJs.emitted (SliderJs.onTouchStart e now s')
         = SliderJs.emitted s'
           ++ [SliderJs.sliderTouchStop; SliderJs.sliderDragStart])
  /\ (forall (s s' : Part000.Slider) (times : list R) (e : TouchEvent)
             (now : R),
         Part000.rafId (Part000.state s) = true ->
         part_frames times s = Ok s' ->
         Part000.rafId (Part000.state s') = true
         /\ Part000.emitted (Part000.onTouchStart e now s')
            = Part000.emitted s'
              ++ [Part000.sliderTouchStop; Part000.sliderDragStart]).
Proof.
  split.
  - intros s s' times e now Hr Hf.
    pose proof (slider_frames_keep_rafId times s s' Hr Hf) as Hr'.
    split; [exact Hr'|].
    unfold SliderJs.onTouchStart, SliderJs.stopTransition.
    rewrite Hr'. simpl. rewrite <- app_assoc. reflexivity.
  - intros s s' times e now Hr Hf.
    pose proof (part_frames_keep_rafId times s s' Hr Hf) as Hr'.
    split; [exact Hr'|].
    unfold Part000.onTouchStart, Part000.stopTransition.
    rewrite Hr'. simpl. rewrite <- app_assoc. reflexivity.
Qed.

(** The animation of the three-slide carousel towards its second slide has
    ended on the frame at 300 ms; the touch that follows is told that it
    stopped a movement. *)
Lemma X11_frame_handle_stays_witness :
  exists s' : SliderJs.Slider,
    slider_frames ([] ++ [300])
      (SliderJs.animateTo (Some (-300)) 1 0 three_slides_slider) = Ok s'
    /\ SliderJs.pending s' = None
    /\ SliderJs.emitted
         (SliderJs.onTouchStart (touch_at touchstart 0 0) 400 s')
       = SliderJs.emitted s'
         ++ [SliderJs.sliderTouchStop; SliderJs.sliderDragStart].
Proof.
  destruct (slider_animation_lands three_slides_slider (-300) 1 0 [] 300)
    as (_ & s' & Hf & _ & Hp & _).
  - reflexivity.
  - simpl. lra.
  - constructor.
  - simpl. lra.
  - exists s'. split; [exact Hf|]. split; [exact Hp|].
    destruct X11_frame_handle_stays as (H & _).
    apply (H (SliderJs.animateTo (Some (-300)) 1 0 three_slides_slider) s'
             ([] ++ [300]) (touch_at touchstart 0 0) 400).
    + apply slider_animateTo_rafId.
    + exact Hf.
Defined.

(** ** The animations of [part_000] *)

Lemma part_frames_app (a b : list R) :
  forall s : Part000.Slider,
    part_frames (a ++ b) s = bind (part_frames a s) (part_frames b).
Proof.
  induction a as [| t rest IH]; intros s; [reflexivity|].
  simpl. destruct (Part000.frame t s) as [s1 | f]; simpl;
    [apply IH | reflexivity].
Qed.

Lemma part_ease_end (f : Part000.Easing) : Part000.ease_of f 1 = 1.
Proof.
  destruct f; simpl; [lra|].
  unfold JS.Math_pow. destruct (Rlt_dec 0 (1 - 1)); lra.
Qed.

Lemma part_ease_range (f : Part000.Easing) (p : R) :
  0 <= p <= 1 -> 0 <= Part000.ease_of f p <= 1.
Proof.
  intros Hp. destruct f; simpl; [apply easeOutQuad_range; exact Hp|].
  unfold JS.Math_pow. destruct (Rlt_dec 0 (1 - p)) as [Hpos | Hz]; [| lra].
  pose proof (Rpower_pos (1 - p) 4).
  pose proof (Rpower_le_1 (1 - p) 4 ltac:(lra) ltac:(lra)). lra.
Qed.

Lemma part_frame_running (st d t0 dur : R) (f : Part000.Easing)
      (cb : option nat) (u : R) (s : Part000.Slider) :
  Part000.pending s
  = Some (Part000.AnimateLoop st (JS.Num d) t0 dur f cb) ->
  Part000.isDragging (Part000.state s) = false ->
  0 < dur -> 0 <= u - t0 < dur ->
  exists s' : Part000.Slider,
    Part000.frame u s = Ok s'
    /\ Part000.pending s'
       = Some (Part000.AnimateLoop st (JS.Num d) t0 dur f cb)
    /\ Part000.isDragging (Part000.state s') = false
    /\ Part000.emitted s' = Part000.emitted s
    /\ Rmin st (st + d) <= Part000.currentTranslate (Part000.state s')
       <= Rmax st (st + d).
Proof.
  intros Hp Hd Hdur [H0 H1]. unfold Part000.frame. rewrite Hp.
  unfold Part000.loop. cbn [Part000.state Part000.set_pending].
  rewrite Hd. unfold JS.Math_min.
  destruct (progress_before (u - t0) dur Hdur H1) as (Hmin & Hlt).
  rewrite Hmin. cbn [JS.add_scaled]. rewrite (ltb_true _ 1 Hlt).
  eexists. split; [reflexivity|]. simpl.
  repeat split; try assumption; try reflexivity;
    apply between_ends; apply part_ease_range;
    (split; [apply progress_nonneg; assumption | lra]).
Qed.

Lemma part_frame_landing (st d t0 dur : R) (f : Part000.Easing)
      (cb : option nat) (u : R) (s : Part000.Slider) :
  Part000.pending s
  = Some (Part000.AnimateLoop st (JS.Num d) t0 dur f cb) ->
  Part000.isDragging (Part000.state s) = false ->
  0 < dur -> dur <= u - t0 ->
  exists s' : Part000.Slider,
    Part000.frame u s = Ok s'
    /\ Part000.pending s' = None
    /\ Part000.currentTranslate (Part000.state s') = st + d
    /\ Part000.emitted s'
       = Part000.emitted s
         ++ Part000.sliderStop
            :: match cb with
               | Some idx => [Part000.slideChange idx]
               | None => []
               end.
Proof.
  intros Hp Hd Hdur H1. unfold Part000.frame. rewrite Hp.
  unfold Part000.loop. cbn [Part000.state Part000.set_pending].
  rewrite Hd. unfold JS.Math_min.
  rewrite (progress_after (u - t0) dur Hdur H1).
  rewrite part_ease_end. cbn [JS.add_scaled].
  rewrite (ltb_false 1 1) by lra.
  eexists. split; [reflexivity|].
  destruct cb as [idx |]; simpl; rewrite <- ?app_assoc; simpl;
    repeat split; try reflexivity; lra.
Qed.

Lemma part_frames_running (st d t0 dur : R) (f : Part000.Easing)
      (cb : option nat) (before : list R) :
  forall s : Part000.Slider,
    Part000.pending s
    = Some (Part000.AnimateLoop st (JS.Num d) t0 dur f cb) ->
    Part000.isDragging (Part000.state s) = false ->
    0 < dur ->
    Forall (fun u => 0 <= u - t0 < dur) before ->
    Rmin st (st + d) <= Part000.currentTranslate (Part000.state s)
    <= Rmax st (st + d) ->
    exists s' : Part000.Slider,
      part_frames before s = Ok s'
      /\ Part000.pending s'
         = Some (Part000.AnimateLoop st (JS.Num d) t0 dur f cb)
      /\ Part000.isDragging (Part000.state s') = false
      /\ Part000.emitted s' = Part000.emitted s
      /\ Rmin st (st + d) <= Part000.currentTranslate (Part000.state s')
         <= Rmax st (st + d).
Proof.
  induction before as [| u rest IH]; intros s Hp Hd Hdur Hall Hin.
  - exists s. repeat split; try assumption; try reflexivity; apply Hin.
  - inversion Hall as [| a l Hu Hrest]; subst.
    destruct (part_frame_running st d t0 dur f cb u s Hp Hd Hdur Hu)
      as (s1 & Hf & Hp1 & Hd1 & He1 & Hin1).
    destruct (IH s1 Hp1 Hd1 Hdur Hrest Hin1)
      as (s2 & Hf2 & Hp2 & Hd2 & He2 & Hin2).
    exists s2. simpl. rewrite Hf. simpl.
    repeat split; try assumption; try apply Hin2.
    rewrite He2. exact He1.
Qed.

(** An animation of [part_000] that is requested on [s0], from [cur] to
    [target], run over frames that fall before its end and then over one
    that does not. *)
Lemma part_animation_lands (s0 : Part000.Slider) (cur target t0 dur : R)
      (f : Part000.Easing) (cb : option nat) (before : list R) (t : R) :
  Part000.pending s0
  = Some (Part000.AnimateLoop cur (JS.Num (target - cur)) t0 dur f cb) ->
  Part000.currentTranslate (Part000.state s0) = cur ->
  Part000.isDragging (Part000.state s0) = false ->
  0 < dur ->
  Forall (fun u => 0 <= u - t0 < dur) before ->
  dur <= t - t0 ->
  (exists s1 : Part000.Slider,
      part_frames before s0 = Ok s1
      /\ Rmin cur target <= Part000.currentTranslate (Part000.state s1)
         <= Rmax cur target
      /\ Part000.pending s1 <> None
      /\ Part000.emitted s1 = Part000.emitted s0)
  /\ (exists s2 : Part000.Slider,
         part_frames (before ++ [t]) s0 = Ok s2
         /\ Part000.currentTranslate (Part000.state s2) = target
         /\ Part000.pending s2 = None
         /\ Part000.emitted s2
            = Part000.emitted s0
              ++ Part000.sliderStop
                 :: match cb with
                    | Some idx => [Part000.slideChange idx]
                    | None => []
                    end).
Proof.
  intros Hp0 Hc0 Hd0 Hdur Hall Hend.
  assert (Hends : cur + (target - cur) = target) by lra.
  destruct (part_frames_running cur (target - cur) t0 dur f cb before s0
              Hp0 Hd0 Hdur Hall) as (s1 & Hf1 & Hp1 & Hd1 & He1 & Hin1).
  { rewrite Hc0, Hends. unfold Rmin, Rmax.
    destruct (Rle_dec cur target); lra. }
  rewrite Hends in Hin1.
  split.
  - exists s1. split; [exact Hf1|]. split; [exact Hin1|].
    split; [rewrite Hp1; discriminate | exact He1].
  - destruct (part_frame_landing cur (target - cur) t0 dur f cb t s1
                Hp1 Hd1 Hdur Hend) as (s2 & Hf2 & Hp2 & Hc2 & He2).
    exists s2. rewrite part_frames_app, Hf1. simpl. rewrite Hf2. simpl.
    split; [reflexivity|]. split; [lra|]. split; [exact Hp2|].
    rewrite He2, He1. reflexivity.
Qed.

(** X12: [snapToBounds] of [part_000] does nothing when the offset is
    within the bounds.  When it is not, the animation it starts keeps the
    track between its offset and the bound it has crossed, up to rounding,
    and the first frame at or after 700 ms puts it on that bound, up to
    the rounding of [target - start] and of [start + distance] (within
    [rounding_slack] of it), requests no further frame and dispatches
    [sliderStop] and no [slideChange]. *)
Theorem X12_return_to_bounds :
  (forall (now0 : R) (s : Part000.Slider),
      Part000.maxTranslate s <= Part000.currentTranslate (Part000.state s)
      <= Part000.minTranslate s ->
      Part000.snapToBounds now0 s = s)
  /\ (forall (s : Part000.Slider) (now0 : R) (before : list R) (t : R),
         Part000.isDragging (Part000.state s) = false ->
         Part000.minTranslate s < Part000.currentTranslate (Part000.state s)
         \/ Part000.currentTranslate (Part000.state s)
            < Part000.maxTranslate s ->
         Forall (fun u => 0 <= u - now0 < 700) before ->
         700 <= t - now0 ->
         let cur := Part000.currentTranslate (Part000.state s) in
         let bound :=
           if JS.gtb cur (Part000.minTranslate s)
           then Part000.minTranslate s else Part000.maxTranslate s in
         (exists s1 : Part000.Slider,
             part_frames before (Part000.snapToBounds now0 s) = Ok s1
             /\ Rmin cur bound - rounding_slack cur bound
                <= Part000.currentTranslate (Part000.state s1)
                <= Rmax cur bound + rounding_slack cur bound
             /\ Part000.emitted s1 = Part000.emitted s)
         /\ (exists s2 : Part000.Slider,
                part_frames (before ++ [t]) (Part000.snapToBounds now0 s)
                = Ok s2
                /\ Rabs (Part000.currentTranslate (Part000.state s2)
                         - bound)
                   <= rounding_slack cur bound
                /\ Part000.pending s2 = None
                /\ Part000.emitted s2
                   = Part000.emitted s ++ [Part000.sliderStop])).
Proof.
  split.
  - intros now0 s [H1 H2]. unfold Part000.snapToBounds, JS.gtb.
    rewrite (ltb_false (Part000.minTranslate s)) by lra.
    rewrite (ltb_false _ (Part000.maxTranslate s)) by lra. reflexivity.
  - intros s now0 before t Hd Hout Hall Hend cur bound.
    assert (Hsnap : Part000.snapToBounds now0 s
                    = Part000.animateTo (Some bound) 700
                        Part000.easeOutQuart None now0 s).
    { unfold Part000.snapToBounds, bound, JS.gtb. fold cur.
      destruct (Rlt_dec (Part000.minTranslate s) cur) as [Ha | Hna].
      - rewrite ltb_true by exact Ha. reflexivity.
      - rewrite ltb_false by exact Hna.
        rewrite ltb_true; [reflexivity|].
        destruct Hout as [Ho | Ho]; [contradiction | exact Ho]. }
    rewrite Hsnap.
    destruct (part_animateTo_pending (Some bound) 700 Part000.easeOutQuart
                None now0 s) as (Hp & Hc & Hdr & He).
    rewrite Hd in Hdr.
    destruct (part_animation_lands _ cur bound now0 700
                Part000.easeOutQuart None before t Hp Hc Hdr
                ltac:(lra) Hall Hend)
      as ((s1 & Hf1 & Hin1 & _ & He1) & (s2 & Hf2 & Hc2 & Hp2 & He2)).
    pose proof (rounding_slack_nonneg cur bound) as Hsl.
    split.
    + exists s1. split; [exact Hf1|]. split; [lra|].
      rewrite He1. exact He.
    + exists s2. split; [exact Hf2|]. split.
      * rewrite Hc2. replace (bound - bound) with 0 by lra.
        rewrite Rabs_R0. exact Hsl.
      * split; [exact Hp2|]. rewrite He2, He. reflexivity.
Qed.

(** The three-slide carousel released 40 px above its upper bound. *)
Lemma X12_return_to_bounds_witness :
  exists s2 : Part000.Slider,
    part_frames ([350] ++ [700])
      (Part000.snapToBounds 0
         (Part000.setTranslate 40 three_slides_part)) = Ok s2
    /\ Part000.pending s2 = None
    /\ Part000.emitted s2
       = Part000.emitted (Part000.setTranslate 40 three_slides_part)
         ++ [Part000.sliderStop].
Proof.
  destruct X12_return_to_bounds as (_ & H).
  destruct (H (Part000.setTranslate 40 three_slides_part) 0 [350] 700)
    as (_ & (s2 & Hr & _ & Hp & He)).
  - reflexivity.
  - left. destruct three_slides_part_grid as (_ & Hmin & _).
    change (Part000.minTranslate (Part000.setTranslate 40 three_slides_part))
      with (Part000.minTranslate three_slides_part).
    rewrite Hmin. simpl. lra.
  - constructor; [lra | constructor].
  - lra.
  - exists s2. split; [exact Hr|]. split; [exact Hp | exact He].
Defined.

(** ** Release inside the bounds in [part_000] *)

Lemma part_release_snaps (e : TouchEvent) (now : R) (s : Part000.Slider)
      (g0 : R) (rest : list R) :
  Part000.isDragging (Part000.state s) = true ->
  Part000.isHorizontal (Part000.state s) = Some true ->
  is_touchcancel e = false ->
  Part000.freeMode (Part000.options s) = false ->
  Part000.slidesGrid s = g0 :: rest ->
  Part000.maxTranslate s <= Part000.currentTranslate (Part000.state s)
  <= Part000.minTranslate s ->
  let cur := Part000.currentTranslate (Part000.state s) in
  let projection := cur + part_release_velocity s * 200 in
  let s' := Part000.onTouchEnd e now s in
  Part000.pending s'
  = Some (Part000.AnimateLoop cur
            (JS.Num (snd (Part000.nearest projection g0 rest s) - cur))
            now 500 Part000.easeOutQuart
            (Some (fst (Part000.nearest projection g0 rest s))))
  /\ Part000.currentTranslate (Part000.state s') = cur
  /\ Part000.isDragging (Part000.state s') = false
  /\ Part000.emitted s' = Part000.emitted s ++ [Part000.sliderDragEnd].
Proof.
  intros Hd Hh Hc Hf Hg [Hlo Hhi] cur projection s'. subst s'.
  unfold Part000.onTouchEnd. rewrite Hd, Hh, Hc. simpl negb. cbv iota zeta.
  cbn [Part000.state Part000.upd_state Part000.emit Part000.set_velocity
       Part000.velocity Part000.currentTranslate Part000.set_isDragging
       Part000.minTranslate Part000.maxTranslate Part000.options].
  fold cur. unfold JS.gtb, JS.geb.
  rewrite (ltb_false (Part000.minTranslate s) cur) by (unfold cur; lra).
  rewrite (ltb_false cur (Part000.maxTranslate s)) by (unfold cur; lra).
  simpl orb. cbv iota. rewrite Hf. simpl negb.
  rewrite (leb_true cur (Part000.minTranslate s)) by (unfold cur; lra).
  rewrite (leb_true (Part000.maxTranslate s) cur) by (unfold cur; lra).
  simpl andb. cbv iota.
  match goal with
  | |- context [Part000.snapToNearest (Some ?p) now ?x] =>
      change p with projection;
      set (s2 := x)
  end.
  rewrite (part_snapToNearest_pending s2 projection now g0 rest Hg).
  unfold Part000.snapToNearest.
  change (Part000.slidesGrid s2) with (Part000.slidesGrid s). rewrite Hg.
  change (Part000.nearest projection g0 rest s2)
    with (Part000.nearest projection g0 rest s).
  destruct (Part000.nearest projection g0 rest s) as [k c].
  destruct (part_animateTo_pending (Some c) 500 Part000.easeOutQuart
              (Some k) now s2) as (_ & Hcur & Hdr & Hem).
  rewrite Hcur, Hdr, Hem. simpl. repeat split.
Qed.

(** X13: in the snap mode of [part_000] a release that finds the track
    within the bounds starts no inertia loop.  The track is animated over
    500 ms towards the first grid entry nearest to the position projected
    200 ms ahead at the release velocity, clamped into the bounds; the
    first frame at or after 500 ms puts it there, up to the rounding of
    [target - start] and of [start + distance] (within [rounding_slack]
    of it), and requests no further frame; [sliderDragEnd], [sliderStop]
    and [slideChange] with the index of that entry have then been
    dispatched, in this order. *)
Theorem X13_release_snaps :
  forall (e : TouchEvent) (now : R) (s : Part000.Slider) (g0 : R)
         (rest before : list R) (t : R),
    Part000.isDragging (Part000.state s) = true ->
    Part000.isHorizontal (Part000.state s) = Some true ->
    is_touchcancel e = false ->
    Part000.freeMode (Part000.options s) = false ->
    Part000.slidesGrid s = g0 :: rest ->
    Part000.maxTranslate s <= Part000.currentTranslate (Part000.state s)
    <= Part000.minTranslate s ->
    Forall (fun u => 0 <= u - now < 500) before ->
    500 <= t - now ->
    let cur := Part000.currentTranslate (Part000.state s) in
    let projection := cur + part_release_velocity s * 200 in
    let index := fst (Part000.nearest projection g0 rest s) in
    let target := snd (Part000.nearest projection g0 rest s) in
    Part000.pending (Part000.onTouchEnd e now s)
    = Some (Part000.AnimateLoop cur (JS.Num (target - cur)) now 500
              Part000.easeOutQuart (Some index))
    /\ (exists c : R,
           first_nearest (fun x => x) projection (g0 :: rest) index c
           /\ target = Rmax (Part000.maxTranslate s)
                            (Rmin c (Part000.minTranslate s)))
    /\ (exists s2 : Part000.Slider,
           part_frames (before ++ [t]) (Part000.onTouchEnd e now s) = Ok s2
           /\ Rabs (Part000.currentTranslate (Part000.state s2) - target)
              <= rounding_slack cur target
           /\ Part000.pending s2 = None
           /\ Part000.emitted s2
              = Part000.emitted s
                ++ [Part000.sliderDragEnd; Part000.sliderStop;
                    Part000.slideChange index]).
Proof.
  intros e now s g0 rest before t Hd Hh Hc Hf Hg Hin Hall Hend
         cur projection index target.
  destruct (part_release_snaps e now s g0 rest Hd Hh Hc Hf Hg Hin)
    as (Hp & Hcur & Hdr & Hem).
  fold cur projection in Hp, Hcur. fold index target in Hp.
  split; [exact Hp|]. split.
  - destruct (part_nearest_spec s projection g0 rest ltac:(lra))
      as (c & Hfn & Hclamp & _).
    exists c. split; [exact Hfn | exact Hclamp].
  - destruct (part_animation_lands _ cur target now 500
                Part000.easeOutQuart (Some index) before t Hp Hcur Hdr
                ltac:(lra) Hall Hend) as (_ & (s2 & Hf2 & Hc2 & Hp2 & He2)).
    exists s2. split; [exact Hf2|]. split.
    + rewrite Hc2. replace (target - target) with 0 by lra.
      rewrite Rabs_R0. apply rounding_slack_nonneg.
    + split; [exact Hp2|]. rewrite He2, Hem, <- app_assoc. reflexivity.
Qed.

(** The three-slide carousel dragged to -200 and released at rest: the
    animation towards its second slide ends on the frame at 600 ms. *)
Lemma X13_release_snaps_witness :
  exists s2 : Part000.Slider,
    part_frames
      ([250] ++ [600])
      (Part000.onTouchEnd (touch_at touchend 0 0) 100
         (dragged_part (-200) slow_part three_slides_part)) = Ok s2
    /\ Part000.pending s2 = None.
Proof.
  destruct three_slides_part_grid as (Hgrid & Hmin & Hmax).
  destruct (X13_release_snaps (touch_at touchend 0 0) 100
              (dragged_part (-200) slow_part three_slides_part)
              0 [-300; -600] [250] 600)
    as (_ & _ & (s2 & Hf & Hc & Hp & _)).
  - reflexivity.
  - reflexivity.
  - reflexivity.
  - reflexivity.
  - exact Hgrid.
  - change (Part000.maxTranslate
              (dragged_part (-200) slow_part three_slides_part))
      with (Part000.maxTranslate three_slides_part).
    change (Part000.minTranslate
              (dragged_part (-200) slow_part three_slides_part))
      with (Part000.minTranslate three_slides_part).
    rewrite Hmin, Hmax. simpl. lra.
  - constructor; [lra | constructor].
  - lra.
  - exists s2. split; [exact Hf | exact Hp].
Defined.

(** ** The snap of [TouchSlider.js] *)

(** The frame of the snap that ends it. *)
Lemma touch_snap_last (s : TouchSliderJs.Slider) :
  touch_snapping s ->
  Rabs (TouchSliderJs.snapTargetX (TouchSliderJs.state s)
        - TouchSliderJs.currentX (TouchSliderJs.state s)) < 0.5 ->
  let s' := TouchSliderJs.frame s in
  TouchSliderJs.currentX (TouchSliderJs.state s')
  = TouchSliderJs.snapTargetX (TouchSliderJs.state s)
  /\ TouchSliderJs.isSnapping (TouchSliderJs.state s') = false
  /\ TouchSliderJs.isAnimating (TouchSliderJs.animation s') = false
  /\ TouchSliderJs.pending s' = false
  /\ TouchSliderJs.emitted s'
     = TouchSliderJs.emitted s
       ++ [TouchSliderJs.sliderSnapComplete
             (TouchSliderJs.currentSlideIndex (TouchSliderJs.state s));
           TouchSliderJs.sliderStop].
Proof.
  intros (Ha & Hs & Hp) Hclose s'. subst s'.
  unfold TouchSliderJs.frame. rewrite Hp.
  unfold TouchSliderJs.animate. simpl. rewrite Ha, Hs. simpl.
  unfold TouchSliderJs.animateSnap. simpl. unfold JS.Math_abs.
  rewrite (ltb_true _ 0.5 Hclose). simpl.
  rewrite <- app_assoc. repeat split.
Qed.

(** A frame of the snap that does not end it: the distance to the target
    shrinks by the factor 0.85. *)
Lemma touch_snap_next (s : TouchSliderJs.Slider) :
  touch_snapping s ->
  ~ Rabs (TouchSliderJs.snapTargetX (TouchSliderJs.state s)
          - TouchSliderJs.currentX (TouchSliderJs.state s)) < 0.5 ->
  let s' := TouchSliderJs.frame s in
  touch_snapping s'
  /\ TouchSliderJs.snapTargetX (TouchSliderJs.state s')
     = TouchSliderJs.snapTargetX (TouchSliderJs.state s)
  /\ TouchSliderJs.currentSlideIndex (TouchSliderJs.state s')
     = TouchSliderJs.currentSlideIndex (TouchSliderJs.state s)
  /\ TouchSliderJs.snapTargetX (TouchSliderJs.state s')
     - TouchSliderJs.currentX (TouchSliderJs.state s')
     = 0.85 * (TouchSliderJs.snapTargetX (TouchSliderJs.state s)
               - TouchSliderJs.currentX (TouchSliderJs.state s))
  /\ exists moves : list TouchSliderJs.Event,
       Forall (fun ev => ev = TouchSliderJs.sliderMove) moves
       /\ TouchSliderJs.emitted s' = TouchSliderJs.emitted s ++ moves.
Proof.
  intros (Ha & Hs & Hp) Hfar s'. subst s'.
  unfold TouchSliderJs.frame. rewrite Hp.
  unfold TouchSliderJs.animate. simpl. rewrite Ha, Hs. simpl.
  unfold TouchSliderJs.animateSnap. simpl. unfold JS.Math_abs.
  rewrite (ltb_false _ 0.5 Hfar).
  unfold TouchSliderJs.notifyMove. simpl.
  destruct (JS.eqb _ _); simpl; unfold touch_snapping; simpl;
    rewrite ?Ha, ?Hs.
  - repeat split; try lra. exists []. split; [constructor|].
    rewrite app_nil_r. reflexivity.
  - repeat split; try lra. exists [TouchSliderJs.sliderMove].
    split; [repeat constructor | reflexivity].
Qed.

Lemma touch_snap_ends (n : nat) :
  forall s : TouchSliderJs.Slider,
    touch_snapping s ->
    Rabs (TouchSliderJs.snapTargetX (TouchSliderJs.state s)
          - TouchSliderJs.currentX (TouchSliderJs.state s)) * 0.85 ^ n
    < 0.5 ->
    exists k : nat,
      (1 <= k <= S n)%nat
      /\ TouchSliderJs.currentX (TouchSliderJs.state (touch_frames k s))
         = TouchSliderJs.snapTargetX (TouchSliderJs.state s)
      /\ TouchSliderJs.isSnapping (TouchSliderJs.state (touch_frames k s))
         = false
      /\ TouchSliderJs.isAnimating
           (TouchSliderJs.animation (touch_frames k s)) = false
      /\ TouchSliderJs.pending (touch_frames k s) = false
      /\ exists moves : list TouchSliderJs.Event,
           Forall (fun ev => ev = TouchSliderJs.sliderMove) moves
           /\ TouchSliderJs.emitted (touch_frames k s)
              = TouchSliderJs.emitted s ++ moves
                ++ [TouchSliderJs.sliderSnapComplete
                      (TouchSliderJs.currentSlideIndex
                         (TouchSliderJs.state s));
                    TouchSliderJs.sliderStop].
Proof.
  induction n as [| n IH]; intros s Hsnap Hn.
  - assert (Hclose : Rabs (TouchSliderJs.snapTargetX (TouchSliderJs.state s)
                           - TouchSliderJs.currentX (TouchSliderJs.state s))
                     < 0.5) by (simpl in Hn; lra).
    destruct (touch_snap_last s Hsnap Hclose) as (H1 & H2 & H3 & H4 & H5).
    exists 1%nat. simpl. split; [lia|].
    repeat split; try assumption.
    exists []. split; [constructor | exact H5].
  - destruct (Rlt_dec
                (Rabs (TouchSliderJs.snapTargetX (TouchSliderJs.state s)
                       - TouchSliderJs.currentX (TouchSliderJs.state s)))
                0.5) as [Hclose | Hfar].
    + destruct (touch_snap_last s Hsnap Hclose) as (H1 & H2 & H3 & H4 & H5).
      exists 1%nat. simpl. split; [lia|].
      repeat split; try assumption.
      exists []. split; [constructor | exact H5].
    + destruct (touch_snap_next s Hsnap Hfar)
        as (Hsnap' & Ht & Hi & Hdiff & moves & Hm & Hem).
      destruct (IH (TouchSliderJs.frame s) Hsnap')
        as (k & Hk & K1 & K2 & K3 & K4 & moves' & Hm' & Hem').
      { rewrite Hdiff, Rabs_mult, (Rabs_pos_eq 0.85) by lra.
        change (0.85 ^ S n) with (0.85 * 0.85 ^ n) in Hn. lra. }
      exists (S k). simpl. split; [lia|].
      rewrite K1, Ht. repeat split; try assumption.
      exists (moves ++ moves'). split; [apply Forall_app; split; assumption|].
      rewrite Hem', Hem, Hi, <- !app_assoc. reflexivity.
Qed.

(** X14: the snap of [TouchSlider.js] ends on its target.  Each frame takes
    the track 15 % of the remaining way, and the frame that finds it
    closer than half a pixel puts it exactly on [snapTargetX], stops the
    animation and dispatches [sliderSnapComplete] and [sliderStop]; until
    then only [sliderMove] is dispatched, last-slide visibility
    notifications aside.  The number of frames this takes
    is bounded by a number that depends on the distance to the target
    alone. *)
Theorem X14_snap_ends :
  forall d : R,
    exists N : nat,
      forall s : TouchSliderJs.Slider,
        touch_snapping s ->
        Rabs (TouchSliderJs.snapTargetX (TouchSliderJs.state s)
              - TouchSliderJs.currentX (TouchSliderJs.state s)) <= d ->
        exists k : nat,
          (1 <= k <= N)%nat
          /\ TouchSliderJs.currentX
               (TouchSliderJs.state (touch_frames k s))
             = TouchSliderJs.snapTargetX (TouchSliderJs.state s)
          /\ TouchSliderJs.isSnapping
               (TouchSliderJs.state (touch_frames k s)) = false
          /\ TouchSliderJs.isAnimating
               (TouchSliderJs.animation (touch_frames k s)) = false
          /\ TouchSliderJs.pending (touch_frames k s) = false
          /\ exists moves : list TouchSliderJs.Event,
               Forall (fun ev => ev = TouchSliderJs.sliderMove) moves
               /\ TouchSliderJs.emitted (touch_frames k s)
                  = TouchSliderJs.emitted s ++ moves
                    ++ [TouchSliderJs.sliderSnapComplete
                          (TouchSliderJs.currentSlideIndex
                             (TouchSliderJs.state s));
                        TouchSliderJs.sliderStop].
Proof.
  intros d.
  destruct (geometric_decay d 0.85 0.5) as (n & _ & Hn); [lra | lra |].
  exists (S n). intros s Hsnap Hd.
  apply (touch_snap_ends n s Hsnap).
  apply Rle_lt_trans with (Rabs d * 0.85 ^ n); [| exact Hn].
  apply Rmult_le_compat_r; [apply pow_le; lra|].
  pose proof (Rle_abs d). lra.
Qed.

(** The three-slide carousel at -280, snapping to its second slide. *)
Lemma X14_snap_ends_witness :
  exists N k : nat,
    (1 <= k <= N)%nat
    /\ TouchSliderJs.currentX
         (TouchSliderJs.state
            (touch_frames k
               (TouchSliderJs.requestAnimationFrame
                  (TouchSliderJs.set_animation
                     {| TouchSliderJs.rafId := false;
                        TouchSliderJs.isAnimating := true |} false
                     (TouchSliderJs.upd_state
                        (fun st =>
                           TouchSliderJs.set_snapTargetX (-300)
                             (TouchSliderJs.set_isSnapping true
                                (TouchSliderJs.set_currentX (-280) st)))
                        three_slides_touch)))))
       = -300.
Proof.
  destruct (X14_snap_ends 20) as (N & H).
  destruct (H (TouchSliderJs.requestAnimationFrame
                 (TouchSliderJs.set_animation
                    {| TouchSliderJs.rafId := false;
                       TouchSliderJs.isAnimating := true |} false
                    (TouchSliderJs.upd_state
                       (fun st =>
                          TouchSliderJs.set_snapTargetX (-300)
                            (TouchSliderJs.set_isSnapping true
                               (TouchSliderJs.set_currentX (-280) st)))
                       three_slides_touch))))
    as (k & Hk & Hx & _).
  - repeat split.
  - simpl. rewrite Rabs_left; lra.
  - exists N, k. split; [exact Hk | exact Hx].
Defined.

(** ** The grid of [slider.js] *)


Lemma slider_grid_sorted (cw : R) (sl : list SliderJs.Slide) :
  forall (offset : R) (i j : nat) (gi gj : R),
    slider_nonneg sl ->
    (i <= j)%nat ->
    nth_error (slider_grid cw sl offset) i = Some gi ->
    nth_error (slider_grid cw sl offset) j = Some gj ->
    gj <= gi.
Proof.
  induction sl as [| a rest IH]; intros offset i j gi gj Hnn Hij Hi Hj.
  - destruct i; discriminate.
  - inversion Hnn as [| a' l [Hw Hm] Hrest]; subst.
    destruct i as [| i']; simpl in Hi.
    + injection Hi as <-. destruct j as [| j']; simpl in Hj.
      * injection Hj as <-. lra.
      * apply nth_error_In in Hj.
        apply slider_grid_upper in Hj; [| exact Hrest]. lra.
    + destruct j as [| j']; [lia|]. simpl in Hj.
      apply (IH _ i' j' gi gj Hrest ltac:(lia) Hi Hj).
Qed.

(** What [updateDimensions] of [slider.js] stores when it returns. *)
Lemma slider_updateDimensions_ok (cw : R) (children : list SliderJs.Slide)
      (s s' : SliderJs.Slider) :
  SliderJs.updateDimensions cw children s = Ok s' ->
  SliderJs.slidesGrid s' = slider_grid cw children 0
  /\ SliderJs.minTranslate s' = nth 0 (slider_grid cw children 0) 0
  /\ SliderJs.maxTranslate s'
     = nth (length children - 1) (slider_grid cw children 0) 0
  /\ children <> []
  /\ SliderJs.state s' = SliderJs.state s
  /\ SliderJs.options s' = SliderJs.options s
  /\ SliderJs.emitted s' = SliderJs.emitted s
  /\ SliderJs.pending s' = SliderJs.pending s.
Proof.
  intros Hup. unfold SliderJs.updateDimensions in Hup.
  pose proof (forEachSlide_spec cw children 0 []) as Hg.
  destruct (SliderJs.forEachSlide cw children 0 []) as [offset grid].
  simpl in Hg. subst grid.
  destruct children as [| a rest]; [discriminate|].
  destruct (SliderJs.getMarginRight _) as [m | f]; [| discriminate].
  simpl in Hup. injection Hup as <-.
  cbn [SliderJs.slidesGrid SliderJs.minTranslate SliderJs.maxTranslate
       SliderJs.state SliderJs.options SliderJs.emitted SliderJs.pending
       fst snd].
  rewrite slider_grid_length.
  repeat split; try reflexivity. discriminate.
Qed.

(** For sizes that are not negative every entry of the grid lies within
    the bounds. *)
Lemma slider_grid_within (cw : R) (children : list SliderJs.Slide)
      (s s' : SliderJs.Slider) :
  SliderJs.updateDimensions cw children s = Ok s' ->
  slider_nonneg children ->
  forall g : R,
    In g (SliderJs.slidesGrid s') ->
    SliderJs.maxTranslate s' <= g <= SliderJs.minTranslate s'.
Proof.
  intros Hup Hnn g Hin.
  destruct (slider_updateDimensions_ok cw children s s' Hup)
    as (Hg & Hmin & Hmax & Hne & _).
  rewrite Hg in Hin. rewrite Hmin, Hmax.
  apply In_nth_error in Hin. destruct Hin as (k & Hk).
  assert (Hpos : (0 < length children)%nat)
    by (destruct children; [congruence | simpl; lia]).
  assert (Hlen : (k < length children)%nat).
  { rewrite <- (slider_grid_length cw children 0).
    apply nth_error_Some. rewrite Hk. discriminate. }
  assert (H0 : nth_error (slider_grid cw children 0) 0
               = Some (nth 0 (slider_grid cw children 0) 0)).
  { apply nth_error_nth'. rewrite slider_grid_length. lia. }
  assert (Hl : nth_error (slider_grid cw children 0)
                         (length children - 1)
               = Some (nth (length children - 1)
                           (slider_grid cw children 0) 0)).
  { apply nth_error_nth'. rewrite slider_grid_length. lia. }
  split.
  - apply (slider_grid_sorted cw children 0 k (length children - 1)
             _ _ Hnn ltac:(lia) Hk Hl).
  - apply (slider_grid_sorted cw children 0 0 k _ _ Hnn ltac:(lia) H0 Hk).
Qed.



(** The scan of [slider.js], started after a prefix [pre] whose first
    nearest entry it holds, ends on the first nearest entry of the whole
    grid. *)
Lemma slider_scan_first_nearest (sp : R) (rest : list R) :
  forall (pre : list R) (closest : R) (k : nat),
    first_nearest (fun x => x) sp pre k closest ->
    first_nearest (fun x => x) sp (pre ++ rest)
      (snd (SliderJs.scan sp rest (length pre) (Rabs (sp - closest))
                          closest k))
      (fst (SliderJs.scan sp rest (length pre) (Rabs (sp - closest))
                          closest k)).
Proof.
  induction rest as [| pos tl IH]; intros pre closest k Hpre.
  - simpl. rewrite app_nil_r. exact Hpre.
  - simpl. unfold JS.Math_abs, JS.ltb.
    replace (pre ++ pos :: tl) with ((pre ++ [pos]) ++ tl)
      by (rewrite <- app_assoc; reflexivity).
    replace (S (length pre)) with (length (pre ++ [pos]))
      by (rewrite length_app; simpl; lia).
    destruct (Rlt_dec (Rabs (sp - pos)) (Rabs (sp - closest))) as [Hlt | Hge].
    + apply IH.
      apply first_nearest_snoc_take with (k := k) (c := closest); assumption.
    + apply IH. apply first_nearest_snoc_keep; assumption.
Qed.

(** [snapToNearest] of [slider.js] on a grid whose entries lie within the
    bounds: the clamp changes nothing. *)
Lemma slider_snap_on_grid (now : R) (s : SliderJs.Slider) :
  SliderJs.slidesGrid s <> [] ->
  (forall g : R, In g (SliderJs.slidesGrid s) ->
                 SliderJs.maxTranslate s <= g <= SliderJs.minTranslate s) ->
  exists (index : nat) (g : R),
    first_nearest (fun x => x)
                  (SliderJs.currentTranslate (SliderJs.state s))
                  (SliderJs.slidesGrid s) index g
    /\ SliderJs.snapToNearest now s
       = SliderJs.animateTo (Some g) index now s.
Proof.
  intros Hne Hin. unfold SliderJs.snapToNearest.
  destruct (SliderJs.slidesGrid s) as [| g0 rest] eqn:Hg; [congruence|].
  set (cur := SliderJs.currentTranslate (SliderJs.state s)).
  pose proof (slider_scan_first_nearest cur rest [g0] g0 0
                (first_nearest_single (fun x => x) cur g0)) as Hscan.
  simpl in Hscan. unfold JS.Math_abs.
  destruct (SliderJs.scan cur rest 1 (Rabs (cur - g0)) g0 0) as [c k].
  simpl in Hscan. exists k, c. split; [exact Hscan|].
  destruct Hscan as (Hk & _). apply nth_error_In in Hk.
  destruct (Hin c Hk) as (Hlo & Hhi).
  unfold JS.gtb. rewrite (ltb_false (SliderJs.minTranslate s) c) by lra.
  rewrite (ltb_false c (SliderJs.maxTranslate s)) by lra. reflexivity.
Qed.

(** X16: a resize of [slider.js] snaps the track back onto a slide.  For
    widths and margins that are not negative, the animation that the
    resize handler starts is aimed at the first entry of the new grid
    nearest to the current offset, unchanged by the clamp; left alone, the
    first frame at or after [speed] milliseconds puts the track on that
    entry, up to the rounding of [target - start] and of
    [start + distance] (within [rounding_slack] of it), and requests no
    further frame, and [slideChange] reports the index of the entry. *)
Theorem X16_resize_snaps :
  forall (cw : R) (children : list SliderJs.Slide) (now : R)
         (s s' : SliderJs.Slider) (before : list R) (t : R),
    slider_nonneg children ->
    SliderJs.onResize cw children now s = Ok s' ->
    SliderJs.isDragging (SliderJs.state s) = false ->
    0 < SliderJs.speed (SliderJs.options s) ->
    Forall (fun u => 0 <= u - now < SliderJs.speed (SliderJs.options s))
           before ->
    SliderJs.speed (SliderJs.options s) <= t - now ->
    let cur := SliderJs.currentTranslate (SliderJs.state s) in
    exists (index : nat) (g : R),
      first_nearest (fun x => x) cur (SliderJs.slidesGrid s') index g
      /\ SliderJs.pending s'
         = Some (SliderJs.AnimateLoop cur (JS.Num (g - cur)) now
                   (SliderJs.speed (SliderJs.options s)) index)
      /\ exists s2 : SliderJs.Slider,
           slider_frames (before ++ [t]) s' = Ok s2
           /\ Rabs (SliderJs.currentTranslate (SliderJs.state s2) - g)
              <= rounding_slack cur g
           /\ SliderJs.pending s2 = None
           /\ SliderJs.emitted s2
              = SliderJs.emitted s
                ++ [SliderJs.sliderStop; SliderJs.slideChange index].
Proof.
  intros cw children now s s' before t Hnn Hres Hd Hsp Hall Hend cur.
  unfold SliderJs.onResize in Hres.
  destruct (SliderJs.updateDimensions cw children s) as [s1 | f] eqn:Hup;
    [| discriminate].
  simpl in Hres. injection Hres as <-.
  destruct (slider_updateDimensions_ok cw children s s1 Hup)
    as (Hg & _ & _ & Hne & Hst & Hop & Hem & _).
  destruct (slider_snap_on_grid now s1) as (index & g & Hfn & Hsnap).
  { rewrite Hg. destruct children; [congruence | discriminate]. }
  { apply (slider_grid_within cw children s s1 Hup Hnn). }
  exists index, g. rewrite Hsnap.
  destruct (slider_animateTo_state g index now s1)
    as (_ & _ & _ & Hgrid & _).
  cbv zeta in Hgrid. rewrite Hgrid.
  rewrite Hst in Hfn. fold cur in Hfn.
  split; [exact Hfn|]. split.
  - rewrite slider_animateTo_pending, Hst, Hop. reflexivity.
  - rewrite <- Hst in Hd. rewrite <- Hop in Hsp, Hall, Hend.
    destruct (slider_animation_lands s1 g index now before t Hd Hsp Hall
                Hend) as (_ & s2 & Hf & Hc & Hp & He).
    exists s2. split; [exact Hf|]. split.
    + rewrite Hc. replace (g - g) with 0 by lra.
      rewrite Rabs_R0. apply rounding_slack_nonneg.
    + split; [exact Hp|]. rewrite He, Hem. reflexivity.
Qed.

(** The three-slide carousel, moved to -280 and resized with the same
    measures. *)
Lemma X16_resize_snaps_witness :
  exists (s' : SliderJs.Slider) (index : nat) (g : R),
    SliderJs.onResize 300
      [ {| SliderJs.offsetWidth := 300; SliderJs.marginRight := 0 |};
        {| SliderJs.offsetWidth := 300; SliderJs.marginRight := 0 |};
        {| SliderJs.offsetWidth := 300; SliderJs.marginRight := 0 |} ]
      0 (SliderJs.setTranslate (-280) three_slides_slider) = Ok s'
    /\ first_nearest (fun x => x)
         (SliderJs.currentTranslate
            (SliderJs.state (SliderJs.setTranslate (-280) three_slides_slider)))
         (SliderJs.slidesGrid s') index g
    /\ exists s2 : SliderJs.Slider,
         slider_frames ([150] ++ [300]) s' = Ok s2
         /\ SliderJs.pending s2 = None.
Proof.
  eexists.
  assert (Hres : SliderJs.onResize 300
      [ {| SliderJs.offsetWidth := 300; SliderJs.marginRight := 0 |};
        {| SliderJs.offsetWidth := 300; SliderJs.marginRight := 0 |};
        {| SliderJs.offsetWidth := 300; SliderJs.marginRight := 0 |} ]
      0 (SliderJs.setTranslate (-280) three_slides_slider) = Ok ?[s1])
    by reflexivity.
  pose proof (fun Hnn => X16_resize_snaps _ _ _ _ _ [150] 300 Hnn Hres)
    as H.
  destruct H as (index & g & Hfn & _ & s2 & Hf & _ & Hc & _).
  - repeat constructor; simpl; lra.
  - reflexivity.
  - simpl. lra.
  - constructor; [simpl; lra | constructor].
  - simpl. lra.
  - exists index, g. split; [exact Hres|]. split; [exact Hfn|].
    exists s2. split; [exact Hf | exact Hc].
Defined.

(** ** A touch start cancels the requested frame *)

Lemma slider_snapToNearest_handle (now : R) (s : SliderJs.Slider) :
  slider_handle_kept (SliderJs.snapToNearest now s).
Proof. intros _. apply slider_snapToNearest_rafId. Qed.

Lemma slider_input_keeps_handle (i : SliderInput) (s s' : SliderJs.Slider) :
  slider_handle_kept s ->
  slider_input i s = Ok s' ->
  slider_handle_kept s'.
Proof.
  intros Hk Hi. destruct i as [e now | e now | e now | now | cw ch now];
    simpl in Hi.
  - injection Hi as <-. intros Hp.
    rewrite (slider_onTouchStart_cancels e now s Hk) in Hp. congruence.
  - injection Hi as <-.
    destruct (slider_move_keeps_frame e now s) as (Hp & Hr).
    unfold slider_handle_kept. rewrite Hp, Hr. exact Hk.
  - injection Hi as <-. unfold SliderJs.onTouchEnd.
    destruct (SliderJs.isDragging (SliderJs.state s)); simpl; [| exact Hk].
    destruct (SliderJs.isHorizontal (SliderJs.state s)) as [[|] |];
      try exact Hk.
    destruct (is_touchcancel e).
    + apply slider_snapToNearest_handle.
    + intros _. reflexivity.
  - unfold SliderJs.frame in Hi.
    destruct (SliderJs.pending s) as [a |] eqn:Hp;
      [| injection Hi as <-; exact Hk].
    intros _. apply (slider_frame_keeps_rafId now s s').
    + apply Hk. rewrite Hp. discriminate.
    + unfold SliderJs.frame. rewrite Hp. exact Hi.
  - unfold SliderJs.onResize in Hi.
    destruct (SliderJs.updateDimensions cw ch s) as [s1 | f];
      [| discriminate].
    simpl in Hi. injection Hi as <-. apply slider_snapToNearest_handle.
Qed.

Lemma slider_create_handle (o : SliderJs.Options) (cw : R)
      (children : list SliderJs.Slide) (s : SliderJs.Slider) :
  SliderJs.create o cw children = Ok s -> slider_handle_kept s.
Proof.
  intros Hc. unfold SliderJs.create, SliderJs.init in Hc.
  destruct (SliderJs.updateDimensions cw children (SliderJs.construct o))
    as [s1 | f] eqn:Hup; [| discriminate].
  destruct (slider_updateDimensions_ok cw children _ s1 Hup)
    as (_ & _ & _ & _ & _ & _ & _ & Hp).
  simpl in Hc. injection Hc as <-. intros Hpen. exfalso. apply Hpen.
  destruct (SliderJs.slidesGrid s1); simpl; rewrite Hp; reflexivity.
Qed.

Lemma part_snapToNearest_handle (target : option R) (now : R)
      (s : Part000.Slider) :
  part_handle_kept (Part000.snapToNearest target now s).
Proof. intros _. apply part_snapToNearest_rafId. Qed.

Lemma part_snapToBounds_handle (now : R) (s : Part000.Slider) :
  part_handle_kept s -> part_handle_kept (Part000.snapToBounds now s).
Proof.
  intros Hk. unfold Part000.snapToBounds.
  destruct (JS.gtb _ _); [intros _; apply part_animateTo_rafId|].
  destruct (JS.ltb _ _); [intros _; apply part_animateTo_rafId | exact Hk].
Qed.

Lemma part_onTouchStart_cancels (e : TouchEvent) (now : R)
      (s : Part000.Slider) :
  part_handle_kept s ->
  Part000.pending (Part000.onTouchStart e now s) = None.
Proof.
  intros Hk. unfold Part000.onTouchStart, Part000.stopTransition.
  destruct (Part000.rafId (Part000.state s)) eqn:Hr; simpl.
  - reflexivity.
  - destruct (Part000.pending s) eqn:Hp; [| reflexivity].
    rewrite Hk in Hr by (rewrite Hp; discriminate). discriminate.
Qed.

Lemma part_move_keeps_frame (e : TouchEvent) (now : R)
      (s : Part000.Slider) :
  Part000.pending (Part000.onTouchMove e now s) = Part000.pending s
  /\ Part000.rafId (Part000.state (Part000.onTouchMove e now s))
     = Part000.rafId (Part000.state s).
Proof.
  unfold Part000.onTouchMove, Part000.lockDirection.
  destruct (Part000.isDragging (Part000.state s)); simpl;
    [| split; reflexivity].
  destruct (Part000.isHorizontal (Part000.state s)) as [[|] |] eqn:Hh;
    simpl; try rewrite Hh; try (split; reflexivity).
  - destruct (cancelable e); split; reflexivity.
  - destruct (JS.ltb _ 5 && JS.ltb _ 5); [split; reflexivity|].
    destruct (JS.ltb _ _); simpl; [| split; reflexivity].
    destruct (cancelable e); split; reflexivity.
Qed.

Lemma part_input_keeps_handle (i : PartInput) (s s' : Part000.Slider) :
  part_handle_kept s ->
  part_input i s = Ok s' ->
  part_handle_kept s'.
Proof.
  intros Hk Hi. destruct i as [e now | e now | e now | now | l now];
    simpl in Hi.
  - injection Hi as <-. intros Hp.
    rewrite (part_onTouchStart_cancels e now s Hk) in Hp. congruence.
  - injection Hi as <-.
    destruct (part_move_keeps_frame e now s) as (Hp & Hr).
    unfold part_handle_kept. rewrite Hp, Hr. exact Hk.
  - injection Hi as <-. unfold Part000.onTouchEnd.
    destruct (Part000.isDragging (Part000.state s)); simpl; [| exact Hk].
    destruct (Part000.isHorizontal (Part000.state s)) as [[|] |];
      try exact Hk.
    destruct (is_touchcancel e); [apply part_snapToNearest_handle|].
    cbv zeta.
    destruct (_ && JS.ltb _ 0.1).
    + apply part_snapToBounds_handle. exact Hk.
    + destruct (negb _ && _);
        [apply part_snapToNearest_handle | intros _; reflexivity].
  - unfold Part000.frame in Hi.
    destruct (Part000.pending s) as [a |] eqn:Hp;
      [| injection Hi as <-; exact Hk].
    intros _. apply (part_frame_keeps_rafId now s s').
    + apply Hk. rewrite Hp. discriminate.
    + unfold Part000.frame. rewrite Hp. exact Hi.
  - injection Hi as <-. apply part_snapToNearest_handle.
Qed.

Lemma part_create_handle (o : Part000.Options) (l : Part000.Layout) :
  part_handle_kept (Part000.create o l).
Proof.
  intros Hp. exfalso. apply Hp.
  unfold Part000.create, Part000.init, Part000.updateDimensions.
  destruct (Part000.children l); reflexivity.
Qed.

Lemma slider_snapToNearest_dragging (now : R) (s : SliderJs.Slider) :
  SliderJs.isDragging (SliderJs.state (SliderJs.snapToNearest now s))
  = SliderJs.isDragging (SliderJs.state s).
Proof.
  destruct (slider_snapToNearest_keeps now s) as (_ & _ & H & _). exact H.
Qed.

Lemma slider_frame_keeps_dragging (t : R) (s s' : SliderJs.Slider) :
  SliderJs.isDragging (SliderJs.state s) = false ->
  SliderJs.frame t s = Ok s' ->
  SliderJs.isDragging (SliderJs.state s') = false.
Proof.
  intros Hd Hf. unfold SliderJs.frame in Hf.
  destruct (SliderJs.pending s) as [[v c l | st d t0 dur idx] |].
  - injection Hf as <-. unfold SliderJs.step.
    cbn [SliderJs.state SliderJs.set_pending]. rewrite Hd. cbv zeta.
    repeat match goal with
           | |- context [if ?b then _ else _] =>
               lazymatch b with
               | context [if _ then _ else _] => fail
               | _ => destruct b
               end
           end;
      try exact Hd; rewrite slider_snapToNearest_dragging; exact Hd.
  - unfold SliderJs.loop in Hf.
    cbn [SliderJs.state SliderJs.set_pending] in Hf. rewrite Hd in Hf.
    destruct (JS.add_scaled _ _ _); [| discriminate].
    destruct (JS.ltb _ 1); injection Hf as <-; exact Hd.
  - injection Hf as <-. exact Hd.
Qed.

Lemma slider_touchEnd_not_dragging (e : TouchEvent) (now : R)
      (s : SliderJs.Slider) :
  SliderJs.isDragging (SliderJs.state (SliderJs.onTouchEnd e now s)) = false.
Proof.
  unfold SliderJs.onTouchEnd.
  destruct (SliderJs.isDragging (SliderJs.state s)) eqn:Hd; simpl;
    [| exact Hd].
  destruct (SliderJs.isHorizontal (SliderJs.state s)) as [[|] |];
    try reflexivity.
  destruct (is_touchcancel e); [| reflexivity].
  rewrite slider_snapToNearest_dragging. reflexivity.
Qed.

(** One input keeps the queue to the callback that [rafId] names, and
    empty during a drag, when a resize comes at rest. *)
Lemma slider_input_single (i : SliderInput) (s s' : SliderJs.Slider) :
  slider_single_callback s ->
  match i with
  | SliderResize _ _ _ => SliderJs.isDragging (SliderJs.state s) = false
  | _ => True
  end ->
  slider_input i s = Ok s' ->
  slider_single_callback s'.
Proof.
  intros (Hk & Hj) Hrest Hi.
  split; [exact (slider_input_keeps_handle i s s' Hk Hi)|].
  destruct i as [e now | e now | e now | now | cw ch now]; simpl in Hi.
  - injection Hi as <-. intros _. apply slider_onTouchStart_cancels.
    exact Hk.
  - injection Hi as <-. intros Hd'.
    destruct (slider_move_keeps_frame e now s) as (Hp & _). rewrite Hp.
    apply Hj.
    destruct (SliderJs.isDragging (SliderJs.state s)) eqn:Hd;
      [reflexivity|].
    rewrite (slider_move_not_dragging e now s Hd) in Hd'. congruence.
  - injection Hi as <-. rewrite slider_touchEnd_not_dragging.
    discriminate.
  - destruct (SliderJs.isDragging (SliderJs.state s)) eqn:Hd.
    + unfold SliderJs.frame in Hi. rewrite (Hj eq_refl) in Hi.
      injection Hi as <-. intros _. apply Hj. reflexivity.
    + rewrite (slider_frame_keeps_dragging now s s' Hd Hi). discriminate.
  - unfold SliderJs.onResize in Hi.
    destruct (SliderJs.updateDimensions cw ch s) as [s1 | f] eqn:Hup;
      [| discriminate].
    simpl in Hi. injection Hi as <-.
    rewrite slider_snapToNearest_dragging.
    destruct (slider_updateDimensions_ok cw ch s s1 Hup)
      as (_ & _ & _ & _ & Hst & _).
    rewrite Hst, Hrest. discriminate.
Qed.

Lemma slider_run_single (inputs : list SliderInput) :
  forall s s' : SliderJs.Slider,
    slider_single_callback s ->
    slider_resizes_at_rest inputs s ->
    slider_run inputs s = Ok s' ->
    slider_single_callback s'.
Proof.
  induction inputs as [| i rest IH]; intros s s' Hk Hrest Hrun.
  - injection Hrun as <-. exact Hk.
  - simpl in Hrun, Hrest. destruct Hrest as (Hi0 & Hrest).
    destruct (slider_input i s) as [s1 | f] eqn:Hi; [| discriminate].
    simpl in Hrun.
    apply (IH s1 s' (slider_input_single i s s1 Hk Hi0 Hi) Hrest Hrun).
Qed.

Lemma part_snapToNearest_dragging (target : option R) (now : R)
      (s : Part000.Slider) :
  Part000.isDragging
    (Part000.state (Part000.snapToNearest target now s))
  = Part000.isDragging (Part000.state s).
Proof.
  unfold Part000.snapToNearest.
  destruct (Part000.slidesGrid s) as [| g0 rest].
  - apply part_animateTo_pending.
  - destruct (Part000.nearest _ g0 rest s). apply part_animateTo_pending.
Qed.

Lemma part_snapToBounds_dragging (now : R) (s : Part000.Slider) :
  Part000.isDragging (Part000.state (Part000.snapToBounds now s))
  = Part000.isDragging (Part000.state s).
Proof.
  unfold Part000.snapToBounds.
  destruct (JS.gtb _ _); [apply part_animateTo_pending|].
  destruct (JS.ltb _ _); [apply part_animateTo_pending | reflexivity].
Qed.

Lemma part_frame_keeps_dragging (t : R) (s s' : Part000.Slider) :
  Part000.isDragging (Part000.state s) = false ->
  Part000.frame t s = Ok s' ->
  Part000.isDragging (Part000.state s') = false.
Proof.
  intros Hd Hf. unfold Part000.frame in Hf.
  destruct (Part000.pending s) as [[v c l | st d t0 dur ea cb] |].
  - injection Hf as <-. unfold Part000.step.
    cbn [Part000.state Part000.set_pending]. rewrite Hd. cbv zeta.
    repeat match goal with
           | |- context [if ?b then _ else _] =>
               lazymatch b with
               | context [if _ then _ else _] => fail
               | _ => destruct b
               end
           end;
      try exact Hd;
      rewrite ?part_snapToNearest_dragging, ?part_snapToBounds_dragging;
      exact Hd.
  - unfold Part000.loop in Hf.
    cbn [Part000.state Part000.set_pending] in Hf. rewrite Hd in Hf.
    destruct (JS.add_scaled _ _ _); [| discriminate].
    destruct (JS.ltb _ 1); injection Hf as <-; [exact Hd|].
    destruct cb; exact Hd.
  - injection Hf as <-. exact Hd.
Qed.

Lemma part_touchEnd_not_dragging (e : TouchEvent) (now : R)
      (s : Part000.Slider) :
  Part000.isDragging (Part000.state (Part000.onTouchEnd e now s)) = false.
Proof.
  unfold Part000.onTouchEnd.
  destruct (Part000.isDragging (Part000.state s)) eqn:Hd; simpl;
    [| exact Hd].
  destruct (Part000.isHorizontal (Part000.state s)) as [[|] |];
    try reflexivity.
  destruct (is_touchcancel e);
    [rewrite part_snapToNearest_dragging; reflexivity|].
  cbv zeta.
  destruct (_ && JS.ltb _ 0.1);
    [rewrite part_snapToBounds_dragging; reflexivity|].
  destruct (negb _ && _);
    [rewrite part_snapToNearest_dragging; reflexivity | reflexivity].
Qed.

Lemma part_move_not_dragging (e : TouchEvent) (now : R)
      (s : Part000.Slider) :
  Part000.isDragging (Part000.state s) = false ->
  Part000.onTouchMove e now s = s.
Proof.
  intros Hd. unfold Part000.onTouchMove. rewrite Hd. reflexivity.
Qed.

Lemma part_input_single (i : PartInput) (s s' : Part000.Slider) :
  part_single_callback s ->
  match i with
  | PartResize _ _ => Part000.isDragging (Part000.state s) = false
  | _ => True
  end ->
  part_input i s = Ok s' ->
  part_single_callback s'.
Proof.
  intros (Hk & Hj) Hrest Hi.
  split; [exact (part_input_keeps_handle i s s' Hk Hi)|].
  destruct i as [e now | e now | e now | now | l now]; simpl in Hi.
  - injection Hi as <-. intros _. apply part_onTouchStart_cancels.
    exact Hk.
  - injection Hi as <-. intros Hd'.
    destruct (part_move_keeps_frame e now s) as (Hp & _). rewrite Hp.
    apply Hj.
    destruct (Part000.isDragging (Part000.state s)) eqn:Hd;
      [reflexivity|].
    rewrite (part_move_not_dragging e now s Hd) in Hd'. congruence.
  - injection Hi as <-. rewrite part_touchEnd_not_dragging.
    discriminate.
  - destruct (Part000.isDragging (Part000.state s)) eqn:Hd.
    + unfold Part000.frame in Hi. rewrite (Hj eq_refl) in Hi.
      injection Hi as <-. intros _. apply Hj. reflexivity.
    + rewrite (part_frame_keeps_dragging now s s' Hd Hi). discriminate.
  - injection Hi as <-. unfold Part000.onResize.
    rewrite part_snapToNearest_dragging.
    assert (Hst : Part000.state (Part000.updateDimensions l s)
                  = Part000.state s).
    { unfold Part000.updateDimensions.
      destruct (Part000.children l); reflexivity. }
    rewrite Hst, Hrest. discriminate.
Qed.

Lemma part_run_single (inputs : list PartInput) :
  forall s s' : Part000.Slider,
    part_single_callback s ->
    part_resizes_at_rest inputs s ->
    part_run inputs s = Ok s' ->
    part_single_callback s'.
Proof.
  induction inputs as [| i rest IH]; intros s s' Hk Hrest Hrun.
  - injection Hrun as <-. exact Hk.
  - simpl in Hrun, Hrest. destruct Hrest as (Hi0 & Hrest).
    destruct (part_input i s) as [s1 | f] eqn:Hi; [| discriminate].
    simpl in Hrun.
    apply (IH s1 s' (part_input_single i s s1 Hk Hi0 Hi) Hrest Hrun).
Qed.

(** X17: in [slider.js] and in [part_000] a touch start cancels the frame
    that is requested.  [startInertia] requests its frame without
    cancelling an earlier one, so this rests on the queue being empty at
    every release: after any history of touches, frames and resizes on a
    constructed slider in which every resize arrives while no drag is in
    progress, no callback is queued during a drag and the one queued
    otherwise is the one that [rafId] names.  The touch start then leaves
    no frame requested: the animation or inertia loop that was running
    does not go on under the finger, and frames that the host still
    delivers change nothing. *)
Theorem X17_touch_start_cancels :
  (forall (o : SliderJs.Options) (cw : R) (children : list SliderJs.Slide)
          (inputs : list SliderInput) (s0 s : SliderJs.Slider)
          (e : TouchEvent) (now t : R),
      SliderJs.create o cw children = Ok s0 ->
      slider_resizes_at_rest inputs s0 ->
      slider_run inputs s0 = Ok s ->
      (SliderJs.isDragging (SliderJs.state s) = true ->
       SliderJs.pending s = None)
      /\ SliderJs.pending (SliderJs.onTouchStart e now s) = None
      /\ SliderJs.frame t (SliderJs.onTouchStart e now s)
         = Ok (SliderJs.onTouchStart e now s))
  /\ (forall (o : Part000.Options) (l : Part000.Layout)
             (inputs : list PartInput) (s : Part000.Slider)
             (e : TouchEvent) (now t : R),
         part_resizes_at_rest inputs (Part000.create o l) ->
         part_run inputs (Part000.create o l) = Ok s ->
         (Part000.isDragging (Part000.state s) = true ->
          Part000.pending s = None)
         /\ Part000.pending (Part000.onTouchStart e now s) = None
         /\ Part000.frame t (Part000.onTouchStart e now s)
            = Ok (Part000.onTouchStart e now s)).
Proof.
  split.
  - intros o cw children inputs s0 s e now t Hc Hrest Hrun.
    assert (H0 : slider_single_callback s0).
    { split; [exact (slider_create_handle o cw children s0 Hc)|].
      intros _.
      pose proof (slider_create_handle o cw children s0 Hc) as Hk0.
      destruct (SliderJs.pending s0) eqn:Hp; [| reflexivity].
      exfalso.
      unfold SliderJs.create, SliderJs.init in Hc.
      destruct (SliderJs.updateDimensions cw children
                  (SliderJs.construct o)) as [s1 | f] eqn:Hup;
        [| discriminate].
      destruct (slider_updateDimensions_ok cw children _ s1 Hup)
        as (_ & _ & _ & _ & _ & _ & _ & Hp1).
      simpl in Hc. injection Hc as <-.
      destruct (SliderJs.slidesGrid s1); simpl in Hp; rewrite Hp1 in Hp;
        discriminate. }
    destruct (slider_run_single inputs s0 s H0 Hrest Hrun) as (Hk & Hj).
    pose proof (slider_onTouchStart_cancels e now s Hk) as Hp.
    split; [exact Hj|]. split; [exact Hp|].
    unfold SliderJs.frame. rewrite Hp. reflexivity.
  - intros o l inputs s e now t Hrest Hrun.
    assert (H0 : part_single_callback (Part000.create o l)).
    { split; [exact (part_create_handle o l)|]. intros _.
      unfold Part000.create, Part000.init, Part000.updateDimensions.
      destruct (Part000.children l); reflexivity. }
    destruct (part_run_single inputs _ s H0 Hrest Hrun) as (Hk & Hj).
    pose proof (part_onTouchStart_cancels e now s Hk) as Hp.
    split; [exact Hj|]. split; [exact Hp|].
    unfold Part000.frame. rewrite Hp. reflexivity.
Qed.

(** The three-slide carousel of [part_000]: a swipe to the left, and a
    second touch 40 ms after the release. *)
Lemma X17_touch_start_cancels_witness :
  exists s : Part000.Slider,
    part_run [PartTouchStart (touch_at touchstart 0 0) 0;
              PartTouchMove (touch_at touchmove (-20) 0) 5;
              PartTouchEnd (touch_at touchend (-20) 0) 10]
             (Part000.create leading_options three_slides_layout) = Ok s
    /\ Part000.pending
         (Part000.onTouchStart (touch_at touchstart 0 0) 50 s) = None.
Proof.
  eexists. split; [reflexivity|].
  destruct X17_touch_start_cancels as (_ & H).
  apply (H leading_options three_slides_layout
           [PartTouchStart (touch_at touchstart 0 0) 0;
            PartTouchMove (touch_at touchmove (-20) 0) 5;
            PartTouchEnd (touch_at touchend (-20) 0) 10]
           _ (touch_at touchstart 0 0) 50 0).
  - simpl. repeat split.
  - reflexivity.
Defined.

(** ** The horizontal lock of [TouchSlider.js] cancels the animation *)

Lemma touch_request_kept (s : TouchSliderJs.Slider) :
  TouchSliderJs.isAnimating (TouchSliderJs.animation s) = true ->
  touch_handle_kept (TouchSliderJs.requestAnimationFrame s).
Proof.
  intros Ha. unfold touch_handle_kept. simpl. rewrite Ha.
  split; [reflexivity | intros _; reflexivity].
Qed.

(** A run of [animate] with [isAnimating] set and no frame requested
    either requests the next frame or clears both flags. *)
Lemma touch_animate_kept (s : TouchSliderJs.Slider) :
  TouchSliderJs.isAnimating (TouchSliderJs.animation s) = true ->
  TouchSliderJs.pending s = false ->
  touch_handle_kept (TouchSliderJs.animate s).
Proof.
  intros Ha Hp. unfold TouchSliderJs.animate. rewrite Ha. simpl negb.
  cbv iota zeta.
  assert (Hfree : forall (b : TouchSliderJs.Bounds) (x : TouchSliderJs.Slider),
             TouchSliderJs.isAnimating (TouchSliderJs.animation x) = true ->
             TouchSliderJs.pending x = false ->
             touch_handle_kept (TouchSliderJs.animateFree b x)).
  { intros b x Hax Hpx. unfold TouchSliderJs.animateFree. cbv zeta.
    set (x2 := TouchSliderJs.notifyMove _).
    assert (Hx2 : TouchSliderJs.isAnimating (TouchSliderJs.animation x2)
                  = true
                  /\ TouchSliderJs.pending x2 = false).
    { subst x2. unfold TouchSliderJs.notifyMove, TouchSliderJs.springBack.
      simpl.
      repeat match goal with
             | |- context [if ?c then _ else _] =>
                 lazymatch c with
                 | context [if _ then _ else _] => fail
                 | _ => destruct c
                 end
             end; simpl; split; assumption. }
    destruct Hx2 as (Ha2 & Hp2). clearbody x2.
    destruct (JS.ltb _ _).
    - unfold touch_handle_kept. simpl. rewrite Hp2.
      split; [reflexivity | discriminate].
    - apply touch_request_kept. exact Ha2. }
  destruct (TouchSliderJs.isSnapping (TouchSliderJs.state s)) eqn:Hs.
  - unfold TouchSliderJs.animateSnap. cbv zeta.
    destruct (JS.ltb _ 0.5).
    + unfold touch_handle_kept. simpl. rewrite Hp.
      split; [reflexivity | discriminate].
    + apply touch_request_kept. unfold TouchSliderJs.notifyMove. simpl.
      destruct (JS.eqb _ _); exact Ha.
  - destruct (negb (TouchSliderJs.isDragging (TouchSliderJs.state s)));
      [| apply Hfree; assumption].
    destruct (_ && JS.ltb _ _); [| apply Hfree; assumption].
    unfold TouchSliderJs.startSnap.
    destruct (TouchSliderJs.findNearestSlide _ _ _) as [index position].
    apply touch_request_kept.
    destruct (index =? _)%nat; exact Ha.
Qed.

Lemma touch_beginDrag_kept (s : TouchSliderJs.Slider) :
  touch_handle_kept s ->
  let s' := TouchSliderJs.beginDrag s in
  TouchSliderJs.animation s'
  = {| TouchSliderJs.rafId := false; TouchSliderJs.isAnimating := false |}
  /\ TouchSliderJs.pending s' = false
  /\ TouchSliderJs.isDragging (TouchSliderJs.state s') = true
  /\ TouchSliderJs.isSnapping (TouchSliderJs.state s') = false
  /\ TouchSliderJs.emitted s'
     = TouchSliderJs.emitted s
       ++ (if TouchSliderJs.isAnimating (TouchSliderJs.animation s)
           then [TouchSliderJs.manualStop] else [])
       ++ [TouchSliderJs.sliderDragStart].
Proof.
  intros (Hr & Hp) s'. subst s'. unfold TouchSliderJs.beginDrag.
  destruct (TouchSliderJs.animation s) as [r a] eqn:Han. simpl in Hr, Hp.
  subst r. simpl. destruct a; simpl.
  - rewrite <- app_assoc. repeat split.
  - rewrite Han. repeat split.
    destruct (TouchSliderJs.pending s); [| reflexivity].
    specialize (Hp eq_refl). discriminate.
Qed.

Lemma touch_move_kept (e : TouchEvent) (now : R)
      (s : TouchSliderJs.Slider) :
  touch_handle_kept s ->
  touch_handle_kept (TouchSliderJs.handleTouchMove e now s).
Proof.
  intros Hk. unfold TouchSliderJs.handleTouchMove.
  destruct (TouchSliderJs.isTouching (TouchSliderJs.touch s)); simpl negb;
    cbv iota zeta; [| exact Hk].
  set (s1 := TouchSliderJs.upd_touch _ s).
  assert (Hk1 : touch_handle_kept s1) by exact Hk.
  set (dx := _ - _). set (dy := _ - _). clearbody s1 dx dy.
  assert (Hk2 : touch_handle_kept (TouchSliderJs.determineDirection dx dy s1)).
  { unfold TouchSliderJs.determineDirection.
    destruct (negb _); [| exact Hk1]. cbv zeta.
    destruct (_ || _); [| exact Hk1].
    destruct (if JS.eqb _ 0 then false else JS.ltb _ 5.6713);
      [| exact Hk1].
    match goal with
    | |- touch_handle_kept (TouchSliderJs.beginDrag ?x) =>
        destruct (touch_beginDrag_kept x Hk1) as (Ha & Hp & _)
    end.
    unfold touch_handle_kept. rewrite Ha, Hp.
    split; [reflexivity | discriminate]. }
  set (s2 := TouchSliderJs.determineDirection dx dy s1) in *. clearbody s2.
  destruct (_ && _); [exact Hk2 | exact Hk2].
Qed.

Lemma touch_end_kept (e : TouchEvent) (now : R)
      (s : TouchSliderJs.Slider) :
  touch_handle_kept s ->
  touch_handle_kept (TouchSliderJs.handleTouchEnd e now s).
Proof.
  intros (Hr & Hp). unfold TouchSliderJs.handleTouchEnd. cbv zeta.
  destruct (negb _); [split; assumption|].
  simpl.
  destruct (TouchSliderJs.isAnimating (TouchSliderJs.animation s)) eqn:Ha;
    simpl.
  - split; simpl; [rewrite Ha; exact Hr | intros _; exact Ha].
  - match goal with
    | |- touch_handle_kept (TouchSliderJs.dispatchEvent _ ?x) =>
        change (touch_handle_kept x)
    end.
    apply touch_animate_kept; [reflexivity|]. simpl.
    destruct (TouchSliderJs.pending s); [| reflexivity].
    specialize (Hp eq_refl). discriminate.
Qed.

Lemma touch_frame_kept (s : TouchSliderJs.Slider) :
  touch_handle_kept s -> touch_handle_kept (TouchSliderJs.frame s).
Proof.
  intros (Hr & Hp). unfold TouchSliderJs.frame.
  destruct (TouchSliderJs.pending s) eqn:Hpen.
  - apply touch_animate_kept; [apply Hp; reflexivity | reflexivity].
  - split; [exact Hr|]. intros H. rewrite Hpen in H. discriminate.
Qed.

Lemma touch_run_kept (inputs : list TouchInput) :
  forall s : TouchSliderJs.Slider,
    touch_handle_kept s -> touch_handle_kept (touch_run inputs s).
Proof.
  induction inputs as [| i rest IH]; intros s Hk; [exact Hk|].
  simpl. apply IH.
  destruct i as [e now | e now | e now | | w]; simpl.
  - exact Hk.
  - apply touch_move_kept. exact Hk.
  - apply touch_end_kept. exact Hk.
  - apply touch_frame_kept. exact Hk.
  - exact Hk.
Qed.

Lemma touch_create_kept (o : TouchSliderJs.Options)
      (sl : list TouchSliderJs.Slide) (w : R) :
  touch_handle_kept (TouchSliderJs.create o sl w).
Proof. split; [reflexivity | discriminate]. Qed.

(** The move that makes the swipe horizontal. *)
Lemma touch_lock_cancels (e : TouchEvent) (now : R)
      (s : TouchSliderJs.Slider) :
  touch_handle_kept s ->
  TouchSliderJs.isTouching (TouchSliderJs.touch s) = true ->
  TouchSliderJs.isDirectionDetermined (TouchSliderJs.touch s) = false ->
  let dx := clientX e - TouchSliderJs.startX (TouchSliderJs.touch s) in
  let dy := clientY e - TouchSliderJs.startY (TouchSliderJs.touch s) in
  10 < Rabs dx \/ 10 < Rabs dy ->
  Rabs dx <> 0 ->
  Rabs dy / Rabs dx < 5.6713 ->
  let s' := TouchSliderJs.handleTouchMove e now s in
  TouchSliderJs.animation s'
  = {| TouchSliderJs.rafId := false; TouchSliderJs.isAnimating := false |}
  /\ TouchSliderJs.pending s' = false
  /\ TouchSliderJs.isDragging (TouchSliderJs.state s') = true
  /\ TouchSliderJs.isSnapping (TouchSliderJs.state s') = false
  /\ TouchSliderJs.emitted s'
     = TouchSliderJs.emitted s
       ++ (if TouchSliderJs.isAnimating (TouchSliderJs.animation s)
           then [TouchSliderJs.manualStop] else [])
       ++ [TouchSliderJs.sliderDragStart].
Proof.
  intros Hk Ht Hd dx dy Hout Hnz Hratio s'. subst s'.
  unfold TouchSliderJs.handleTouchMove. rewrite Ht. simpl negb.
  cbv iota zeta.
  set (s1 := TouchSliderJs.upd_touch _ s).
  assert (Hk1 : touch_handle_kept s1) by exact Hk.
  change (TouchSliderJs.touch_currentX (TouchSliderJs.touch s1)
          - TouchSliderJs.startX (TouchSliderJs.touch s1)) with dx.
  change (TouchSliderJs.touch_currentY (TouchSliderJs.touch s1)
          - TouchSliderJs.startY (TouchSliderJs.touch s1)) with dy.
  assert (Hdet : TouchSliderJs.determineDirection dx dy s1
                 = TouchSliderJs.beginDrag
                     (TouchSliderJs.upd_touch
                        (TouchSliderJs.set_direction true true) s1)).
  { unfold TouchSliderJs.determineDirection.
    change (TouchSliderJs.isDirectionDetermined (TouchSliderJs.touch s1))
      with (TouchSliderJs.isDirectionDetermined (TouchSliderJs.touch s)).
    rewrite Hd. simpl negb. cbv iota zeta.
    unfold JS.gtb, JS.Math_abs.
    assert (Hz : JS.ltb 10 (Rabs dx) || JS.ltb 10 (Rabs dy) = true).
    { apply orb_true_iff. destruct Hout as [H | H];
        [left | right]; apply ltb_true; exact H. }
    rewrite Hz, (eqb_false _ 0 Hnz), (ltb_true _ _ Hratio). reflexivity. }
  rewrite Hdet.
  set (s2 := TouchSliderJs.upd_touch
               (TouchSliderJs.set_direction true true) s1).
  assert (Hk2 : touch_handle_kept s2) by exact Hk.
  destruct (touch_beginDrag_kept s2 Hk2) as (Ha & Hp & Hdr & Hsn & Hem).
  destruct (touch_beginDrag_direction s2) as (Hb1 & Hb2).
  rewrite Hb1, Hb2. simpl andb. cbv iota.
  set (s3 := TouchSliderJs.beginDrag s2) in *. clearbody s3.
  simpl. split; [exact Ha|]. split; [exact Hp|]. split; [exact Hdr|].
  split; [exact Hsn | exact Hem].
Qed.

(** X18: in [TouchSlider.js] a touch start leaves a running animation
    alone; it is the move that makes the swipe horizontal that cancels it.
    After any history of touches, frames and resizes on a constructed
    slider, that move leaves no frame requested and both animation flags
    cleared, starts the drag, and dispatches [manualStop], if an animation
    was running, and then [sliderDragStart]. *)
Theorem X18_horizontal_lock_cancels :
  forall (o : TouchSliderJs.Options) (sl : list TouchSliderJs.Slide)
         (w : R) (inputs : list TouchInput),
    let s := touch_run inputs (TouchSliderJs.create o sl w) in
    (forall (e0 : TouchEvent) (now0 : R),
        TouchSliderJs.animation (TouchSliderJs.handleTouchStart e0 now0 s)
        = TouchSliderJs.animation s
        /\ TouchSliderJs.pending (TouchSliderJs.handleTouchStart e0 now0 s)
           = TouchSliderJs.pending s)
    /\ (forall (e : TouchEvent) (now : R),
           TouchSliderJs.isTouching (TouchSliderJs.touch s) = true ->
           TouchSliderJs.isDirectionDetermined (TouchSliderJs.touch s)
           = false ->
           let dx :=
             clientX e - TouchSliderJs.startX (TouchSliderJs.touch s) in
           let dy :=
             clientY e - TouchSliderJs.startY (TouchSliderJs.touch s) in
           10 < Rabs dx \/ 10 < Rabs dy ->
           Rabs dx <> 0 ->
           Rabs dy / Rabs dx < 5.6713 ->
           let s' := TouchSliderJs.handleTouchMove e now s in
           TouchSliderJs.animation s'
           = {| TouchSliderJs.rafId := false;
                TouchSliderJs.isAnimating := false |}
           /\ TouchSliderJs.pending s' = false
           /\ TouchSliderJs.isDragging (TouchSliderJs.state s') = true
           /\ TouchSliderJs.isSnapping (TouchSliderJs.state s') = false
           /\ TouchSliderJs.emitted s'
              = TouchSliderJs.emitted s
                ++ (if TouchSliderJs.isAnimating (TouchSliderJs.animation s)
                    then [TouchSliderJs.manualStop] else [])
                ++ [TouchSliderJs.sliderDragStart]).
Proof.
  intros o sl w inputs s. split.
  - intros e0 now0. split; reflexivity.
  - intros e now. apply touch_lock_cancels.
    apply touch_run_kept. apply touch_create_kept.
Qed.

(** The swipe of the scenario: a touch at the origin and a move 20 px to
    the left. *)
Lemma X18_horizontal_lock_cancels_witness :
  TouchSliderJs.pending touch_dragging = false
  /\ TouchSliderJs.isDragging (TouchSliderJs.state touch_dragging) = true.
Proof.
  destruct (X18_horizontal_lock_cancels start_options
              [ {| TouchSliderJs.offsetWidth := 300 |};
                {| TouchSliderJs.offsetWidth := 300 |};
                {| TouchSliderJs.offsetWidth := 300 |} ] 300
              [TouchStart (touch_at touchstart 0 0) 0]) as (_ & H).
  destruct (H (move_event (-20) 0 true) 16) as (_ & Hp & Hd & _).
  - reflexivity.
  - reflexivity.
  - left. simpl. rewrite Rabs_left; lra.
  - simpl. rewrite Rabs_left; lra.
  - simpl. rewrite (Rabs_left (-20 - 0)) by lra.
    replace (Rabs (0 - 0)) with 0 by (rewrite Rabs_pos_eq; lra). lra.
  - split; [exact Hp | exact Hd].
Defined.

(** ** The cap on the frame time *)










(** ** The layout of [part_000] does not depend on the offset *)



(** ** The resistance at the edges never turns the track back *)

Lemma resisted_monotone (lo hi : R) (f : R -> R) :
  lo <= hi ->
  (forall o, 0 < o -> 0 < f o) ->
  (forall o1 o2, 0 < o1 <= o2 -> f o1 <= f o2) ->
  forall a b : R, a <= b -> resisted lo hi f a <= resisted lo hi f b.
Proof.
  intros Hb Hpos Hmono a b Hab. unfold resisted, JS.gtb.
  destruct (Rlt_dec hi a) as [Ha | Ha];
    [rewrite (ltb_true hi a Ha) | rewrite (ltb_false hi a Ha)].
  - rewrite (ltb_true hi b) by lra.
    pose proof (Hmono (a - hi) (b - hi) ltac:(lra)). lra.
  - destruct (Rlt_dec hi b) as [Hb' | Hb'];
      [rewrite (ltb_true hi b Hb') | rewrite (ltb_false hi b Hb')].
    + pose proof (Hpos (b - hi) ltac:(lra)).
      destruct (Rlt_dec a lo) as [Hl | Hl];
        [rewrite (ltb_true a lo Hl) | rewrite (ltb_false a lo Hl)].
      * pose proof (Hpos (lo - a) ltac:(lra)). lra.
      * lra.
    + destruct (Rlt_dec a lo) as [Hl | Hl];
        [rewrite (ltb_true a lo Hl) | rewrite (ltb_false a lo Hl)].
      * pose proof (Hpos (lo - a) ltac:(lra)).
        destruct (Rlt_dec b lo) as [Hl' | Hl'];
          [rewrite (ltb_true b lo Hl') | rewrite (ltb_false b lo Hl')].
        -- pose proof (Hmono (lo - b) (lo - a) ltac:(lra)). lra.
        -- lra.
      * rewrite (ltb_false b lo) by lra. lra.
Qed.

Lemma resisted_outside (lo hi : R) (f : R -> R) (x : R) :
  lo <= hi ->
  (forall o, 0 < o -> 0 < f o) ->
  (hi < x -> hi < resisted lo hi f x)
  /\ (x < lo -> resisted lo hi f x < lo)
  /\ (lo <= x <= hi -> resisted lo hi f x = x).
Proof.
  intros Hb Hpos. unfold resisted, JS.gtb. split; [| split].
  - intros H. rewrite (ltb_true hi x H).
    pose proof (Hpos (x - hi) ltac:(lra)). lra.
  - intros H. rewrite (ltb_false hi x) by lra. rewrite (ltb_true x lo H).
    pose proof (Hpos (lo - x) ltac:(lra)). lra.
  - intros [H1 H2]. rewrite (ltb_false hi x) by lra.
    rewrite (ltb_false x lo) by lra. reflexivity.
Qed.

Lemma Math_pow_positive (o c : R) : 0 < o -> 0 < JS.Math_pow o c.
Proof. intros H. rewrite Math_pow_pos by exact H. apply Rpower_pos. Qed.

Lemma Math_pow_monotone (o1 o2 c : R) :
  0 <= c -> 0 < o1 <= o2 -> JS.Math_pow o1 c <= JS.Math_pow o2 c.
Proof.
  intros Hc [H1 H2]. rewrite !Math_pow_pos by lra.
  apply Rle_Rpower_l; [exact Hc | split; assumption].
Qed.

Lemma slider_resist_resisted (translate : R) (s : SliderJs.Slider) :
  SliderJs.resist translate s
  = resisted (SliderJs.maxTranslate s) (SliderJs.minTranslate s)
             (fun o => JS.Math_pow o 0.75) translate.
Proof. reflexivity. Qed.

Lemma part_resist_resisted (translate : R) (s : Part000.Slider) :
  Part000.resist translate s
  = resisted (Part000.maxTranslate s) (Part000.minTranslate s)
             (fun o => o * 0.25) translate.
Proof. reflexivity. Qed.

Lemma touch_rubber_resisted (position delta : R)
      (s : TouchSliderJs.Slider) :
  TouchSliderJs.applyRubberBand position delta s
  = resisted (TouchSliderJs.bounds_min (TouchSliderJs.getBounds s))
             (TouchSliderJs.bounds_max (TouchSliderJs.getBounds s))
             (fun o => JS.Math_sign o * JS.Math_pow (JS.Math_abs o) 0.7
                       * 0.5) position.
Proof.
  unfold TouchSliderJs.applyRubberBand, resisted. cbv zeta.
  set (b := TouchSliderJs.getBounds s). unfold JS.geb, JS.gtb.
  destruct (Rlt_dec (TouchSliderJs.bounds_max b) position) as [H1 | H1].
  - rewrite (leb_false position _) by lra. rewrite andb_false_r.
    reflexivity.
  - rewrite (leb_true position _) by lra. rewrite andb_true_r.
    rewrite (ltb_false _ position H1).
    destruct (Rlt_dec position (TouchSliderJs.bounds_min b)) as [H2 | H2].
    + rewrite (leb_false _ position) by lra. rewrite (ltb_true _ _ H2).
      reflexivity.
    + rewrite (leb_true _ position) by lra. rewrite (ltb_false _ _ H2).
      reflexivity.
Qed.

Lemma rubber_positive (o : R) :
  0 < o -> 0 < JS.Math_sign o * JS.Math_pow (JS.Math_abs o) 0.7 * 0.5.
Proof.
  intros H. rewrite Math_sign_pos by exact H.
  unfold JS.Math_abs. rewrite Rabs_pos_eq by lra.
  pose proof (Math_pow_positive o 0.7 H). lra.
Qed.

Lemma rubber_monotone (o1 o2 : R) :
  0 < o1 <= o2 ->
  JS.Math_sign o1 * JS.Math_pow (JS.Math_abs o1) 0.7 * 0.5
  <= JS.Math_sign o2 * JS.Math_pow (JS.Math_abs o2) 0.7 * 0.5.
Proof.
  intros [H1 H2]. rewrite !Math_sign_pos by lra.
  unfold JS.Math_abs. rewrite !Rabs_pos_eq by lra.
  pose proof (Math_pow_monotone o1 o2 0.7 ltac:(lra) (conj H1 H2)). lra.
Qed.

(** X21: the resistance applied while dragging past a bound is monotone
    and never turns the track back.  In [slider.js], [part_000] and
    [TouchSlider.js], with the two bounds in order, a desired offset
    further along gives an applied offset that is not less; a desired
    offset beyond a bound is applied beyond that bound, and one within the
    bounds is applied as it is. *)
Theorem X21_resistance_monotone :
  (forall (s : SliderJs.Slider) (a b : R),
      SliderJs.maxTranslate s <= SliderJs.minTranslate s ->
      (a <= b -> SliderJs.resist a s <= SliderJs.resist b s)
      /\ (SliderJs.minTranslate s < a ->
          SliderJs.minTranslate s < SliderJs.resist a s)
      /\ (a < SliderJs.maxTranslate s ->
          SliderJs.resist a s < SliderJs.maxTranslate s)
      /\ (SliderJs.maxTranslate s <= a <= SliderJs.minTranslate s ->
          SliderJs.resist a s = a))
  /\ (forall (s : Part000.Slider) (a b : R),
         Part000.maxTranslate s <= Part000.minTranslate s ->
         (a <= b -> Part000.resist a s <= Part000.resist b s)
         /\ (Part000.minTranslate s < a ->
             Part000.minTranslate s < Part000.resist a s)
         /\ (a < Part000.maxTranslate s ->
             Part000.resist a s < Part000.maxTranslate s)
         /\ (Part000.maxTranslate s <= a <= Part000.minTranslate s ->
             Part000.resist a s = a))
  /\ (forall (s : TouchSliderJs.Slider) (a b da db : R),
         let lo := TouchSliderJs.bounds_min (TouchSliderJs.getBounds s) in
         let hi := TouchSliderJs.bounds_max (TouchSliderJs.getBounds s) in
         lo <= hi ->
         (a <= b ->
          TouchSliderJs.applyRubberBand a da s
          <= TouchSliderJs.applyRubberBand b db s)
         /\ (hi < a -> hi < TouchSliderJs.applyRubberBand a da s)
         /\ (a < lo -> TouchSliderJs.applyRubberBand a da s < lo)
         /\ (lo <= a <= hi -> TouchSliderJs.applyRubberBand a da s = a)).
Proof.
  split; [| split].
  - intros s a b Hb. rewrite !slider_resist_resisted.
    destruct (resisted_outside (SliderJs.maxTranslate s)
                (SliderJs.minTranslate s) (fun o => JS.Math_pow o 0.75) a Hb)
      as (H1 & H2 & H3);
      [intros o Ho; apply Math_pow_positive; exact Ho|].
    split; [| repeat split; assumption].
    apply resisted_monotone; [exact Hb | |].
    + intros o Ho. apply Math_pow_positive. exact Ho.
    + intros o1 o2 Ho. apply Math_pow_monotone; [lra | exact Ho].
  - intros s a b Hb. rewrite !part_resist_resisted.
    destruct (resisted_outside (Part000.maxTranslate s)
                (Part000.minTranslate s) (fun o => o * 0.25) a Hb)
      as (H1 & H2 & H3); [intros o Ho; lra|].
    split; [| repeat split; assumption].
    apply resisted_monotone; [exact Hb | |].
    + intros o Ho. lra.
    + intros o1 o2 Ho. lra.
  - intros s a b da db lo hi Hb. rewrite !touch_rubber_resisted.
    fold lo hi.
    destruct (resisted_outside lo hi
                (fun o => JS.Math_sign o * JS.Math_pow (JS.Math_abs o) 0.7
                          * 0.5) a Hb) as (H1 & H2 & H3);
      [exact rubber_positive|].
    split; [| repeat split; assumption].
    apply resisted_monotone;
      [exact Hb | exact rubber_positive | exact rubber_monotone].
Qed.

(** The three-slide carousel of [slider.js]: pulling 50 px past its upper
    bound leaves the track past that bound. *)
Lemma X21_resistance_monotone_witness :
  SliderJs.minTranslate three_slides_slider
  < SliderJs.resist 50 three_slides_slider.
Proof.
  destruct three_slides_slider_bounds as (_ & Hmin & Hmax).
  destruct X21_resistance_monotone as (H & _).
  destruct (H three_slides_slider 50 50) as (_ & Hout & _).
  - rewrite Hmin, Hmax. lra.
  - apply Hout. rewrite Hmin. lra.
Defined.

(** ** Construction *)

Lemma forEachSlide_offset (cw : R) (sl : list SliderJs.Slide) :
  forall (offset : R) (grid : list R),
    fst (SliderJs.forEachSlide cw sl offset grid)
    = offset + slider_leading sl (length sl).
Proof.
  induction sl as [| a rest IH]; intros offset grid; simpl; [lra|].
  rewrite IH. lra.
Qed.

(** X22: a slider of [slider.js] that has been constructed rests on its
    first slide, centred: its offset is the first grid entry, which is
    [minTranslate] and half of the width that the first slide leaves free
    in the container; no frame is requested, no event has been dispatched,
    last-slide visibility notifications aside, and no drag is in progress.  The wrapper width it stores is the sum of
    the widths and right margins of the slides less the last margin. *)
Theorem X22_constructed_at_first_slide :
  forall (o : SliderJs.Options) (cw : R) (children : list SliderJs.Slide)
         (s : SliderJs.Slider),
    SliderJs.create o cw children = Ok s ->
    exists (first last : SliderJs.Slide),
      nth_error children 0 = Some first
      /\ nth_error children (length children - 1) = Some last
      /\ SliderJs.currentTranslate (SliderJs.state s)
         = (cw - SliderJs.offsetWidth first) / 2
      /\ SliderJs.minTranslate s = SliderJs.currentTranslate (SliderJs.state s)
      /\ nth_error (SliderJs.slidesGrid s) 0
         = Some (SliderJs.currentTranslate (SliderJs.state s))
      /\ SliderJs.wrapperWidth s
         = slider_leading children (length children)
           - SliderJs.marginRight last
      /\ SliderJs.pending s = None
      /\ SliderJs.emitted s = []
      /\ SliderJs.isDragging (SliderJs.state s) = false.
Proof.
  intros o cw children s Hc.
  unfold SliderJs.create, SliderJs.init, SliderJs.updateDimensions in Hc.
  pose proof (forEachSlide_spec cw children 0 []) as Hg.
  pose proof (forEachSlide_offset cw children 0 []) as Ho.
  destruct (SliderJs.forEachSlide cw children 0 []) as [offset grid].
  simpl in Hg, Ho. subst grid offset.
  destruct children as [| first rest]; [discriminate|].
  destruct (nth_error (first :: rest) (length (first :: rest) - 1))
    as [last |] eqn:Hlast; [| discriminate].
  simpl in Hc. injection Hc as <-.
  exists first, last. simpl.
  repeat split; try reflexivity; try lra.
Qed.

(** Three slides of width 300 in a container of width 300. *)
Lemma X22_constructed_at_first_slide_witness :
  SliderJs.pending three_slides_slider = None
  /\ SliderJs.emitted three_slides_slider = [].
Proof.
  destruct (X22_constructed_at_first_slide SliderJs.defaultOptions 300
              [ {| SliderJs.offsetWidth := 300; SliderJs.marginRight := 0 |};
                {| SliderJs.offsetWidth := 300; SliderJs.marginRight := 0 |};
                {| SliderJs.offsetWidth := 300; SliderJs.marginRight := 0 |} ]
              three_slides_slider eq_refl)
    as (first & last & _ & _ & _ & _ & _ & _ & Hp & He & _).
  split; [exact Hp | exact He].
Defined.

(** ** The slide positions of [TouchSlider.js] *)

Lemma slidePositionsFrom_nth (align : TouchSliderJs.SnapAlign) (sw : R)
      (sl : list TouchSliderJs.Slide) :
  forall (index : nat) (acc : R) (i : nat) (slide : TouchSliderJs.Slide),
    nth_error sl i = Some slide ->
    exists p : TouchSliderJs.SlidePosition,
      nth_error (TouchSliderJs.slidePositionsFrom align sw sl index acc) i
      = Some p
      /\ TouchSliderJs.sp_index p = (index + i)%nat
      /\ TouchSliderJs.sp_width p = TouchSliderJs.offsetWidth slide
      /\ TouchSliderJs.sp_offset p = acc + touch_leading sl i
      /\ TouchSliderJs.sp_position p
         = match align with
           | TouchSliderJs.center =>
               sw / 2 - (TouchSliderJs.sp_offset p
                         + TouchSliderJs.offsetWidth slide / 2)
           | TouchSliderJs.start => - TouchSliderJs.sp_offset p
           end.
Proof.
  induction sl as [| a rest IH]; intros index acc i slide Hi.
  - destruct i; discriminate.
  - destruct i as [| j]; simpl in Hi.
    + injection Hi as <-. eexists. split; [reflexivity|]. simpl.
      repeat split; try lia; try lra. destruct align; lra.
    + destruct (IH (S index) (acc + TouchSliderJs.offsetWidth a) j slide Hi)
        as (p & Hp & H1 & H2 & H3 & H4).
      exists p. split; [exact Hp|]. simpl.
      repeat split; try assumption; try lia; lra.
Qed.

Lemma slidePositionsFrom_length (align : TouchSliderJs.SnapAlign) (sw : R)
      (sl : list TouchSliderJs.Slide) :
  forall (index : nat) (acc : R),
    length (TouchSliderJs.slidePositionsFrom align sw sl index acc)
    = length sl.
Proof.
  induction sl as [| a rest IH]; intros index acc; simpl;
    [reflexivity | rewrite IH; reflexivity].
Qed.

Lemma fold_widths (sl : list TouchSliderJs.Slide) :
  forall acc : R,
    fold_left (fun tw slide => tw + TouchSliderJs.offsetWidth slide) sl acc
    = acc + touch_leading sl (length sl).
Proof.
  induction sl as [| a rest IH]; intros acc; simpl; [lra|].
  rewrite IH. lra.
Qed.

(** X23: [getSlidePositions] of [TouchSlider.js] returns one entry per
    slide, in order; the entry of slide [i] carries the index [i], the
    width of the slide and, as offset, the sum of the widths of the slides
    before it.  Its position is minus that offset under [snapAlign:
    'start'], and under ['center'] the offset that puts the middle of the
    slide in the middle of the slider.  The track width that
    [calculateDimensions] stores is the sum of all the widths. *)
Theorem X23_slide_positions :
  forall s : TouchSliderJs.Slider,
    length (TouchSliderJs.getSlidePositions s)
    = length (TouchSliderJs.slides s)
    /\ (forall (i : nat) (slide : TouchSliderJs.Slide),
           nth_error (TouchSliderJs.slides s) i = Some slide ->
           exists p : TouchSliderJs.SlidePosition,
             nth_error (TouchSliderJs.getSlidePositions s) i = Some p
             /\ TouchSliderJs.sp_index p = i
             /\ TouchSliderJs.sp_width p = TouchSliderJs.offsetWidth slide
             /\ TouchSliderJs.sp_offset p
                = touch_leading (TouchSliderJs.slides s) i
             /\ TouchSliderJs.sp_position p
                = match TouchSliderJs.snapAlign (TouchSliderJs.options s) with
                  | TouchSliderJs.center =>
                      TouchSliderJs.sliderWidth (TouchSliderJs.state s) / 2
                      - (TouchSliderJs.sp_offset p
                         + TouchSliderJs.offsetWidth slide / 2)
                  | TouchSliderJs.start => - TouchSliderJs.sp_offset p
                  end)
    /\ (forall w : R,
           TouchSliderJs.trackWidth
             (TouchSliderJs.state (TouchSliderJs.calculateDimensions w s))
           = touch_leading (TouchSliderJs.slides s)
                           (length (TouchSliderJs.slides s))
           /\ TouchSliderJs.sliderWidth
                (TouchSliderJs.state (TouchSliderJs.calculateDimensions w s))
              = w).
Proof.
  intros s. unfold TouchSliderJs.getSlidePositions.
  split; [apply slidePositionsFrom_length|]. split.
  - intros i slide Hi.
    destruct (slidePositionsFrom_nth
                (TouchSliderJs.snapAlign (TouchSliderJs.options s))
                (TouchSliderJs.sliderWidth (TouchSliderJs.state s))
                (TouchSliderJs.slides s) 0 0 i slide Hi)
      as (p & Hp & H1 & H2 & H3 & H4).
    exists p. split; [exact Hp|]. split; [exact H1|]. split; [exact H2|].
    split; [lra | exact H4].
  - intros w. unfold TouchSliderJs.calculateDimensions. simpl.
    rewrite fold_widths. split; [lra | reflexivity].
Qed.

(** The second slide of the three-slide carousel. *)
Lemma X23_slide_positions_witness :
  exists p : TouchSliderJs.SlidePosition,
    nth_error (TouchSliderJs.getSlidePositions three_slides_touch) 1 = Some p
    /\ TouchSliderJs.sp_index p = 1%nat.
Proof.
  destruct (X23_slide_positions three_slides_touch) as (_ & H & _).
  destruct (H 1%nat {| TouchSliderJs.offsetWidth := 300 |} eq_refl)
    as (p & Hp & Hi & _).
  exists p. split; [exact Hp | exact Hi].
Defined.
